(** * Ad-spend dashboard backend: the metrics-sync pipeline

    A shallow embedding of the sync pipeline of the NestJS backend
    (vendor clients for Shopify, Facebook Ads and Google Ads, the metric
    stores, the scheduled jobs and the on-demand sync endpoints), with
    the properties of the pipeline proved about it.

    Conventions of the embedding:
    - a JavaScript [number] that holds an amount or a count is a
      rational ([Q]), or an integer ([Z]) where it is a count; the
      sums of amounts are exact sums;
    - where the code divides (the derived ratios of a Facebook insight
      row, the conversion rate of a landing page, the share of an order
      total that a line item books), the arithmetic is that of IEEE
      754 doubles (module [Double]): [Double.fl] rounds a rational to
      the nearest double, ties to even, a result beyond the largest
      double is an infinity, and the type [number] has NaN and the
      infinities; the numeric strings of a Facebook insight row are
      read by the [parseFloat] and [parseInt] of the host;
    - a JavaScript [Date] is its time value, [option Z] (milliseconds
      since the epoch, [None] for an Invalid Date);
    - a JavaScript [Map] is an association list in insertion order;
    - a MongoDB collection is the list of its documents;
    - [async] code is a state-and-exception monad over a [World] that
      holds the collections, the calls made to the audit sink, the
      outbound vendor calls and the replies the vendors will give. *)

From Stdlib Require Import List String ZArith QArith Qround Qabs Qpower Bool Lia Lqa Permutation Sorted.
From Stdlib Require PrimFloat SpecFloat FloatOps Uint63.
From Equations Require Import Equations.
Import ListNotations.

Local Open Scope string_scope.
Local Open Scope Z_scope.
Local Open Scope list_scope.

(** ** JavaScript runtime pieces *)

Module JS.

(** The time value of a [Date]; [None] is an Invalid Date (NaN). *)
Definition Date := option Z.

(** What the host gives and the code only calls: the [Date(string)]
    constructor and [toISOString().slice(0, 10)]. *)
Record Runtime := {
  newDate : string -> Date;
  toISODate : Z -> string
}.

(** [isNaN(d.getTime())] *)
Definition isNaN_time (d : Date) : bool :=
  match d with None => true | Some _ => false end.

(** [a > b] on two Dates (compared through [valueOf]; a comparison
    with NaN is false). *)
Definition Date_gt (a b : Date) : bool :=
  match a, b with
  | Some x, Some y => y <? x
  | _, _ => false
  end.

Definition Date_eqb (a b : Date) : bool :=
  match a, b with
  | Some x, Some y => x =? y
  | None, None => true
  | _, _ => false
  end.

(** [Math.round]: the nearest integer, ties towards +infinity. *)
Definition Math_round (x : Q) : Q := inject_Z (Qfloor (x + (1 # 2))).

(** [a > 0] on numbers. *)
Definition Qpos (x : Q) : bool := (0 <? Qnum x)%Z.

(** An insertion-ordered [Map<string, V>]. *)
Section OrderedMap.
Context {V : Type}.

Definition Map := list (string * V).

Fixpoint has (m : Map) (k : string) : bool :=
  match m with
  | [] => false
  | (k', _) :: m' => if String.eqb k' k then true else has m' k
  end.

Fixpoint get (m : Map) (k : string) : option V :=
  match m with
  | [] => None
  | (k', v) :: m' => if String.eqb k' k then Some v else get m' k
  end.

(** [set] keeps the position of a key already present and appends a
    new key at the end. *)
Fixpoint set (m : Map) (k : string) (v : V) : Map :=
  match m with
  | [] => [(k, v)]
  | (k', v') :: m' =>
      if String.eqb k' k then (k', v) :: m' else (k', v') :: set m' k v
  end.

Definition keys (m : Map) : list string := map fst m.
Definition values (m : Map) : list V := map snd m.
End OrderedMap.
Arguments Map V : clear implicits.

End JS.

(** ** JavaScript numbers *)

(** A JavaScript number that may fail to be finite (signed zeros are
    not told apart). *)
Inductive number := Num (q : Q) | NaN | PosInfinity | NegInfinity.

(** The tests on a number, and [Math.round]. *)
Module Number.
Definition isZero (q : Q) : bool := (Qnum q =? 0)%Z.
Definition isNeg (q : Q) : bool := (Qnum q <? 0)%Z.

Definition flip (n : number) : number :=
  match n with
  | PosInfinity => NegInfinity
  | NegInfinity => PosInfinity
  | other => other
  end.

(** [Math.round(a)] *)
Definition round (a : number) : number :=
  match a with
  | Num x => Num (JS.Math_round x)
  | other => other
  end.

(** [a > 0] *)
Definition positive (a : number) : bool :=
  match a with
  | Num x => JS.Qpos x
  | PosInfinity => true
  | _ => false
  end.

Definition ofZ (z : Z) : number := Num (inject_Z z).

Definition isFinite (a : number) : bool :=
  match a with Num _ => true | _ => false end.
End Number.

(** IEEE 754 binary64, the arithmetic of JavaScript numbers: 53
    significant bits, exponents from -1074 (the least subnormal is
    2^-1074; the largest double is 2^1024 - 2^971), every operation
    rounded to the nearest double with ties to the even significand. *)
Module Double.
Local Open Scope Q_scope.

Definition pow2 (e : Z) : Q := 2 ^ e.

(** The unit roundoff, and half the least subnormal. *)
Definition u : Q := pow2 (-53).
Definition eta : Q := pow2 (-1075).

(** For a positive [x]: the [k] with 2^k <= x < 2^(k+1). *)
Definition ilog2 (x : Q) : Z :=
  let k := (Z.log2 (Qnum x) - Z.log2 (Z.pos (Qden x)))%Z in
  if Qle_bool (pow2 k) x then k else (k - 1)%Z.

(** The exponent of the last bit of the doubles around a positive [x]. *)
Definition ulpExp (x : Q) : Z := Z.max (ilog2 x - 52) (-1074).

(** The nearest integer, a tie going to the even one. *)
Definition roundEven (y : Q) : Z :=
  let f := Qfloor y in
  match Qcompare (y - inject_Z f) (1 # 2) with
  | Lt => f
  | Gt => (f + 1)%Z
  | Eq => if Z.even f then f else (f + 1)%Z
  end.

Definition flPos (x : Q) : Q :=
  inject_Z (roundEven (x / pow2 (ulpExp x))) * pow2 (ulpExp x).

(** The double nearest to [x], before the check for overflow. *)
Definition fl (x : Q) : Q :=
  match Qcompare (Qred x) 0 with
  | Eq => 0
  | Gt => Qred (flPos (Qred x))
  | Lt => Qred (- flPos (Qred (- x)))
  end.

(** The number a real result becomes: rounded, and an infinity when
    the rounded value is beyond the largest double. *)
Definition ofQ (x : Q) : number :=
  if Qle_bool (pow2 1024) (fl x) then PosInfinity
  else if Qle_bool (fl x) (- pow2 1024) then NegInfinity
  else Num (fl x).

(** [a / b] *)
Definition div (a b : number) : number :=
  match a, b with
  | NaN, _ | _, NaN => NaN
  | Num x, Num y =>
      if Number.isZero y
      then (if Number.isZero x then NaN
            else if Number.isNeg x then NegInfinity else PosInfinity)
      else ofQ (x / y)
  | Num _, _ => Num 0
  | inf, Num y => if Number.isNeg y then Number.flip inf else inf
  | _, _ => NaN
  end.

(** [a * b] *)
Definition mul (a b : number) : number :=
  match a, b with
  | NaN, _ | _, NaN => NaN
  | Num x, Num y => ofQ (x * y)
  | Num x, inf | inf, Num x =>
      if Number.isZero x then NaN
      else if Number.isNeg x then Number.flip inf else inf
  | PosInfinity, PosInfinity | NegInfinity, NegInfinity => PosInfinity
  | _, _ => NegInfinity
  end.

(** [a || b]: [b] when [a] is 0 or NaN. *)
Definition or (a b : number) : number :=
  match a with
  | NaN => b
  | Num x => if Number.isZero x then b else a
  | _ => a
  end.
End Double.

(** [parseFloat] and [parseInt(_, 10)]: given by the host, the code
    only calls them. *)
Record NumberParser := {
  parseFloat : string -> number;
  parseInt : string -> number
}.

(** ** Daily Store Metric: schema and service *)

(** [CreateMetricInput], which is also the shape of the per-date record
    the orchestrator builds. *)
Record CreateMetricInput := {
  storeId : string;
  date : JS.Date;
  facebookMetaSpend : Q;
  googleAdSpend : Q;
  shopifySoldOrders : Q;
  shopifyOrderValue : Q;
  shopifySoldItems : Q
}.

(** A document of the [StoreMetric] collection (timestamps left out). *)
Record StoreMetric := {
  sm_storeId : string;
  sm_date : JS.Date;
  sm_facebookMetaSpend : Q;
  sm_googleAdSpend : Q;
  sm_shopifySoldOrders : Q;
  sm_shopifyOrderValue : Q;
  sm_shopifySoldItems : Q
}.

(** ** The MongoDB operations the services use *)

Module Mongo.
Section Collection.
Context {Doc : Type}.

(** [findOneAndUpdate(filter, update, { new: true, upsert: true })]:
    the first document the filter matches is updated in place; when
    none matches, one document is inserted, built from the filter's
    equalities and the update. *)
Fixpoint findOneAndUpdate (filter : Doc -> bool) (update : Doc -> Doc)
    (inserted : Doc) (db : list Doc) : list Doc :=
  match db with
  | [] => [inserted]
  | doc :: db' =>
      if filter doc then update doc :: db'
      else doc :: findOneAndUpdate filter update inserted db'
  end.

(** [updateMany(filter, update)] *)
Definition updateMany (filter : Doc -> bool) (update : Doc -> Doc)
    (db : list Doc) : list Doc :=
  map (fun doc => if filter doc then update doc else doc) db.

(** [deleteMany(filter)] *)
Definition deleteMany (filter : Doc -> bool) (db : list Doc) : list Doc :=
  List.filter (fun doc => negb (filter doc)) db.
End Collection.
End Mongo.

Module MetricsService.

(** The filter [{ storeId, date }] of [createOrUpdate]. *)
Definition matches (s : string) (d : JS.Date) (doc : StoreMetric) : bool :=
  String.eqb (sm_storeId doc) s && JS.Date_eqb (sm_date doc) d.

(** [$set] of the five metric fields on a matched document. *)
Definition setFields (input : CreateMetricInput) (doc : StoreMetric)
  : StoreMetric :=
  {| sm_storeId := sm_storeId doc;
     sm_date := sm_date doc;
     sm_facebookMetaSpend := facebookMetaSpend input;
     sm_googleAdSpend := googleAdSpend input;
     sm_shopifySoldOrders := shopifySoldOrders input;
     sm_shopifyOrderValue := shopifyOrderValue input;
     sm_shopifySoldItems := shopifySoldItems input |}.

(** The document an upsert inserts: the filter's equalities and the
    [$set] fields. *)
Definition inserted (input : CreateMetricInput) : StoreMetric :=
  {| sm_storeId := storeId input;
     sm_date := date input;
     sm_facebookMetaSpend := facebookMetaSpend input;
     sm_googleAdSpend := googleAdSpend input;
     sm_shopifySoldOrders := shopifySoldOrders input;
     sm_shopifyOrderValue := shopifyOrderValue input;
     sm_shopifySoldItems := shopifySoldItems input |}.

Definition createOrUpdate (db : list StoreMetric) (input : CreateMetricInput)
  : list StoreMetric :=
  Mongo.findOneAndUpdate (matches (storeId input) (date input))
                         (setFields input) (inserted input) db.

(** The identity of a row: [(storeId, date)]. *)
Definition keyOf (doc : StoreMetric) : string * JS.Date :=
  (sm_storeId doc, sm_date doc).

Definition rowsFor (s : string) (d : JS.Date) (db : list StoreMetric)
  : list StoreMetric :=
  filter (matches s d) db.

End MetricsService.

(** ** Vendor result rows *)

Record DailyOrdersSummary := {
  dos_date : string;
  soldOrders : Q;
  orderValue : Q;
  soldItems : Q
}.

Record DailyAdSpend := {
  das_date : string;
  spend : Q
}.

(** ** Merge by date (the same code in [SyncMetricsJob.handleDailySync],
    [MetricsController.dailySync] and [MetricsController.rangeSync]) *)

Module Merge.
Section WithRuntime.
Variable rt : JS.Runtime.
Variable store_id : string.

(** The entry [getOrCreateEntry] creates for a date not yet seen. *)
Definition freshEntry (dateStr : string) : CreateMetricInput :=
  {| storeId := store_id;
     date := JS.newDate rt dateStr;
     facebookMetaSpend := 0%Q;
     googleAdSpend := 0%Q;
     shopifySoldOrders := 0%Q;
     shopifyOrderValue := 0%Q;
     shopifySoldItems := 0%Q |}.

(** [getOrCreateEntry]: the map after the call, and the entry. *)
Definition getOrCreateEntry (m : JS.Map CreateMetricInput) (dateStr : string)
  : JS.Map CreateMetricInput * CreateMetricInput :=
  let m' := if negb (JS.has m dateStr)
            then JS.set m dateStr (freshEntry dateStr) else m in
  (m', match JS.get m' dateStr with
       | Some e => e
       | None => freshEntry dateStr
       end).

(** Assignments to the fields of an entry held by the map: the entry
    is shared with the map, so the map sees the new fields. *)
Definition assign (m : JS.Map CreateMetricInput) (dateStr : string)
    (f : CreateMetricInput -> CreateMetricInput) : JS.Map CreateMetricInput :=
  let '(m', entry) := getOrCreateEntry m dateStr in
  JS.set m' dateStr (f entry).

Definition setShopify (row : DailyOrdersSummary) (e : CreateMetricInput) :=
  {| storeId := storeId e; date := date e;
     facebookMetaSpend := facebookMetaSpend e;
     googleAdSpend := googleAdSpend e;
     shopifySoldOrders := soldOrders row;
     shopifyOrderValue := orderValue row;
     shopifySoldItems := soldItems row |}.

Definition setFacebook (row : DailyAdSpend) (e : CreateMetricInput) :=
  {| storeId := storeId e; date := date e;
     facebookMetaSpend := spend row;
     googleAdSpend := googleAdSpend e;
     shopifySoldOrders := shopifySoldOrders e;
     shopifyOrderValue := shopifyOrderValue e;
     shopifySoldItems := shopifySoldItems e |}.

Definition setGoogle (v : Q) (e : CreateMetricInput) :=
  {| storeId := storeId e; date := date e;
     facebookMetaSpend := facebookMetaSpend e;
     googleAdSpend := v;
     shopifySoldOrders := shopifySoldOrders e;
     shopifyOrderValue := shopifyOrderValue e;
     shopifySoldItems := shopifySoldItems e |}.

Definition processShopify (m : JS.Map CreateMetricInput)
    (shopifyData : list DailyOrdersSummary) :=
  fold_left (fun m row => assign m (dos_date row) (setShopify row))
            shopifyData m.

Definition processFacebook (m : JS.Map CreateMetricInput)
    (fbData : list DailyAdSpend) :=
  fold_left (fun m row => assign m (das_date row) (setFacebook row))
            fbData m.

Definition processGoogle (m : JS.Map CreateMetricInput)
    (googleSpend : list DailyAdSpend) :=
  fold_left (fun m row => assign m (das_date row) (setGoogle (spend row)))
            googleSpend m.

(** What a vendor call resolved to, as the merge code inspects it:
    [Array.isArray(v)], [typeof v === 'number'], or neither. *)
Inductive Fetched (Row : Type) :=
| IsArray (rows : list Row)
| IsNumber (n : Q)
| Neither.
Arguments IsArray {Row} rows.
Arguments IsNumber {Row} n.
Arguments Neither {Row}.

Definition passShopify m (shopifyData : Fetched DailyOrdersSummary) :=
  match shopifyData with
  | IsArray rows => processShopify m rows
  | _ => m
  end.

Definition passFacebook m (fbData : Fetched DailyAdSpend) :=
  match fbData with
  | IsArray rows => processFacebook m rows
  | _ => m
  end.

(** [handleDailySync] and [dailySync]: an array is merged row by
    row, a bare number is booked on yesterday's date. *)
Definition passGoogleDaily m (yesterday : Z)
    (googleSpend : Fetched DailyAdSpend) :=
  match googleSpend with
  | IsArray rows => processGoogle m rows
  | IsNumber n => assign m (JS.toISODate rt yesterday) (setGoogle n)
  | Neither => m
  end.

(** [rangeSync] has the array branch only. *)
Definition passGoogleRange m (googleSpend : Fetched DailyAdSpend) :=
  match googleSpend with
  | IsArray rows => processGoogle m rows
  | _ => m
  end.

(** [metricsByDate] after the three passes of the daily sync. *)
Definition mergeDaily (yesterday : Z)
    (shopifyData : Fetched DailyOrdersSummary)
    (fbData googleSpend : Fetched DailyAdSpend) : JS.Map CreateMetricInput :=
  passGoogleDaily (passFacebook (passShopify [] shopifyData) fbData)
                  yesterday googleSpend.

(** [metricsByDate] after the three passes of the range sync. *)
Definition mergeRange
    (shopifyData : Fetched DailyOrdersSummary)
    (fbData googleSpend : Fetched DailyAdSpend) : JS.Map CreateMetricInput :=
  passGoogleRange (passFacebook (passShopify [] shopifyData) fbData)
                  googleSpend.
End WithRuntime.
End Merge.
Arguments Merge.IsArray {Row} rows.
Arguments Merge.IsNumber {Row} n.
Arguments Merge.Neither {Row}.

(** ** The world the asynchronous code runs in *)

(** Exceptions, by class and message. *)
Inductive ExnClass :=
| PlainError | TypeError | AxiosErrorClass
| BadRequestException | NotFoundException.

Record Exn := { exnClass : ExnClass; message : string }.

Inductive AuditAction :=
| SHOPIFY_SYNC_STARTED | SHOPIFY_SYNC_FAILED | SHOPIFY_ORDERS_FETCHED
| SHOPIFY_PRODUCTS_SYNCED | SHOPIFY_TRAFFIC_SYNCED
| FACEBOOK_SYNC_STARTED | FACEBOOK_SYNC_FAILED | FACEBOOK_AD_SPEND_FETCHED.

Inductive AuditStatus := SUCCESS | FAILURE | PENDING.

(** The argument of [AuditService.log] (metadata and duration left out;
    [platform] is the one metadata key the Google client sets). *)
Record CreateAuditLogInput := {
  action : AuditAction;
  status : AuditStatus;
  audit_storeId : string;
  storeName : string;
  errorMessage : option string;
  platform : option string
}.

Inductive Vendor := Shopify | Facebook | Google | GoogleOAuth.

(** An error of the HTTP client: its own message and, when the server
    answered, the [error] object of the response body. *)
Record ApiError := { code : Z; api_message : string }.
Record AxiosError := { ax_message : string; ax_error : option ApiError }.

(** Shopify order data, as the GraphQL query returns it. *)
Record Product := {
  product_id : string;
  title : string;
  featuredImage_url : option string;
  onlineStoreUrl : option string
}.
Record LineItem := { quantity : Q; product : option Product }.
Record OrderNode := {
  amount : option Q;              (* totalPriceSet.shopMoney.amount *)
  lineItems : list LineItem
}.
Record OrdersPage := { edges : list OrderNode; hasNextPage : bool }.

(** A row of the ShopifyQL sessions table. *)
Record TrafficRow := {
  landing_page_type : option string;
  landing_page_path : option string;
  online_store_visitors : option Z;
  row_sessions : option Z;
  sessions_with_cart_additions : option Z;
  sessions_that_reached_checkout : option Z
}.

Inductive ShopifyReply :=
| ShopifyHttpError (e : AxiosError)
| ShopifyGraphQLErrors                 (* [response.data.errors] is set *)
| ShopifyData (page : OrdersPage)      (* [data.orders] of the orders query *)
| ShopifyTable (parseErrors : list string) (rows : list TrafficRow).
                                       (* [data.shopifyqlQuery] *)

(** A row of Facebook's account-level insights. *)
Record FbSpendRow := { date_start : string; fb_spend : option Q }.

(** [res.data] of a Facebook call: [None] when [data] or [data.data]
    is missing. *)
Inductive FacebookReply :=
| FacebookFail (e : AxiosError)
| FacebookOk (data : option (list FbSpendRow)).

(** A result row of Google's [searchStream]. *)
Record GoogleResultRow := {
  segments_date : option string;
  costMicros : option Z
}.

(** [response.data] of a Google Ads call: [None] when it is not an
    array; a batch without [results] is [None] in the list. *)
Inductive GoogleReply :=
| GoogleFail (e : AxiosError)
| GoogleOk (data : option (list (option (list GoogleResultRow)))).

Record World := {
  auditLog : list CreateAuditLogInput;  (* calls of [AuditService.log], oldest first *)
  storeMetrics : list StoreMetric;      (* the StoreMetric collection *)
  vendorCalls : list Vendor;            (* outbound requests, oldest first *)
  slept : list Z;                       (* awaited [setTimeout] delays, in ms *)
  clock : Z;                            (* [Date.now()] *)
  shopifyReplies : list ShopifyReply;   (* what each vendor will answer next *)
  facebookReplies : list FacebookReply;
  googleReplies : list GoogleReply;
  oauthReplies : list (option string)   (* refreshed access token, or failure *)
}.

(** ** The monad of [async] code: state and exceptions *)

Inductive Outcome (A : Type) :=
| Returned (a : A)
| Thrown (e : Exn).
Arguments Returned {A} a.
Arguments Thrown {A} e.

Definition Async (A : Type) := World -> Outcome A * World.

Definition ret {A} (a : A) : Async A := fun w => (Returned a, w).
Definition throw {A} (e : Exn) : Async A := fun w => (Thrown e, w).

Definition bind {A B} (m : Async A) (k : A -> Async B) : Async B :=
  fun w => match m w with
           | (Returned a, w') => k a w'
           | (Thrown e, w') => (Thrown e, w')
           end.

(** [try { m } catch (error) { h error }] *)
Definition tryCatch {A} (m : Async A) (h : Exn -> Async A) : Async A :=
  fun w => match m w with
           | (Returned a, w') => (Returned a, w')
           | (Thrown e, w') => h e w'
           end.

Declare Scope async_scope.
Delimit Scope async_scope with async.
Notation "x <- m ;; k" := (bind m (fun x => k))
  (at level 100, m at next level, right associativity) : async_scope.
Notation "m ;;; k" := (bind m (fun _ => k))
  (at level 100, right associativity) : async_scope.
Local Open Scope async_scope.

(** [for (const x of xs) { await body(x) }] *)
Fixpoint forEach {A} (xs : list A) (body : A -> Async unit) : Async unit :=
  match xs with
  | [] => ret tt
  | x :: xs' => body x ;;; forEach xs' body
  end.

Definition modify (f : World -> World) : Async unit := fun w => (Returned tt, f w).

Definition withAudit (f : list CreateAuditLogInput -> list CreateAuditLogInput)
    (w : World) : World :=
  {| auditLog := f (auditLog w); storeMetrics := storeMetrics w;
     vendorCalls := vendorCalls w; slept := slept w; clock := clock w;
     shopifyReplies := shopifyReplies w; facebookReplies := facebookReplies w;
     googleReplies := googleReplies w; oauthReplies := oauthReplies w |}.

Definition withStoreMetrics (f : list StoreMetric -> list StoreMetric)
    (w : World) : World :=
  {| auditLog := auditLog w; storeMetrics := f (storeMetrics w);
     vendorCalls := vendorCalls w; slept := slept w; clock := clock w;
     shopifyReplies := shopifyReplies w; facebookReplies := facebookReplies w;
     googleReplies := googleReplies w; oauthReplies := oauthReplies w |}.

Definition withVendorCalls (f : list Vendor -> list Vendor) (w : World) : World :=
  {| auditLog := auditLog w; storeMetrics := storeMetrics w;
     vendorCalls := f (vendorCalls w); slept := slept w; clock := clock w;
     shopifyReplies := shopifyReplies w; facebookReplies := facebookReplies w;
     googleReplies := googleReplies w; oauthReplies := oauthReplies w |}.

Definition withSlept (f : list Z -> list Z) (w : World) : World :=
  {| auditLog := auditLog w; storeMetrics := storeMetrics w;
     vendorCalls := vendorCalls w; slept := f (slept w); clock := clock w;
     shopifyReplies := shopifyReplies w; facebookReplies := facebookReplies w;
     googleReplies := googleReplies w; oauthReplies := oauthReplies w |}.

Definition withShopifyReplies (f : list ShopifyReply -> list ShopifyReply)
    (w : World) : World :=
  {| auditLog := auditLog w; storeMetrics := storeMetrics w;
     vendorCalls := vendorCalls w; slept := slept w; clock := clock w;
     shopifyReplies := f (shopifyReplies w); facebookReplies := facebookReplies w;
     googleReplies := googleReplies w; oauthReplies := oauthReplies w |}.

Definition withFacebookReplies (f : list FacebookReply -> list FacebookReply)
    (w : World) : World :=
  {| auditLog := auditLog w; storeMetrics := storeMetrics w;
     vendorCalls := vendorCalls w; slept := slept w; clock := clock w;
     shopifyReplies := shopifyReplies w; facebookReplies := f (facebookReplies w);
     googleReplies := googleReplies w; oauthReplies := oauthReplies w |}.

Definition withGoogleReplies (f : list GoogleReply -> list GoogleReply)
    (w : World) : World :=
  {| auditLog := auditLog w; storeMetrics := storeMetrics w;
     vendorCalls := vendorCalls w; slept := slept w; clock := clock w;
     shopifyReplies := shopifyReplies w; facebookReplies := facebookReplies w;
     googleReplies := f (googleReplies w); oauthReplies := oauthReplies w |}.

Definition withOauthReplies (f : list (option string) -> list (option string))
    (w : World) : World :=
  {| auditLog := auditLog w; storeMetrics := storeMetrics w;
     vendorCalls := vendorCalls w; slept := slept w; clock := clock w;
     shopifyReplies := shopifyReplies w; facebookReplies := facebookReplies w;
     googleReplies := googleReplies w; oauthReplies := f (oauthReplies w) |}.

(** [await new Promise((res) => setTimeout(res, ms))] *)
Definition sleep (ms : Z) : Async unit := modify (withSlept (fun l => l ++ [ms])).

(** The message of a request that got no answer at all. *)
Definition networkError : AxiosError :=
  {| ax_message := "Network Error"; ax_error := None |}.

(** ** Audit sink *)

Module AuditService.
(** [log] records the entry and never throws to its caller. *)
Definition log (input : CreateAuditLogInput) : Async unit :=
  modify (withAudit (fun l => l ++ [input])).
End AuditService.

(** ** Stores *)

(** A Store document. The Facebook fields are [required] in the schema
    and typed [string]; [None] is a document that lacks the field all
    the same. The Google fields are optional in the schema. *)
Record Store := {
  store_id : string;                    (* [_id] *)
  name : string;
  shopifyToken : string;
  shopifyStoreUrl : string;
  fbAdSpendToken : option string;
  fbAccountId : option string;
  googleAccessToken : option string;
  googleRefreshToken : option string;
  googleCustomerId : option string;
  googleTokenExpiry : option Z
}.

(** Truthiness of an optional string: [undefined] and [''] are falsy. *)
Definition truthy (s : option string) : bool :=
  match s with
  | Some s' => negb (String.eqb s' "")
  | None => false
  end.

Definition inspect {A} (a : A) : {b : A | a = b} := exist _ a eq_refl.

(** ** Shopify client *)

Record ProductSalesData := {
  productId : string;
  productName : string;
  productImage : string;
  productUrl : string;
  quantitySold : Q;
  revenue : Q
}.

Record TrafficAnalyticsData := {
  landingPageType : string;
  landingPagePath : string;
  onlineStoreVisitors : Z;
  sessions : Z;
  sessionsWithCartAdditions : Z;
  sessionsThatReachedCheckout : Z
}.

Module ShopifyService.

Definition DELAY_BETWEEN_DAYS_MS : Z := 100.

(** [axios.post] to the store's GraphQL endpoint: the request goes
    out and the vendor's next reply comes back; with no reply left the
    request fails at the network. *)
Definition post (w : World) : ShopifyReply * World :=
  let w1 := withVendorCalls (fun l => l ++ [Shopify]) w in
  match shopifyReplies w with
  | [] => (ShopifyHttpError networkError, w1)
  | r :: rs => (r, withShopifyReplies (fun _ => rs) w1)
  end.

Definition graphQLError : Exn :=
  {| exnClass := PlainError; message := "Shopify GraphQL error" |}.

Definition noOrdersError : Exn :=
  {| exnClass := TypeError;
     message := "Cannot read properties of undefined (reading 'edges')" |}.

(** [callShopify], handing [data.orders] to its caller (a reply without
    [orders] fails the caller's [data.orders.edges]). *)
Definition callShopify : Async OrdersPage :=
  tryCatch
    (fun w =>
       match post w with
       | (ShopifyHttpError e, w1) =>
           (Thrown {| exnClass := AxiosErrorClass; message := ax_message e |}, w1)
       | (ShopifyGraphQLErrors, w1) => (Thrown graphQLError, w1)
       | (ShopifyData page, w1) => (Returned page, w1)
       | (ShopifyTable _ _, w1) => (Thrown noOrdersError, w1)
       end)
    (fun err => throw err).

(** [parseFloat(order.node.totalPriceSet.shopMoney.amount || '0')] *)
Definition orderAmount (order : OrderNode) : Q :=
  match amount order with Some a => a | None => 0%Q end.

(** The running sums of one day: [soldOrders], [orderValue],
    [soldItems]. *)
Definition DayTotals := (Q * Q * Q)%type.

Definition countOrder (t : DayTotals) (order : OrderNode) : DayTotals :=
  let '(so, ov, si) := t in
  ((so + 1)%Q, (ov + orderAmount order)%Q,
   fold_left (fun s item => (s + quantity item)%Q) (lineItems order) si).

Definition countOrders (t : DayTotals) (orders : list OrderNode) : DayTotals :=
  fold_left countOrder orders t.

(** After a page: go on to the next one, stop, or fail on
    [orders[orders.length - 1].cursor] of an empty page. *)
Inductive PageStep := NextPage | LastPage | NoCursor.

Definition pageStep (page : OrdersPage) : PageStep :=
  if hasNextPage page
  then match edges page with [] => NoCursor | _ :: _ => NextPage end
  else LastPage.

Definition noCursorError : Exn :=
  {| exnClass := TypeError;
     message := "Cannot read properties of undefined (reading 'cursor')" |}.

Lemma callShopify_consumes w page w1 :
  callShopify w = (Returned page, w1) ->
  (List.length (shopifyReplies w1) < List.length (shopifyReplies w))%nat.
Proof.
  unfold callShopify, tryCatch, post, throw.
  destruct (shopifyReplies w) as [|r rs] eqn:E; simpl.
  - destruct networkError; discriminate.
  - destruct r; intros H; inversion H; subst; simpl; lia.
Qed.

(** [while (hasNextPage) { ... }] of [fetchOrders], for one day. *)
Equations? dayLoop (t : DayTotals) (w : World) : Outcome DayTotals * World
  by wf (List.length (shopifyReplies w)) lt :=
  dayLoop t w with inspect (callShopify w) := {
    | exist _ (Thrown e, w1) _ := (Thrown e, w1)
    | exist _ (Returned page, w1) Hcall with pageStep page := {
        | NextPage := dayLoop (countOrders t (edges page)) w1
        | LastPage := (Returned (countOrders t (edges page)), w1)
        | NoCursor := (Thrown noCursorError, w1) } }.
Proof. eapply callShopify_consumes; eassumption. Qed.

Definition msPerDay : Z := 1000 * 60 * 60 * 24.

(** [Math.ceil((to - from) / msPerDay) + 1] *)
Definition totalDays (from to : Z) : Z := - ((from - to) / msPerDay) + 1.

Definition dayRow (rt : JS.Runtime) (cur : Z) (t : DayTotals)
  : DailyOrdersSummary :=
  let '(so, ov, si) := t in
  {| dos_date := JS.toISODate rt cur;
     soldOrders := so; orderValue := ov; soldItems := si |}.

(** [while (currentDate <= to) { ... }]: one day per turn;
    [setDate(getDate() + 1)] moves the time value on by one day (no
    change of the local clock inside the window). *)
Equations? daysLoop (rt : JS.Runtime) (from to cur : Z)
    (results : list DailyOrdersSummary) (w : World)
  : Outcome (list DailyOrdersSummary) * World
  by wf (Z.to_nat (to + 1 - cur)) lt :=
  daysLoop rt from to cur results w with Z_le_gt_dec cur to := {
    | right _ := (Returned results, w)
    | left _ with dayLoop (0%Q, 0%Q, 0%Q) w := {
        | (Thrown e, w1) := (Thrown e, w1)
        | (Returned t, w1) :=
            daysLoop rt from to (cur + msPerDay)
              (results ++ [dayRow rt cur t])
              (if (1 <? totalDays from to) && (cur <? to)
               then snd (sleep DELAY_BETWEEN_DAYS_MS w1) else w1) } }.
Proof. unfold msPerDay. lia. Qed.

Definition failed (store : Store) (error : Exn) : CreateAuditLogInput :=
  {| action := SHOPIFY_SYNC_FAILED; status := FAILURE;
     audit_storeId := store_id store; storeName := name store;
     errorMessage := Some (message error); platform := None |}.

(** The [try] block of [fetchOrders]. *)
Definition fetchOrdersTry (rt : JS.Runtime) (store : Store) (from to : Z)
  : Async (list DailyOrdersSummary) :=
  AuditService.log
    {| action := SHOPIFY_SYNC_STARTED; status := PENDING;
       audit_storeId := store_id store; storeName := name store;
       errorMessage := None; platform := None |} ;;;
  results <- daysLoop rt from to from [] ;;
  AuditService.log
    {| action := SHOPIFY_ORDERS_FETCHED; status := SUCCESS;
       audit_storeId := store_id store; storeName := name store;
       errorMessage := None; platform := None |} ;;;
  ret results.

Definition fetchOrders (rt : JS.Runtime) (store : Store) (from to : Z)
  : Async (list DailyOrdersSummary) :=
  tryCatch (fetchOrdersTry rt store from to)
    (fun error => AuditService.log (failed store error) ;;; throw error).

(** *** [fetchProductSales] *)

(** [lineItems.edges.reduce((sum, item) => sum + item.node.quantity, 0)] *)
Definition totalItems (order : OrderNode) : Q :=
  fold_left (fun sum item => (sum + quantity item)%Q) (lineItems order) 0%Q.

Definition orElse (s : option string) (d : string) : string :=
  match s with
  | Some s' => if String.eqb s' "" then d else s'
  | None => d
  end.

(** The entry [productMap.set] creates for a product not yet seen. *)
Definition newProduct (p : Product) : ProductSalesData :=
  {| productId := product_id p;
     productName := title p;
     productImage := orElse (featuredImage_url p) "";
     productUrl := orElse (onlineStoreUrl p) "";
     quantitySold := 0%Q;
     revenue := 0%Q |}.

(** [existing.quantitySold += quantity; existing.revenue += itemRevenue]:
    the quantities are counts, whose sum is exact; the sum of the
    revenues is rounded to a double. *)
Definition addSale (qty itemRevenue : Q) (e : ProductSalesData) :=
  {| productId := productId e;
     productName := productName e;
     productImage := productImage e;
     productUrl := productUrl e;
     quantitySold := (quantitySold e + qty)%Q;
     revenue := Double.fl (revenue e + itemRevenue) |}.

(** [(quantity / totalItems) * orderTotal], in doubles: the quotient is
    rounded, and then the product. (The order totals are amounts of
    money, far from the largest double; the NaN and the Infinity of a
    division by a [totalItems] of 0 have no place in [Q].) *)
Definition itemRevenue (qty total orderTotal : Q) : Q :=
  Double.fl (Double.fl (qty / total) * orderTotal).

(** One turn of the loop over the line items of an order. *)
Definition addItem (orderTotal total : Q) (productMap : JS.Map ProductSalesData)
    (item : LineItem) : JS.Map ProductSalesData :=
  match product item with
  | None => productMap                                  (* [continue] *)
  | Some p =>
      let m := if negb (JS.has productMap (product_id p))
               then JS.set productMap (product_id p) (newProduct p)
               else productMap in
      match JS.get m (product_id p) with
      | Some existing =>
          JS.set m (product_id p)
            (addSale (quantity item)
                     (itemRevenue (quantity item) total orderTotal) existing)
      | None => m
      end
  end.

(** The body of [for (const order of orders)]. *)
Definition addOrder (productMap : JS.Map ProductSalesData) (order : OrderNode)
  : JS.Map ProductSalesData :=
  fold_left (addItem (orderAmount order) (totalItems order))
            (lineItems order) productMap.

(** [while (hasNextPage) { ... }] of [fetchProductSales]. *)
Equations? salesLoop (productMap : JS.Map ProductSalesData) (w : World)
  : Outcome (JS.Map ProductSalesData) * World
  by wf (List.length (shopifyReplies w)) lt :=
  salesLoop productMap w with inspect (callShopify w) := {
    | exist _ (Thrown e, w1) _ := (Thrown e, w1)
    | exist _ (Returned page, w1) Hcall with pageStep page := {
        | NextPage := salesLoop (fold_left addOrder (edges page) productMap) w1
        | LastPage := (Returned (fold_left addOrder (edges page) productMap), w1)
        | NoCursor := (Thrown noCursorError, w1) } }.
Proof. eapply callShopify_consumes; eassumption. Qed.

(** [fetchProductSales(store, from?, to?)]: the optional window only
    shapes the query string of the requests. *)
Definition fetchProductSales (store : Store) (from to : option Z)
  : Async (list ProductSalesData) :=
  tryCatch
    (AuditService.log
       {| action := SHOPIFY_SYNC_STARTED; status := PENDING;
          audit_storeId := store_id store; storeName := name store;
          errorMessage := None; platform := None |} ;;;
     productMap <- salesLoop [] ;;
     AuditService.log
       {| action := SHOPIFY_PRODUCTS_SYNCED; status := SUCCESS;
          audit_storeId := store_id store; storeName := name store;
          errorMessage := None; platform := None |} ;;;
     ret (JS.values productMap))
    (fun error => AuditService.log (failed store error) ;;; throw error).

(** *** [fetchTrafficAnalytics] *)

Definition parseError : Exn :=
  {| exnClass := PlainError; message := "ShopifyQL parse error" |}.

Definition noTableError : Exn :=
  {| exnClass := TypeError;
     message := "Cannot read properties of undefined (reading 'parseErrors')" |}.

Definition toTraffic (row : TrafficRow) : TrafficAnalyticsData :=
  {| landingPageType := orElse (landing_page_type row) "Unknown";
     landingPagePath := orElse (landing_page_path row) "/";
     onlineStoreVisitors :=
       match online_store_visitors row with Some n => n | None => 0 end;
     sessions := match row_sessions row with Some n => n | None => 0 end;
     sessionsWithCartAdditions :=
       match sessions_with_cart_additions row with Some n => n | None => 0 end;
     sessionsThatReachedCheckout :=
       match sessions_that_reached_checkout row with
       | Some n => n | None => 0
       end |}.

(** The [try] block of [fetchTrafficAnalytics]; [daysBack] and [limit]
    go into the query. *)
Definition fetchTrafficAnalyticsTry (store : Store) (daysBack limit : Z)
  : Async (list TrafficAnalyticsData) :=
  AuditService.log
    {| action := SHOPIFY_SYNC_STARTED; status := PENDING;
       audit_storeId := store_id store; storeName := name store;
       errorMessage := None; platform := None |} ;;;
  fun w =>
    match post w with
    | (ShopifyHttpError e, w1) =>
        (Thrown {| exnClass := AxiosErrorClass; message := ax_message e |}, w1)
    | (ShopifyGraphQLErrors, w1) => (Thrown graphQLError, w1)
    | (ShopifyData _, w1) => (Thrown noTableError, w1)
    | (ShopifyTable parseErrors rows, w1) =>
        match parseErrors with
        | _ :: _ => (Thrown parseError, w1)
        | [] =>
            (AuditService.log
               {| action := SHOPIFY_TRAFFIC_SYNCED; status := SUCCESS;
                  audit_storeId := store_id store; storeName := name store;
                  errorMessage := None; platform := None |} ;;;
             ret (map toTraffic rows)) w1
        end
    end.

Definition fetchTrafficAnalytics (store : Store) (daysBack limit : Z)
  : Async (list TrafficAnalyticsData) :=
  tryCatch (fetchTrafficAnalyticsTry store daysBack limit)
    (fun err => AuditService.log (failed store err) ;;; throw err).

End ShopifyService.

(** ** Facebook client *)

(** A row of [actions] (counts) and of [action_values] (money): the
    value is the numeric string the API sends, [None] when absent. *)
Record Action := { action_type : string; value : option string }.
Record ActionValue := { av_action_type : string; av_value : option string }.

(** An insight row of the Insights API. Its numeric fields are
    strings, which the code reads with [parseFloat] and
    [parseInt(_, 10)]; [None] is a field that is absent. *)
Record Insight := {
  i_spend : option string;
  i_impressions : option string;
  i_reach : option string;
  i_frequency : option string;
  i_clicks : option string;
  i_inline_link_clicks : option string;
  i_actions : list Action;
  i_action_values : list ActionValue
}.

(** What [calculateMetrics] returns ([detailedResults], a relabelling
    of [actions], left out). *)
Record Metrics := {
  results : number;
  reach : number;
  impressions : number;
  frequency : number;
  costPerResult : number;
  amountSpent : number;
  cpm : number;
  linkClicks : number;
  cpc : number;
  ctr : number;
  linkCtr : number;
  landingPageViews : number;
  resultRoas : number;
  resultsValue : number
}.

Module FacebookService.

(** [axios.get]: the request goes out, the vendor's next reply comes
    back; with no reply left the request fails at the network. *)
Definition get (w : World) : FacebookReply * World :=
  let w1 := withVendorCalls (fun l => l ++ [Facebook]) w in
  match facebookReplies w with
  | [] => (FacebookFail networkError, w1)
  | r :: rs => (r, withFacebookReplies (fun _ => rs) w1)
  end.

(** [errData?.error?.code === 17] *)
Definition isRateLimit (err : AxiosError) : bool :=
  match ax_error err with
  | Some e => (code e =? 17)%Z
  | None => false
  end.

(** [new Error(errData?.error?.message || err.message)] *)
Definition apiError (err : AxiosError) : Exn :=
  {| exnClass := PlainError;
     message := match ax_error err with
                | Some e => if String.eqb (api_message e) ""
                            then ax_message err else api_message e
                | None => ax_message err
                end |}.

Equations? callFacebook (retry : nat) (w : World)
  : Outcome (option (list FbSpendRow)) * World
  by wf (3 - retry)%nat lt :=
  callFacebook retry w with get w := {
    | (FacebookOk data, w1) := (Returned data, w1)
    | (FacebookFail err, w1) with isRateLimit err, lt_dec retry 3 := {
        | true, left _ := callFacebook (retry + 1) (snd (sleep 2000 w1))
        | _, _ := (Thrown (apiError err), w1) } }.
Proof. do 3 (destruct retry as [|retry]; [simpl; lia|]). lia. Qed.

Definition started (store : Store) : CreateAuditLogInput :=
  {| action := FACEBOOK_SYNC_STARTED; status := PENDING;
     audit_storeId := store_id store; storeName := name store;
     errorMessage := None; platform := None |}.

Definition fetched (store : Store) : CreateAuditLogInput :=
  {| action := FACEBOOK_AD_SPEND_FETCHED; status := SUCCESS;
     audit_storeId := store_id store; storeName := name store;
     errorMessage := None; platform := None |}.

Definition failed (store : Store) (error : Exn) : CreateAuditLogInput :=
  {| action := FACEBOOK_SYNC_FAILED; status := FAILURE;
     audit_storeId := store_id store; storeName := name store;
     errorMessage := Some (message error); platform := None |}.

Definition startsWithError : Exn :=
  {| exnClass := TypeError;
     message := "Cannot read properties of undefined (reading 'startsWith')" |}.

(** [adAccountId.startsWith('act_') ? adAccountId : `act_${adAccountId}`];
    reading [startsWith] of a missing id is a TypeError. *)
Definition adAccountIdOf (store : Store) : Async string :=
  match fbAccountId store with
  | None => throw startsWithError
  | Some a => ret (if String.prefix "act_" a then a else "act_" ++ a)%string
  end.

Definition toDailySpend (row : FbSpendRow) : DailyAdSpend :=
  {| das_date := date_start row;
     spend := match fb_spend row with Some s => s | None => 0%Q end |}.

(** The [try] block of [fetchAdSpend]. The token and the account id go
    into the request; what comes back is the vendor's reply, whatever
    they are. *)
Definition fetchAdSpendTry (store : Store) (from to : Z)
  : Async (list DailyAdSpend) :=
  AuditService.log (started store) ;;;
  adAccountId <- adAccountIdOf store ;;
  data <- callFacebook 0 ;;
  match data with
  | None | Some [] => ret []
  | Some rows =>
      AuditService.log (fetched store) ;;;
      ret (map toDailySpend rows)
  end.

Definition fetchAdSpend (store : Store) (from to : Z)
  : Async (list DailyAdSpend) :=
  tryCatch (fetchAdSpendTry store from to)
    (fun error => AuditService.log (failed store error) ;;; throw error).

(** *** [calculateMetrics] *)

Definition lowerChar (c : Ascii.ascii) : Ascii.ascii :=
  let n := Ascii.nat_of_ascii c in
  if ((65 <=? n) && (n <=? 90))%nat then Ascii.ascii_of_nat (n + 32) else c.

Fixpoint toLowerCase (s : string) : string :=
  match s with
  | EmptyString => EmptyString
  | String c s' => String (lowerChar c) (toLowerCase s')
  end.

(** [field || '0'] *)
Definition orZero (field : option string) : string :=
  match field with
  | Some s => if String.eqb s "" then "0" else s
  | None => "0"
  end.

Section Metrics.
Variable p : NumberParser.

(** [parseInt(actions.find((a) => a.action_type === type)?.value || '0', 10)] *)
Definition getActionValue (actions : list Action) (type : string) : number :=
  parseInt p
    (orZero
       match find (fun a => String.eqb (action_type a) type) actions with
       | Some a => value a
       | None => None
       end).

(** [parseFloat(actionValues.find(...)?.value || '0')] *)
Definition getActionCurrency (actionValues : list ActionValue) (type : string)
  : number :=
  parseFloat p
    (orZero
       match find (fun a => String.eqb (av_action_type a) type) actionValues with
       | Some a => av_value a
       | None => None
       end).

Definition oneOf (s : string) (cases : list string) : bool :=
  existsb (String.eqb s) cases.

(** The [switch] on the lower-cased objective. *)
Definition primaryResult (actions : list Action) (linkClicks : number)
    (objective : string) : number :=
  let o := toLowerCase objective in
  if oneOf o ["conversions"; "outcome_sales"]
  then getActionValue actions "offsite_conversion.fb_pixel_purchase"
  else if oneOf o ["lead_generation"; "outcome_leads"]
  then getActionValue actions "lead"
  else if oneOf o ["link_clicks"; "outcome_traffic"]
  then linkClicks
  else if oneOf o ["post_engagement"; "outcome_engagement"]
  then getActionValue actions "post_engagement"
  else if oneOf o ["app_installs"; "outcome_app_promotion"]
  then getActionValue actions "app_install"
  else if oneOf o ["video_views"]
  then getActionValue actions "video_view"
  else Double.or
         (getActionValue actions "offsite_conversion.fb_pixel_purchase")
         linkClicks.

(** [Math.round(x * 100) / 100] *)
Definition round2 (x : number) : number :=
  Double.div (Number.round (Double.mul x (Num 100))) (Num 100).

Definition calculateMetrics (insight : Insight) (objective : string) : Metrics :=
  let spend := parseFloat p (orZero (i_spend insight)) in
  let impressions := parseInt p (orZero (i_impressions insight)) in
  let reach := parseInt p (orZero (i_reach insight)) in
  let frequency := parseFloat p (orZero (i_frequency insight)) in
  let clicks := parseInt p (orZero (i_clicks insight)) in
  let linkClicks := parseInt p (orZero (i_inline_link_clicks insight)) in
  let actions := i_actions insight in
  let actionValues := i_action_values insight in
  let results := primaryResult actions linkClicks objective in
  let resultsValue :=
    getActionCurrency actionValues "offsite_conversion.fb_pixel_purchase" in
  let landingPageViews := getActionValue actions "landing_page_view" in
  {| results := results;
     reach := reach;
     impressions := impressions;
     frequency := round2 frequency;
     costPerResult :=
       if Number.positive results
       then round2 (Double.div spend results) else Num 0;
     amountSpent := round2 spend;
     cpm :=
       if Number.positive impressions
       then Double.div
              (Number.round
                 (Double.mul
                    (Double.mul (Double.div spend impressions) (Num 1000))
                    (Num 100)))
              (Num 100)
       else Num 0;
     linkClicks := linkClicks;
     cpc :=
       if Number.positive clicks
       then round2 (Double.div spend clicks) else Num 0;
     ctr :=
       if Number.positive impressions
       then Double.div
              (Number.round
                 (Double.mul (Double.div clicks impressions) (Num 10000)))
              (Num 100)
       else Num 0;
     linkCtr :=
       if Number.positive impressions
       then Double.div
              (Number.round
                 (Double.mul (Double.div linkClicks impressions) (Num 10000)))
              (Num 100)
       else Num 0;
     landingPageViews := landingPageViews;
     resultRoas :=
       if Number.positive resultsValue && Number.positive spend
       then round2 (Double.div resultsValue spend) else Num 0;
     resultsValue := round2 resultsValue |}.
End Metrics.

End FacebookService.

(** ** Google Ads client *)

Module GoogleOAuthService.
Definition refreshFailed : Exn :=
  {| exnClass := BadRequestException;
     message := "Failed to refresh access token" |}.

(** [refreshAccessToken]: whatever goes wrong inside (the token
    endpoint fails, the reply carries no access token) leaves as the
    one BadRequestException. *)
Definition refreshAccessToken (refreshToken : string) : Async string :=
  fun w =>
    let w1 := withVendorCalls (fun l => l ++ [GoogleOAuth]) w in
    match oauthReplies w with
    | [] => (Thrown refreshFailed, w1)
    | r :: rs =>
        let w2 := withOauthReplies (fun _ => rs) w1 in
        if truthy r
        then (Returned (match r with Some t => t | None => "" end), w2)
        else (Thrown refreshFailed, w2)
    end.
End GoogleOAuthService.

Module GoogleService.

Definition notConnected : Exn :=
  {| exnClass := BadRequestException;
     message :=
       "Store not connected to Google Ads. Please authorize access first." |}.

(** [getValidAccessToken] (writing the refreshed token back onto the
    store document is left out). *)
Definition getValidAccessToken (store : Store) : Async string :=
  match googleRefreshToken store with
  | Some refreshToken =>
      if String.eqb refreshToken "" then throw notConnected
      else fun w =>
        let now := clock w in
        let expiryDate :=
          match googleTokenExpiry store with Some t => t | None => 0 end in
        if truthy (googleAccessToken store) && (now + 300000 <? expiryDate)
        then (Returned (match googleAccessToken store with
                        | Some t => t | None => "" end), w)
        else GoogleOAuthService.refreshAccessToken refreshToken w
  | None => throw notConnected
  end.

(** [axios.post] to [googleAds:searchStream]. *)
Definition post (w : World) : GoogleReply * World :=
  let w1 := withVendorCalls (fun l => l ++ [Google]) w in
  match googleReplies w with
  | [] => (GoogleFail networkError, w1)
  | r :: rs => (r, withGoogleReplies (fun _ => rs) w1)
  end.

(** One result row booked on [spendByDate]. *)
Definition addResult (spendByDate : JS.Map Q) (result : GoogleResultRow)
  : JS.Map Q :=
  let costMicros := match costMicros result with Some c => c | None => 0 end in
  let costDollars := (inject_Z costMicros / 1000000)%Q in
  match segments_date result with
  | Some date =>
      if String.eqb date "" then spendByDate
      else
        let existing :=
          match JS.get spendByDate date with Some v => v | None => 0%Q end in
        JS.set spendByDate date (existing + costDollars)%Q
  | None => spendByDate
  end.

Definition addBatch (spendByDate : JS.Map Q)
    (batch : option (list GoogleResultRow)) : JS.Map Q :=
  match batch with
  | Some results => fold_left addResult results spendByDate
  | None => spendByDate
  end.

Definition aggregate (data : option (list (option (list GoogleResultRow))))
  : list DailyAdSpend :=
  let spendByDate :=
    match data with
    | Some batches => fold_left addBatch batches []
    | None => []
    end in
  map (fun '(date, spend) => {| das_date := date; spend := spend |}) spendByDate.

Definition started (store : Store) : CreateAuditLogInput :=
  {| action := FACEBOOK_SYNC_STARTED; status := PENDING;
     audit_storeId := store_id store; storeName := name store;
     errorMessage := None; platform := Some "google_ads" |}.

Definition fetched (store : Store) : CreateAuditLogInput :=
  {| action := FACEBOOK_AD_SPEND_FETCHED; status := SUCCESS;
     audit_storeId := store_id store; storeName := name store;
     errorMessage := None; platform := Some "google_ads" |}.

Definition failed (store : Store) (err : Exn) : CreateAuditLogInput :=
  {| action := FACEBOOK_SYNC_FAILED; status := FAILURE;
     audit_storeId := store_id store; storeName := name store;
     errorMessage := Some (message err); platform := Some "google_ads" |}.

(** The [try] block of [fetchAdSpend]. *)
Definition fetchAdSpendTry (store : Store) (from to : Z)
  : Async (list DailyAdSpend) :=
  AuditService.log (started store) ;;;
  accessToken <- getValidAccessToken store ;;
  data <- (fun w =>
             match post w with
             | (GoogleFail e, w1) =>
                 (Thrown {| exnClass := AxiosErrorClass;
                            message := ax_message e |}, w1)
             | (GoogleOk data, w1) => (Returned data, w1)
             end) ;;
  let dailySpend := aggregate data in
  AuditService.log (fetched store) ;;;
  ret dailySpend.

Definition fetchAdSpend (store : Store) (from to : Z)
  : Async (list DailyAdSpend) :=
  if negb (truthy (googleCustomerId store)) then ret []
  else
    tryCatch (fetchAdSpendTry store from to)
      (fun err => AuditService.log (failed store err) ;;; ret []).

End GoogleService.

(** ** Product Metric *)

Record ProductMetric := {
  pm_storeId : string;
  pm_productId : string;
  pm_productName : string;
  pm_productImage : string;
  pm_productUrl : string;
  totalQuantitySold : Q;
  totalRevenue : Q;
  pm_lastSyncDate : Z
}.

Record ProductSalesInput := {
  psi_storeId : string;
  psi_productId : string;
  psi_productName : string;
  psi_productImage : string;
  psi_productUrl : string;
  psi_quantitySold : Q;
  psi_revenue : Q
}.

Module ProductMetricsService.

Definition matches (s p : string) (doc : ProductMetric) : bool :=
  String.eqb (pm_storeId doc) s && String.eqb (pm_productId doc) p.

Definition ofStore (s : string) (doc : ProductMetric) : bool :=
  String.eqb (pm_storeId doc) s.

(** [$set] of the descriptive fields and [$inc] of the two totals. *)
Definition setAndInc (now : Z) (input : ProductSalesInput) (doc : ProductMetric)
  : ProductMetric :=
  {| pm_storeId := pm_storeId doc;
     pm_productId := pm_productId doc;
     pm_productName := psi_productName input;
     pm_productImage := psi_productImage input;
     pm_productUrl := psi_productUrl input;
     totalQuantitySold := (totalQuantitySold doc + psi_quantitySold input)%Q;
     totalRevenue := (totalRevenue doc + psi_revenue input)%Q;
     pm_lastSyncDate := now |}.

(** The inserted document: [$inc] on a missing field sets it to the
    increment. *)
Definition inserted (now : Z) (input : ProductSalesInput) : ProductMetric :=
  {| pm_storeId := psi_storeId input;
     pm_productId := psi_productId input;
     pm_productName := psi_productName input;
     pm_productImage := psi_productImage input;
     pm_productUrl := psi_productUrl input;
     totalQuantitySold := psi_quantitySold input;
     totalRevenue := psi_revenue input;
     pm_lastSyncDate := now |}.

(** [now] is the [new Date()] of the call. *)
Definition upsertProductMetric (now : Z) (db : list ProductMetric)
    (input : ProductSalesInput) : list ProductMetric :=
  Mongo.findOneAndUpdate (matches (psi_storeId input) (psi_productId input))
                         (setAndInc now input) (inserted now input) db.

Definition zeroTotals (doc : ProductMetric) : ProductMetric :=
  {| pm_storeId := pm_storeId doc;
     pm_productId := pm_productId doc;
     pm_productName := pm_productName doc;
     pm_productImage := pm_productImage doc;
     pm_productUrl := pm_productUrl doc;
     totalQuantitySold := 0%Q;
     totalRevenue := 0%Q;
     pm_lastSyncDate := pm_lastSyncDate doc |}.

Definition resetStoreProducts (db : list ProductMetric) (storeId : string)
  : list ProductMetric :=
  Mongo.updateMany (ofStore storeId) zeroTotals db.

Definition keyOf (doc : ProductMetric) : string * string :=
  (pm_storeId doc, pm_productId doc).

End ProductMetricsService.

Module SyncProductMetricsJob.

(** The argument the job builds for [upsertProductMetric]. *)
Definition inputOf (storeId : string) (product : ProductSalesData)
  : ProductSalesInput :=
  {| psi_storeId := storeId;
     psi_productId := productId product;
     psi_productName := productName product;
     psi_productImage := productImage product;
     psi_productUrl := productUrl product;
     psi_quantitySold := quantitySold product;
     psi_revenue := revenue product |}.

(** The reset and the loop over the fetched batch, for one store (both
    [handleDailyProductSync] and [handleMonthlyFullSync]); [now] is the
    time of the upserts. *)
Definition resync (now : Z) (storeId : string)
    (productSales : list ProductSalesData) (db : list ProductMetric)
  : list ProductMetric :=
  fold_left
    (fun db product =>
       ProductMetricsService.upsertProductMetric now db (inputOf storeId product))
    productSales
    (ProductMetricsService.resetStoreProducts db storeId).

End SyncProductMetricsJob.

(** ** Traffic Metric *)

Record TrafficMetric := {
  tm_storeId : string;
  tm_landingPageType : string;
  tm_landingPagePath : string;
  tm_onlineStoreVisitors : Z;
  tm_sessions : Z;
  tm_sessionsWithCartAdditions : Z;
  tm_sessionsThatReachedCheckout : Z;
  tm_startDate : Z;
  tm_endDate : Z;
  tm_lastSyncDate : Z
}.


Record TrafficDataInput := {
  tdi_storeId : string;
  tdi_page : TrafficAnalyticsData;
  startDate : Z;
  endDate : Z
}.

Module TrafficMetricsService.

Definition matches (s path : string) (start : Z) (doc : TrafficMetric) : bool :=
  String.eqb (tm_storeId doc) s
  && String.eqb (tm_landingPagePath doc) path
  && (tm_startDate doc =? start).

(** [$set] of every field outside the filter. *)
Definition setFields (now : Z) (input : TrafficDataInput) (doc : TrafficMetric)
  : TrafficMetric :=
  {| tm_storeId := tm_storeId doc;
     tm_landingPageType := landingPageType (tdi_page input);
     tm_landingPagePath := tm_landingPagePath doc;
     tm_onlineStoreVisitors := onlineStoreVisitors (tdi_page input);
     tm_sessions := sessions (tdi_page input);
     tm_sessionsWithCartAdditions := sessionsWithCartAdditions (tdi_page input);
     tm_sessionsThatReachedCheckout :=
       sessionsThatReachedCheckout (tdi_page input);
     tm_startDate := tm_startDate doc;
     tm_endDate := endDate input;
     tm_lastSyncDate := now |}.

Definition inserted (now : Z) (input : TrafficDataInput) : TrafficMetric :=
  {| tm_storeId := tdi_storeId input;
     tm_landingPageType := landingPageType (tdi_page input);
     tm_landingPagePath := landingPagePath (tdi_page input);
     tm_onlineStoreVisitors := onlineStoreVisitors (tdi_page input);
     tm_sessions := sessions (tdi_page input);
     tm_sessionsWithCartAdditions := sessionsWithCartAdditions (tdi_page input);
     tm_sessionsThatReachedCheckout :=
       sessionsThatReachedCheckout (tdi_page input);
     tm_startDate := startDate input;
     tm_endDate := endDate input;
     tm_lastSyncDate := now |}.

Definition upsertTrafficMetric (now : Z) (db : list TrafficMetric)
    (input : TrafficDataInput) : list TrafficMetric :=
  Mongo.findOneAndUpdate
    (matches (tdi_storeId input) (landingPagePath (tdi_page input))
             (startDate input))
    (setFields now input) (inserted now input) db.

(** The filter [{ storeId, startDate: { $gte: startDate } }]. *)
Definition inWindow (s : string) (start : Z) (doc : TrafficMetric) : bool :=
  String.eqb (tm_storeId doc) s && (start <=? tm_startDate doc).

Definition resetStoreTraffic (db : list TrafficMetric) (storeId : string)
    (startDate : Z) : list TrafficMetric :=
  Mongo.deleteMany (inWindow storeId startDate) db.

End TrafficMetricsService.

Module SyncTrafficMetricsJob.

(** The reset and the loop over the fetched landing pages, for one
    store (both [handleDailyTrafficSync] and
    [handleWeeklyExtendedSync]). *)
Definition resync (now : Z) (storeId : string) (startDate endDate : Z)
    (trafficData : list TrafficAnalyticsData) (db : list TrafficMetric)
  : list TrafficMetric :=
  fold_left
    (fun db page =>
       TrafficMetricsService.upsertTrafficMetric now db
         {| tdi_storeId := storeId; tdi_page := page;
            startDate := startDate; endDate := endDate |})
    trafficData
    (TrafficMetricsService.resetStoreTraffic db storeId startDate).

End SyncTrafficMetricsJob.

(** ** The daily job and the on-demand endpoints *)

(** [await Promise.all([a, b, c])]: the three calls are all started and
    all run to their end; the result is rejected when one of them is.
    Their steps are taken one call after the other, in the order of the
    array. *)
Definition promiseAll3 {A B C} (a : Async A) (b : Async B) (c : Async C)
  : Async (A * B * C) :=
  fun w =>
    let '(ra, w1) := a w in
    let '(rb, w2) := b w1 in
    let '(rc, w3) := c w2 in
    match ra, rb, rc with
    | Returned x, Returned y, Returned z => (Returned (x, y, z), w3)
    | Thrown e, _, _ => (Thrown e, w3)
    | _, Thrown e, _ => (Thrown e, w3)
    | _, _, Thrown e => (Thrown e, w3)
    end.

(** [await this.metricsService.createOrUpdate(metric)] *)
Definition createOrUpdate (metric : CreateMetricInput) : Async unit :=
  modify (withStoreMetrics (fun db => MetricsService.createOrUpdate db metric)).

Module SyncMetricsJob.
Section WithRuntime.
Variable rt : JS.Runtime.
Variable yesterday : Z.

(** The body of the [try] for one store. *)
Definition syncStore (store : Store) : Async unit :=
  fetched <- promiseAll3
               (ShopifyService.fetchOrders rt store yesterday yesterday)
               (FacebookService.fetchAdSpend store yesterday yesterday)
               (GoogleService.fetchAdSpend store yesterday yesterday) ;;
  let '(shopifyData, fbData, googleSpend) := fetched in
  let metricsByDate :=
    Merge.mergeDaily rt (store_id store) yesterday
      (Merge.IsArray shopifyData) (Merge.IsArray fbData)
      (Merge.IsArray googleSpend) in
  forEach (JS.values metricsByDate) createOrUpdate.

(** [for (const store of stores) { try { ... } catch (error) { log } }] *)
Definition handleDailySync (stores : list Store) : Async unit :=
  forEach stores
    (fun store => tryCatch (syncStore store) (fun error => ret tt)).
End WithRuntime.
End SyncMetricsJob.

Module StoresService.
Definition notFound : Exn :=
  {| exnClass := NotFoundException; message := "Store not found" |}.

(** [findOne(id)] over the Store collection. *)
Definition findOne (stores : list Store) (id : string) : Async Store :=
  match find (fun s => String.eqb (store_id s) id) stores with
  | Some store => ret store
  | None => throw notFound
  end.
End StoresService.

Module MetricsController.

(** What an endpoint returns: the success object of [dailySync]
    ([message], [date], [daysProcessed]), that of [rangeSync]
    ([message], [startDate], [endDate], [daysProcessed] and [jobId],
    which is `range-` followed by the [Date.now()] kept here), or the
    error object. *)
Inductive Response :=
| DailySyncCompleted (message date : string) (daysProcessed : nat)
| RangeSyncCompleted (message startDate endDate : string)
    (daysProcessed : nat) (jobId : Z)
| ErrorObject (error : string) (status : Z).

(** [daysProcessed] of a success object. *)
Definition daysProcessedOf (r : Response) : option nat :=
  match r with
  | DailySyncCompleted _ _ n => Some n
  | RangeSyncCompleted _ _ _ n _ => Some n
  | ErrorObject _ _ => None
  end.

Section WithRuntime.
Variable rt : JS.Runtime.
Variable stores : list Store.

Definition dailySync (yesterday : Z) (storeId : string) : Async Response :=
  store <- StoresService.findOne stores storeId ;;
  fetched <- promiseAll3
               (ShopifyService.fetchOrders rt store yesterday yesterday)
               (FacebookService.fetchAdSpend store yesterday yesterday)
               (GoogleService.fetchAdSpend store yesterday yesterday) ;;
  let '(shopifyData, fbData, googleSpend) := fetched in
  let metricsByDate :=
    Merge.mergeDaily rt (store_id store) yesterday
      (Merge.IsArray shopifyData) (Merge.IsArray fbData)
      (Merge.IsArray googleSpend) in
  forEach (JS.values metricsByDate) createOrUpdate ;;;
  ret (DailySyncCompleted
         ("Daily sync completed for store: " ++ name store)%string
         (JS.toISODate rt yesterday)
         (List.length (JS.values metricsByDate))).

(** [getTime()] of a Date known to be valid. *)
Definition getTime (d : JS.Date) : Z :=
  match d with Some t => t | None => 0 end.

Definition rangeSync (storeId startDate endDate : string) : Async Response :=
  store <- StoresService.findOne stores storeId ;;
  let from := JS.newDate rt startDate in
  let to := JS.newDate rt endDate in
  if JS.isNaN_time from || JS.isNaN_time to
  then ret (ErrorObject "Invalid date format. Use YYYY-MM-DD" 400)
  else if JS.Date_gt from to
  then ret (ErrorObject "startDate must be before endDate" 400)
  else
    fetched <- promiseAll3
                 (ShopifyService.fetchOrders rt store (getTime from) (getTime to))
                 (FacebookService.fetchAdSpend store (getTime from) (getTime to))
                 (GoogleService.fetchAdSpend store (getTime from) (getTime to)) ;;
    let '(shopifyData, fbData, googleSpend) := fetched in
    let metricsByDate :=
      Merge.mergeRange rt (store_id store)
        (Merge.IsArray shopifyData) (Merge.IsArray fbData)
        (Merge.IsArray googleSpend) in
    forEach (JS.values metricsByDate) createOrUpdate ;;;
    fun w =>
      (Returned
         (RangeSyncCompleted
            ("Range sync completed for store: " ++ name store)%string
            startDate endDate
            (List.length (JS.values metricsByDate)) (clock w)), w).
End WithRuntime.
End MetricsController.

(** ** Users, roles and access to stores *)

(** [UserRole] (common/enums/user-role.enum.ts). *)
Inductive UserRole := ADMIN | MANAGER | VIEWER.

Definition UserRole_eqb (a b : UserRole) : bool :=
  match a, b with
  | ADMIN, ADMIN | MANAGER, MANAGER | VIEWER, VIEWER => true
  | _, _ => false
  end.

(** [request.user], as [JwtStrategy.validate] builds it. *)
Record RequestUser := {
  userId : string;
  email : string;
  role : UserRole;
  assignedStores : list string
}.

(** A User document. *)
Record User := {
  u_id : string;                        (* [_id] *)
  u_name : string;
  u_email : string;
  u_password : string;
  u_role : UserRole;
  u_isActive : bool;
  u_storeName : string;
  u_storeUrl : string;
  u_assignedStores : list string
}.

(** An Invitation document. *)
Record Invitation := {
  inv_email : string;
  inv_invitedBy : string;
  inv_assignedStores : list string;
  inv_storeName : string;
  inv_storeUrl : string;
  inv_token : string;
  inv_expiresAt : Z;
  inv_isAccepted : bool
}.

(** The exceptions the services and controllers of this part throw. *)
Inductive HttpException :=
| NotFound (msg : string)
| Forbidden (msg : string)
| Unauthorized (msg : string)
| BadRequest (msg : string)
| Conflict (msg : string)
| InternalError (msg : string).     (* a plain [Error] *)

Inductive Result (A : Type) :=
| Ok (a : A)
| Rejected (e : HttpException).
Arguments Ok {A} a.
Arguments Rejected {A} e.

(** [array.includes(x)] on strings. *)
Definition includes (l : list string) (x : string) : bool :=
  existsb (fun y => String.eqb y x) l.

(** [findByIdAndUpdate(id, update, { new: true })] and the like: the
    first document the filter matches is updated in place and returned;
    [None] when there is none. *)
Fixpoint updateFirst {Doc} (filter : Doc -> bool) (update : Doc -> Doc)
    (db : list Doc) : option Doc * list Doc :=
  match db with
  | [] => (None, [])
  | doc :: db' =>
      if filter doc then (Some (update doc), update doc :: db')
      else let '(r, db'') := updateFirst filter update db' in (r, doc :: db'')
  end.

(** What the administration services write to the audit log: the
    action and the id, email or token it is about. *)
Inductive AdminAction :=
| USER_SIGNUP | USER_CREATED
| USER_ROLE_UPDATED | USER_ACTIVATED | USER_DEACTIVATED
| STORES_ASSIGNED | STORES_REMOVED
| INVITATION_SENT | INVITATION_ACCEPTED
| STORE_CREATED | STORE_UPDATED.

(** The collections of the administration part. *)
Record Directory := {
  users : list User;
  invitations : list Invitation;
  adminLog : list (AdminAction * string)
}.

Definition withUsers (f : list User -> list User) (d : Directory) : Directory :=
  {| users := f (users d); invitations := invitations d;
     adminLog := adminLog d |}.

Definition withInvitations (f : list Invitation -> list Invitation)
    (d : Directory) : Directory :=
  {| users := users d; invitations := f (invitations d);
     adminLog := adminLog d |}.

Definition logged (action : AdminAction) (about : string) (d : Directory)
  : Directory :=
  {| users := users d; invitations := invitations d;
     adminLog := adminLog d ++ [(action, about)] |}.

Module UsersService.

Definition hasId (id : string) (user : User) : bool := String.eqb (u_id user) id.

Definition findById (d : Directory) (id : string) : Result User :=
  match find (hasId id) (users d) with
  | Some user => Ok user
  | None => Rejected (NotFound "User not found")
  end.

Definition findByEmail (d : Directory) (email : string) : option User :=
  find (fun user => String.eqb (u_email user) email) (users d).

(** [new this.userModel(data).save()]; [id] is the [_id] the driver
    generates, [isActive] and [assignedStores] take their defaults. *)
Definition create (id name email password : string) (role : UserRole)
    (storeName storeUrl : string) (d : Directory) : User * Directory :=
  let user :=
    {| u_id := id; u_name := name; u_email := email; u_password := password;
       u_role := role; u_isActive := true; u_storeName := storeName;
       u_storeUrl := storeUrl; u_assignedStores := [] |} in
  (user, withUsers (fun l => l ++ [user]) d).

Definition setRole (role : UserRole) (user : User) : User :=
  {| u_id := u_id user; u_name := u_name user; u_email := u_email user;
     u_password := u_password user; u_role := role;
     u_isActive := u_isActive user; u_storeName := u_storeName user;
     u_storeUrl := u_storeUrl user;
     u_assignedStores := u_assignedStores user |}.

Definition setActive (isActive : bool) (user : User) : User :=
  {| u_id := u_id user; u_name := u_name user; u_email := u_email user;
     u_password := u_password user; u_role := u_role user;
     u_isActive := isActive; u_storeName := u_storeName user;
     u_storeUrl := u_storeUrl user;
     u_assignedStores := u_assignedStores user |}.

Definition setStores (f : list string -> list string) (user : User) : User :=
  {| u_id := u_id user; u_name := u_name user; u_email := u_email user;
     u_password := u_password user; u_role := u_role user;
     u_isActive := u_isActive user; u_storeName := u_storeName user;
     u_storeUrl := u_storeUrl user;
     u_assignedStores := f (u_assignedStores user) |}.

(** The shape shared by [updateRole], [setActiveStatus], [assignStores]
    and [removeStores]: update by id, 404 when there is no such user,
    then the audit entry. *)
Definition updateUser (id : string) (update : User -> User)
    (action : AdminAction) (d : Directory) : Result User * Directory :=
  match updateFirst (hasId id) update (users d) with
  | (Some user, users') =>
      (Ok user, logged action id (withUsers (fun _ => users') d))
  | (None, _) => (Rejected (NotFound "User not found"), d)
  end.

Definition updateRole (id : string) (role : UserRole) :=
  updateUser id (setRole role) USER_ROLE_UPDATED.

Definition setActiveStatus (id : string) (isActive : bool) :=
  updateUser id (setActive isActive)
    (if isActive then USER_ACTIVATED else USER_DEACTIVATED).

(** [$addToSet: { assignedStores: { $each: storeIds } }] *)
Definition addToSet (storeIds assigned : list string) : list string :=
  fold_left (fun acc id => if includes acc id then acc else acc ++ [id])
            storeIds assigned.

(** [$pull: { assignedStores: { $in: storeIds } }] *)
Definition pull (storeIds assigned : list string) : list string :=
  filter (fun id => negb (includes storeIds id)) assigned.

Definition assignStores (userId : string) (storeIds : list string) :=
  updateUser userId (setStores (addToSet storeIds)) STORES_ASSIGNED.

Definition removeStores (userId : string) (storeIds : list string) :=
  updateUser userId (setStores (pull storeIds)) STORES_REMOVED.

Definition getUserStores (d : Directory) (userId : string)
  : Result (list string) :=
  match findById d userId with
  | Ok user => Ok (u_assignedStores user)
  | Rejected e => Rejected e
  end.

(** [find({ assignedStores: storeId })] *)
Definition getUsersByStore (d : Directory) (storeId : string) : list User :=
  filter (fun user => includes (u_assignedStores user) storeId) (users d).

(** [createInvitation]; [token] is the random token and [now] the time
    of the call ([setDate(getDate() + 7)] moves it on by seven days, no
    change of the local clock in between). *)
Definition createInvitation (token : string) (now : Z)
    (email invitedBy : string) (storeIds : list string)
    (storeName storeUrl : string) (role : UserRole) (d : Directory)
  : Result Invitation * Directory :=
  match role with
  | VIEWER =>
      let d1 :=
        withInvitations
          (Mongo.deleteMany
             (fun i => String.eqb (inv_email i) email
                       && negb (inv_isAccepted i))) d in
      let invitation :=
        {| inv_email := email; inv_invitedBy := invitedBy;
           inv_assignedStores := storeIds; inv_storeName := storeName;
           inv_storeUrl := storeUrl; inv_token := token;
           inv_expiresAt := now + 7 * 86400000; inv_isAccepted := false |} in
      (Ok invitation,
       withInvitations (fun l => l ++ [invitation])
         (logged INVITATION_SENT email d1))
  | _ =>
      (Rejected
         (InternalError "Only users with the VIEWER role can be invited."), d)
  end.

Definition pendingWith (token : string) (i : Invitation) : bool :=
  String.eqb (inv_token i) token && negb (inv_isAccepted i).

Definition findInvitationByToken (d : Directory) (token : string)
  : option Invitation :=
  find (pendingWith token) (invitations d).

Definition accepted (i : Invitation) : Invitation :=
  {| inv_email := inv_email i; inv_invitedBy := inv_invitedBy i;
     inv_assignedStores := inv_assignedStores i;
     inv_storeName := inv_storeName i; inv_storeUrl := inv_storeUrl i;
     inv_token := inv_token i; inv_expiresAt := inv_expiresAt i;
     inv_isAccepted := true |}.

Definition acceptInvitation (token : string) (d : Directory)
  : Result Invitation * Directory :=
  match updateFirst (pendingWith token) accepted (invitations d) with
  | (Some invitation, invitations') =>
      (Ok invitation, withInvitations (fun _ => invitations') d)
  | (None, _) =>
      (Rejected (NotFound "Invitation not found or already accepted"), d)
  end.

(** [getViewersAssignedByManager]: the viewers that share a store with
    the manager, each shown with the shared stores only. *)
Definition getViewersAssignedByManager (d : Directory) (managerId : string)
  : Result (list User) :=
  match findById d managerId with
  | Rejected e => Rejected e
  | Ok manager =>
      match u_assignedStores manager with
      | [] => Ok []
      | managerStoreIds =>
          let viewers :=
            filter (fun user =>
                      UserRole_eqb (u_role user) VIEWER
                      && existsb (includes managerStoreIds)
                                 (u_assignedStores user))
                   (users d) in
          Ok (map (setStores (filter (includes managerStoreIds))) viewers)
      end
  end.

End UsersService.

Module JwtStrategy.

(** The claims of a token. *)
Record JwtPayload := {
  sub : string;
  payload_email : string;
  payload_role : UserRole;
  payload_assignedStores : list string
}.

(** [validate(payload)]: the user is read from the collection on every
    request. *)
Definition validate (d : Directory) (payload : JwtPayload)
  : Result RequestUser :=
  match UsersService.findById d (sub payload) with
  | Rejected e => Rejected e
  | Ok user =>
      if negb (u_isActive user)
      then Rejected (Unauthorized "Account is inactive or deleted")
      else Ok {| userId := u_id user; email := u_email user;
                 role := u_role user;
                 assignedStores := u_assignedStores user |}
  end.

End JwtStrategy.

Module StoreAccess.

(** [StoresService.canAccessStore(user, storeId)] *)
Definition canAccessStore (user : option RequestUser) (storeId : string)
  : bool :=
  match user with
  | None => false
  | Some u =>
      match role u with
      | ADMIN => true
      | _ => existsb (fun id => String.eqb id storeId) (assignedStores u)
      end
  end.

(** [StoresService.canManageStoreAccess(user)] *)
Definition canManageStoreAccess (user : option RequestUser) : bool :=
  match user with
  | Some u => match role u with ADMIN | MANAGER => true | VIEWER => false end
  | None => false
  end.

(** [StoresService.findAll(user?)] *)
Definition findAll (stores : list Store) (user : option RequestUser)
  : list Store :=
  match user with
  | None => stores
  | Some u =>
      match role u with
      | ADMIN => stores
      | _ =>
          match assignedStores u with
          | [] => []
          | assigned =>
              filter (fun store => includes assigned (store_id store)) stores
          end
      end
  end.

(** [StoresService.findOneForUser(id, user)] *)
Definition findOneForUser (stores : list Store) (id : string)
    (user : RequestUser) : Result Store :=
  match find (fun s => String.eqb (store_id s) id) stores with
  | None => Rejected (NotFound "Store not found")
  | Some store =>
      match role user with
      | ADMIN => Ok store
      | _ =>
          if negb (canAccessStore (Some user) id)
          then Rejected (Forbidden "You do not have access to this store")
          else Ok store
      end
  end.

(** The parts of a request the guards read. *)
Record RequestBody := {
  body_storeId : option string;
  body__id : option string
}.

Record Request := {
  user : option RequestUser;
  params_storeId : option string;       (* [request.params.storeId] *)
  body : option RequestBody;
  query_storeId : option string
}.

(** [a || b] on optional strings. *)
Definition orElse (a b : option string) : option string :=
  if truthy a then a else b.

(** [StoreAccessGuard]: the store id the guard decides on. *)
Definition storeIdOf (request : Request) : option string :=
  orElse
    (orElse (params_storeId request)
            (match body request with
             | Some b => orElse (body_storeId b) (body__id b)
             | None => None
             end))
    (query_storeId request).

(** [StoreAccessGuard.canActivate] *)
Definition storeAccessGuard (request : Request) : bool :=
  let isAdmin :=
    match user request with
    | Some u => UserRole_eqb (role u) ADMIN
    | None => false
    end in
  if isAdmin then true
  else
    match storeIdOf request with
    | Some storeId =>
        if String.eqb storeId "" then false
        else canAccessStore (user request) storeId
    | None => false
    end.

(** [RolesGuard.canActivate], for the roles of the handler's [@Roles]
    ([None] without the decorator). *)
Definition rolesGuard (requiredRoles : option (list UserRole))
    (request : Request) : bool :=
  match requiredRoles with
  | None | Some [] => true
  | Some roles =>
      match user request with
      | None => false
      | Some u => existsb (UserRole_eqb (role u)) roles
      end
  end.

(** [@UseGuards(JwtAuthGuard, RolesGuard, StoreAccessGuard)] with the
    [@Roles] of the handler; [JwtAuthGuard] has put the validated user
    on the request, or rejected it. *)
Definition guards (requiredRoles : option (list UserRole)) (request : Request)
  : bool :=
  match user request with
  | None => false
  | Some _ => rolesGuard requiredRoles request && storeAccessGuard request
  end.

(** The handlers of [MetricsController] and [AnalyticsController]. *)
Definition getStoreMetricsGuards := guards None.
Definition dailySyncGuards := guards (Some [ADMIN; MANAGER]).
Definition rangeSyncGuards := guards (Some [ADMIN]).
Definition syncProductsGuards := guards (Some [ADMIN; MANAGER]).

End StoreAccess.

Module UsersController.

(** The stores a manager may hand out: those of the token when it
    names any, else those of the manager's document. *)
Definition managerStoresOf (d : Directory) (requestUser : RequestUser)
  : Result (list string) :=
  match assignedStores requestUser with
  | [] => UsersService.getUserStores d (userId requestUser)
  | stores => Ok stores
  end.

(** The check shared by [assignStores] and [removeStores]. *)
Definition checkManager (d : Directory) (requestUser : RequestUser)
    (storeIds : list string) (message : string) : Result unit :=
  match role requestUser with
  | MANAGER =>
      match managerStoresOf d requestUser with
      | Rejected e => Rejected e
      | Ok managerStores =>
          if existsb (fun id => negb (includes managerStores id)) storeIds
          then Rejected (Forbidden message)
          else Ok tt
      end
  | _ => Ok tt
  end.

(** [POST :userId/stores] (the handler, after [@Roles(ADMIN, MANAGER)]). *)
Definition assignStores (requestUser : RequestUser) (userId : string)
    (storeIds : list string) (d : Directory) : Result User * Directory :=
  match UsersService.findById d userId with
  | Rejected e => (Rejected e, d)
  | Ok _ =>
      match checkManager d requestUser storeIds
              "Managers can only assign stores they are assigned to" with
      | Rejected e => (Rejected e, d)
      | Ok _ => UsersService.assignStores userId storeIds d
      end
  end.

(** [DELETE :userId/stores] *)
Definition removeStores (requestUser : RequestUser) (userId : string)
    (storeIds : list string) (d : Directory) : Result User * Directory :=
  match UsersService.findById d userId with
  | Rejected e => (Rejected e, d)
  | Ok _ =>
      match checkManager d requestUser storeIds
              "Managers can only remove stores they are assigned to" with
      | Rejected e => (Rejected e, d)
      | Ok _ => UsersService.removeStores userId storeIds d
      end
  end.

End UsersController.

Module AuthService.

(** [getInvitationDetails(token)]; [now] is [new Date()]. *)
Definition getInvitationDetails (now : Z) (d : Directory) (token : string)
  : Result Invitation :=
  match UsersService.findInvitationByToken d token with
  | None => Rejected (BadRequest "Invitation not found or expired")
  | Some invitation =>
      if inv_expiresAt invitation <? now
      then Rejected (BadRequest "Invitation has expired")
      else Ok invitation
  end.

(** [acceptInvitation(token, dto)], up to the point where the token is
    signed: [newId] is the [_id] of the user that is created,
    [hashedPassword] what [bcrypt.hash] returned. The result is the new
    user and the stores put into the token. *)
Definition acceptInvitation (now : Z) (newId name hashedPassword : string)
    (token : string) (d : Directory)
  : Result (User * list string) * Directory :=
  match getInvitationDetails now d token with
  | Rejected e => (Rejected e, d)
  | Ok invitation =>
      match UsersService.findByEmail d (inv_email invitation) with
      | Some _ => (Rejected (Conflict "Email already registered"), d)
      | None =>
          let '(user, d1) :=
            UsersService.create newId name (inv_email invitation)
              hashedPassword VIEWER (inv_storeName invitation)
              (inv_storeUrl invitation) d in
          let d2 := logged INVITATION_ACCEPTED token d1 in
          let storeIds := inv_assignedStores invitation in
          match UsersService.assignStores (u_id user) storeIds d2 with
          | (Rejected e, d3) => (Rejected e, d3)
          | (Ok _, d3) =>
              match UsersService.acceptInvitation token d3 with
              | (Rejected e, d4) => (Rejected e, d4)
              | (Ok _, d4) => (Ok (user, storeIds), d4)
              end
          end
      end
  end.

End AuthService.

(** ** The product and traffic jobs, store by store *)

Module ProductJob.

(** The body of the loop of [handleDailyProductSync] and
    [handleMonthlyFullSync] for one store, [try] and [catch] included:
    the reset comes first, an error of the fetch is logged and
    swallowed. [now] is the time of the upserts. *)
Definition syncStore (now : Z) (from to : option Z) (store : Store)
    (db : list ProductMetric) (w : World) : list ProductMetric * World :=
  let db1 := ProductMetricsService.resetStoreProducts db (store_id store) in
  match ShopifyService.fetchProductSales store from to w with
  | (Returned productSales, w1) =>
      (fold_left
         (fun db product =>
            ProductMetricsService.upsertProductMetric now db
              (SyncProductMetricsJob.inputOf (store_id store) product))
         productSales db1,
       w1)
  | (Thrown error, w1) => (db1, w1)
  end.

(** [for (const store of stores) { ... }] *)
Definition handleSync (now : Z) (from to : option Z) (stores : list Store)
    (db : list ProductMetric) (w : World) : list ProductMetric * World :=
  fold_left (fun '(db, w) store => syncStore now from to store db w)
            stores (db, w).

End ProductJob.

Module TrafficJob.

(** The body of the loop of [handleDailyTrafficSync] and
    [handleWeeklyExtendedSync] for one store. *)
Definition syncStore (now startDate endDate daysBack pageLimit : Z)
    (store : Store) (db : list TrafficMetric) (w : World)
  : list TrafficMetric * World :=
  let db1 :=
    TrafficMetricsService.resetStoreTraffic db (store_id store) startDate in
  match ShopifyService.fetchTrafficAnalytics store daysBack pageLimit w with
  | (Returned trafficData, w1) =>
      (fold_left
         (fun db page =>
            TrafficMetricsService.upsertTrafficMetric now db
              {| tdi_storeId := store_id store; tdi_page := page;
                 startDate := startDate; endDate := endDate |})
         trafficData db1,
       w1)
  | (Thrown error, w1) => (db1, w1)
  end.

End TrafficJob.

(** ** Removing a store *)

(** The collections [StoresService.remove] could reach. *)
Record Database := {
  db_stores : list Store;
  db_storeMetrics : list StoreMetric;
  db_productMetrics : list ProductMetric;
  db_trafficMetrics : list TrafficMetric;
  db_directory : Directory
}.

(** [findByIdAndDelete(id)]: the first document with the id is removed
    and returned. *)
Fixpoint deleteFirst {Doc} (filter : Doc -> bool) (db : list Doc)
  : option Doc * list Doc :=
  match db with
  | [] => (None, [])
  | doc :: db' =>
      if filter doc then (Some doc, db')
      else let '(r, db'') := deleteFirst filter db' in (r, doc :: db'')
  end.

Module StoreRemoval.

(** [MetricsService.deleteByStoreId(storeId)] *)
Definition deleteByStoreId (storeId : string) (db : list StoreMetric)
  : list StoreMetric :=
  Mongo.deleteMany (fun row => String.eqb (sm_storeId row) storeId) db.

(** [StoresService.remove(id)] *)
Definition remove (id : string) (db : Database) : Result unit * Database :=
  match deleteFirst (fun s => String.eqb (store_id s) id) (db_stores db) with
  | (None, _) => (Rejected (NotFound "Store not found"), db)
  | (Some store, stores') =>
      (Ok tt,
       {| db_stores := stores';
          db_storeMetrics := deleteByStoreId id (db_storeMetrics db);
          db_productMetrics := db_productMetrics db;
          db_trafficMetrics := db_trafficMetrics db;
          db_directory := logged STORE_CREATED id (db_directory db) |})
  end.

End StoreRemoval.

(** ** Reading the daily metrics *)

(** [.sort(...)] of a query: the documents in the order of the sort
    key; documents with equal keys keep their order. *)
Section Sort.
Context {A : Type}.
Variable before : A -> A -> bool.

Fixpoint insertSorted (x : A) (l : list A) : list A :=
  match l with
  | [] => [x]
  | y :: l' => if before y x then y :: insertSorted x l' else x :: y :: l'
  end.

Definition sortBy (l : list A) : list A :=
  fold_right insertSorted [] l.
End Sort.

(** The [date] part of a query filter: [$gte] and [$lte], when set.
    A bound can be an Invalid Date. *)
Record DateFilter := {
  date_gte : option JS.Date;
  date_lte : option JS.Date
}.

(** What [daysMap[range]] finds: a number of days, a member of
    [Object.prototype], or nothing. *)
Inductive DaysLookup := OwnDays (days : Z) | InheritedMember | NoDays.

Record AggregateResult := {
  ag_totalStores : nat;
  ag_totalAdSpend : Q;
  ag_totalOrders : Q;
  ag_totalRevenue : Q;
  ag_dateRange : string
}.

(** A document of the [$group] stage. *)
Record StoreGroup := {
  sg_id : string;                       (* [_id]: the store *)
  sg_facebookMetaSpend : Q;
  sg_googleAdSpend : Q;
  sg_shopifySoldOrders : Q;
  sg_shopifyOrderValue : Q
}.

Module MetricsQueries.
Section WithRuntime.
Variable rt : JS.Runtime.

(** [from.setDate(from.getDate() - days); from.setHours(0, 0, 0, 0)]
    on [from = new Date()]: local midnight, [days] days before [now]. *)
Variable midnightDaysAgo : Z -> Z -> Z.

Definition daysMap : list (string * Z) :=
  [ ("last7days", 7); ("last14days", 14); ("last30days", 30);
    ("last60days", 60); ("last90days", 90) ].

(** The names every object inherits from [Object.prototype]. *)
Definition inheritedNames : list string :=
  [ "constructor"; "__defineGetter__"; "__defineSetter__"; "hasOwnProperty";
    "__lookupGetter__"; "__lookupSetter__"; "isPrototypeOf";
    "propertyIsEnumerable"; "toString"; "valueOf"; "__proto__";
    "toLocaleString" ].

Definition lookupDays (range : string) : DaysLookup :=
  match find (fun entry => String.eqb (fst entry) range) daysMap with
  | Some (_, days) => OwnDays days
  | None => if includes inheritedNames range then InheritedMember else NoDays
  end.

Definition noDateFilter : DateFilter :=
  {| date_gte := None; date_lte := None |}.

(** [buildDateRangeFilter(range?, startDate?, endDate?)] at the time
    [now]. *)
Definition buildDateRangeFilter (now : Z) (range startDate endDate : option string)
  : DateFilter :=
  if truthy startDate || truthy endDate
  then
    {| date_gte := match startDate with
                   | Some s => if String.eqb s "" then None
                               else Some (JS.newDate rt s)
                   | None => None
                   end;
       date_lte := match endDate with
                   | Some s => if String.eqb s "" then None
                               else Some (JS.newDate rt s)
                   | None => None
                   end |}
  else
    match range with
    | Some r =>
        if String.eqb r "" then noDateFilter
        else
          match lookupDays r with
          | OwnDays days =>
              {| date_gte := Some (Some (midnightDaysAgo now days));
                 date_lte := None |}
          | InheritedMember =>
              (* [getDate() - days] is NaN: [from] is an Invalid Date *)
              {| date_gte := Some None; date_lte := None |}
          | NoDays => noDateFilter
          end
    | None => noDateFilter
    end.

(** A filter the driver can run: no bound is an Invalid Date. What the
    driver does with an Invalid Date is not part of this model. *)
Definition runnable (f : DateFilter) : bool :=
  match date_gte f, date_lte f with
  | Some None, _ | _, Some None => false
  | _, _ => true
  end.

(** [{ date: { $gte, $lte } }] on a document. *)
Definition matchesDate (f : DateFilter) (d : JS.Date) : bool :=
  match date_gte f with
  | Some (Some from) =>
      match d with Some t => from <=? t | None => false end
  | _ => true
  end
  && match date_lte f with
     | Some (Some to) =>
         match d with Some t => t <=? to | None => false end
     | _ => true
     end.

(** [{ date: 1 }]: ascending, a missing date first. *)
Definition dateBefore (a b : StoreMetric) : bool :=
  match sm_date a, sm_date b with
  | Some x, Some y => x <=? y
  | None, _ => true
  | Some _, None => false
  end.

(** [findByStore(storeId, range?, startDate?, endDate?)]; [None] when
    the filter is not runnable. *)
Definition findByStore (now : Z) (db : list StoreMetric) (storeId : string)
    (range startDate endDate : option string) : option (list StoreMetric) :=
  let f := buildDateRangeFilter now range startDate endDate in
  if runnable f
  then Some (sortBy dateBefore
               (filter (fun row => matchesDate f (sm_date row)
                                   && String.eqb (sm_storeId row) storeId)
                       db))
  else None.

(** The [$match] stage of [aggregate]. *)
Definition matched (f : DateFilter) (storeIds : option (list string))
    (db : list StoreMetric) : list StoreMetric :=
  filter (fun row =>
            matchesDate f (sm_date row)
            && match storeIds with
               | Some (id :: ids) => includes (id :: ids) (sm_storeId row)
               | _ => true
               end)
         db.

(** The [$group] stage: one document per [storeId], with the sums of
    the four fields. *)
Definition addToGroup (groups : JS.Map StoreGroup) (row : StoreMetric)
  : JS.Map StoreGroup :=
  let g := match JS.get groups (sm_storeId row) with
           | Some g => g
           | None => {| sg_id := sm_storeId row; sg_facebookMetaSpend := 0%Q;
                        sg_googleAdSpend := 0%Q; sg_shopifySoldOrders := 0%Q;
                        sg_shopifyOrderValue := 0%Q |}
           end in
  JS.set groups (sm_storeId row)
    {| sg_id := sg_id g;
       sg_facebookMetaSpend :=
         (sg_facebookMetaSpend g + sm_facebookMetaSpend row)%Q;
       sg_googleAdSpend := (sg_googleAdSpend g + sm_googleAdSpend row)%Q;
       sg_shopifySoldOrders :=
         (sg_shopifySoldOrders g + sm_shopifySoldOrders row)%Q;
       sg_shopifyOrderValue :=
         (sg_shopifyOrderValue g + sm_shopifyOrderValue row)%Q |}.

Definition group (rows : list StoreMetric) : list StoreGroup :=
  JS.values (fold_left addToGroup rows []).

Definition rangeOrDefault (range : option string) : string :=
  match range with
  | Some r => if String.eqb r "" then "last30days" else r
  | None => "last30days"
  end.

(** [aggregate(range?, storeIds?)]; [None] when the filter is not
    runnable. *)
Definition aggregate (now : Z) (db : list StoreMetric) (range : option string)
    (storeIds : option (list string)) : option AggregateResult :=
  let f := buildDateRangeFilter now range None None in
  if runnable f
  then
    let result := group (matched f storeIds db) in
    Some {| ag_totalStores := List.length result;
            ag_totalAdSpend :=
              fold_left (fun sum r => (sum + sg_facebookMetaSpend r
                                       + sg_googleAdSpend r)%Q) result 0%Q;
            ag_totalOrders :=
              fold_left (fun sum r => (sum + sg_shopifySoldOrders r)%Q)
                        result 0%Q;
            ag_totalRevenue :=
              fold_left (fun sum r => (sum + sg_shopifyOrderValue r)%Q)
                        result 0%Q;
            ag_dateRange := rangeOrDefault range |}
  else None.

(** [MetricsController.getAggregate(req, range?)] *)
Definition getAggregate (now : Z) (db : list StoreMetric) (user : RequestUser)
    (range : option string) : option AggregateResult :=
  match role user with
  | ADMIN => aggregate now db (Some (rangeOrDefault range)) None
  | _ =>
      match assignedStores user with
      | [] =>
          Some {| ag_totalStores := 0; ag_totalAdSpend := 0%Q;
                  ag_totalOrders := 0%Q; ag_totalRevenue := 0%Q;
                  ag_dateRange := rangeOrDefault range |}
      | stores =>
          aggregate now db (Some (rangeOrDefault range)) (Some stores)
      end
  end.

End WithRuntime.
End MetricsQueries.

(** ** Reading the product and traffic analytics *)


(** An entry of [topLandingPages] in the response of
    [getTrafficAnalytics]. *)
Record TopLandingPage := {
  lp_landingPageType : string;
  lp_landingPagePath : string;
  lp_onlineStoreVisitors : Z;
  lp_sessions : Z;
  lp_sessionsWithCartAdditions : Z;
  lp_sessionsThatReachedCheckout : Z;
  lp_conversionRate : number;
  lp_lastSyncDate : Z
}.

Module AnalyticsQueries.

(** [limit && limit > 0 ? limit : fallback] *)
Definition limitOr (limit : option Z) (fallback : Z) : Z :=
  match limit with
  | Some n => if 0 <? n then n else fallback
  | None => fallback
  end.





(** [{ sessions: -1 }] *)
Definition moreSessions (a b : TrafficMetric) : bool :=
  tm_sessions b <=? tm_sessions a.

(** The filter of [getTopLandingPagesByStore]: both bounds are put on
    [startDate]. *)
Definition inRange (storeId : string) (startDate endDate : option Z)
    (doc : TrafficMetric) : bool :=
  String.eqb (tm_storeId doc) storeId
  && match startDate with
     | Some from => from <=? tm_startDate doc
     | None => true
     end
  && match endDate with
     | Some to => tm_startDate doc <=? to
     | None => true
     end.

(** [TrafficMetricsService.getTopLandingPagesByStore(storeId, limit,
    startDate?, endDate?)], for bounds that are valid Dates. *)
Definition getTopLandingPagesByStore (db : list TrafficMetric)
    (storeId : string) (limit : Z) (startDate endDate : option Z)
  : list TrafficMetric :=
  firstn (Z.to_nat limit)
    (sortBy moreSessions (filter (inRange storeId startDate endDate) db)).

(** [sessions > 0 ? Math.round((checkout / sessions) * 10000) / 100 : 0] *)
Definition conversionRate (p : TrafficMetric) : number :=
  if 0 <? tm_sessions p
  then Double.div
         (Number.round
            (Double.mul
               (Double.div (Number.ofZ (tm_sessionsThatReachedCheckout p))
                           (Number.ofZ (tm_sessions p)))
               (Num 10000)))
         (Num 100)
  else Num 0.

Definition toTopLandingPage (p : TrafficMetric) : TopLandingPage :=
  {| lp_landingPageType := tm_landingPageType p;
     lp_landingPagePath := tm_landingPagePath p;
     lp_onlineStoreVisitors := tm_onlineStoreVisitors p;
     lp_sessions := tm_sessions p;
     lp_sessionsWithCartAdditions := tm_sessionsWithCartAdditions p;
     lp_sessionsThatReachedCheckout := tm_sessionsThatReachedCheckout p;
     lp_conversionRate := conversionRate p;
     lp_lastSyncDate := tm_lastSyncDate p |}.

(** [startDate ? new Date(startDate) : undefined] *)
Definition parseBound (rt : JS.Runtime) (s : option string) : option JS.Date :=
  match s with
  | Some text => if String.eqb text "" then None
                 else Some (JS.newDate rt text)
  | None => None
  end.

(** [AnalyticsController.getTrafficAnalytics(storeId, limit?,
    startDate?, endDate?)]; [Ok None] stands for a query with an
    Invalid Date as a bound, which is left to the driver. *)
Definition getTrafficAnalytics (rt : JS.Runtime) (stores : list Store)
    (db : list TrafficMetric) (storeId : string) (limit : option Z)
    (startDate endDate : option string)
  : Result (option (list TopLandingPage)) :=
  match find (fun s => String.eqb (store_id s) storeId) stores with
  | None => Rejected (NotFound "Store not found")
  | Some store =>
      match parseBound rt startDate, parseBound rt endDate with
      | Some None, _ | _, Some None => Ok None
      | start, finish =>
          Ok (Some
                (map toTopLandingPage
                   (getTopLandingPagesByStore db storeId (limitOr limit 10)
                      (match start with Some d => d | None => None end)
                      (match finish with Some d => d | None => None end))))
      end
  end.

End AnalyticsQueries.

(** ** Signing up: the pending registration and its one-time code *)

(** A PendingUser document. *)
Record PendingUser := {
  pu_email : string;
  pu_name : string;
  pu_password : string;
  pu_storeName : string;
  pu_storeUrl : string;
  pu_otp : string;
  pu_otpExpiresAt : Z;
  pu_isVerified : bool
}.

Record Registry := {
  pendingUsers : list PendingUser;
  directory : Directory
}.

Module Registration.

Definition byEmail (email : string) (p : PendingUser) : bool :=
  String.eqb (pu_email p) email.

(** [UsersService.findByStoreName(storeName)] *)
Definition findByStoreName (d : Directory) (storeName : string)
  : option User :=
  find (fun user => String.eqb (u_storeName user) storeName) (users d).

(** [AuthService.signup(dto)]; [otp] is the code [generateOtp] drew,
    [hashedPassword] what [bcrypt.hash] returned, [now] the time of the
    call. *)
Definition signup (otp : string) (now : Z) (hashedPassword : string)
    (dto_email dto_name dto_storeName dto_storeUrl : string) (r : Registry)
  : Result unit * Registry :=
  match UsersService.findByEmail (directory r) dto_email with
  | Some _ => (Rejected (Conflict "Email already registered"), r)
  | None =>
      match findByStoreName (directory r) dto_storeName with
      | Some _ => (Rejected (Conflict "Store name already in use"), r)
      | None =>
          let kept := Mongo.deleteMany (byEmail dto_email) (pendingUsers r) in
          (Ok tt,
           {| pendingUsers :=
                kept ++ [ {| pu_email := dto_email; pu_name := dto_name;
                             pu_password := hashedPassword;
                             pu_storeName := dto_storeName;
                             pu_storeUrl := dto_storeUrl;
                             pu_otp := otp;
                             pu_otpExpiresAt := now + 10 * 60000;
                             pu_isVerified := false |} ];
              directory := logged USER_SIGNUP dto_email (directory r) |})
      end
  end.






End Registration.

(** ** Updating a store *)

(** [UpdateStoreDto]: every field is optional. *)
Record UpdateStoreDto := {
  dto_name : option string;
  dto_shopifyToken : option string;
  dto_shopifyStoreUrl : option string;
  dto_fbAdSpendToken : option string;
  dto_fbAccountId : option string
}.

Module StoreUpdate.

(** What [findByIdAndUpdate(id, dto)] sets on the store. *)
Definition applyDto (dto : UpdateStoreDto) (store : Store) : Store :=
  {| store_id := store_id store;
     name := match dto_name dto with Some v => v | None => name store end;
     shopifyToken := match dto_shopifyToken dto with
                     | Some v => v | None => shopifyToken store end;
     shopifyStoreUrl := match dto_shopifyStoreUrl dto with
                        | Some v => v | None => shopifyStoreUrl store end;
     fbAdSpendToken := match dto_fbAdSpendToken dto with
                       | Some v => Some v | None => fbAdSpendToken store end;
     fbAccountId := match dto_fbAccountId dto with
                    | Some v => Some v | None => fbAccountId store end;
     googleAccessToken := googleAccessToken store;
     googleRefreshToken := googleRefreshToken store;
     googleCustomerId := googleCustomerId store;
     googleTokenExpiry := googleTokenExpiry store |}.

(** [StoresService.update(id, dto)] *)
Definition update (id : string) (dto : UpdateStoreDto) (db : Database)
  : Result Store * Database :=
  match updateFirst (fun s => String.eqb (store_id s) id) (applyDto dto)
          (db_stores db) with
  | (Some store, stores') =>
      (Ok store,
       {| db_stores := stores'; db_storeMetrics := db_storeMetrics db;
          db_productMetrics := db_productMetrics db;
          db_trafficMetrics := db_trafficMetrics db;
          db_directory := db_directory db |})
  | (None, _) => (Rejected (NotFound "Store not found"), db)
  end.

Definition audited (id : string) (db : Database) : Database :=
  {| db_stores := db_stores db; db_storeMetrics := db_storeMetrics db;
     db_productMetrics := db_productMetrics db;
     db_trafficMetrics := db_trafficMetrics db;
     db_directory := logged STORE_UPDATED id (db_directory db) |}.

(** [StoresService.updateForUser(id, dto, user)] *)
Definition updateForUser (id : string) (dto : UpdateStoreDto)
    (user : RequestUser) (db : Database) : Result Store * Database :=
  match role user with
  | ADMIN => update id dto (audited id db)
  | MANAGER =>
      if negb (StoreAccess.canAccessStore (Some user) id)
      then (Rejected
              (Forbidden "You do not have permission to update this store"),
            db)
      else update id dto (audited id db)
  | VIEWER =>
      (Rejected (Forbidden "You do not have permission to update stores"), db)
  end.

End StoreUpdate.

(** ** A concrete runtime and concrete data for the examples *)

Module Fixture.

Definition digit (c : Ascii.ascii) : option Z :=
  let n := Z.of_nat (Ascii.nat_of_ascii c) in
  if (48 <=? n) && (n <=? 57) then Some (n - 48) else None.

Fixpoint digits (s : string) (acc : Z) : option Z :=
  match s with
  | EmptyString => Some acc
  | String c s' =>
      match digit c with
      | Some d => digits s' (10 * acc + d)
      | None => None
      end
  end.

(** Days since 1970-01-01 of a civil date. *)
Definition daysFromCivil (y m d : Z) : Z :=
  let y' := if m <=? 2 then y - 1 else y in
  let era := y' / 400 in
  let yoe := y' - era * 400 in
  let mp := (m + 9) mod 12 in
  let doy := (153 * mp + 2) / 5 + d - 1 in
  let doe := yoe * 365 + yoe / 4 - yoe / 100 + doy in
  era * 146097 + doe - 719468.

(** [new Date("YYYY-MM-DD")]: midnight UTC of that day; any other
    text is an Invalid Date. *)
Definition newDate (s : string) : JS.Date :=
  if (String.length s =? 10)%nat
     && String.eqb (substring 4 1 s) "-" && String.eqb (substring 7 1 s) "-"
  then
    match digits (substring 0 4 s) 0, digits (substring 5 2 s) 0,
          digits (substring 8 2 s) 0 with
    | Some y, Some m, Some d =>
        if (1 <=? m) && (m <=? 12) && (1 <=? d) && (d <=? 31)
        then Some (daysFromCivil y m d * 86400000)
        else None
    | _, _, _ => None
    end
  else None.

Definition digitChar (d : Z) : string :=
  String (Ascii.ascii_of_nat (Z.to_nat (48 + d mod 10))) EmptyString.

Definition pad (width : nat) (n : Z) : string :=
  (fix go (k : nat) (n : Z) (acc : string) : string :=
     match k with
     | O => acc
     | S k' => go k' (n / 10) (digitChar n ++ acc)%string
     end) width n EmptyString.

(** [new Date(t).toISOString().slice(0, 10)] *)
Definition toISODate (t : Z) : string :=
  let z := t / 86400000 + 719468 in
  let era := z / 146097 in
  let doe := z - era * 146097 in
  let yoe := (doe - doe / 1460 + doe / 36524 - doe / 146096) / 365 in
  let doy := doe - (365 * yoe + yoe / 4 - yoe / 100) in
  let mp := (5 * doy + 2) / 153 in
  let d := doy - (153 * mp + 2) / 5 + 1 in
  let m := if mp <? 10 then mp + 3 else mp - 9 in
  let y := yoe + era * 400 + (if m <=? 2 then 1 else 0) in
  (pad 4 y ++ "-" ++ pad 2 m ++ "-" ++ pad 2 d)%string.

Definition runtime : JS.Runtime :=
  {| JS.newDate := newDate; JS.toISODate := toISODate |}.

(** The digits at the start of a text, and the rest. *)
Fixpoint takeDigits (s : string) : list Z * string :=
  match s with
  | EmptyString => ([], s)
  | String c s' =>
      match digit c with
      | Some d => let '(ds, rest) := takeDigits s' in (d :: ds, rest)
      | None => ([], s)
      end
  end.

Definition valueOf (ds : list Z) : Z :=
  fold_left (fun acc d => 10 * acc + d) ds 0.

(** The character [c] is the one of the one-letter text [t]. *)
Definition isChar (c : Ascii.ascii) (t : string) : bool :=
  String.eqb (String c EmptyString) t.

Definition takeSign (s : string) : Z * string :=
  match s with
  | String c s' =>
      if isChar c "-" then (-1, s') else if isChar c "+" then (1, s') else (1, s)
  | EmptyString => (1, s)
  end.

(** The exponent part at the start of a text, 0 when there is none. *)
Definition takeExponent (s : string) : Z :=
  match s with
  | String c s' =>
      if isChar c "e" || isChar c "E"
      then let '(sign, s'') := takeSign s' in
           match takeDigits s'' with
           | ([], _) => 0
           | (ds, _) => sign * valueOf ds
           end
      else 0
  | EmptyString => 0
  end.

(** [parseFloat] of a text without leading white space: the decimal
    numeral at its start, rounded to a double; NaN when there is no
    numeral. (The text Infinity, which [parseFloat] reads too, is not
    among the examples.) *)
Definition readFloat (s : string) : number :=
  let '(sign, s1) := takeSign s in
  let '(int, s2) := takeDigits s1 in
  let '(frac, s3) :=
    match s2 with
    | String c s' => if isChar c "." then takeDigits s' else ([], s2)
    | EmptyString => ([], s2)
    end in
  match int ++ frac with
  | [] => NaN
  | ds =>
      Double.ofQ
        (inject_Z (sign * valueOf ds)
         * (10 ^ (takeExponent s3 - Z.of_nat (List.length frac)))%Q)
  end.

(** [parseInt(s, 10)] of a text without leading white space. *)
Definition readInt (s : string) : number :=
  let '(sign, s1) := takeSign s in
  match takeDigits s1 with
  | ([], _) => NaN
  | (ds, _) => Double.ofQ (inject_Z (sign * valueOf ds))
  end.

Definition parser : NumberParser :=
  {| parseFloat := readFloat; parseInt := readInt |}.

Definition emptyWorld : World :=
  {| auditLog := []; storeMetrics := []; vendorCalls := []; slept := [];
     clock := 1730600000000;
     shopifyReplies := []; facebookReplies := []; googleReplies := [];
     oauthReplies := [] |}.

(** A store with every integration configured. *)
Definition storeS : Store :=
  {| store_id := "64b7f0c2a1"; name := "S";
     shopifyToken := "shpat_x"; shopifyStoreUrl := "s.myshopify.com";
     fbAdSpendToken := Some "EAAB"; fbAccountId := Some "act_123456789";
     googleAccessToken := Some "ya29"; googleRefreshToken := Some "1//0g";
     googleCustomerId := Some "123-456-7890";
     googleTokenExpiry := Some 1730700000000 |}.

End Fixture.

(** * Properties *)

(** ** Insertion-ordered maps *)

Section MapFacts.
Context {V : Type}.
Implicit Types (m : JS.Map V) (k d : string) (v : V).

Lemma has_get m k :
  JS.has m k = match JS.get m k with Some _ => true | None => false end.
Proof.
  induction m as [|[k' v'] m IH]; simpl; [reflexivity|].
  destruct (String.eqb k' k); auto.
Qed.

Lemma has_keys m k : JS.has m k = true <-> In k (JS.keys m).
Proof.
  induction m as [|[k' v'] m IH]; simpl.
  - split; [discriminate | tauto].
  - destruct (String.eqb_spec k' k) as [->|Hne].
    + split; auto.
    + rewrite IH. split; [auto | intros [H|H]; [congruence | exact H]].
Qed.

Lemma get_set m k v d :
  JS.get (JS.set m k v) d = if String.eqb k d then Some v else JS.get m d.
Proof.
  induction m as [|[k' v'] m IH]; simpl; [reflexivity|].
  destruct (String.eqb_spec k' k) as [->|Hne]; simpl.
  - destruct (String.eqb k d); reflexivity.
  - rewrite IH. destruct (String.eqb_spec k' d) as [->|Hne'].
    + destruct (String.eqb_spec k d); [congruence | reflexivity].
    + reflexivity.
Qed.

Lemma keys_set m k v :
  JS.keys (JS.set m k v) = if JS.has m k then JS.keys m else JS.keys m ++ [k].
Proof.
  induction m as [|[k' v'] m IH]; simpl; [reflexivity|].
  destruct (String.eqb k' k); simpl; [reflexivity|].
  rewrite IH. destruct (JS.has m k); reflexivity.
Qed.

Lemma get_In m k v :
  NoDup (JS.keys m) -> In (k, v) m -> JS.get m k = Some v.
Proof.
  induction m as [|[k' v'] m IH]; simpl; [tauto|].
  intros Hnd [Heq|Hin].
  - inversion Heq; subst. rewrite String.eqb_refl. reflexivity.
  - inversion Hnd as [|? ? Hnotin Hnd']; subst.
    destruct (String.eqb_spec k' k) as [->|Hne].
    + exfalso. apply Hnotin. change k with (fst (k, v)).
      apply in_map. exact Hin.
    + auto.
Qed.

End MapFacts.

(** ** The merge, pass by pass *)

(** The last row of a vendor's array that reports the date [d]. *)
Fixpoint lastRowFor {Row} (key : Row -> string) (d : string) (rows : list Row)
  : option Row :=
  match rows with
  | [] => None
  | r :: rs =>
      match lastRowFor key d rs with
      | Some r' => Some r'
      | None => if String.eqb (key r) d then Some r else None
      end
  end.

Lemma lastRowFor_In {Row} (key : Row -> string) d rows :
  In d (map key rows) <-> lastRowFor key d rows <> None.
Proof.
  induction rows as [|r rs IH]; simpl.
  - split; [tauto | congruence].
  - destruct (lastRowFor key d rs) as [r'|].
    + split; [congruence | intros _; right; apply IH; congruence].
    + destruct (String.eqb_spec (key r) d) as [->|Hne].
      * split; [congruence | auto].
      * split; [intros [H|H]; [congruence | apply IH in H; congruence] | congruence].
Qed.

Section Pass.
Variable rt : JS.Runtime.
Variable sid : string.
Context {Row : Type}.
Variable key : Row -> string.
Variable upd : Row -> CreateMetricInput -> CreateMetricInput.
Hypothesis upd_overrides : forall r r' e, upd r' (upd r e) = upd r' e.

Let assign := Merge.assign rt sid.
Let pass (m : JS.Map CreateMetricInput) (rows : list Row) :=
  fold_left (fun m row => assign m (key row) (upd row)) rows m.

Definition entryOr (m : JS.Map CreateMetricInput) (d : string) :=
  match JS.get m d with
  | Some e => e
  | None => Merge.freshEntry rt sid d
  end.

Lemma get_assign m k f d :
  JS.get (assign m k f) d
  = if String.eqb k d then Some (f (entryOr m k)) else JS.get m d.
Proof.
  unfold assign, Merge.assign, Merge.getOrCreateEntry, entryOr.
  rewrite get_set. destruct (String.eqb_spec k d) as [->|Hne].
  - f_equal. f_equal. rewrite has_get.
    destruct (JS.get m d) eqn:E; simpl.
    + rewrite E. reflexivity.
    + rewrite get_set, String.eqb_refl. reflexivity.
  - rewrite has_get. destruct (JS.get m k); simpl; [reflexivity|].
    rewrite get_set. destruct (String.eqb_spec k d); [congruence | reflexivity].
Qed.

Lemma keys_assign m k f :
  JS.keys (assign m k f)
  = if JS.has m k then JS.keys m else JS.keys m ++ [k].
Proof.
  unfold assign, Merge.assign, Merge.getOrCreateEntry.
  rewrite keys_set. destruct (JS.has m k) eqn:E; simpl.
  - rewrite E. reflexivity.
  - rewrite keys_set, E.
    assert (H : JS.has (JS.set m k (Merge.freshEntry rt sid k)) k = true).
    { rewrite has_get, get_set, String.eqb_refl. reflexivity. }
    rewrite H. reflexivity.
Qed.

Lemma get_pass rows : forall m d,
  JS.get (pass m rows) d
  = match lastRowFor key d rows with
    | Some r => Some (upd r (entryOr m d))
    | None => JS.get m d
    end.
Proof.
  induction rows as [|r rs IH]; intros m d; simpl; [reflexivity|].
  unfold pass in *. simpl. rewrite IH.
  unfold entryOr at 1. rewrite !get_assign.
  destruct (lastRowFor key d rs) as [r'|].
  - destruct (String.eqb_spec (key r) d) as [->|Hne].
    + rewrite upd_overrides. reflexivity.
    + reflexivity.
  - destruct (String.eqb_spec (key r) d) as [->|Hne]; reflexivity.
Qed.

Lemma keys_pass rows : forall m d,
  In d (JS.keys (pass m rows)) <-> In d (JS.keys m) \/ In d (map key rows).
Proof.
  induction rows as [|r rs IH]; intros m d; simpl; [tauto|].
  unfold pass in *. simpl. rewrite IH, keys_assign.
  destruct (JS.has m (key r)) eqn:E.
  - apply has_keys in E. split; [tauto|].
    intros [H|[H|H]]; subst; auto.
  - rewrite in_app_iff. simpl. tauto.
Qed.

Lemma NoDup_pass rows : forall m,
  NoDup (JS.keys m) -> NoDup (JS.keys (pass m rows)).
Proof.
  induction rows as [|r rs IH]; intros m Hnd; simpl; [exact Hnd|].
  unfold pass in *. simpl. apply IH. rewrite keys_assign.
  destruct (JS.has m (key r)) eqn:E; [exact Hnd|].
  apply NoDup_app; [exact Hnd | constructor; [simpl; tauto | constructor] |].
  intros x Hx [Hk|[]]; subst.
  apply has_keys in Hx. congruence.
Qed.
End Pass.

(** ** The upsert loop *)

Lemma forEach_createOrUpdate metrics : forall w,
  fst (forEach metrics createOrUpdate w) = Returned tt
  /\ storeMetrics (snd (forEach metrics createOrUpdate w))
     = fold_left MetricsService.createOrUpdate metrics (storeMetrics w)
  /\ auditLog (snd (forEach metrics createOrUpdate w)) = auditLog w
  /\ vendorCalls (snd (forEach metrics createOrUpdate w)) = vendorCalls w.
Proof.
  induction metrics as [|metric metrics IH]; intros w; [repeat split|].
  cbn [forEach]. unfold bind.
  change (createOrUpdate metric w)
    with (Returned tt,
          withStoreMetrics
            (fun db => MetricsService.createOrUpdate db metric) w).
  cbv iota.
  destruct (IH (withStoreMetrics
                  (fun db => MetricsService.createOrUpdate db metric) w))
    as [H1 [H2 [H3 H4]]].
  rewrite H1, H2, H3, H4. repeat split.
Qed.

(** ** C1: the merge-by-date step *)

(** The record the claim describes for the date [d]: every field 0
    unless its vendor reported [d], and then the value of the vendor's
    (last) row for [d]. *)
Definition expectedEntry (rt : JS.Runtime) (sid : string)
    (shopifyData : list DailyOrdersSummary) (fbData googleSpend : list DailyAdSpend)
    (d : string) : CreateMetricInput :=
  {| storeId := sid;
     date := JS.newDate rt d;
     facebookMetaSpend :=
       match lastRowFor das_date d fbData with
       | Some r => spend r | None => 0%Q end;
     googleAdSpend :=
       match lastRowFor das_date d googleSpend with
       | Some r => spend r | None => 0%Q end;
     shopifySoldOrders :=
       match lastRowFor dos_date d shopifyData with
       | Some r => soldOrders r | None => 0%Q end;
     shopifyOrderValue :=
       match lastRowFor dos_date d shopifyData with
       | Some r => orderValue r | None => 0%Q end;
     shopifySoldItems :=
       match lastRowFor dos_date d shopifyData with
       | Some r => soldItems r | None => 0%Q end |}.

(** The dates the three result arrays report. *)
Definition reportedDates (shopifyData : list DailyOrdersSummary)
    (fbData googleSpend : list DailyAdSpend) : list string :=
  map dos_date shopifyData ++ map das_date fbData ++ map das_date googleSpend.

Lemma get_mergeDaily rt sid yesterday shopifyData fbData googleSpend d :
  JS.get (Merge.mergeDaily rt sid yesterday (Merge.IsArray shopifyData)
            (Merge.IsArray fbData) (Merge.IsArray googleSpend)) d
  = if in_dec string_dec d (reportedDates shopifyData fbData googleSpend)
    then Some (expectedEntry rt sid shopifyData fbData googleSpend d)
    else None.
Proof.
  unfold Merge.mergeDaily, Merge.passGoogleDaily, Merge.passFacebook,
    Merge.passShopify, Merge.processGoogle, Merge.processFacebook,
    Merge.processShopify.
  rewrite (get_pass rt sid das_date (fun row => Merge.setGoogle (spend row)))
    by reflexivity.
  unfold entryOr.
  rewrite (get_pass rt sid das_date Merge.setFacebook) by reflexivity.
  unfold entryOr.
  rewrite (get_pass rt sid dos_date Merge.setShopify) by reflexivity.
  unfold entryOr, expectedEntry, reportedDates. simpl JS.get.
  pose proof (lastRowFor_In dos_date d shopifyData) as HS.
  pose proof (lastRowFor_In das_date d fbData) as HF.
  pose proof (lastRowFor_In das_date d googleSpend) as HG.
  destruct (in_dec string_dec d _) as [Hin|Hnin].
  - destruct (lastRowFor das_date d googleSpend) as [g|],
             (lastRowFor das_date d fbData) as [f|],
             (lastRowFor dos_date d shopifyData) as [s|];
      try reflexivity.
    exfalso. rewrite !in_app_iff in Hin.
    destruct Hin as [H|[H|H]];
      [apply HS in H | apply HF in H | apply HG in H]; congruence.
  - rewrite !in_app_iff in Hnin.
    destruct (lastRowFor das_date d googleSpend) as [g|];
      [exfalso; apply Hnin; right; right; apply HG; congruence|].
    destruct (lastRowFor das_date d fbData) as [f|];
      [exfalso; apply Hnin; right; left; apply HF; congruence|].
    destruct (lastRowFor dos_date d shopifyData) as [s|];
      [exfalso; apply Hnin; left; apply HS; congruence|].
    reflexivity.
Qed.

Lemma keys_mergeDaily rt sid yesterday shopifyData fbData googleSpend :
  let m := Merge.mergeDaily rt sid yesterday (Merge.IsArray shopifyData)
             (Merge.IsArray fbData) (Merge.IsArray googleSpend) in
  NoDup (JS.keys m)
  /\ forall d, In d (JS.keys m)
               <-> In d (reportedDates shopifyData fbData googleSpend).
Proof.
  unfold Merge.mergeDaily, Merge.passGoogleDaily, Merge.passFacebook,
    Merge.passShopify, Merge.processGoogle, Merge.processFacebook,
    Merge.processShopify, reportedDates.
  split.
  - repeat apply NoDup_pass. constructor.
  - intros d.
    rewrite (keys_pass rt sid das_date (fun row => Merge.setGoogle (spend row))).
    rewrite (keys_pass rt sid das_date Merge.setFacebook).
    rewrite (keys_pass rt sid dos_date Merge.setShopify).
    rewrite !in_app_iff. simpl. tauto.
Qed.

(** A date that Google did not report keeps [googleAdSpend] at 0. *)
Lemma mergeDaily_without_google rt sid yesterday shopifyData fbData d e :
  In (d, e)
     (Merge.mergeDaily rt sid yesterday (Merge.IsArray shopifyData)
        (Merge.IsArray fbData) (Merge.IsArray [])) ->
  googleAdSpend e = 0%Q.
Proof.
  intros Hin.
  destruct (keys_mergeDaily rt sid yesterday shopifyData fbData []) as [Hnd _].
  apply (get_In _ d e Hnd) in Hin. rewrite get_mergeDaily in Hin.
  destruct (in_dec string_dec d _); [|discriminate].
  inversion Hin. reflexivity.
Qed.


(** The end-to-end example of the specification. *)
Example merge_2024_11_01 :
  Merge.mergeDaily Fixture.runtime "S" 1730419200000
    (Merge.IsArray [ {| dos_date := "2024-11-01"; soldOrders := 10;
                        orderValue := 500; soldItems := 20 |} ])
    (Merge.IsArray [ {| das_date := "2024-11-01"; spend := 50 |} ])
    (Merge.IsArray [ {| das_date := "2024-11-01"; spend := 30 |} ])
  = [ ("2024-11-01",
       {| storeId := "S"; date := Some 1730419200000;
          facebookMetaSpend := 50; googleAdSpend := 30;
          shopifySoldOrders := 10; shopifyOrderValue := 500;
          shopifySoldItems := 20 |}) ].
Proof. vm_compute. reflexivity. Qed.

(** Shopify reports D1 and D2, Facebook D2 and D3, Google D1 and D3. *)
Example merge_three_dates :
  map fst
    (Merge.mergeRange Fixture.runtime "S"
       (Merge.IsArray [ {| dos_date := "2024-11-01"; soldOrders := 1;
                           orderValue := 10; soldItems := 2 |};
                        {| dos_date := "2024-11-02"; soldOrders := 3;
                           orderValue := 30; soldItems := 4 |} ])
       (Merge.IsArray [ {| das_date := "2024-11-02"; spend := 5 |};
                        {| das_date := "2024-11-03"; spend := 6 |} ])
       (Merge.IsArray [ {| das_date := "2024-11-01"; spend := 7 |};
                        {| das_date := "2024-11-03"; spend := 8 |} ]))
  = ["2024-11-01"; "2024-11-02"; "2024-11-03"].
Proof. vm_compute. reflexivity. Qed.

(** ** Collections with a unique key *)

Section KeyedCollection.
Context {Doc K : Type}.
Variable key : Doc -> K.

(** An upsert whose filter fixes the key, whose update keeps it and
    whose inserted document carries it. *)
Section Upsert.
Variable k : K.
Variable f : Doc -> bool.
Variable u : Doc -> Doc.
Variable ins : Doc.
Hypothesis f_key : forall d, f d = true <-> key d = k.
Hypothesis u_key : forall d, key (u d) = key d.
Hypothesis ins_key : key ins = k.

Lemma keys_findOneAndUpdate db :
  map key (Mongo.findOneAndUpdate f u ins db)
  = if existsb f db then map key db else map key db ++ [k].
Proof.
  induction db as [|d db IH]; simpl; [rewrite ins_key; reflexivity|].
  destruct (f d) eqn:E; simpl.
  - rewrite u_key. reflexivity.
  - rewrite IH. destruct (existsb f db); reflexivity.
Qed.

Lemma NoDup_findOneAndUpdate db :
  NoDup (map key db) -> NoDup (map key (Mongo.findOneAndUpdate f u ins db)).
Proof.
  intros Hnd. rewrite keys_findOneAndUpdate.
  destruct (existsb f db) eqn:E; [exact Hnd|].
  apply NoDup_app; [exact Hnd | constructor; [simpl; tauto | constructor] |].
  intros x Hx [Hk|[]]; subst x.
  apply in_map_iff in Hx. destruct Hx as [d [Hd Hin]].
  assert (Hex : existsb f db = true).
  { apply existsb_exists. exists d. split; [exact Hin | apply f_key; exact Hd]. }
  congruence.
Qed.

Lemma find_findOneAndUpdate db :
  find f (Mongo.findOneAndUpdate f u ins db)
  = Some (match find f db with Some d => u d | None => ins end).
Proof.
  assert (Hins : f ins = true) by (apply f_key; exact ins_key).
  assert (Hu : forall d, f d = true -> f (u d) = true).
  { intros d Hd. apply f_key. rewrite u_key. apply f_key. exact Hd. }
  induction db as [|d db IH]; simpl.
  - rewrite Hins. reflexivity.
  - destruct (f d) eqn:E; simpl.
    + rewrite (Hu d E). reflexivity.
    + rewrite E. exact IH.
Qed.

(** A filter that selects another key does not see the upsert. *)
Lemma find_other g k' db :
  (forall d, g d = true <-> key d = k') -> k' <> k ->
  find g (Mongo.findOneAndUpdate f u ins db) = find g db.
Proof.
  intros g_key Hne.
  assert (Hgf : forall d, f d = true -> g d = false /\ g (u d) = false).
  { intros d Hd. apply f_key in Hd. split.
    - destruct (g d) eqn:E; [apply g_key in E; congruence | reflexivity].
    - destruct (g (u d)) eqn:E; [|reflexivity].
      apply g_key in E. rewrite u_key in E. congruence. }
  assert (Hgi : g ins = false).
  { destruct (g ins) eqn:E; [apply g_key in E; congruence | reflexivity]. }
  induction db as [|d db IH]; simpl; [rewrite Hgi; reflexivity|].
  destruct (f d) eqn:E; simpl.
  - destruct (Hgf d E) as [-> ->]. reflexivity.
  - rewrite IH. reflexivity.
Qed.

Lemma In_findOneAndUpdate r db :
  In r (Mongo.findOneAndUpdate f u ins db) ->
  In r db \/ (exists d, In d db /\ f d = true /\ r = u d) \/ r = ins.
Proof.
  induction db as [|d db IH]; simpl.
  - intros [<-|[]]. auto.
  - destruct (f d) eqn:E; simpl.
    + intros [<-|Hin]; [|auto].
      right. left. exists d. auto.
    + intros [<-|Hin]; [left; auto|].
      destruct (IH Hin) as [H|[[d' [H1 [H2 H3]]]|H]]; auto.
      right. left. exists d'. auto.
Qed.

(** A predicate the filter excludes, the update keeps and the
    inserted document fails selects the same rows as before. *)
Lemma filter_findOneAndUpdate g db :
  (forall d, f d = true -> g d = false) ->
  (forall d, f d = true -> g (u d) = false) ->
  g ins = false ->
  filter g (Mongo.findOneAndUpdate f u ins db) = filter g db.
Proof.
  intros Hfg Hug Hins.
  induction db as [|d db IH]; simpl; [rewrite Hins; reflexivity|].
  destruct (f d) eqn:E; simpl.
  - rewrite (Hfg d E), (Hug d E). reflexivity.
  - rewrite IH. reflexivity.
Qed.

Lemma length_findOneAndUpdate db :
  List.length (Mongo.findOneAndUpdate f u ins db)
  = if existsb f db then List.length db else S (List.length db).
Proof.
  induction db as [|d db IH]; simpl; [reflexivity|].
  destruct (f d); simpl; [reflexivity|].
  rewrite IH. destruct (existsb f db); reflexivity.
Qed.
End Upsert.

(** Under a unique key, a filter on the key selects at most one row,
    and a row is what a lookup of its key finds. *)
Lemma filter_unique (g : Doc -> bool) k db :
  (forall d, g d = true <-> key d = k) ->
  NoDup (map key db) -> (List.length (filter g db) <= 1)%nat.
Proof.
  intros g_key. induction db as [|d db IH]; simpl; [lia|].
  intros Hnd. inversion Hnd as [|? ? Hnotin Hnd']; subst.
  destruct (g d) eqn:E; [|auto].
  simpl. assert (Hnone : filter g db = []).
  { destruct (filter g db) as [|d' l] eqn:Ef; [reflexivity|].
    exfalso. assert (Hin : In d' (filter g db)) by (rewrite Ef; left; reflexivity).
    apply filter_In in Hin. destruct Hin as [Hin Hg].
    apply Hnotin. apply g_key in E. apply g_key in Hg.
    rewrite E, <- Hg. apply in_map. exact Hin. }
  rewrite Hnone. simpl. lia.
Qed.

Lemma find_In_unique (g : Doc -> bool) r db :
  (forall d, g d = true <-> key d = key r) ->
  NoDup (map key db) -> In r db -> find g db = Some r.
Proof.
  intros g_key. induction db as [|d db IH]; simpl; [tauto|].
  intros Hnd [->|Hin].
  - assert (E : g r = true) by (apply g_key; reflexivity).
    rewrite E. reflexivity.
  - inversion Hnd as [|? ? Hnotin Hnd']; subst.
    destruct (g d) eqn:E; [|auto].
    exfalso. apply Hnotin. apply g_key in E. rewrite E.
    apply in_map. exact Hin.
Qed.

Lemma filter_find (g : Doc -> bool) k db :
  (forall d, g d = true <-> key d = k) ->
  NoDup (map key db) ->
  filter g db = match find g db with Some d => [d] | None => [] end.
Proof.
  intros g_key. induction db as [|d db IH]; simpl; [reflexivity|].
  intros Hnd. inversion Hnd as [|? ? Hnotin Hnd']; subst.
  destruct (g d) eqn:E; [|auto].
  f_equal. destruct (filter g db) as [|d' l] eqn:Ef; [reflexivity|].
  exfalso. assert (Hin : In d' (filter g db)) by (rewrite Ef; left; reflexivity).
  apply filter_In in Hin. destruct Hin as [Hin Hg].
  apply Hnotin. apply g_key in E. apply g_key in Hg.
  rewrite E, <- Hg. apply in_map. exact Hin.
Qed.
End KeyedCollection.

(** ** C2: one Daily Store Metric row per (store, date) *)

Lemma Date_eqb_eq (a b : JS.Date) : JS.Date_eqb a b = true <-> a = b.
Proof.
  destruct a as [x|], b as [y|]; simpl; split; try congruence.
  - intros H. apply Z.eqb_eq in H. congruence.
  - intros H. inversion H. apply Z.eqb_refl.
Qed.

Lemma metric_matches_key s d doc :
  MetricsService.matches s d doc = true <-> MetricsService.keyOf doc = (s, d).
Proof.
  unfold MetricsService.matches, MetricsService.keyOf.
  rewrite andb_true_iff, String.eqb_eq, Date_eqb_eq.
  split; [intros [-> ->]; reflexivity | intros H; inversion H; auto].
Qed.

Lemma createOrUpdate_NoDup db input :
  NoDup (map MetricsService.keyOf db) ->
  NoDup (map MetricsService.keyOf (MetricsService.createOrUpdate db input)).
Proof.
  apply (NoDup_findOneAndUpdate MetricsService.keyOf (storeId input, date input)).
  - intros d. apply metric_matches_key.
  - reflexivity.
  - reflexivity.
Qed.

Lemma createOrUpdate_runs_NoDup runs : forall db,
  NoDup (map MetricsService.keyOf db) ->
  NoDup (map MetricsService.keyOf
           (fold_left MetricsService.createOrUpdate runs db)).
Proof.
  induction runs as [|input runs IH]; intros db Hnd; simpl; [exact Hnd|].
  apply IH, createOrUpdate_NoDup, Hnd.
Qed.

Lemma setFields_matched input doc :
  MetricsService.matches (storeId input) (date input) doc = true ->
  MetricsService.setFields input doc = MetricsService.inserted input.
Proof.
  intros H. apply metric_matches_key in H. inversion H as [[Hs Hd]].
  unfold MetricsService.setFields, MetricsService.inserted.
  rewrite Hs, Hd. reflexivity.
Qed.

(** C2. Let the collection satisfy its unique index on
    [(storeId, date)]. After any number of [createOrUpdate] calls no
    pair (S, D) has more than one row; one more [createOrUpdate] for
    (S, D) leaves exactly one row for the pair, whose five metric fields
    are the new values whatever the row held before, leaves the rows of
    every other pair as they were, and adds no row when the pair had
    one. *)
Theorem C2_one_row_per_store_and_date :
  forall (db0 : list StoreMetric) (runs : list CreateMetricInput)
         (again : CreateMetricInput),
    NoDup (map MetricsService.keyOf db0) ->
    let db := fold_left MetricsService.createOrUpdate runs db0 in
    let db' := MetricsService.createOrUpdate db again in
    (forall s d, (List.length (MetricsService.rowsFor s d db) <= 1)%nat)
    /\ (forall s d, (List.length (MetricsService.rowsFor s d db') <= 1)%nat)
    /\ MetricsService.rowsFor (storeId again) (date again) db'
       = [MetricsService.inserted again]
    /\ (forall s d, (s, d) <> (storeId again, date again) ->
                    MetricsService.rowsFor s d db' = MetricsService.rowsFor s d db)
    /\ (MetricsService.rowsFor (storeId again) (date again) db <> [] ->
        List.length db' = List.length db).
Proof.
  intros db0 runs again Hnd0 db db'.
  assert (Hnd : NoDup (map MetricsService.keyOf db))
    by (apply createOrUpdate_runs_NoDup, Hnd0).
  assert (Hnd' : NoDup (map MetricsService.keyOf db'))
    by (apply createOrUpdate_NoDup, Hnd).
  assert (Hkey : forall s d doc,
             MetricsService.matches s d doc = true
             <-> MetricsService.keyOf doc = (s, d))
    by (intros; apply metric_matches_key).
  unfold MetricsService.rowsFor.
  split; [intros s d; apply (filter_unique MetricsService.keyOf _ (s, d)); auto|].
  split; [intros s d; apply (filter_unique MetricsService.keyOf _ (s, d)); auto|].
  split; [|split].
  - rewrite (filter_find MetricsService.keyOf _ (storeId again, date again))
      by auto.
    unfold db', MetricsService.createOrUpdate.
    rewrite (find_findOneAndUpdate MetricsService.keyOf
               (storeId again, date again)); auto.
    destruct (find _ db) as [doc|] eqn:E; [|reflexivity].
    apply find_some in E. destruct E as [_ E].
    rewrite (setFields_matched again doc E). reflexivity.
  - intros s d Hne.
    rewrite (filter_find MetricsService.keyOf _ (s, d) db') by auto.
    rewrite (filter_find MetricsService.keyOf _ (s, d) db) by auto.
    unfold db', MetricsService.createOrUpdate.
    rewrite (find_other MetricsService.keyOf (storeId again, date again)
               _ (MetricsService.setFields again) (MetricsService.inserted again)
               (fun d => Hkey _ _ d) (fun _ => eq_refl) eq_refl
               _ (s, d)); auto.
  - intros Hex. unfold db', MetricsService.createOrUpdate.
    rewrite length_findOneAndUpdate.
    destruct (existsb _ db) eqn:E; [reflexivity|].
    exfalso. apply Hex.
    destruct (filter _ db) as [|doc l] eqn:Ef; [reflexivity|].
    assert (Hin : In doc (filter (MetricsService.matches (storeId again)
                                    (date again)) db))
      by (rewrite Ef; left; reflexivity).
    apply filter_In in Hin.
    assert (existsb (MetricsService.matches (storeId again) (date again)) db
            = true) by (apply existsb_exists; exists doc; exact Hin).
    congruence.
Qed.

(** A second sync of 2024-11-01 on a collection that has the row. *)
Lemma C2_witness :
  NoDup (map MetricsService.keyOf [])
  /\ MetricsService.rowsFor "S" (Some 1730419200000)
       (MetricsService.createOrUpdate
          (fold_left MetricsService.createOrUpdate
             [ {| storeId := "S"; date := Some 1730419200000;
                  facebookMetaSpend := 50; googleAdSpend := 30;
                  shopifySoldOrders := 10; shopifyOrderValue := 500;
                  shopifySoldItems := 20 |} ] [])
          {| storeId := "S"; date := Some 1730419200000;
             facebookMetaSpend := 55; googleAdSpend := 0;
             shopifySoldOrders := 12; shopifyOrderValue := 640;
             shopifySoldItems := 25 |})
     = [ {| sm_storeId := "S"; sm_date := Some 1730419200000;
            sm_facebookMetaSpend := 55; sm_googleAdSpend := 0;
            sm_shopifySoldOrders := 12; sm_shopifyOrderValue := 640;
            sm_shopifySoldItems := 25 |} ].
Proof.
  split; [constructor|].
  apply (C2_one_row_per_store_and_date []
           [ {| storeId := "S"; date := Some 1730419200000;
                facebookMetaSpend := 50; googleAdSpend := 30;
                shopifySoldOrders := 10; shopifyOrderValue := 500;
                shopifySoldItems := 20 |} ]
           {| storeId := "S"; date := Some 1730419200000;
              facebookMetaSpend := 55; googleAdSpend := 0;
              shopifySoldOrders := 12; shopifyOrderValue := 640;
              shopifySoldItems := 25 |}).
  constructor.
Defined.

(** ** C3: reset-then-resync of the Product Metric rows *)

Definition sumQ (l : list Q) : Q := fold_right Qplus 0%Q l.

(** The items of a fetched batch that belong to the product [p]. *)
Definition itemsOf (p : string) (batch : list ProductSalesData)
  : list ProductSalesData :=
  filter (fun x => String.eqb (productId x) p) batch.

Section ProductTotals.
Variable now : Z.
Variable s : string.

Let upsert db product :=
  ProductMetricsService.upsertProductMetric now db
    (SyncProductMetricsJob.inputOf s product).

Definition quantityAt (p : string) (db : list ProductMetric) : Q :=
  match find (ProductMetricsService.matches s p) db with
  | Some r => totalQuantitySold r
  | None => 0%Q
  end.

Definition revenueAt (p : string) (db : list ProductMetric) : Q :=
  match find (ProductMetricsService.matches s p) db with
  | Some r => totalRevenue r
  | None => 0%Q
  end.

Lemma product_matches_key s' p doc :
  ProductMetricsService.matches s' p doc = true
  <-> ProductMetricsService.keyOf doc = (s', p).
Proof.
  unfold ProductMetricsService.matches, ProductMetricsService.keyOf.
  rewrite andb_true_iff, !String.eqb_eq.
  split; [intros [-> ->]; reflexivity | intros H; inversion H; auto].
Qed.

Lemma upsert_NoDup db product :
  NoDup (map ProductMetricsService.keyOf db) ->
  NoDup (map ProductMetricsService.keyOf (upsert db product)).
Proof.
  apply (NoDup_findOneAndUpdate ProductMetricsService.keyOf
           (s, productId product)).
  - intros d. apply product_matches_key.
  - reflexivity.
  - reflexivity.
Qed.

Lemma upsert_find p db product :
  find (ProductMetricsService.matches s p) (upsert db product)
  = if String.eqb (productId product) p
    then Some (match find (ProductMetricsService.matches s p) db with
               | Some d => ProductMetricsService.setAndInc now
                             (SyncProductMetricsJob.inputOf s product) d
               | None => ProductMetricsService.inserted now
                           (SyncProductMetricsJob.inputOf s product)
               end)
    else find (ProductMetricsService.matches s p) db.
Proof.
  unfold upsert, ProductMetricsService.upsertProductMetric. simpl.
  destruct (String.eqb_spec (productId product) p) as [E|Hne].
  - subst p.
    apply (find_findOneAndUpdate ProductMetricsService.keyOf
             (s, productId product)).
    + intros d. apply product_matches_key.
    + reflexivity.
    + reflexivity.
  - apply (find_other ProductMetricsService.keyOf (s, productId product))
      with (k' := (s, p)).
    + intros d. apply product_matches_key.
    + reflexivity.
    + reflexivity.
    + intros d. apply product_matches_key.
    + congruence.
Qed.

Lemma upsert_totals p db product :
  quantityAt p (upsert db product)
  == quantityAt p db
     + (if String.eqb (productId product) p then quantitySold product else 0)
  /\ revenueAt p (upsert db product)
     == revenueAt p db
        + (if String.eqb (productId product) p then revenue product else 0).
Proof.
  unfold quantityAt, revenueAt. rewrite upsert_find.
  destruct (String.eqb (productId product) p).
  - destruct (find _ db); simpl; split; ring.
  - destruct (find _ db); simpl; split; ring.
Qed.

Lemma upserts_totals batch : forall p db,
  quantityAt p (fold_left upsert batch db)
  == quantityAt p db + sumQ (map quantitySold (itemsOf p batch))
  /\ revenueAt p (fold_left upsert batch db)
     == revenueAt p db + sumQ (map revenue (itemsOf p batch)).
Proof.
  induction batch as [|x batch IH]; intros p db; simpl.
  - split; ring.
  - destruct (IH p (upsert db x)) as [IHq IHr].
    destruct (upsert_totals p db x) as [Hq Hr].
    rewrite IHq, IHr, Hq, Hr.
    destruct (String.eqb (productId x) p); simpl; split; ring.
Qed.

Lemma upserts_NoDup batch : forall db,
  NoDup (map ProductMetricsService.keyOf db) ->
  NoDup (map ProductMetricsService.keyOf (fold_left upsert batch db)).
Proof.
  induction batch as [|x batch IH]; intros db Hnd; simpl; [exact Hnd|].
  apply IH, upsert_NoDup, Hnd.
Qed.

Lemma upsert_keeps_keys k db product :
  In k (map ProductMetricsService.keyOf db) ->
  In k (map ProductMetricsService.keyOf (upsert db product)).
Proof.
  intros Hin. unfold upsert, ProductMetricsService.upsertProductMetric.
  rewrite (keys_findOneAndUpdate ProductMetricsService.keyOf
             (s, productId product)).
  - destruct (existsb _ db); [exact Hin | apply in_or_app; auto].
  - reflexivity.
  - reflexivity.
Qed.

Lemma upsert_adds_key db product :
  In (s, productId product)
     (map ProductMetricsService.keyOf (upsert db product)).
Proof.
  unfold upsert, ProductMetricsService.upsertProductMetric.
  rewrite (keys_findOneAndUpdate ProductMetricsService.keyOf
             (s, productId product)); [| reflexivity | reflexivity].
  simpl. destruct (existsb _ db) eqn:E.
  - apply existsb_exists in E. destruct E as [d [Hin Hd]].
    apply product_matches_key in Hd. rewrite <- Hd. apply in_map, Hin.
  - apply in_or_app. right. left. reflexivity.
Qed.

Lemma upserts_keep_keys k batch : forall db,
  In k (map ProductMetricsService.keyOf db) ->
  In k (map ProductMetricsService.keyOf (fold_left upsert batch db)).
Proof.
  induction batch as [|x batch IH]; intros db Hin; simpl; [exact Hin|].
  apply IH, upsert_keeps_keys, Hin.
Qed.

Lemma upserts_add_keys batch : forall db x,
  In x batch ->
  In (s, productId x)
     (map ProductMetricsService.keyOf (fold_left upsert batch db)).
Proof.
  induction batch as [|y batch IH]; intros db x; simpl; [tauto|].
  intros [->|Hin].
  - apply upserts_keep_keys, upsert_adds_key.
  - apply IH, Hin.
Qed.

Lemma reset_keys db :
  map ProductMetricsService.keyOf
      (ProductMetricsService.resetStoreProducts db s)
  = map ProductMetricsService.keyOf db.
Proof.
  unfold ProductMetricsService.resetStoreProducts, Mongo.updateMany.
  rewrite map_map. apply map_ext. intros d.
  destruct (ProductMetricsService.ofStore s d); reflexivity.
Qed.

Lemma reset_totals p db :
  quantityAt p (ProductMetricsService.resetStoreProducts db s) = 0%Q
  /\ revenueAt p (ProductMetricsService.resetStoreProducts db s) = 0%Q.
Proof.
  unfold quantityAt, revenueAt, ProductMetricsService.resetStoreProducts,
    Mongo.updateMany.
  induction db as [|d db IH]; simpl; [auto|].
  unfold ProductMetricsService.matches, ProductMetricsService.ofStore in *.
  destruct (String.eqb (pm_storeId d) s) eqn:Es; simpl.
  - rewrite Es. simpl. destruct (String.eqb (pm_productId d) p); simpl; auto.
  - rewrite Es. simpl. exact IH.
Qed.
End ProductTotals.

(** C3. Let the collection satisfy its unique index on
    [(storeId, productId)]. After the reset of the store's rows and the
    upsert of every item of the fetched batch, every row of the store
    has as [totalQuantitySold] and [totalRevenue] the sums over the
    batch's items of its product, whatever the totals were before (0
    for a product the batch does not mention), and every product of the
    batch has its row. *)
Theorem C3_resync_totals_are_batch_sums :
  forall (now : Z) (s : string) (batch : list ProductSalesData)
         (db : list ProductMetric),
    NoDup (map ProductMetricsService.keyOf db) ->
    let db' := SyncProductMetricsJob.resync now s batch db in
    (forall row, In row db' -> pm_storeId row = s ->
       totalQuantitySold row
       == sumQ (map quantitySold (itemsOf (pm_productId row) batch))
       /\ totalRevenue row
          == sumQ (map revenue (itemsOf (pm_productId row) batch)))
    /\ (forall x, In x batch ->
          exists row, In row db' /\ pm_storeId row = s
                      /\ pm_productId row = productId x).
Proof.
  intros now s batch db Hnd db'. unfold SyncProductMetricsJob.resync in db'.
  assert (Hnd' : NoDup (map ProductMetricsService.keyOf db')).
  { apply upserts_NoDup. rewrite reset_keys. exact Hnd. }
  split.
  - intros row Hin Hs.
    assert (Hfind : find (ProductMetricsService.matches s (pm_productId row)) db'
                    = Some row).
    { apply (find_In_unique ProductMetricsService.keyOf); auto.
      intros d. rewrite product_matches_key.
      unfold ProductMetricsService.keyOf. rewrite Hs. reflexivity. }
    destruct (upserts_totals now s batch (pm_productId row)
                (ProductMetricsService.resetStoreProducts db s)) as [Hq Hr].
    destruct (reset_totals s (pm_productId row) db) as [Zq Zr].
    rewrite Zq in Hq. rewrite Zr in Hr.
    unfold quantityAt, revenueAt in Hq, Hr. fold db' in Hq, Hr.
    rewrite Hfind in Hq, Hr.
    rewrite Hq, Hr. split; ring.
  - intros x Hin.
    pose proof (upserts_add_keys now s batch
                  (ProductMetricsService.resetStoreProducts db s) x Hin) as Hk.
    fold db' in Hk. apply in_map_iff in Hk. destruct Hk as [row [Hkey Hrow]].
    inversion Hkey. exists row. auto.
Qed.

(** A store whose rows hold stale totals is resynced with a batch of
    two products. *)
Lemma C3_witness :
  NoDup (map ProductMetricsService.keyOf
           [ {| pm_storeId := "S"; pm_productId := "p1"; pm_productName := "Mug";
                pm_productImage := ""; pm_productUrl := "";
                totalQuantitySold := 40; totalRevenue := 800;
                pm_lastSyncDate := 0 |} ])
  /\ map (fun r => (pm_productId r, totalQuantitySold r, totalRevenue r))
       (SyncProductMetricsJob.resync 1 "S"
          [ {| productId := "p1"; productName := "Mug"; productImage := "";
               productUrl := ""; quantitySold := 3; revenue := 60 |};
            {| productId := "p2"; productName := "Cap"; productImage := "";
               productUrl := ""; quantitySold := 1; revenue := 15 |} ]
          [ {| pm_storeId := "S"; pm_productId := "p1"; pm_productName := "Mug";
               pm_productImage := ""; pm_productUrl := "";
               totalQuantitySold := 40; totalRevenue := 800;
               pm_lastSyncDate := 0 |} ])
     = [("p1", 0 + 3, 0 + 60); ("p2", 1, 15)]%Q
  /\ exists row,
       In row (SyncProductMetricsJob.resync 1 "S"
                 [ {| productId := "p1"; productName := "Mug"; productImage := "";
                      productUrl := ""; quantitySold := 3; revenue := 60 |};
                   {| productId := "p2"; productName := "Cap"; productImage := "";
                      productUrl := ""; quantitySold := 1; revenue := 15 |} ]
                 [ {| pm_storeId := "S"; pm_productId := "p1";
                      pm_productName := "Mug";
                      pm_productImage := ""; pm_productUrl := "";
                      totalQuantitySold := 40; totalRevenue := 800;
                      pm_lastSyncDate := 0 |} ])
       /\ pm_storeId row = "S" /\ pm_productId row = "p2".
Proof.
  split; [repeat constructor; simpl; tauto|].
  split; [vm_compute; reflexivity|].
  destruct (C3_resync_totals_are_batch_sums 1 "S"
           [ {| productId := "p1"; productName := "Mug"; productImage := "";
                productUrl := ""; quantitySold := 3; revenue := 60 |};
             {| productId := "p2"; productName := "Cap"; productImage := "";
                productUrl := ""; quantitySold := 1; revenue := 15 |} ]
           [ {| pm_storeId := "S"; pm_productId := "p1"; pm_productName := "Mug";
                pm_productImage := ""; pm_productUrl := "";
                totalQuantitySold := 40; totalRevenue := 800;
                pm_lastSyncDate := 0 |} ]) as [_ Hrows].
  - repeat constructor; simpl; tauto.
  - apply (Hrows {| productId := "p2"; productName := "Cap"; productImage := "";
                    productUrl := ""; quantitySold := 1; revenue := 15 |}).
    right. left. reflexivity.
Defined.


(** ** C6: resync of the Traffic Metric rows *)

Section TrafficResync.
Variable now : Z.
Variable s : string.
Variable start finish : Z.

Let inputOf (page : TrafficAnalyticsData) : TrafficDataInput :=
  {| tdi_storeId := s; tdi_page := page; startDate := start; endDate := finish |}.

Let upsert db page :=
  TrafficMetricsService.upsertTrafficMetric now db (inputOf page).

(** The row a landing page of the fetched batch is stored as: every
    field comes from the page, the window and the time of the sync. *)
Definition freshRow (page : TrafficAnalyticsData) : TrafficMetric :=
  TrafficMetricsService.inserted now (inputOf page).

Lemma traffic_matches_inWindow path doc :
  TrafficMetricsService.matches s path start doc = true ->
  TrafficMetricsService.inWindow s start doc = true.
Proof.
  unfold TrafficMetricsService.matches, TrafficMetricsService.inWindow.
  rewrite !andb_true_iff, Z.eqb_eq, Z.leb_le. intros [[-> _] ->]. auto with zarith.
Qed.

Lemma traffic_setFields_matched page doc :
  TrafficMetricsService.matches s (landingPagePath page) start doc = true ->
  TrafficMetricsService.setFields now (inputOf page) doc = freshRow page.
Proof.
  unfold TrafficMetricsService.matches.
  rewrite !andb_true_iff, Z.eqb_eq, !String.eqb_eq. intros [[Hs Hp] Hd].
  unfold TrafficMetricsService.setFields, freshRow,
    TrafficMetricsService.inserted. simpl.
  rewrite Hs, Hp, Hd. reflexivity.
Qed.

Lemma freshRow_inWindow page :
  TrafficMetricsService.inWindow s start (freshRow page) = true.
Proof.
  unfold TrafficMetricsService.inWindow, freshRow. simpl.
  rewrite String.eqb_refl, Z.leb_refl. reflexivity.
Qed.

(** The rows outside the window are not touched by an upsert. *)
Lemma upsert_outside db page :
  filter (fun doc => negb (TrafficMetricsService.inWindow s start doc))
         (upsert db page)
  = filter (fun doc => negb (TrafficMetricsService.inWindow s start doc)) db.
Proof.
  unfold upsert, TrafficMetricsService.upsertTrafficMetric. simpl.
  apply filter_findOneAndUpdate.
  - intros d Hd. rewrite (traffic_matches_inWindow _ _ Hd). reflexivity.
  - intros d Hd. rewrite (traffic_setFields_matched _ _ Hd), freshRow_inWindow.
    reflexivity.
  - fold (freshRow page). rewrite freshRow_inWindow. reflexivity.
Qed.

Lemma upserts_outside pages : forall db,
  filter (fun doc => negb (TrafficMetricsService.inWindow s start doc))
         (fold_left upsert pages db)
  = filter (fun doc => negb (TrafficMetricsService.inWindow s start doc)) db.
Proof.
  induction pages as [|page pages IH]; intros db; simpl; [reflexivity|].
  rewrite IH. apply upsert_outside.
Qed.

(** Every row of the window is a fresh row, once those of the
    collection the upserts start from are. *)
Lemma upserts_fresh pages : forall done db,
  (forall row, In row db -> TrafficMetricsService.inWindow s start row = true ->
               exists page, In page done /\ row = freshRow page) ->
  forall row, In row (fold_left upsert pages db) ->
              TrafficMetricsService.inWindow s start row = true ->
              exists page, In page (done ++ pages) /\ row = freshRow page.
Proof.
  induction pages as [|page pages IH]; intros done db Hdb row; simpl.
  - rewrite app_nil_r. apply Hdb.
  - intros Hin Hw.
    replace (done ++ page :: pages) with ((done ++ [page]) ++ pages)
      by (rewrite <- app_assoc; reflexivity).
    apply (IH (done ++ [page]) (upsert db page)); [|exact Hin | exact Hw].
    clear row Hin Hw. intros row Hin Hw.
    unfold upsert, TrafficMetricsService.upsertTrafficMetric in Hin.
    apply In_findOneAndUpdate in Hin.
    destruct Hin as [Hin | [[d [Hd [Hm ->]]] | ->]].
    + destruct (Hdb row Hin Hw) as [pg [Hpg ->]].
      exists pg. split; [apply in_or_app; auto | reflexivity].
    + exists page. split; [apply in_or_app; right; left; reflexivity|].
      apply traffic_setFields_matched. exact Hm.
    + exists page. split; [apply in_or_app; right; left; reflexivity|].
      reflexivity.
Qed.

Lemma reset_outside db :
  filter (fun doc => negb (TrafficMetricsService.inWindow s start doc))
         (TrafficMetricsService.resetStoreTraffic db s start)
  = filter (fun doc => negb (TrafficMetricsService.inWindow s start doc)) db.
Proof.
  unfold TrafficMetricsService.resetStoreTraffic, Mongo.deleteMany.
  induction db as [|d db IH]; simpl; [reflexivity|].
  destruct (TrafficMetricsService.inWindow s start d) eqn:E; simpl.
  - exact IH.
  - rewrite E. simpl. f_equal. exact IH.
Qed.

Lemma reset_empties_window db row :
  In row (TrafficMetricsService.resetStoreTraffic db s start) ->
  TrafficMetricsService.inWindow s start row = false.
Proof.
  unfold TrafficMetricsService.resetStoreTraffic, Mongo.deleteMany.
  intros Hin. apply filter_In in Hin. destruct Hin as [_ H].
  apply negb_true_iff in H. exact H.
Qed.
End TrafficResync.

(** C6. For a store [s] and a new window that starts at [start]: the
    rows outside the filter of the reset (another store's, or of [s]
    with a [startDate] strictly before [start]) are after the resync
    the same rows, in the same order; the reset leaves no row of [s]
    with [startDate] on or after [start]; and every such row found after
    the resync is the row of one fetched landing page, all of whose
    fields come from that page, the new window and the time of the
    sync. *)
Theorem C6_traffic_resync_replaces_the_window :
  forall (now : Z) (s : string) (start finish : Z)
         (trafficData : list TrafficAnalyticsData) (db : list TrafficMetric),
    let inWindow := TrafficMetricsService.inWindow s start in
    let db' := SyncTrafficMetricsJob.resync now s start finish trafficData db in
    filter (fun doc => negb (inWindow doc)) db'
    = filter (fun doc => negb (inWindow doc)) db
    /\ (forall doc, inWindow doc = true
                    <-> tm_storeId doc = s /\ start <= tm_startDate doc)
    /\ (forall row, In row (TrafficMetricsService.resetStoreTraffic db s start) ->
                    inWindow row = false)
    /\ (forall row, In row db' -> inWindow row = true ->
          exists page, In page trafficData
                       /\ row = freshRow now s start finish page).
Proof.
  intros now s start finish trafficData db inWindow db'.
  split; [|split; [|split]].
  - unfold db', SyncTrafficMetricsJob.resync, inWindow.
    rewrite (upserts_outside now s start finish). apply reset_outside.
  - intros doc. unfold inWindow, TrafficMetricsService.inWindow.
    rewrite andb_true_iff, String.eqb_eq, Z.leb_le. tauto.
  - intros row. apply reset_empties_window.
  - intros row Hin Hw.
    apply (upserts_fresh now s start finish trafficData []
             (TrafficMetricsService.resetStoreTraffic db s start)); auto.
    intros r Hr Hwr. apply reset_empties_window in Hr.
    unfold inWindow in *. congruence.
Qed.

(** Two stale rows of the store, one before and one inside the new
    window, and one fetched page for the same path. *)
Example traffic_resync_example :
  SyncTrafficMetricsJob.resync 99 "S" 1000 2000
    [ {| landingPageType := "Home"; landingPagePath := "/";
         onlineStoreVisitors := 7; sessions := 9;
         sessionsWithCartAdditions := 2; sessionsThatReachedCheckout := 1 |} ]
    [ {| tm_storeId := "S"; tm_landingPageType := "Home";
         tm_landingPagePath := "/"; tm_onlineStoreVisitors := 100;
         tm_sessions := 120; tm_sessionsWithCartAdditions := 30;
         tm_sessionsThatReachedCheckout := 10;
         tm_startDate := 500; tm_endDate := 900; tm_lastSyncDate := 10 |};
      {| tm_storeId := "S"; tm_landingPageType := "Old";
         tm_landingPagePath := "/"; tm_onlineStoreVisitors := 50;
         tm_sessions := 60; tm_sessionsWithCartAdditions := 5;
         tm_sessionsThatReachedCheckout := 4;
         tm_startDate := 1000; tm_endDate := 1500; tm_lastSyncDate := 20 |} ]
  = [ {| tm_storeId := "S"; tm_landingPageType := "Home";
         tm_landingPagePath := "/"; tm_onlineStoreVisitors := 100;
         tm_sessions := 120; tm_sessionsWithCartAdditions := 30;
         tm_sessionsThatReachedCheckout := 10;
         tm_startDate := 500; tm_endDate := 900; tm_lastSyncDate := 10 |};
      {| tm_storeId := "S"; tm_landingPageType := "Home";
         tm_landingPagePath := "/"; tm_onlineStoreVisitors := 7;
         tm_sessions := 9; tm_sessionsWithCartAdditions := 2;
         tm_sessionsThatReachedCheckout := 1;
         tm_startDate := 1000; tm_endDate := 2000; tm_lastSyncDate := 99 |} ].
Proof. vm_compute. reflexivity. Qed.


(** ** IEEE doubles: rounding to the nearest *)

Section DoubleFacts.
Local Open Scope Q_scope.


Lemma pow2_pos e : 0 < Double.pow2 e.
Proof. apply Qpower_0_lt. reflexivity. Qed.

Lemma pow2_add a b : Double.pow2 (a + b) == Double.pow2 a * Double.pow2 b.
Proof. apply Qpower_plus. discriminate. Qed.

Lemma pow2_le a b : (a <= b)%Z -> Double.pow2 a <= Double.pow2 b.
Proof. intros H. apply Qpower_le_compat_l; [exact H | discriminate]. Qed.

Lemma pow2_lt a b : (a < b)%Z -> Double.pow2 a < Double.pow2 b.
Proof. intros H. apply Qpower_lt_compat_l; [exact H | reflexivity]. Qed.

Lemma pow2_Z n : (0 <= n)%Z -> Double.pow2 n == inject_Z (2 ^ n).
Proof. intros H. symmetry. apply (Zpower_Qpower 2 n H). Qed.

Lemma pow2_succ a : Double.pow2 (a + 1) == 2 * Double.pow2 a.
Proof. rewrite pow2_add. change (Double.pow2 1) with 2. ring. Qed.

Lemma ilog2_spec x :
  0 < x ->
  Double.pow2 (Double.ilog2 x) <= x /\ x < Double.pow2 (Double.ilog2 x + 1).
Proof.
  intros Hx. destruct x as [n d]. unfold Double.ilog2. cbn [Qnum Qden].
  assert (Hn : (0 < n)%Z) by (unfold Qlt in Hx; simpl in Hx; lia).
  set (a := Z.log2 n). set (b := Z.log2 (Z.pos d)).
  destruct (Z.log2_spec n Hn) as [Ha1 Ha2]. fold a in Ha1, Ha2.
  destruct (Z.log2_spec (Z.pos d) eq_refl) as [Hb1 Hb2]. fold b in Hb1, Hb2.
  assert (Ha0 : (0 <= a)%Z) by apply Z.log2_nonneg.
  assert (Hb0 : (0 <= b)%Z) by apply Z.log2_nonneg.
  assert (HD : 0 < inject_Z (Z.pos d)) by reflexivity.
  assert (HX : (n # d) * inject_Z (Z.pos d) == inject_Z n).
  { unfold Qeq. simpl. lia. }
  assert (Qa1 : Double.pow2 a <= inject_Z n).
  { rewrite pow2_Z by exact Ha0. rewrite <- Zle_Qle. exact Ha1. }
  assert (Qa2 : inject_Z n < Double.pow2 (a + 1)).
  { rewrite pow2_Z by lia. rewrite <- Zlt_Qlt.
    replace (a + 1)%Z with (Z.succ a) by lia. exact Ha2. }
  assert (Qb1 : Double.pow2 b <= inject_Z (Z.pos d)).
  { rewrite pow2_Z by exact Hb0. rewrite <- Zle_Qle. exact Hb1. }
  assert (Qb2 : inject_Z (Z.pos d) < Double.pow2 (b + 1)).
  { rewrite pow2_Z by lia. rewrite <- Zlt_Qlt.
    replace (b + 1)%Z with (Z.succ b) by lia. exact Hb2. }
  set (x := n # d) in *. set (D := inject_Z (Z.pos d)) in *. set (N := inject_Z n) in *.
  assert (Hup : x < Double.pow2 (a - b + 1)).
  { apply (Qmult_lt_r _ _ D HD). rewrite HX.
    eapply Qlt_le_trans; [exact Qa2|].
    assert (E : Double.pow2 (a + 1) == Double.pow2 (a - b + 1) * Double.pow2 b).
    { rewrite <- pow2_add. replace (a - b + 1 + b)%Z with (a + 1)%Z by lia. reflexivity. }
    rewrite E. apply Qmult_le_l; [apply pow2_pos | exact Qb1]. }
  assert (Hlo : Double.pow2 (a - b - 1) <= x).
  { apply (Qmult_le_r _ _ D HD). rewrite HX.
    eapply Qle_trans; [|exact Qa1].
    assert (E : Double.pow2 a == Double.pow2 (a - b - 1) * Double.pow2 (b + 1)).
    { rewrite <- pow2_add. replace (a - b - 1 + (b + 1))%Z with a by lia. reflexivity. }
    rewrite E. apply Qmult_le_l; [apply pow2_pos | apply Qlt_le_weak; exact Qb2]. }
  destruct (Qle_bool (Double.pow2 (a - b)) x) eqn:E.
  - apply Qle_bool_iff in E. split; assumption.
  - split; [exact Hlo|].
    replace (a - b - 1 + 1)%Z with (a - b)%Z by lia.
    apply Qnot_le_lt. intros H. apply Qle_bool_iff in H. congruence.
Qed.

Lemma ulpExp_cases x :
  0 < x ->
  (Double.ulpExp x = (Double.ilog2 x - 52)%Z /\ Double.pow2 (Double.ulpExp x + 52) <= x
   \/ Double.ulpExp x = (-1074)%Z)
  /\ x < Double.pow2 (Double.ulpExp x + 53) /\ (-1074 <= Double.ulpExp x)%Z.
Proof.
  intros Hx. destruct (ilog2_spec x Hx) as [H1 H2]. unfold Double.ulpExp.
  destruct (Z.max_spec (Double.ilog2 x - 52) (-1074)) as [[Hlt ->]|[Hle ->]].
  - split; [right; reflexivity|]. split; [|lia].
    eapply Qlt_le_trans; [exact H2|]. apply pow2_le. lia.
  - split; [left; split; [reflexivity|]|].
    + replace (Double.ilog2 x - 52 + 52)%Z with (Double.ilog2 x) by lia. exact H1.
    + split; [|lia].
      replace (Double.ilog2 x - 52 + 53)%Z with (Double.ilog2 x + 1)%Z by lia.
      exact H2.
Qed.

Lemma roundEven_near y :
  y - (1 # 2) <= inject_Z (Double.roundEven y)
  /\ inject_Z (Double.roundEven y) <= y + (1 # 2).
Proof.
  unfold Double.roundEven.
  pose proof (Qfloor_le y) as H1. pose proof (Qlt_floor y) as H2.
  rewrite inject_Z_plus in H2. change (inject_Z 1) with 1 in H2.
  destruct (Qcompare_spec (y - inject_Z (Qfloor y)) (1 # 2)) as [E|E|E].
  - destruct (Z.even (Qfloor y)); [split; lra|].
    rewrite inject_Z_plus. change (inject_Z 1) with 1. split; lra.
  - split; lra.
  - rewrite inject_Z_plus. change (inject_Z 1) with 1. split; lra.
Qed.

Lemma roundEven_Z z : Double.roundEven (inject_Z z) = z.
Proof.
  unfold Double.roundEven. rewrite Qfloor_Z.
  destruct (Qcompare_spec (inject_Z z - inject_Z z) (1 # 2)) as [E|E|E];
    [lra | reflexivity | lra].
Qed.

Lemma roundEven_mono y y' : y <= y' -> (Double.roundEven y <= Double.roundEven y')%Z.
Proof.
  intros Hle. unfold Double.roundEven.
  pose proof (Qfloor_resp_le _ _ Hle) as Hf.
  pose proof (Qfloor_le y) as H1. pose proof (Qlt_floor y) as H2.
  pose proof (Qfloor_le y') as H1'. pose proof (Qlt_floor y') as H2'.
  rewrite inject_Z_plus in H2, H2'. change (inject_Z 1) with 1 in H2, H2'.
  destruct (Z.eq_dec (Qfloor y) (Qfloor y')) as [E|E].
  - rewrite <- E in *.
    destruct (Qcompare_spec (y - inject_Z (Qfloor y)) (1 # 2)) as [C|C|C];
      destruct (Qcompare_spec (y' - inject_Z (Qfloor y)) (1 # 2)) as [C'|C'|C'];
      try lra; destruct (Z.even (Qfloor y)); lia.
  - assert (Hs : (Qfloor y + 1 <= Qfloor y')%Z) by lia.
    destruct (Qcompare (y - inject_Z (Qfloor y)) (1 # 2));
      destruct (Qcompare (y' - inject_Z (Qfloor y')) (1 # 2));
      destruct (Z.even (Qfloor y)); destruct (Z.even (Qfloor y')); lia.
Qed.



Lemma flPos_near x :
  0 < x ->
  x - Double.pow2 (Double.ulpExp x - 1) <= Double.flPos x
  /\ Double.flPos x <= x + Double.pow2 (Double.ulpExp x - 1).
Proof.
  intros Hx. unfold Double.flPos.
  pose proof (pow2_pos (Double.ulpExp x)) as Hs.
  assert (Hh : Double.pow2 (Double.ulpExp x) == 2 * Double.pow2 (Double.ulpExp x - 1)).
  { rewrite <- pow2_succ.
    replace (Double.ulpExp x - 1 + 1)%Z with (Double.ulpExp x) by lia.
    reflexivity. }
  destruct (roundEven_near (x / Double.pow2 (Double.ulpExp x))) as [H1 H2].
  set (m := inject_Z (Double.roundEven (x / Double.pow2 (Double.ulpExp x)))) in *.
  set (s := Double.pow2 (Double.ulpExp x)) in *.
  set (h := Double.pow2 (Double.ulpExp x - 1)) in *.
  assert (Hd : x / s * s == x) by (field; lra).
  split.
  - assert (H : (x / s - (1 # 2)) * s <= m * s)
      by (apply Qmult_le_compat_r; [exact H1 | lra]).
    lra.
  - assert (H : m * s <= (x / s + (1 # 2)) * s)
      by (apply Qmult_le_compat_r; [exact H2 | lra]).
    lra.
Qed.

Lemma ilog2_le x y : 0 < x -> x <= y -> (Double.ilog2 x <= Double.ilog2 y)%Z.
Proof.
  intros Hx Hxy.
  destruct (ilog2_spec x Hx) as [H1 _].
  destruct (ilog2_spec y (Qlt_le_trans _ _ _ Hx Hxy)) as [_ H2].
  assert (H : Double.pow2 (Double.ilog2 x) < Double.pow2 (Double.ilog2 y + 1)) by lra.
  apply Qpower_lt_compat_l_inv in H; [lia | reflexivity].
Qed.

Lemma div_pow2_le x e c : x <= c * Double.pow2 e -> x / Double.pow2 e <= c.
Proof.
  intros H. apply Qle_shift_div_r; [apply pow2_pos | exact H].
Qed.

Lemma le_div_pow2 x e c : c * Double.pow2 e <= x -> c <= x / Double.pow2 e.
Proof.
  intros H. apply Qle_shift_div_l; [apply pow2_pos | exact H].
Qed.

Lemma flPos_mono x y : 0 < x -> x <= y -> Double.flPos x <= Double.flPos y.
Proof.
  intros Hx Hxy.
  assert (Hy : 0 < y) by lra.
  pose proof (ilog2_le x y Hx Hxy) as Hk.
  destruct (ulpExp_cases x Hx) as [_ [Hxu Hxe]].
  destruct (ulpExp_cases y Hy) as [Hyc [_ Hye]].
  assert (Hee : (Double.ulpExp x <= Double.ulpExp y)%Z) by (unfold Double.ulpExp; lia).
  unfold Double.flPos.
  destruct (Z.eq_dec (Double.ulpExp x) (Double.ulpExp y)) as [E|E].
  - rewrite <- E. apply Qmult_le_compat_r; [|apply Qlt_le_weak, pow2_pos].
    rewrite <- Zle_Qle. apply roundEven_mono.
    apply Qmult_le_compat_r; [exact Hxy|].
    apply Qlt_le_weak, Qinv_lt_0_compat, pow2_pos.
  - destruct Hyc as [[Hey Hylo]|Hey]; [|lia].
    set (ex := Double.ulpExp x) in *. set (ey := Double.ulpExp y) in *.
    apply Qle_trans with (Double.pow2 (ey + 52)).
    + assert (Hn : (0 <= ey + 52 - ex)%Z) by lia.
      assert (Hle : inject_Z (Double.roundEven (x / Double.pow2 ex))
                    <= inject_Z (2 ^ (ey + 52 - ex))).
      { rewrite <- Zle_Qle.
        rewrite <- (roundEven_Z (2 ^ (ey + 52 - ex))).
        apply roundEven_mono. apply div_pow2_le.
        rewrite <- pow2_Z by exact Hn. rewrite <- pow2_add.
        replace (ey + 52 - ex + ex)%Z with (ey + 52)%Z by lia.
        apply Qlt_le_weak. eapply Qlt_le_trans; [exact Hxu|].
        apply pow2_le. lia. }
      apply Qle_trans with (inject_Z (2 ^ (ey + 52 - ex)) * Double.pow2 ex).
      * apply Qmult_le_compat_r; [exact Hle | apply Qlt_le_weak, pow2_pos].
      * rewrite <- pow2_Z by exact Hn. rewrite <- pow2_add.
        replace (ey + 52 - ex + ex)%Z with (ey + 52)%Z by lia. apply Qle_refl.
    + assert (Hle : inject_Z (2 ^ 52)
                    <= inject_Z (Double.roundEven (y / Double.pow2 ey))).
      { rewrite <- Zle_Qle. rewrite <- (roundEven_Z (2 ^ 52)) at 1.
        apply roundEven_mono. apply le_div_pow2.
        rewrite <- pow2_Z by lia. rewrite <- pow2_add.
        rewrite Z.add_comm. exact Hylo. }
      apply Qle_trans with (inject_Z (2 ^ 52) * Double.pow2 ey).
      * rewrite <- pow2_Z by lia. rewrite <- pow2_add.
        rewrite Z.add_comm. apply Qle_refl.
      * apply Qmult_le_compat_r; [exact Hle | apply Qlt_le_weak, pow2_pos].
Qed.

Lemma flPos_nonneg x : 0 < x -> 0 <= Double.flPos x.
Proof.
  intros Hx. unfold Double.flPos.
  apply Qmult_le_0_compat; [|apply Qlt_le_weak, pow2_pos].
  change 0 with (inject_Z 0). rewrite <- Zle_Qle.
  rewrite <- (roundEven_Z 0). apply roundEven_mono.
  apply Qle_shift_div_l; [apply pow2_pos|].
  change (inject_Z 0) with 0. rewrite Qmult_0_l. lra.
Qed.

(** [Double.fl] on the three signs. *)
Lemma fl_pos x : 0 < x -> Double.fl x == Double.flPos (Qred x).
Proof.
  intros Hx. unfold Double.fl.
  destruct (Qcompare_spec (Qred x) 0) as [E|E|E];
    rewrite Qred_correct in E; [lra | lra |].
  apply Qred_correct.
Qed.

Lemma fl_neg x : x < 0 -> Double.fl x == - Double.flPos (Qred (- x)).
Proof.
  intros Hx. unfold Double.fl.
  destruct (Qcompare_spec (Qred x) 0) as [E|E|E];
    rewrite Qred_correct in E; [lra | | lra].
  apply Qred_correct.
Qed.

Lemma fl_zero x : x == 0 -> Double.fl x = 0.
Proof.
  intros Hx. unfold Double.fl.
  destruct (Qcompare_spec (Qred x) 0) as [E|E|E];
    rewrite Qred_correct in E; [reflexivity | lra | lra].
Qed.


Lemma fl_opp x : Double.fl (- x) == - Double.fl x.
Proof.
  destruct (Q_dec x 0) as [[H|H]|H].
  - rewrite (fl_pos (- x)) by lra. rewrite (fl_neg x H). ring.
  - rewrite (fl_neg (- x)) by lra. rewrite (fl_pos x H).
    rewrite (Qred_complete (- - x) x) by ring. reflexivity.
  - rewrite (fl_zero x H). rewrite fl_zero by lra. reflexivity.
Qed.

Lemma flPos_red_nonneg x : 0 < x -> 0 <= Double.flPos (Qred x).
Proof. intros Hx. apply flPos_nonneg. rewrite Qred_correct. exact Hx. Qed.

Lemma fl_mono x y : x <= y -> Double.fl x <= Double.fl y.
Proof.
  intros Hxy.
  destruct (Q_dec x 0) as [[Hx|Hx]|Hx]; destruct (Q_dec y 0) as [[Hy|Hy]|Hy];
    try lra.
  - rewrite (fl_neg x Hx), (fl_neg y Hy).
    apply Qopp_le_compat.
    apply flPos_mono; rewrite !Qred_correct; lra.
  - rewrite (fl_neg x Hx), (fl_pos y Hy).
    pose proof (flPos_red_nonneg (- x) ltac:(lra)).
    pose proof (flPos_red_nonneg y Hy). lra.
  - rewrite (fl_neg x Hx), (fl_zero y Hy).
    pose proof (flPos_red_nonneg (- x) ltac:(lra)). lra.
  - rewrite (fl_pos x Hx), (fl_pos y Hy).
    apply flPos_mono; rewrite !Qred_correct; lra.
  - rewrite (fl_zero x Hx), (fl_pos y Hy).
    exact (flPos_red_nonneg y Hy).
  - rewrite (fl_zero x Hx), (fl_zero y Hy). apply Qle_refl.
Qed.

Lemma flPos_error x :
  0 < x ->
  Qabs (Double.flPos x - x) <= Double.pow2 (Double.ulpExp x - 1)
  /\ (Double.pow2 (-1022) <= x -> Qabs (Double.flPos x - x) <= Double.u * x)
  /\ Qabs (Double.flPos x - x) <= Double.u * x + Double.eta.
Proof.
  intros Hx. destruct (flPos_near x Hx) as [H1 H2].
  assert (Hh : Qabs (Double.flPos x - x) <= Double.pow2 (Double.ulpExp x - 1))
    by (apply Qabs_Qle_condition; split; lra).
  destruct (ulpExp_cases x Hx) as [Hc [Hup He]].
  assert (Hux : 0 <= Double.u * x)
    by (apply Qmult_le_0_compat; [apply Qlt_le_weak, pow2_pos | lra]).
  assert (Heta : 0 < Double.eta) by apply pow2_pos.
  assert (Hnormal : Double.ulpExp x = (Double.ilog2 x - 52)%Z ->
                    Double.pow2 (Double.ulpExp x + 52) <= x ->
                    Double.pow2 (Double.ulpExp x - 1) <= Double.u * x).
  { intros _ Hlo.
    assert (E : Double.pow2 (Double.ulpExp x - 1)
                == Double.u * Double.pow2 (Double.ulpExp x + 52)).
    { unfold Double.u. rewrite <- pow2_add.
      replace (-53 + (Double.ulpExp x + 52))%Z with (Double.ulpExp x - 1)%Z by lia.
      reflexivity. }
    rewrite E. apply Qmult_le_l; [apply pow2_pos | exact Hlo]. }
  split; [exact Hh|]. split.
  - intros Hn. eapply Qle_trans; [exact Hh|].
    destruct Hc as [[Hc Hlo]|Hc]; [exact (Hnormal Hc Hlo)|].
    (* the exponent is the least one although x is normal: x is in the
       first normal binade *)
    assert (E : Double.pow2 (Double.ulpExp x - 1) == Double.u * Double.pow2 (-1022)).
    { rewrite Hc. unfold Double.u. rewrite <- pow2_add. reflexivity. }
    rewrite E. apply Qmult_le_l; [apply pow2_pos | exact Hn].
  - eapply Qle_trans; [exact Hh|].
    destruct Hc as [[Hc Hlo]|Hc].
    + pose proof (Hnormal Hc Hlo). lra.
    + rewrite Hc. change (Double.pow2 (-1074 - 1)) with Double.eta. lra.
Qed.

Lemma fl_error x :
  (Double.pow2 (-1022) <= Qabs x -> Qabs (Double.fl x - x) <= Double.u * Qabs x)
  /\ Qabs (Double.fl x - x) <= Double.u * Qabs x + Double.eta.
Proof.
  destruct (Q_dec x 0) as [[H|H]|H].
  - assert (Ha : Qabs x == - x) by (apply Qabs_neg; lra).
    pose proof (Qred_correct (- x)) as Hr.
    pose proof (fl_neg x H) as Hf.
    set (r := Qred (- x)) in *.
    destruct (flPos_error r) as [_ [H1 H2]]; [lra|].
    assert (E : Double.fl x - x == - (Double.flPos r - r)) by lra.
    rewrite E, Qabs_opp, Ha, <- Hr. split; assumption.
  - assert (Ha : Qabs x == x) by (apply Qabs_pos; lra).
    pose proof (Qred_correct x) as Hr.
    pose proof (fl_pos x H) as Hf.
    set (r := Qred x) in *.
    destruct (flPos_error r) as [_ [H1 H2]]; [lra|].
    assert (E : Double.fl x - x == Double.flPos r - r) by lra.
    rewrite E, Ha, <- Hr. split; assumption.
  - rewrite (fl_zero x H), H. change (Qabs (0 - 0)) with 0.
    change (Qabs 0) with 0.
    pose proof (pow2_pos (-1075)). pose proof (pow2_pos (-1022)).
    unfold Double.eta. split; [intros; lra | lra].
Qed.

Lemma fl_bounded B x : Double.fl B == B -> Qabs x <= B -> Qabs (Double.fl x) <= B.
Proof.
  intros HB Hx. apply Qabs_Qle_condition in Hx. destruct Hx as [H1 H2].
  apply Qabs_Qle_condition. split.
  - rewrite <- HB. rewrite <- fl_opp. apply fl_mono. exact H1.
  - rewrite <- HB. apply fl_mono. exact H2.
Qed.

Lemma ofQ_finite x :
  Qabs (Double.fl x) < Double.pow2 1024 -> Double.ofQ x = Num (Double.fl x).
Proof.
  intros H. unfold Double.ofQ.
  destruct (Qle_bool (Double.pow2 1024) (Double.fl x)) eqn:E1.
  - apply Qle_bool_iff in E1. pose proof (Qle_Qabs (Double.fl x)). lra.
  - destruct (Qle_bool (Double.fl x) (- Double.pow2 1024)) eqn:E2; [|reflexivity].
    apply Qle_bool_iff in E2.
    pose proof (Qle_Qabs (- Double.fl x)) as H1. rewrite Qabs_opp in H1. lra.
Qed.





Lemma ilog2_pow2 n : Double.ilog2 (Double.pow2 n) = n.
Proof.
  destruct (ilog2_spec (Double.pow2 n) (pow2_pos n)) as [H1 H2].
  apply Qpower_le_compat_l_inv in H1; [|reflexivity].
  apply Qpower_lt_compat_l_inv in H2; [|reflexivity]. lia.
Qed.





End DoubleFacts.

(** ** The doubles of the model and the doubles of the machine *)

(** The rational a finite double of the machine stands for. *)
Definition rationalOf (f : PrimFloat.float) : option Q :=
  match FloatOps.Prim2SF f with
  | SpecFloat.S754_zero _ => Some 0%Q
  | SpecFloat.S754_finite negative m e =>
      Some (Qred ((if negative then -1 else 1)
                  * inject_Z (Z.pos m) * Double.pow2 e))
  | _ => None
  end.

Definition floatOf (z : Z) : PrimFloat.float :=
  PrimFloat.of_uint63 (Uint63.of_Z z).

(** [a / b * c] and [a / b + c / 7], by the machine and by the model;
    [c] is rounded to a double when it is not one. *)
Definition machineAndModelAgree (abc : Z * Z * Z) : bool :=
  let '(a, b, c) := abc in
  match rationalOf
          (PrimFloat.mul (PrimFloat.div (floatOf a) (floatOf b)) (floatOf c)),
        rationalOf
          (PrimFloat.add (PrimFloat.div (floatOf a) (floatOf b))
                         (PrimFloat.div (floatOf c) (floatOf 7)))
  with
  | Some product, Some sum =>
      Qeq_bool product
        (Double.fl (Double.fl (a # Z.to_pos b) * Double.fl (inject_Z c)))
      && Qeq_bool sum
           (Double.fl (Double.fl (a # Z.to_pos b)
                       + Double.fl (Double.fl (inject_Z c) / 7)))
  | _, _ => false
  end.

Definition smallTriples : list (Z * Z * Z) :=
  flat_map
    (fun a => flat_map
                (fun b => map (fun c => (Z.of_nat a, Z.of_nat b, c))
                            [1; 3; 100; 1000; 9007199254740993])
                (seq 1 25))
    (seq 0 25).

(** [Double.fl] rounds as the doubles of the machine do. *)
Example fl_rounds_as_the_machine_does :
  forallb machineAndModelAgree smallTriples = true.
Proof. vm_compute. reflexivity. Qed.


(** ** C10: revenue attributed to the products of an order *)

Section OrderRevenue.
Local Open Scope Q_scope.






Lemma two_roundings : 2 * Double.u + Double.u * Double.u <= Double.pow2 (-51).
Proof. apply Qle_bool_iff. vm_compute. reflexivity. Qed.









(** An order of 100.00 with three units of one product and one unit of
    another. *)
Definition mugsAndCap : OrderNode :=
  {| amount := Some 100;
     lineItems :=
       [ {| quantity := 3;
            product := Some {| product_id := "p1"; title := "Mug";
                               featuredImage_url := None;
                               onlineStoreUrl := None |} |};
         {| quantity := 1;
            product := Some {| product_id := "p2"; title := "Cap";
                               featuredImage_url := None;
                               onlineStoreUrl := None |} |} ] |}.




(** The order of the witness, fetched: one page of one order. Its
    shares, three quarters and one quarter of 100, are doubles. *)
Example fetchProductSales_one_order :
  fst (ShopifyService.fetchProductSales Fixture.storeS None None
         (withShopifyReplies
            (fun _ => [ ShopifyData {| edges := [mugsAndCap];
                                       hasNextPage := false |} ])
            Fixture.emptyWorld))
  = Returned
      [ {| productId := "p1"; productName := "Mug"; productImage := "";
           productUrl := ""; quantitySold := 0 + 3; revenue := 75 |};
        {| productId := "p2"; productName := "Cap"; productImage := "";
           productUrl := ""; quantitySold := 0 + 1; revenue := 25 |} ].
Proof. vm_compute. reflexivity. Qed.

(** A line item without product: its quarter of the order total is
    booked on no product. *)
Example order_with_deleted_product :
  map (fun e => (productId e, quantitySold e, revenue e))
    (JS.values
       (ShopifyService.addOrder []
          {| amount := Some 100;
             lineItems :=
               [ {| quantity := 3;
                    product := Some {| product_id := "p1"; title := "Mug";
                                       featuredImage_url := None;
                                       onlineStoreUrl := None |} |};
                 {| quantity := 1; product := None |} ] |}))
  = [("p1", 0 + 3, 75)].
Proof. vm_compute. reflexivity. Qed.
End OrderRevenue.


(** ** C9: the derived ratios of a Facebook insight row *)

Section DerivedRatios.
Local Open Scope Q_scope.

Lemma Math_round_nearest (y : Q) :
  y - (1 # 2) < JS.Math_round y /\ JS.Math_round y <= y + (1 # 2).
Proof.
  unfold JS.Math_round.
  pose proof (Qfloor_le (y + (1 # 2))) as H1.
  pose proof (Qlt_floor (y + (1 # 2))) as H2.
  rewrite inject_Z_plus in H2. change (inject_Z 1) with 1 in H2.
  set (k := inject_Z (Qfloor (y + (1 # 2)))) in *.
  split; lra.
Qed.

Lemma Qpos_true (b : Q) : JS.Qpos b = true <-> 0 < b.
Proof.
  unfold JS.Qpos, Qlt. simpl. rewrite Z.ltb_lt. lia.
Qed.

(** What passes a guard [x > 0]: a rational above 0, and +Infinity;
    not 0, and not NaN. *)
Lemma positive_spec (n : number) :
  Number.positive n = true
  <-> n = PosInfinity \/ exists q, n = Num q /\ 0 < q.
Proof.
  destruct n as [q| | |]; cbn [Number.positive].
  - rewrite Qpos_true. split.
    + intros H. right. exists q. auto.
    + intros [H|[q' [H Hq]]]; [discriminate|]. inversion H. exact Hq.
  - split; [discriminate|]. intros [H|[q [H _]]]; discriminate.
  - split; auto.
  - split; [discriminate|]. intros [H|[q [H _]]]; discriminate.
Qed.

(** [n] is the finite number [x], which is at most [B] in size and
    approximates [X] with the relative error [rho] and the absolute
    error [theta]. *)
Definition approximates (B rho theta : Q) (n : number) (X : Q) : Prop :=
  exists x, n = Num x /\ Qabs x <= B
            /\ Qabs (x - X) <= rho * Qabs X + theta.

Lemma div_positive (a b : Q) :
  0 < b -> Double.div (Num a) (Num b) = Double.ofQ (a / b).
Proof.
  intros Hb. unfold Double.div, Number.isZero.
  destruct (Z.eqb_spec (Qnum b) 0) as [E|_]; [|reflexivity].
  unfold Qlt in Hb. simpl in Hb. lia.
Qed.

(** One rounding more. *)
Lemma approximates_ofQ (B rho theta x X : Q) :
  Double.fl B == B -> B < Double.pow2 1024 ->
  Qabs x <= B -> Qabs (x - X) <= rho * Qabs X + theta ->
  approximates B (rho + Double.u * (1 + rho))
    (theta * (1 + Double.u) + Double.eta) (Double.ofQ x) X.
Proof.
  intros HB Hmax Hx Hnear.
  pose proof (fl_bounded B x HB Hx) as Hb.
  exists (Double.fl x). split; [|split; [exact Hb|]].
  - apply ofQ_finite. lra.
  - destruct (fl_error x) as [_ He].
    assert (Hax : Qabs x <= Qabs X + Qabs (x - X)).
    { setoid_replace x with (X + (x - X)) at 1 by ring.
      apply Qabs_triangle. }
    assert (Hsplit : Qabs (Double.fl x - X)
                     <= Qabs (Double.fl x - x) + Qabs (x - X)).
    { setoid_replace (Double.fl x - X)
        with ((Double.fl x - x) + (x - X)) by ring.
      apply Qabs_triangle. }
    assert (Hu : Double.u == 1 # 9007199254740992) by reflexivity.
    rewrite Hu in *.
    pose proof (Qabs_nonneg X). lra.
Qed.

Lemma approximates_div (B x y : Q) :
  Double.fl B == B -> B < Double.pow2 1024 ->
  0 < y -> Qabs (x / y) <= B ->
  approximates B (0 + Double.u * (1 + 0)) (0 * (1 + Double.u) + Double.eta)
    (Double.div (Num x) (Num y)) (x / y).
Proof.
  intros HB Hmax Hy Hx. rewrite (div_positive x y Hy).
  apply approximates_ofQ; try assumption.
  setoid_replace (x / y - x / y) with 0 by ring.
  change (Qabs 0) with 0. pose proof (Qabs_nonneg (x / y)). lra.
Qed.

Lemma approximates_mul (B B' rho theta c : Q) (n : number) (X : Q) :
  Double.fl B' == B' -> B' < Double.pow2 1024 ->
  0 < c -> B * c <= B' ->
  approximates B rho theta n X ->
  approximates B' (rho + Double.u * (1 + rho))
    (theta * c * (1 + Double.u) + Double.eta)
    (Double.mul n (Num c)) (X * c).
Proof.
  intros HB Hmax Hc HBc [x [-> [Hx Hnear]]]. cbn [Double.mul].
  assert (Hac : Qabs c == c) by (apply Qabs_pos; lra).
  apply approximates_ofQ; try assumption.
  - rewrite Qabs_Qmult, Hac.
    eapply Qle_trans; [|exact HBc].
    apply Qmult_le_compat_r; [exact Hx | lra].
  - setoid_replace (x * c - X * c) with ((x - X) * c) by ring.
    rewrite !Qabs_Qmult, Hac.
    assert (H : Qabs (x - X) * c <= (rho * Qabs X + theta) * c)
      by (apply Qmult_le_compat_r; [exact Hnear | lra]).
    lra.
Qed.

(** [n] is a finite number with two decimals, as nearly as a double
    can hold one: the double nearest to [k]/100, for the integer [k]
    that [Math.round] gave; and [k]/100 is [exact] but for the half
    hundredth of [Math.round] and the rounding of the doubles before
    it. *)
Definition roundedTo2 (exact : Q) (n : number) : Prop :=
  exists k : Z,
    n = Num (Double.fl (inject_Z k / 100))
    /\ Qabs (inject_Z k / 100 - exact)
       <= (1 # 200) + Double.pow2 (-50) * Qabs exact + Double.pow2 (-1000).

Lemma roundedTo2_comp (a b : Q) (n : number) :
  a == b -> roundedTo2 a n -> roundedTo2 b n.
Proof.
  intros E [k [Hn Hk]]. exists k. split; [exact Hn|].
  rewrite <- E. exact Hk.
Qed.

(** [Math.round(_) / 100] at the end of each ratio. *)
Lemma round_div_100 (B rho theta : Q) (n : number) (X : Q) :
  B <= Double.pow2 1020 ->
  rho <= Double.pow2 (-50) -> theta <= 100 * Double.pow2 (-1000) ->
  approximates B rho theta n X ->
  roundedTo2 (X / 100) (Double.div (Number.round n) (Num 100)).
Proof.
  intros HB Hrho Htheta [x [-> [Hx Hnear]]].
  cbn [Number.round]. unfold JS.Math_round.
  set (k := Qfloor (x + (1 # 2))).
  destruct (Math_round_nearest x) as [Hlo Hhi].
  unfold JS.Math_round in Hlo, Hhi. fold k in Hlo, Hhi.
  exists k. rewrite div_positive by reflexivity.
  assert (Hk : Qabs (inject_Z k - x) <= 1 # 2)
    by (apply Qabs_Qle_condition; split; lra).
  assert (E1020 : Double.fl (Double.pow2 1021) == Double.pow2 1021)
    by (vm_compute; reflexivity).
  assert (Hstep : Double.pow2 1020 + (1 # 2) <= 100 * Double.pow2 1021)
    by (apply Qle_bool_iff; vm_compute; reflexivity).
  assert (Hak : Qabs (inject_Z k) <= Qabs x + Qabs (inject_Z k - x)).
  { setoid_replace (inject_Z k) with (x + (inject_Z k - x)) at 1 by ring.
    apply Qabs_triangle. }
  split.
  - apply ofQ_finite.
    assert (Hq : Qabs (inject_Z k / 100) <= Double.pow2 1021).
    { unfold Qdiv. rewrite Qabs_Qmult. change (Qabs (/ 100)) with (1 # 100).
      lra. }
    pose proof (fl_bounded _ _ E1020 Hq) as Hfl.
    assert (Double.pow2 1021 < Double.pow2 1024) by (apply pow2_lt; lia).
    lra.
  - setoid_replace (inject_Z k / 100 - X / 100)
      with ((inject_Z k - x) * (1 # 100) + (x - X) * (1 # 100))
      by (unfold Qdiv; change (/ 100) with (1 # 100); ring).
    eapply Qle_trans; [apply Qabs_triangle|].
    rewrite !Qabs_Qmult. change (Qabs (1 # 100)) with (1 # 100).
    assert (HX : Qabs (X / 100) == Qabs X * (1 # 100)).
    { unfold Qdiv. rewrite Qabs_Qmult. reflexivity. }
    rewrite HX.
    pose proof (Qabs_nonneg X) as HA.
    assert (H1 : rho * Qabs X <= Double.pow2 (-50) * Qabs X)
      by (apply Qmult_le_compat_r; assumption).
    assert (H50 : Double.pow2 (-50) == 1 # 1125899906842624) by reflexivity.
    rewrite H50 in *. lra.
Qed.

(** The roundings of a ratio before its [Math.round]: one for the
    quotient and one for each product. *)
Lemma three_roundings :
  let rho1 := 0 + Double.u * (1 + 0) in
  let rho2 := rho1 + Double.u * (1 + rho1) in
  let rho3 := rho2 + Double.u * (1 + rho2) in
  let theta1 := 0 * (1 + Double.u) + Double.eta in
  (rho2 <= Double.pow2 (-50) /\ rho3 <= Double.pow2 (-50))
  /\ theta1 * 100 * (1 + Double.u) + Double.eta <= 100 * Double.pow2 (-1000)
  /\ theta1 * 10000 * (1 + Double.u) + Double.eta <= 100 * Double.pow2 (-1000)
  /\ (theta1 * 1000 * (1 + Double.u) + Double.eta) * 100 * (1 + Double.u)
     + Double.eta <= 100 * Double.pow2 (-1000).
Proof.
  repeat split; apply Qle_bool_iff; vm_compute; reflexivity.
Qed.

Lemma doubles_1000 :
  Double.fl (Double.pow2 1000) == Double.pow2 1000
  /\ Double.fl (Double.pow2 1010) == Double.pow2 1010
  /\ Double.fl (Double.pow2 1014) == Double.pow2 1014
  /\ Double.fl (Double.pow2 1017) == Double.pow2 1017
  /\ Double.pow2 1000 * 100 <= Double.pow2 1010
  /\ Double.pow2 1000 * 1000 <= Double.pow2 1010
  /\ Double.pow2 1000 * 10000 <= Double.pow2 1014
  /\ Double.pow2 1010 * 100 <= Double.pow2 1017.
Proof.
  repeat split; try (vm_compute; reflexivity);
    apply Qle_bool_iff; vm_compute; reflexivity.
Qed.

(** [Math.round((x / y) * 100) / 100] *)
Lemma round2_div (x y : Q) :
  0 < y -> Qabs (x / y) <= Double.pow2 1000 ->
  roundedTo2 (x / y)
    (FacebookService.round2 (Double.div (Num x) (Num y))).
Proof.
  intros Hy Hx. unfold FacebookService.round2.
  destruct doubles_1000 as [D0 [D1 [_ [_ [M1 _]]]]].
  destruct three_roundings as [[R2 _] [T2 _]].
  pose proof (approximates_div _ x y D0 ltac:(apply pow2_lt; lia) Hy Hx) as A1.
  pose proof (approximates_mul _ _ _ _ 100 _ _ D1 ltac:(apply pow2_lt; lia)
                ltac:(reflexivity) M1 A1) as A2.
  pose proof (round_div_100 (Double.pow2 1010) _ _ _ _
                ltac:(apply pow2_le; lia) R2 T2 A2) as R.
  apply (roundedTo2_comp (x / y * 100 / 100)); [field; lra | exact R].
Qed.

(** [Math.round((x / y) * 1000 * 100) / 100] *)
Lemma round_per_1000 (x y : Q) :
  0 < y -> Qabs (x / y) <= Double.pow2 1000 ->
  roundedTo2 (x / y * 1000)
    (Double.div
       (Number.round
          (Double.mul
             (Double.mul (Double.div (Num x) (Num y)) (Num 1000))
             (Num 100)))
       (Num 100)).
Proof.
  intros Hy Hx.
  destruct doubles_1000 as [D0 [D1 [_ [D3 [_ [M1 [_ M3]]]]]]].
  destruct three_roundings as [[_ R3] [_ [_ T3]]].
  pose proof (approximates_div _ x y D0 ltac:(apply pow2_lt; lia) Hy Hx) as A1.
  pose proof (approximates_mul _ _ _ _ 1000 _ _ D1 ltac:(apply pow2_lt; lia)
                ltac:(reflexivity) M1 A1) as A2.
  pose proof (approximates_mul _ _ _ _ 100 _ _ D3 ltac:(apply pow2_lt; lia)
                ltac:(reflexivity) M3 A2) as A3.
  pose proof (round_div_100 (Double.pow2 1017) _ _ _ _
                ltac:(apply pow2_le; lia) R3 T3 A3) as R.
  apply (roundedTo2_comp (x / y * 1000 * 100 / 100)); [field; lra | exact R].
Qed.

(** [Math.round((x / y) * 10000) / 100] *)
Lemma round_percent (x y : Q) :
  0 < y -> Qabs (x / y) <= Double.pow2 1000 ->
  roundedTo2 (x / y * 100)
    (Double.div
       (Number.round
          (Double.mul (Double.div (Num x) (Num y)) (Num 10000)))
       (Num 100)).
Proof.
  intros Hy Hx.
  destruct doubles_1000 as [D0 [_ [D2 [_ [_ [_ [M2 _]]]]]]].
  destruct three_roundings as [[R2 _] [_ [T2 _]]].
  pose proof (approximates_div _ x y D0 ltac:(apply pow2_lt; lia) Hy Hx) as A1.
  pose proof (approximates_mul _ _ _ _ 10000 _ _ D2 ltac:(apply pow2_lt; lia)
                ltac:(reflexivity) M2 A1) as A2.
  pose proof (round_div_100 (Double.pow2 1014) _ _ _ _
                ltac:(apply pow2_le; lia) R2 T2 A2) as R.
  apply (roundedTo2_comp (x / y * 10000 / 100)); [field; lra | exact R].
Qed.

Lemma positive_Num (q : Q) : 0 < q -> Number.positive (Num q) = true.
Proof. intros H. apply positive_spec. right. exists q. auto. Qed.

(** Reduce the projections of the record [calculateMetrics] builds. *)
Ltac project :=
  cbn [results impressions linkClicks cpm cpc ctr linkCtr costPerResult
       resultRoas].

(** C9, as the code has it. Every derived ratio sits behind a guard
    on its denominator and is 0 when the guard fails: CPM, CTR and
    link-CTR unless impressions > 0, CPC unless clicks > 0, the cost per
    result unless results > 0, ROAS unless resultsValue > 0 and
    spend > 0; a value that is 0 or NaN fails its guard. When the guard
    passes and the values read from the row are finite, with a quotient
    of at most 2^1000 in size, the ratio is a finite number with two
    decimals (CPM per 1000 impressions, CTR and link-CTR as
    percentages): the double nearest to k/100, where the integer k
    is what [Math.round] gave and k/100 differs from the exact ratio by
    at most 0.005 and the rounding of the doubles (a relative 2^-50,
    and 2^-1000). The impressions and link clicks shown are the ones
    read from the row. The spend is not guarded: a spend that reads as
    NaN makes CPM, CPC and the cost per result NaN whenever their
    guards pass. *)
Theorem C9_derived_ratios_are_guarded_and_rounded :
  forall (p : NumberParser) (insight : Insight) (objective : string),
    let m := FacebookService.calculateMetrics p insight objective in
    let spend := parseFloat p (FacebookService.orZero (i_spend insight)) in
    let shown :=
      parseInt p (FacebookService.orZero (i_impressions insight)) in
    let clicks := parseInt p (FacebookService.orZero (i_clicks insight)) in
    let linked :=
      parseInt p (FacebookService.orZero (i_inline_link_clicks insight)) in
    let value :=
      FacebookService.getActionCurrency p (i_action_values insight)
        "offsite_conversion.fb_pixel_purchase" in
    (Number.positive (Num 0) = false /\ Number.positive NaN = false)
    /\ (impressions m = shown /\ linkClicks m = linked
        /\ results m
           = FacebookService.primaryResult p (i_actions insight) linked
               objective)
    /\ (Number.positive shown = false ->
        cpm m = Num 0 /\ ctr m = Num 0 /\ linkCtr m = Num 0)
    /\ (Number.positive clicks = false -> cpc m = Num 0)
    /\ (Number.positive (results m) = false -> costPerResult m = Num 0)
    /\ (Number.positive value = false \/ Number.positive spend = false ->
        resultRoas m = Num 0)
    /\ (forall s i, spend = Num s -> shown = Num i -> 0 < i ->
          Qabs (s / i) <= Double.pow2 1000 ->
          roundedTo2 (s / i * 1000) (cpm m))
    /\ (forall c i, clicks = Num c -> shown = Num i -> 0 < i ->
          Qabs (c / i) <= Double.pow2 1000 ->
          roundedTo2 (c / i * 100) (ctr m))
    /\ (forall l i, linked = Num l -> shown = Num i -> 0 < i ->
          Qabs (l / i) <= Double.pow2 1000 ->
          roundedTo2 (l / i * 100) (linkCtr m))
    /\ (forall s c, spend = Num s -> clicks = Num c -> 0 < c ->
          Qabs (s / c) <= Double.pow2 1000 ->
          roundedTo2 (s / c) (cpc m))
    /\ (forall s r, spend = Num s -> results m = Num r -> 0 < r ->
          Qabs (s / r) <= Double.pow2 1000 ->
          roundedTo2 (s / r) (costPerResult m))
    /\ (forall v s, value = Num v -> spend = Num s -> 0 < v -> 0 < s ->
          Qabs (v / s) <= Double.pow2 1000 ->
          roundedTo2 (v / s) (resultRoas m))
    /\ (spend = NaN ->
        (Number.positive shown = true -> cpm m = NaN)
        /\ (Number.positive clicks = true -> cpc m = NaN)
        /\ (Number.positive (results m) = true -> costPerResult m = NaN)).
Proof.
  intros p insight objective m spend shown clicks linked value.
  split; [split; reflexivity|].
  split; [repeat split|].
  unfold m, FacebookService.calculateMetrics. project.
  fold spend. fold clicks. fold value. fold shown. fold linked.
  set (res := FacebookService.primaryResult p (i_actions insight) linked
                objective).
  split; [intros ->; auto|].
  split; [intros ->; reflexivity|].
  split; [intros ->; reflexivity|].
  split.
  { intros [->| ->]; [reflexivity | rewrite andb_false_r; reflexivity]. }
  split.
  { intros s i -> -> Hpos Hb. rewrite (positive_Num i Hpos).
    apply round_per_1000; assumption. }
  split.
  { intros c i -> -> Hpos Hb. rewrite (positive_Num i Hpos).
    apply round_percent; assumption. }
  split.
  { intros l i -> -> Hpos Hb. rewrite (positive_Num i Hpos).
    apply round_percent; assumption. }
  split.
  { intros s c -> -> Hpos Hb. rewrite (positive_Num c Hpos).
    apply round2_div; assumption. }
  split.
  { intros s r -> -> Hpos Hb. rewrite (positive_Num r Hpos).
    apply round2_div; assumption. }
  split.
  { intros v s -> -> Hv Hs Hb.
    rewrite (positive_Num v Hv), (positive_Num s Hs). cbn [andb].
    apply round2_div; assumption. }
  intros ->.
  split; [|split]; intros ->; unfold FacebookService.round2;
    [destruct shown | destruct clicks | destruct res]; reflexivity.
Qed.

(** 12.34 spent on 3 clicks of 700 impressions, 2 purchases worth 50. *)
Definition insight_12_34 : Insight :=
  {| i_spend := Some "12.34"; i_impressions := Some "700";
     i_reach := Some "650"; i_frequency := Some "1.08";
     i_clicks := Some "3"; i_inline_link_clicks := Some "2";
     i_actions :=
       [ {| action_type := "offsite_conversion.fb_pixel_purchase";
            value := Some "2" |} ];
     i_action_values :=
       [ {| av_action_type := "offsite_conversion.fb_pixel_purchase";
            av_value := Some "50" |} ] |}.

Lemma C9_witness :
  (0 < 3)
  /\ roundedTo2 (Double.fl (1234 # 100) / 3)
       (cpc (FacebookService.calculateMetrics Fixture.parser insight_12_34
               "Conversions")).
Proof.
  split; [reflexivity|].
  refine (proj1 (proj2 (proj2 (proj2 (proj2 (proj2 (proj2 (proj2 (proj2 (proj2
    (C9_derived_ratios_are_guarded_and_rounded Fixture.parser insight_12_34
       "Conversions")))))))))) (Double.fl (1234 # 100)) 3 _ _ _ _).
  - vm_compute. reflexivity.
  - vm_compute. reflexivity.
  - reflexivity.
  - apply Qle_bool_iff. vm_compute. reflexivity.
Defined.

Example metrics_rounded :
  let m := FacebookService.calculateMetrics Fixture.parser insight_12_34
             "Conversions" in
  (results m, cpm m, cpc m, ctr m, costPerResult m, resultRoas m)
  = (Num 2, Num (Double.fl (1763 # 100)), Num (Double.fl (411 # 100)),
     Num (Double.fl (43 # 100)), Num (Double.fl (617 # 100)),
     Num (Double.fl (405 # 100))).
Proof. vm_compute. reflexivity. Qed.

(** spend = 100 and no impressions: CPM is 0; no results: cost per
    result is 0. *)
Example metrics_without_impressions :
  let m := FacebookService.calculateMetrics Fixture.parser
             {| i_spend := Some "100"; i_impressions := Some "0";
                i_reach := None; i_frequency := None; i_clicks := None;
                i_inline_link_clicks := None; i_actions := [];
                i_action_values := [] |} "OUTCOME_SALES" in
  (cpm m, ctr m, linkCtr m, cpc m, costPerResult m, resultRoas m)
  = (Num 0, Num 0, Num 0, Num 0, Num 0, Num 0).
Proof. vm_compute. reflexivity. Qed.

(** A spend of 1.005 on one click: the double read from the text is a
    little below 1.005, its product with 100 is the double
    100.49999999999999, and [Math.round] gives 100: the CPC is 1, not
    1.01. *)
Example metrics_near_a_tie :
  cpc (FacebookService.calculateMetrics Fixture.parser
         {| i_spend := Some "1.005"; i_impressions := Some "10";
            i_reach := None; i_frequency := None; i_clicks := Some "1";
            i_inline_link_clicks := None; i_actions := [];
            i_action_values := [] |} "")
  = Num 1.
Proof. vm_compute. reflexivity. Qed.

(** The guards do not keep NaN and Infinity out. A spend of 1e308 on
    one click of one impression: the products with 1000 and with 100
    overflow, and CPM, CPC and the amount spent are Infinity. A spend
    that is no numeral reads as NaN, and with it CPM and CPC are NaN. *)
Lemma C9_counterexample :
  (let m := FacebookService.calculateMetrics Fixture.parser
              {| i_spend := Some "1e308"; i_impressions := Some "1";
                 i_reach := None; i_frequency := None; i_clicks := Some "1";
                 i_inline_link_clicks := None; i_actions := [];
                 i_action_values := [] |} "" in
   (impressions m, cpm m, cpc m, amountSpent m)
   = (Num 1, PosInfinity, PosInfinity, PosInfinity))
  /\ (let m := FacebookService.calculateMetrics Fixture.parser
                 {| i_spend := Some "n/a"; i_impressions := Some "10";
                    i_reach := None; i_frequency := None;
                    i_clicks := Some "2"; i_inline_link_clicks := None;
                    i_actions := []; i_action_values := [] |} "" in
      (impressions m, cpm m, cpc m) = (Num 10, NaN, NaN)).
Proof. split; vm_compute; reflexivity. Qed.
End DerivedRatios.


(** ** C8: the rate-limit retry of the Facebook client *)

(** The reply the vendor gives to the request number [i] from now on
    (none left: the request fails at the network). *)
Definition replyAt (w : World) (i : nat) : FacebookReply :=
  nth i (facebookReplies w) (FacebookFail networkError).

Lemma facebook_get_spec w :
  fst (FacebookService.get w) = replyAt w 0
  /\ facebookReplies (snd (FacebookService.get w)) = tl (facebookReplies w)
  /\ vendorCalls (snd (FacebookService.get w)) = vendorCalls w ++ [Facebook]
  /\ slept (snd (FacebookService.get w)) = slept w
  /\ auditLog (snd (FacebookService.get w)) = auditLog w
  /\ storeMetrics (snd (FacebookService.get w)) = storeMetrics w.
Proof.
  unfold FacebookService.get, replyAt.
  destruct (facebookReplies w) as [|r rs] eqn:E; simpl; rewrite ?E; auto 10.
Qed.

(** One step of [callFacebook], by cases on the reply and the counter. *)
Lemma callFacebook_step retry w :
  FacebookService.callFacebook retry w
  = match FacebookService.get w with
    | (FacebookOk data, w1) => (Returned data, w1)
    | (FacebookFail err, w1) =>
        if FacebookService.isRateLimit err && (retry <? 3)%nat
        then FacebookService.callFacebook (retry + 1) (snd (sleep 2000 w1))
        else (Thrown (FacebookService.apiError err), w1)
    end.
Proof.
  rewrite FacebookService.callFacebook_equation_1.
  destruct (FacebookService.get w) as [[err|data] w1]; simpl; [|reflexivity].
  unfold FacebookService.callFacebook_unfold_clause_1_clause_2.
  destruct (FacebookService.isRateLimit err); simpl.
  - destruct (lt_dec retry 3) as [Hlt|Hge]; simpl.
    + apply Nat.ltb_lt in Hlt. rewrite Hlt. reflexivity.
    + apply Nat.ltb_nlt in Hge. rewrite Hge. reflexivity.
  - destruct (lt_dec retry 3); reflexivity.
Qed.

(** What a run of [callFacebook] does, counted in retries. *)
Definition runsWith (k : nat) (w : World)
    (r : Outcome (option (list FbSpendRow)) * World) (n : nat) : Prop :=
  (n <= k)%nat
  /\ vendorCalls (snd r) = vendorCalls w ++ repeat Facebook (S n)
  /\ slept (snd r) = slept w ++ repeat 2000 n
  /\ facebookReplies (snd r) = skipn (S n) (facebookReplies w)
  /\ auditLog (snd r) = auditLog w
  /\ storeMetrics (snd r) = storeMetrics w
  /\ (forall i, (i < n)%nat ->
        exists err, replyAt w i = FacebookFail err
                    /\ FacebookService.isRateLimit err = true)
  /\ match replyAt w n with
     | FacebookOk data => fst r = Returned data
     | FacebookFail err =>
         fst r = Thrown (FacebookService.apiError err)
         /\ (FacebookService.isRateLimit err = false \/ n = k)
     end.

Lemma skipn_S_tl {A} (m : nat) (l : list A) : skipn (S m) l = skipn m (tl l).
Proof. destruct l; [destruct m|]; reflexivity. Qed.

Lemma callFacebook_runs k : forall retry w,
  k = (3 - retry)%nat ->
  exists n, runsWith k w (FacebookService.callFacebook retry w) n.
Proof.
  assert (Hstop : forall (k' : nat) w reply w1,
            FacebookService.get w = (reply, w1) ->
            forall r, match reply with
                      | FacebookOk data => r = Returned data
                      | FacebookFail err =>
                          r = Thrown (FacebookService.apiError err)
                          /\ (FacebookService.isRateLimit err = false \/ O = k')
                      end ->
            runsWith k' w (r, w1) O).
  { intros k' w reply w1 Hget r Hr.
    destruct (facebook_get_spec w) as [H0 [H1 [H2 [H3 [H4 H5]]]]].
    rewrite Hget in *. cbn [fst snd] in *.
    unfold runsWith. cbn [fst snd repeat].
    rewrite <- H0, H1, H2, H3, H4, H5, app_nil_r.
    repeat split; auto; try lia. }
  induction k as [|k IH]; intros retry w Hk.
  - exists O. rewrite callFacebook_step.
    destruct (FacebookService.get w) as [[err|data] w1] eqn:Hget.
    + assert (E : (retry <? 3)%nat = false) by (apply Nat.ltb_ge; lia).
      rewrite E, andb_false_r.
      apply (Hstop O w _ w1 Hget). auto.
    + apply (Hstop O w _ w1 Hget). reflexivity.
  - rewrite callFacebook_step.
    destruct (FacebookService.get w) as [[err|data] w1] eqn:Hget;
      [|exists O; apply (Hstop (S k) w _ w1 Hget); reflexivity].
    destruct (FacebookService.isRateLimit err) eqn:Erl;
      [|exists O; apply (Hstop (S k) w _ w1 Hget); auto].
    assert (E : (retry <? 3)%nat = true) by (apply Nat.ltb_lt; lia).
    rewrite E. cbn [andb].
    destruct (facebook_get_spec w) as [H0 [H1 [H2 [H3 [H4 H5]]]]].
    rewrite Hget in *. cbn [fst snd] in *.
    set (w2 := snd (sleep 2000 w1)).
    assert (Hat : forall i, replyAt w2 i = replyAt w (S i)).
    { intros i. unfold replyAt.
      change (facebookReplies w2) with (facebookReplies w1). rewrite H1.
      destruct (facebookReplies w); [destruct i|]; reflexivity. }
    destruct (IH (retry + 1)%nat w2 ltac:(lia))
      as [n [Hn [Hc [Hs [Hr [Ha [Hm [Hi Hlast]]]]]]]].
    change (vendorCalls w2) with (vendorCalls w1) in Hc.
    change (slept w2) with (slept w1 ++ [2000]) in Hs.
    change (facebookReplies w2) with (facebookReplies w1) in Hr.
    change (auditLog w2) with (auditLog w1) in Ha.
    change (storeMetrics w2) with (storeMetrics w1) in Hm.
    exists (S n). unfold runsWith.
    rewrite Hc, Hs, Hr, Ha, Hm, H1, H2, H3, H4, H5, <- !app_assoc,
      <- skipn_S_tl.
    split; [lia|]. split; [reflexivity|]. split; [reflexivity|].
    split; [reflexivity|]. split; [reflexivity|]. split; [reflexivity|].
    split.
    + intros [|i] Hlt.
      * exists err. rewrite <- H0. auto.
      * rewrite <- Hat. apply Hi. lia.
    + rewrite <- Hat. destruct (replyAt w2 n); [|exact Hlast].
      destruct Hlast as [Hl [Hl'|Hl']]; auto.
Qed.

Lemma isRateLimit_code err :
  FacebookService.isRateLimit err = true
  <-> exists e, ax_error err = Some e /\ code e = 17.
Proof.
  unfold FacebookService.isRateLimit.
  destruct (ax_error err) as [e|].
  - rewrite Z.eqb_eq. split.
    + intros H. exists e. auto.
    + intros [e' [He Hc]]. inversion He. subst. exact Hc.
  - split; [discriminate | intros [e [He _]]; discriminate].
Qed.

(** C8. Every call of [callFacebook] (started, as the client does, with
    [retry = 0]) ends, after some number [n] of retries that is at most
    3: it made [n + 1] requests and awaited exactly [n] delays, of 2000
    ms each; each of the [n] replies that was followed by a retry was an
    error with code 17; and the last reply decides the result: its data
    is returned, or it is an error and the call throws, and then either
    the error is not the rate-limit error or the 3 retries are used
    up. *)
Theorem C8_facebook_retry_is_bounded :
  forall w : World,
    exists n : nat,
      let r := FacebookService.callFacebook 0 w in
      (n <= 3)%nat
      /\ vendorCalls (snd r) = vendorCalls w ++ repeat Facebook (S n)
      /\ slept (snd r) = slept w ++ repeat 2000 n
      /\ (forall i, (i < n)%nat ->
            exists err e, replyAt w i = FacebookFail err
                          /\ ax_error err = Some e /\ code e = 17)
      /\ match replyAt w n with
         | FacebookOk data => fst r = Returned data
         | FacebookFail err =>
             fst r = Thrown (FacebookService.apiError err)
             /\ (FacebookService.isRateLimit err = false \/ n = 3%nat)
         end.
Proof.
  intros w.
  destruct (callFacebook_runs 3 0 w eq_refl)
    as [n [Hn [Hc [Hs [_ [_ [_ [Hi Hlast]]]]]]]].
  exists n. cbv zeta.
  split; [exact Hn|]. split; [exact Hc|]. split; [exact Hs|].
  split; [|exact Hlast].
  intros i Hlt. destruct (Hi i Hlt) as [err [Hr Hrl]].
  apply isRateLimit_code in Hrl. destruct Hrl as [e [He Hcode]].
  exists err, e. auto.
Qed.

Definition rateLimited : FacebookReply :=
  FacebookFail
    {| ax_message := "Request failed with status code 400";
       ax_error := Some {| code := 17;
                           api_message := "User request limit reached" |} |}.

Definition tokenRejected : FacebookReply :=
  FacebookFail
    {| ax_message := "Request failed with status code 400";
       ax_error := Some {| code := 190;
                           api_message := "Invalid OAuth access token." |} |}.

(** The vendor keeps answering with the rate-limit error: 4 requests,
    3 delays, then the error is thrown. *)
Example callFacebook_exhausts_retries :
  let w := withFacebookReplies
             (fun _ => [rateLimited; rateLimited; rateLimited; rateLimited;
                        FacebookOk None]) Fixture.emptyWorld in
  let r := FacebookService.callFacebook 0 w in
  fst r = Thrown {| exnClass := PlainError;
                    message := "User request limit reached" |}
  /\ vendorCalls (snd r) = [Facebook; Facebook; Facebook; Facebook]
  /\ slept (snd r) = [2000; 2000; 2000]
  /\ facebookReplies (snd r) = [FacebookOk None].
Proof. vm_compute. auto. Qed.

(** Another error is not retried. *)
Example callFacebook_other_error :
  let w := withFacebookReplies (fun _ => [tokenRejected; FacebookOk None])
             Fixture.emptyWorld in
  let r := FacebookService.callFacebook 0 w in
  fst r = Thrown {| exnClass := PlainError;
                    message := "Invalid OAuth access token." |}
  /\ vendorCalls (snd r) = [Facebook] /\ slept (snd r) = [].
Proof. vm_compute. auto. Qed.


(** ** C7: validation of a backfill range *)

(** The range of a backfill request is refused: a date does not parse,
    or the start is after the end. *)
Definition invalidRange (rt : JS.Runtime) (startDate endDate : string) : bool :=
  JS.isNaN_time (JS.newDate rt startDate)
  || JS.isNaN_time (JS.newDate rt endDate)
  || JS.Date_gt (JS.newDate rt startDate) (JS.newDate rt endDate).

(** The message of the error object. *)
Definition rangeError (rt : JS.Runtime) (startDate endDate : string) : string :=
  if JS.isNaN_time (JS.newDate rt startDate)
     || JS.isNaN_time (JS.newDate rt endDate)
  then "Invalid date format. Use YYYY-MM-DD"
  else "startDate must be before endDate".

(** C7, as the code has it. A backfill request with an invalid range
    leaves the world as it was: no vendor call is made, no audit entry
    and no metric row is written. When the store exists the method
    returns the error object with status 400 (the format error when a
    date does not parse, the ordering error otherwise); when it does
    not, the store lookup, which comes first, throws its
    NotFoundException. *)
Theorem C7_invalid_range_is_rejected_before_any_call :
  forall (rt : JS.Runtime) (stores : list Store)
         (storeId startDate endDate : string) (w : World),
    invalidRange rt startDate endDate = true ->
    let r := MetricsController.rangeSync rt stores storeId startDate endDate w in
    snd r = w
    /\ match find (fun s => String.eqb (store_id s) storeId) stores with
       | Some _ =>
           fst r = Returned (MetricsController.ErrorObject
                               (rangeError rt startDate endDate) 400)
       | None => fst r = Thrown StoresService.notFound
       end.
Proof.
  intros rt stores storeId startDate endDate w Hinv.
  unfold MetricsController.rangeSync, StoresService.findOne, bind, ret, throw,
    invalidRange, rangeError in *.
  destruct (find _ stores) as [store|]; cbn [fst snd]; [|auto].
  destruct (JS.isNaN_time (JS.newDate rt startDate)
            || JS.isNaN_time (JS.newDate rt endDate)) eqn:Enan;
    cbn [fst snd]; [auto|].
  simpl in Hinv. rewrite Hinv. auto.
Qed.

(** The example of the specification, for a store that exists. *)
Lemma C7_witness :
  invalidRange Fixture.runtime "2025-02-01" "2025-01-01" = true
  /\ MetricsController.rangeSync Fixture.runtime [Fixture.storeS]
       "64b7f0c2a1" "2025-02-01" "2025-01-01" Fixture.emptyWorld
     = (Returned (MetricsController.ErrorObject
                    "startDate must be before endDate" 400),
        Fixture.emptyWorld).
Proof.
  split; [reflexivity|].
  pose proof (C7_invalid_range_is_rejected_before_any_call Fixture.runtime
                [Fixture.storeS] "64b7f0c2a1" "2025-02-01" "2025-01-01"
                Fixture.emptyWorld eq_refl) as [Hw Hr].
  rewrite (surjective_pairing (MetricsController.rangeSync _ _ _ _ _ _)).
  rewrite Hw. f_equal; exact Hr.
Defined.

(** The same inverted range for a store id that is not in the
    collection: the request ends in the thrown NotFoundException, not in
    the error object. *)
Lemma C7_counterexample :
  invalidRange Fixture.runtime "2025-02-01" "2025-01-01" = true
  /\ fst (MetricsController.rangeSync Fixture.runtime [Fixture.storeS]
            "000000000000" "2025-02-01" "2025-01-01" Fixture.emptyWorld)
     = Thrown {| exnClass := NotFoundException; message := "Store not found" |}
  /\ forall error status,
       fst (MetricsController.rangeSync Fixture.runtime [Fixture.storeS]
              "000000000000" "2025-02-01" "2025-01-01" Fixture.emptyWorld)
       <> Returned (MetricsController.ErrorObject error status).
Proof.
  split; [reflexivity|]. split; [reflexivity|].
  intros error status. vm_compute. discriminate.
Qed.

(** A valid range goes on to the vendors. *)
Example rangeSync_valid_range_calls_vendors :
  vendorCalls
    (snd (MetricsController.rangeSync Fixture.runtime [Fixture.storeS]
            "64b7f0c2a1" "2025-01-01" "2025-01-01" Fixture.emptyWorld))
  <> [].
Proof. vm_compute. discriminate. Qed.


(** ** The Shopify loops, one turn at a time *)

(** What [dayLoop] does with the outcome of its call. *)
Definition dayLoopAfter (t : ShopifyService.DayTotals)
    (called : Outcome OrdersPage * World)
  : Outcome ShopifyService.DayTotals * World :=
  match called with
  | (Thrown e, w1) => (Thrown e, w1)
  | (Returned page, w1) =>
      match ShopifyService.pageStep page with
      | ShopifyService.NextPage =>
          ShopifyService.dayLoop (ShopifyService.countOrders t (edges page)) w1
      | ShopifyService.LastPage =>
          (Returned (ShopifyService.countOrders t (edges page)), w1)
      | ShopifyService.NoCursor => (Thrown ShopifyService.noCursorError, w1)
      end
  end.

Lemma dayLoop_step t w :
  ShopifyService.dayLoop t w = dayLoopAfter t (ShopifyService.callShopify w).
Proof.
  rewrite ShopifyService.dayLoop_equation_1.
  destruct (inspect (ShopifyService.callShopify w)) as [x Heq].
  replace (dayLoopAfter t (ShopifyService.callShopify w))
    with (dayLoopAfter t x) by (rewrite Heq; reflexivity).
  destruct x as [[page|e] w1]; simpl; [|reflexivity].
  unfold ShopifyService.dayLoop_unfold_clause_1_clause_2.
  destruct (ShopifyService.pageStep page); reflexivity.
Qed.

Lemma daysLoop_step rt from to cur results w :
  ShopifyService.daysLoop rt from to cur results w
  = if cur <=? to
    then match ShopifyService.dayLoop (0%Q, 0%Q, 0%Q) w with
         | (Thrown e, w1) => (Thrown e, w1)
         | (Returned t, w1) =>
             ShopifyService.daysLoop rt from to (cur + ShopifyService.msPerDay)
               (results ++ [ShopifyService.dayRow rt cur t])
               (if (1 <? ShopifyService.totalDays from to) && (cur <? to)
                then snd (sleep ShopifyService.DELAY_BETWEEN_DAYS_MS w1)
                else w1)
         end
    else (Returned results, w).
Proof.
  rewrite ShopifyService.daysLoop_equation_1.
  destruct (Z_le_gt_dec cur to) as [Hle|Hgt]; simpl.
  - destruct (Z.leb_spec cur to); [|lia].
    unfold ShopifyService.daysLoop_unfold_clause_1_clause_2.
    destruct (ShopifyService.dayLoop (0%Q, 0%Q, 0%Q) w) as [[t|e] w1];
      reflexivity.
  - destruct (Z.leb_spec cur to); [lia | reflexivity].
Qed.

(** From [w] to [w'] the Shopify replies taken from the queue were all
    data pages. *)
Definition tookDataPages (w w' : World) : Prop :=
  exists pages, shopifyReplies w = map ShopifyData pages ++ shopifyReplies w'.

Lemma tookDataPages_refl w : tookDataPages w w.
Proof. exists []. reflexivity. Qed.

Lemma tookDataPages_trans w1 w2 w3 :
  tookDataPages w1 w2 -> tookDataPages w2 w3 -> tookDataPages w1 w3.
Proof.
  intros [p1 H1] [p2 H2]. exists (p1 ++ p2).
  rewrite H1, H2, map_app, app_assoc. reflexivity.
Qed.

Lemma callShopify_spec w :
  storeMetrics (snd (ShopifyService.callShopify w)) = storeMetrics w
  /\ forall page, fst (ShopifyService.callShopify w) = Returned page ->
       shopifyReplies w
       = ShopifyData page :: shopifyReplies (snd (ShopifyService.callShopify w)).
Proof.
  unfold ShopifyService.callShopify, tryCatch, ShopifyService.post, throw.
  destruct (shopifyReplies w) as [|r rs] eqn:E; cbn [fst snd].
  - split; [reflexivity | discriminate].
  - destruct r; cbn [fst snd]; (split; [reflexivity|]); try discriminate.
    intros pg H. inversion H. reflexivity.
Qed.

Lemma dayLoop_spec n : forall t w,
  (List.length (shopifyReplies w) <= n)%nat ->
  storeMetrics (snd (ShopifyService.dayLoop t w)) = storeMetrics w
  /\ forall x, fst (ShopifyService.dayLoop t w) = Returned x ->
       tookDataPages w (snd (ShopifyService.dayLoop t w)).
Proof.
  induction n as [|n IH]; intros t w Hlen; rewrite dayLoop_step;
    destruct (callShopify_spec w) as [Hm Hr];
    pose proof (ShopifyService.callShopify_consumes w) as Hc;
    destruct (ShopifyService.callShopify w) as [[page|e] w1];
    cbn [fst snd dayLoopAfter] in *; try (split; [exact Hm | discriminate]).
  - specialize (Hc page w1 eq_refl). lia.
  - specialize (Hc page w1 eq_refl). specialize (Hr page eq_refl).
    destruct (ShopifyService.pageStep page); cbn [fst snd].
    + destruct (IH (ShopifyService.countOrders t (edges page)) w1 ltac:(lia))
        as [Hm' Hr'].
      split; [congruence|]. intros x Hx.
      apply (tookDataPages_trans w w1); [exists [page]; exact Hr | eauto].
    + split; [exact Hm|]. intros x _. exists [page]. exact Hr.
    + split; [exact Hm | discriminate].
Qed.

Lemma daysLoop_spec rt from to n : forall cur results w,
  (Z.to_nat (to + 1 - cur) <= n)%nat ->
  storeMetrics (snd (ShopifyService.daysLoop rt from to cur results w))
  = storeMetrics w
  /\ forall x,
       fst (ShopifyService.daysLoop rt from to cur results w) = Returned x ->
       tookDataPages w (snd (ShopifyService.daysLoop rt from to cur results w)).
Proof.
  induction n as [|n IH]; intros cur results w Hn; rewrite daysLoop_step;
    destruct (Z.leb_spec cur to) as [Hle|Hgt]; cbn [fst snd];
    try (split; [reflexivity | intros; apply tookDataPages_refl]);
    try lia.
  destruct (dayLoop_spec (List.length (shopifyReplies w)) (0%Q, 0%Q, 0%Q) w
              (Nat.le_refl _)) as [Hm Hr].
  destruct (ShopifyService.dayLoop (0%Q, 0%Q, 0%Q) w) as [[t|e] w1];
    cbn [fst snd] in *; [|split; [exact Hm | discriminate]].
  set (w2 := if (1 <? ShopifyService.totalDays from to) && (cur <? to)
             then snd (sleep ShopifyService.DELAY_BETWEEN_DAYS_MS w1) else w1).
  assert (Hw2 : storeMetrics w2 = storeMetrics w1
                /\ shopifyReplies w2 = shopifyReplies w1).
  { unfold w2. destruct ((1 <? _) && (cur <? to)); split; reflexivity. }
  destruct Hw2 as [Hm2 Hr2].
  destruct (IH (cur + ShopifyService.msPerDay)
              (results ++ [ShopifyService.dayRow rt cur t]) w2) as [Hm' Hr'].
  { unfold ShopifyService.msPerDay. lia. }
  split; [congruence|]. intros x Hx.
  apply (tookDataPages_trans w w1); [eauto|].
  destruct (Hr' x Hx) as [pages Hp]. exists pages. rewrite <- Hr2. exact Hp.
Qed.


(** ** The vendor clients, seen by their callers *)

(** An audit entry that records the failure [e] for [store]. *)
Definition isFailureOf (store : Store) (e : Exn) (entry : CreateAuditLogInput)
  : Prop :=
  status entry = FAILURE
  /\ audit_storeId entry = store_id store
  /\ errorMessage entry = Some (message e).

(** [catch (error) { await audit(entry(error)); throw error }] *)
Lemma tryCatch_audit_rethrow {A} (m : Async A)
    (entry : Exn -> CreateAuditLogInput) (w : World) :
  tryCatch m (fun error => AuditService.log (entry error) ;;; throw error) w
  = match m w with
    | (Returned a, w1) => (Returned a, w1)
    | (Thrown e, w1) => (Thrown e, withAudit (fun l => l ++ [entry e]) w1)
    end.
Proof.
  unfold tryCatch. destruct (m w) as [[a|e] w1]; reflexivity.
Qed.

Lemma fetchOrdersTry_spec rt store from to w :
  storeMetrics (snd (ShopifyService.fetchOrdersTry rt store from to w))
  = storeMetrics w
  /\ forall rows,
       fst (ShopifyService.fetchOrdersTry rt store from to w) = Returned rows ->
       tookDataPages w (snd (ShopifyService.fetchOrdersTry rt store from to w)).
Proof.
  unfold ShopifyService.fetchOrdersTry, bind, AuditService.log, modify, ret.
  set (w0 := withAudit _ w).
  destruct (daysLoop_spec rt from to (Z.to_nat (to + 1 - from)) from [] w0
              (Nat.le_refl _)) as [Hm Hr].
  destruct (ShopifyService.daysLoop rt from to from [] w0) as [[rows|e] w1];
    cbn [fst snd] in *.
  - split; [exact Hm|]. intros rows' _. exact (Hr rows eq_refl).
  - split; [exact Hm | discriminate].
Qed.

Lemma shopify_fetchOrders_spec rt store from to w :
  let r := ShopifyService.fetchOrders rt store from to w in
  storeMetrics (snd r) = storeMetrics w
  /\ match fst r with
     | Thrown e =>
         fst (ShopifyService.fetchOrdersTry rt store from to w) = Thrown e
         /\ exists l entry, auditLog (snd r) = l ++ [entry]
                            /\ isFailureOf store e entry
     | Returned _ => tookDataPages w (snd r)
     end.
Proof.
  unfold ShopifyService.fetchOrders. cbv zeta.
  rewrite tryCatch_audit_rethrow.
  destruct (fetchOrdersTry_spec rt store from to w) as [Hm Hr].
  destruct (ShopifyService.fetchOrdersTry rt store from to w) as [[rows|e] w1];
    cbn [fst snd] in *.
  - split; [exact Hm | exact (Hr rows eq_refl)].
  - split; [exact Hm|]. split; [reflexivity|].
    exists (auditLog w1), (ShopifyService.failed store e).
    split; [reflexivity | repeat split].
Qed.


Lemma facebook_fetchAdSpendTry_spec store from to w :
  storeMetrics (snd (FacebookService.fetchAdSpendTry store from to w))
  = storeMetrics w
  /\ forall rows,
       fst (FacebookService.fetchAdSpendTry store from to w) = Returned rows ->
       exists n data,
         (n <= 3)%nat /\ replyAt w n = FacebookOk data
         /\ forall i, (i < n)%nat ->
              exists err, replyAt w i = FacebookFail err
                          /\ FacebookService.isRateLimit err = true.
Proof.
  unfold FacebookService.fetchAdSpendTry, FacebookService.adAccountIdOf,
    bind, AuditService.log, modify, ret, throw.
  set (w0 := withAudit _ w).
  destruct (fbAccountId store) as [a|]; [|split; [reflexivity | discriminate]].
  destruct (callFacebook_runs 3 0 w0 eq_refl)
    as [n [Hn [_ [_ [_ [_ [Hm [Hi Hlast]]]]]]]].
  change (replyAt w0) with (replyAt w) in *.
  change (storeMetrics w0) with (storeMetrics w) in Hm.
  destruct (FacebookService.callFacebook 0 w0) as [[data|e] w1];
    cbn [fst snd] in *.
  - assert (Hok : replyAt w n = FacebookOk data).
    { destruct (replyAt w n) as [err|d]; [destruct Hlast; discriminate|].
      inversion Hlast. reflexivity. }
    destruct data as [[|row rows]|]; cbn [fst snd];
      (split; [exact Hm|]); intros rows' _; exists n; eauto.
  - split; [exact Hm | discriminate].
Qed.

Lemma facebook_fetchAdSpend_spec store from to w :
  let r := FacebookService.fetchAdSpend store from to w in
  storeMetrics (snd r) = storeMetrics w
  /\ match fst r with
     | Thrown e =>
         fst (FacebookService.fetchAdSpendTry store from to w) = Thrown e
         /\ exists l entry, auditLog (snd r) = l ++ [entry]
                            /\ isFailureOf store e entry
     | Returned _ =>
         exists n data,
           (n <= 3)%nat /\ replyAt w n = FacebookOk data
           /\ forall i, (i < n)%nat ->
                exists err, replyAt w i = FacebookFail err
                            /\ FacebookService.isRateLimit err = true
     end.
Proof.
  unfold FacebookService.fetchAdSpend. cbv zeta.
  rewrite tryCatch_audit_rethrow.
  destruct (facebook_fetchAdSpendTry_spec store from to w) as [Hm Hr].
  destruct (FacebookService.fetchAdSpendTry store from to w) as [[rows|e] w1];
    cbn [fst snd] in *.
  - split; [exact Hm | exact (Hr rows eq_refl)].
  - split; [exact Hm|]. split; [reflexivity|].
    exists (auditLog w1), (FacebookService.failed store e).
    split; [reflexivity | repeat split].
Qed.

Lemma google_fetchAdSpendTry_metrics store from to w :
  storeMetrics (snd (GoogleService.fetchAdSpendTry store from to w))
  = storeMetrics w.
Proof.
  unfold GoogleService.fetchAdSpendTry, GoogleService.getValidAccessToken,
    GoogleOAuthService.refreshAccessToken, GoogleService.post,
    bind, AuditService.log, modify, ret, throw.
  set (w0 := withAudit _ w).
  destruct (googleRefreshToken store) as [token|]; [|reflexivity].
  destruct (String.eqb token ""); [reflexivity|].
  destruct (truthy (googleAccessToken store) && _).
  - destruct (googleReplies w0) as [|[e|data] rs]; reflexivity.
  - destruct (oauthReplies w0) as [|t ts]; [reflexivity|].
    destruct (truthy t); [|reflexivity]. cbn [googleReplies withOauthReplies
      withVendorCalls].
    destruct (googleReplies w0) as [|[e|data] rs]; reflexivity.
Qed.

Lemma google_fetchAdSpend_spec store from to w :
  let r := GoogleService.fetchAdSpend store from to w in
  storeMetrics (snd r) = storeMetrics w
  /\ (exists rows, fst r = Returned rows)
  /\ (truthy (googleCustomerId store) = false -> r = (Returned [], w))
  /\ (truthy (googleCustomerId store) = true ->
      forall e w1,
        GoogleService.fetchAdSpendTry store from to w = (Thrown e, w1) ->
        r = (Returned [],
             withAudit (fun l => l ++ [GoogleService.failed store e]) w1)).
Proof.
  unfold GoogleService.fetchAdSpend. cbv zeta.
  pose proof (google_fetchAdSpendTry_metrics store from to w) as Hm.
  destruct (truthy (googleCustomerId store)); cbn [negb].
  - unfold tryCatch, bind, AuditService.log, modify, ret.
    destruct (GoogleService.fetchAdSpendTry store from to w) as [[rows|e] w1];
      cbn [fst snd] in *.
    + split; [exact Hm|]. split; [eauto|]. split; [discriminate|].
      intros _ e w1' H. discriminate.
    + split; [exact Hm|]. split; [eauto|]. split; [discriminate|].
      intros _ e' w1' H. inversion H. reflexivity.
  - unfold ret. cbn [fst snd]. split; [reflexivity|]. split; [eauto|].
    split; [reflexivity | discriminate].
Qed.


(** ** The orchestrator *)

Section Orchestrator.
Variable rt : JS.Runtime.
Variable yesterday : Z.

Let fetchShopify store := ShopifyService.fetchOrders rt store yesterday yesterday.
Let fetchFacebook store := FacebookService.fetchAdSpend store yesterday yesterday.
Let fetchGoogle store := GoogleService.fetchAdSpend store yesterday yesterday.

(** The worlds the three calls of [Promise.all] start from. *)
Definition afterShopify (store : Store) (w : World) : World :=
  snd (ShopifyService.fetchOrders rt store yesterday yesterday w).
Definition afterFacebook (store : Store) (w : World) : World :=
  snd (FacebookService.fetchAdSpend store yesterday yesterday
         (afterShopify store w)).
Definition afterGoogle (store : Store) (w : World) : World :=
  snd (GoogleService.fetchAdSpend store yesterday yesterday
         (afterFacebook store w)).

Lemma syncStore_unfold store w :
  SyncMetricsJob.syncStore rt yesterday store w
  = match fst (fetchShopify store w),
          fst (fetchFacebook store (afterShopify store w)),
          fst (fetchGoogle store (afterFacebook store w)) with
    | Returned shopifyData, Returned fbData, Returned googleSpend =>
        forEach
          (JS.values
             (Merge.mergeDaily rt (store_id store) yesterday
                (Merge.IsArray shopifyData) (Merge.IsArray fbData)
                (Merge.IsArray googleSpend)))
          createOrUpdate (afterGoogle store w)
    | Thrown e, _, _ => (Thrown e, afterGoogle store w)
    | _, Thrown e, _ => (Thrown e, afterGoogle store w)
    | _, _, Thrown e => (Thrown e, afterGoogle store w)
    end.
Proof.
  unfold SyncMetricsJob.syncStore, bind, promiseAll3, afterGoogle,
    afterFacebook, afterShopify, fetchShopify, fetchFacebook, fetchGoogle.
  destruct (ShopifyService.fetchOrders rt store yesterday yesterday w)
    as [ra w1]. cbn [fst snd].
  destruct (FacebookService.fetchAdSpend store yesterday yesterday w1)
    as [rb w2]. cbn [fst snd].
  destruct (GoogleService.fetchAdSpend store yesterday yesterday w2)
    as [rc w3]. cbn [fst snd].
  destruct ra, rb, rc; reflexivity.
Qed.

Lemma afterGoogle_metrics store w :
  storeMetrics (afterGoogle store w) = storeMetrics w.
Proof.
  unfold afterGoogle, afterFacebook, afterShopify.
  destruct (google_fetchAdSpend_spec store yesterday yesterday
              (snd (FacebookService.fetchAdSpend store yesterday yesterday
                      (snd (ShopifyService.fetchOrders rt store yesterday
                              yesterday w))))) as [Hg _].
  destruct (facebook_fetchAdSpend_spec store yesterday yesterday
              (snd (ShopifyService.fetchOrders rt store yesterday
                      yesterday w))) as [Hf _].
  destruct (shopify_fetchOrders_spec rt store yesterday yesterday w) as [Hs _].
  cbv zeta in *. congruence.
Qed.

Lemma syncStore_thrown store w e w' :
  SyncMetricsJob.syncStore rt yesterday store w = (Thrown e, w') ->
  storeMetrics w' = storeMetrics w.
Proof.
  rewrite syncStore_unfold.
  destruct (fst (fetchShopify store w)) as [sh|e1];
    [destruct (fst (fetchFacebook store (afterShopify store w))) as [fb|e2];
     [destruct (fst (fetchGoogle store (afterFacebook store w))) as [g|e3]|]|];
    intros H.
  - destruct (forEach_createOrUpdate
                (JS.values
                   (Merge.mergeDaily rt (store_id store) yesterday
                      (Merge.IsArray sh) (Merge.IsArray fb) (Merge.IsArray g)))
                (afterGoogle store w)) as [Hr _].
    rewrite H in Hr. discriminate.
  - inversion H. apply afterGoogle_metrics.
  - inversion H. apply afterGoogle_metrics.
  - inversion H. apply afterGoogle_metrics.
Qed.

Lemma handleDailySync_cons store stores w :
  SyncMetricsJob.handleDailySync rt yesterday (store :: stores) w
  = SyncMetricsJob.handleDailySync rt yesterday stores
      (snd (SyncMetricsJob.syncStore rt yesterday store w)).
Proof.
  unfold SyncMetricsJob.handleDailySync. cbn [forEach].
  unfold bind at 1, tryCatch at 1, ret at 1.
  destruct (SyncMetricsJob.syncStore rt yesterday store w) as [[[]|e] w1];
    reflexivity.
Qed.

End Orchestrator.


(** ** C4: vendor-call failures and the loop over the stores *)



Definition oneOrder : OrdersPage :=
  {| edges := [ {| amount := Some 500%Q;
                   lineItems := [ {| quantity := 20%Q; product := None |} ] |} ];
     hasNextPage := false |}.

Definition fbSpend50 : FacebookReply :=
  FacebookOk (Some [ {| date_start := "2024-11-01"; fb_spend := Some 50%Q |} ]).



(** Shopify's GraphQL error for the first of two stores: the failure is
    audited, no row is written for that store, the second store is
    synced. *)
Example one_store_fails_the_next_is_synced :
  let second :=
    {| store_id := "77aa"; name := "T";
       shopifyToken := "shpat_y"; shopifyStoreUrl := "t.myshopify.com";
       fbAdSpendToken := Some "EAAC"; fbAccountId := Some "98765";
       googleAccessToken := None; googleRefreshToken := None;
       googleCustomerId := None; googleTokenExpiry := None |} in
  let w :=
    withFacebookReplies (fun _ => [fbSpend50; fbSpend50])
      (withShopifyReplies (fun _ => [ShopifyGraphQLErrors; ShopifyData oneOrder])
         Fixture.emptyWorld) in
  let r := SyncMetricsJob.handleDailySync Fixture.runtime 1730419200000
             [Fixture.storeS; second] w in
  fst r = Returned tt
  /\ map sm_storeId (storeMetrics (snd r)) = ["77aa"]
  /\ map (fun e => (action e, status e, audit_storeId e)) (auditLog (snd r))
     = [ (SHOPIFY_SYNC_STARTED, PENDING, "64b7f0c2a1");
         (SHOPIFY_SYNC_FAILED, FAILURE, "64b7f0c2a1");
         (FACEBOOK_SYNC_STARTED, PENDING, "64b7f0c2a1");
         (FACEBOOK_AD_SPEND_FETCHED, SUCCESS, "64b7f0c2a1");
         (FACEBOOK_SYNC_STARTED, PENDING, "64b7f0c2a1");
         (FACEBOOK_SYNC_FAILED, FAILURE, "64b7f0c2a1");
         (SHOPIFY_SYNC_STARTED, PENDING, "77aa");
         (SHOPIFY_ORDERS_FETCHED, SUCCESS, "77aa");
         (FACEBOOK_SYNC_STARTED, PENDING, "77aa");
         (FACEBOOK_AD_SPEND_FETCHED, SUCCESS, "77aa") ].
Proof. vm_compute. auto. Qed.

(** A ShopifyQL parse error is thrown and audited as FAILURE. *)
Example traffic_parse_error :
  let r := ShopifyService.fetchTrafficAnalytics Fixture.storeS 7 20
             (withShopifyReplies
                (fun _ => [ShopifyTable ["syntax error at LIMIT"] []])
                Fixture.emptyWorld) in
  fst r = Thrown {| exnClass := PlainError; message := "ShopifyQL parse error" |}
  /\ map (fun e => (action e, status e, errorMessage e)) (auditLog (snd r))
     = [ (SHOPIFY_SYNC_STARTED, PENDING, None);
         (SHOPIFY_SYNC_FAILED, FAILURE, Some "ShopifyQL parse error") ].
Proof. vm_compute. auto. Qed.


(** ** C5: a platform whose credential is absent *)

(** Facebook's [fetchAdSpend] for a store with an ad-account id: the
    request goes out, and what comes back decides. *)
Lemma facebook_fetchAdSpend_with_account store a from to w :
  fbAccountId store = Some a ->
  let r := FacebookService.fetchAdSpend store from to w in
  exists n,
    (n <= 3)%nat
    /\ vendorCalls (snd r) = vendorCalls w ++ repeat Facebook (S n)
    /\ match replyAt w n with
       | FacebookOk data => exists rows, fst r = Returned rows
       | FacebookFail err =>
           fst r = Thrown (FacebookService.apiError err)
           /\ exists l,
                auditLog (snd r)
                = l ++ [FacebookService.failed store
                          (FacebookService.apiError err)]
       end.
Proof.
  intros Ha. cbv zeta. unfold FacebookService.fetchAdSpend.
  rewrite tryCatch_audit_rethrow.
  unfold FacebookService.fetchAdSpendTry, FacebookService.adAccountIdOf,
    bind, AuditService.log, modify, ret, throw.
  rewrite Ha.
  set (w0 := withAudit _ w).
  destruct (callFacebook_runs 3 0 w0 eq_refl)
    as [n [Hn [Hcalls [_ [_ [_ [_ [_ Hlast]]]]]]]].
  change (replyAt w0) with (replyAt w) in *.
  change (vendorCalls w0) with (vendorCalls w) in Hcalls.
  exists n. split; [exact Hn|].
  destruct (FacebookService.callFacebook 0 w0) as [[data|e] w1];
    cbn [fst snd] in *.
  - destruct (replyAt w n) as [err|d]; [destruct Hlast; discriminate|].
    destruct data as [[|row rows]|]; cbn [fst snd];
      (split; [exact Hcalls | eexists; reflexivity]).
  - split; [exact Hcalls|].
    destruct (replyAt w n) as [err|d]; [|discriminate].
    destruct Hlast as [He _]. inversion He; subst e.
    split; [reflexivity|]. eexists. reflexivity.
Qed.

(** C5, as the code has it. For a store without Google Ads customer id,
    Google's [fetchAdSpend] returns the empty array and does nothing
    else (no request, no audit entry), whatever the window; and when
    Shopify's and Facebook's calls return, the daily sync of the store
    ends normally and upserts the records merged from their rows, with
    [googleAdSpend] at 0. Facebook's [fetchAdSpend] has no such guard.
    For a store without ad-account id it throws the TypeError of
    [startsWith] before any request, audited as FAILURE. For a store
    with an ad-account id it sends the request, whatever the token and
    also without one, and what Facebook answers decides: it returns
    only when Facebook answers without error, and a rejected request is
    thrown and audited as FAILURE. When Facebook's call throws, the
    daily sync of the store throws and writes no row for the store. *)
Theorem C5_google_credential_is_soft_facebook_credentials_are_not :
  forall (rt : JS.Runtime) (yesterday : Z) (store : Store),
    (truthy (googleCustomerId store) = false ->
     (forall from to w,
         GoogleService.fetchAdSpend store from to w = (Returned [], w))
     /\ (forall w shopifyData fbData,
           fst (ShopifyService.fetchOrders rt store yesterday yesterday w)
           = Returned shopifyData ->
           fst (FacebookService.fetchAdSpend store yesterday yesterday
                  (afterShopify rt yesterday store w)) = Returned fbData ->
           let merged :=
             Merge.mergeDaily rt (store_id store) yesterday
               (Merge.IsArray shopifyData) (Merge.IsArray fbData)
               (Merge.IsArray []) in
           let r := SyncMetricsJob.syncStore rt yesterday store w in
           fst r = Returned tt
           /\ storeMetrics (snd r)
              = fold_left MetricsService.createOrUpdate (JS.values merged)
                  (storeMetrics w)
           /\ (forall d e, In (d, e) merged -> googleAdSpend e = 0%Q)))
    /\ (fbAccountId store = None ->
        forall from to w,
          let r := FacebookService.fetchAdSpend store from to w in
          fst r = Thrown FacebookService.startsWithError
          /\ auditLog (snd r)
             = auditLog w
               ++ [ FacebookService.started store;
                    FacebookService.failed store
                      FacebookService.startsWithError ]
          /\ vendorCalls (snd r) = vendorCalls w)
    /\ (forall a, fbAccountId store = Some a ->
        forall from to w,
          let r := FacebookService.fetchAdSpend store from to w in
          exists n,
            (n <= 3)%nat
            /\ vendorCalls (snd r) = vendorCalls w ++ repeat Facebook (S n)
            /\ match replyAt w n with
               | FacebookOk data => exists rows, fst r = Returned rows
               | FacebookFail err =>
                   fst r = Thrown (FacebookService.apiError err)
                   /\ exists l,
                        auditLog (snd r)
                        = l ++ [FacebookService.failed store
                                  (FacebookService.apiError err)]
               end)
    /\ (forall w e,
          fst (FacebookService.fetchAdSpend store yesterday yesterday
                 (afterShopify rt yesterday store w)) = Thrown e ->
          let r := SyncMetricsJob.syncStore rt yesterday store w in
          (exists e', fst r = Thrown e')
          /\ storeMetrics (snd r) = storeMetrics w).
Proof.
  intros rt yesterday store.
  split; [|split; [|split]].
  - intros Hcid.
    assert (Hg : forall from to w,
               GoogleService.fetchAdSpend store from to w = (Returned [], w)).
    { intros from to w. unfold GoogleService.fetchAdSpend. rewrite Hcid.
      reflexivity. }
    split; [exact Hg|].
    intros w shopifyData fbData Hs Hf merged r.
    unfold r. rewrite syncStore_unfold, Hs, Hf, Hg. cbn [fst].
    fold merged.
    destruct (forEach_createOrUpdate (JS.values merged)
                (afterGoogle rt yesterday store w)) as [H1 [H2 _]].
    rewrite H1, H2, afterGoogle_metrics.
    split; [reflexivity|]. split; [reflexivity|].
    intros d e Hin.
    apply (mergeDaily_without_google rt (store_id store) yesterday
             shopifyData fbData d e Hin).
  - intros Hnone from to w. cbv zeta.
    unfold FacebookService.fetchAdSpend. rewrite tryCatch_audit_rethrow.
    unfold FacebookService.fetchAdSpendTry, FacebookService.adAccountIdOf,
      bind, AuditService.log, modify, ret, throw.
    rewrite Hnone. cbn [fst snd auditLog vendorCalls withAudit].
    rewrite <- app_assoc. repeat split.
  - intros a Ha from to w.
    exact (facebook_fetchAdSpend_with_account store a from to w Ha).
  - intros w e Hf r. unfold r.
    destruct (SyncMetricsJob.syncStore rt yesterday store w) as [[[]|e'] w']
      eqn:Hsync; cbn [fst snd].
    + exfalso. rewrite syncStore_unfold, Hf in Hsync.
      destruct (fst (ShopifyService.fetchOrders rt store yesterday
                       yesterday w));
        inversion Hsync.
    + split; [exists e'; reflexivity|].
      exact (syncStore_thrown rt yesterday store w e' w' Hsync).
Qed.

(** A store that never connected Google Ads. *)
Definition storeWithoutGoogle : Store :=
  {| store_id := "77aa"; name := "T";
     shopifyToken := "shpat_y"; shopifyStoreUrl := "t.myshopify.com";
     fbAdSpendToken := Some "EAAC"; fbAccountId := Some "98765";
     googleAccessToken := None; googleRefreshToken := None;
     googleCustomerId := None; googleTokenExpiry := None |}.

Lemma C5_witness :
  truthy (googleCustomerId storeWithoutGoogle) = false
  /\ GoogleService.fetchAdSpend storeWithoutGoogle 1730419200000 1730419200000
       Fixture.emptyWorld
     = (Returned [], Fixture.emptyWorld).
Proof.
  split; [reflexivity|].
  apply (proj1 (proj1 (C5_google_credential_is_soft_facebook_credentials_are_not
                         Fixture.runtime 1730419200000 storeWithoutGoogle)
                  eq_refl)).
Defined.

(** Its daily sync: the Shopify and Facebook values land. *)
Example sync_without_google :
  storeMetrics
    (snd (SyncMetricsJob.syncStore Fixture.runtime 1730419200000
            storeWithoutGoogle
            (withFacebookReplies (fun _ => [fbSpend50])
               (withShopifyReplies (fun _ => [ShopifyData oneOrder])
                  Fixture.emptyWorld))))
  = [ {| sm_storeId := "77aa"; sm_date := Some 1730419200000;
         sm_facebookMetaSpend := 50; sm_googleAdSpend := 0;
         sm_shopifySoldOrders := 0 + 1; sm_shopifyOrderValue := 0 + 500;
         sm_shopifySoldItems := 0 + 20 |} ].
Proof. vm_compute. reflexivity. Qed.

(** A store document without the Facebook fields, and one whose token
    alone is missing. *)
Definition storeWithoutFacebook : Store :=
  {| store_id := "88bb"; name := "U";
     shopifyToken := "shpat_z"; shopifyStoreUrl := "u.myshopify.com";
     fbAdSpendToken := None; fbAccountId := None;
     googleAccessToken := None; googleRefreshToken := None;
     googleCustomerId := None; googleTokenExpiry := None |}.

Definition storeWithoutFacebookToken : Store :=
  {| store_id := "99cc"; name := "V";
     shopifyToken := "shpat_v"; shopifyStoreUrl := "v.myshopify.com";
     fbAdSpendToken := None; fbAccountId := Some "act_555";
     googleAccessToken := None; googleRefreshToken := None;
     googleCustomerId := None; googleTokenExpiry := None |}.

(** Facebook's [fetchAdSpend] for a store without Facebook credential
    does not return an empty result: without account id it throws on
    [startsWith]; without token the request goes out, and when Facebook
    rejects it the error is thrown. Both are audited as FAILURE, and the
    daily sync of the store writes no row although Shopify answered. *)
Lemma C5_counterexample :
  fst (FacebookService.fetchAdSpend storeWithoutFacebook 1730419200000
         1730419200000 Fixture.emptyWorld)
  = Thrown {| exnClass := TypeError;
              message :=
                "Cannot read properties of undefined (reading 'startsWith')" |}
  /\ map status
       (auditLog
          (snd (FacebookService.fetchAdSpend storeWithoutFacebook
                  1730419200000 1730419200000 Fixture.emptyWorld)))
     = [PENDING; FAILURE]
  /\ fst (FacebookService.fetchAdSpend storeWithoutFacebookToken 1730419200000
            1730419200000
            (withFacebookReplies (fun _ => [tokenRejected]) Fixture.emptyWorld))
     = Thrown {| exnClass := PlainError;
                 message := "Invalid OAuth access token." |}
  /\ storeMetrics
       (snd (SyncMetricsJob.handleDailySync Fixture.runtime 1730419200000
               [storeWithoutFacebook]
               (withShopifyReplies (fun _ => [ShopifyData oneOrder])
                  Fixture.emptyWorld)))
     = [].
Proof. vm_compute. auto. Qed.


(** * Further properties of the code around the pipeline *)

(** ** Upserts that replace, upserts that add *)

(** An upsert whose update is a projection on the rows its filter
    matches can be repeated without effect. *)
Lemma findOneAndUpdate_twice {Doc} (f : Doc -> bool) (u : Doc -> Doc)
    (ins : Doc) (db : list Doc) :
  (forall d, f d = true -> f (u d) = true /\ u (u d) = u d) ->
  f ins = true -> u ins = ins ->
  Mongo.findOneAndUpdate f u ins (Mongo.findOneAndUpdate f u ins db)
  = Mongo.findOneAndUpdate f u ins db.
Proof.
  intros Hu Hins Huins. induction db as [|d db IH]; simpl.
  - rewrite Hins, Huins. reflexivity.
  - destruct (f d) eqn:E; simpl.
    + destruct (Hu d E) as [-> ->]. reflexivity.
    + rewrite E, IH. reflexivity.
Qed.

(** X1. The two upserts that [$set] replace and do not add: writing the
    same per-date record a second time changes nothing, on any
    collection, and neither does writing the same landing page of a
    traffic sync a second time (at the same time of sync). *)
Theorem X1_set_upserts_are_idempotent :
  (forall (db : list StoreMetric) (input : CreateMetricInput),
     MetricsService.createOrUpdate (MetricsService.createOrUpdate db input)
       input
     = MetricsService.createOrUpdate db input)
  /\ (forall (now : Z) (db : list TrafficMetric) (input : TrafficDataInput),
        TrafficMetricsService.upsertTrafficMetric now
          (TrafficMetricsService.upsertTrafficMetric now db input) input
        = TrafficMetricsService.upsertTrafficMetric now db input).
Proof.
  split.
  - intros db input. unfold MetricsService.createOrUpdate.
    apply findOneAndUpdate_twice.
    + intros d Hd. split; [exact Hd | reflexivity].
    + apply metric_matches_key. reflexivity.
    + reflexivity.
  - intros now db input. unfold TrafficMetricsService.upsertTrafficMetric.
    apply findOneAndUpdate_twice.
    + intros d Hd. split; [exact Hd | reflexivity].
    + unfold TrafficMetricsService.matches, TrafficMetricsService.inserted.
      simpl. rewrite !String.eqb_refl, Z.eqb_refl. reflexivity.
    + reflexivity.
Qed.

(** X3. [upsertProductMetric] adds: applying a batch to a collection
    (with its unique index) without the reset leaves every row of the
    store with its previous totals plus the batch's sums for its
    product, and a product that had no row with the batch's sums. *)
Theorem X3_product_upserts_accumulate :
  forall (now : Z) (s : string) (batch : list ProductSalesData)
         (db : list ProductMetric),
    NoDup (map ProductMetricsService.keyOf db) ->
    let db' :=
      fold_left
        (fun db product =>
           ProductMetricsService.upsertProductMetric now db
             (SyncProductMetricsJob.inputOf s product)) batch db in
    forall row', In row' db' -> pm_storeId row' = s ->
      match find (ProductMetricsService.matches s (pm_productId row')) db with
      | Some row =>
          totalQuantitySold row'
          == totalQuantitySold row
             + sumQ (map quantitySold (itemsOf (pm_productId row') batch))
          /\ totalRevenue row'
             == totalRevenue row
                + sumQ (map revenue (itemsOf (pm_productId row') batch))
      | None =>
          totalQuantitySold row'
          == sumQ (map quantitySold (itemsOf (pm_productId row') batch))
          /\ totalRevenue row'
             == sumQ (map revenue (itemsOf (pm_productId row') batch))
      end.
Proof.
  intros now s batch db Hnd db' row' Hin Hs.
  assert (Hnd' : NoDup (map ProductMetricsService.keyOf db'))
    by (apply upserts_NoDup, Hnd).
  assert (Hfind : find (ProductMetricsService.matches s (pm_productId row')) db'
                  = Some row').
  { apply (find_In_unique ProductMetricsService.keyOf); auto.
    intros d. rewrite product_matches_key.
    unfold ProductMetricsService.keyOf. rewrite Hs. reflexivity. }
  destruct (upserts_totals now s batch (pm_productId row') db) as [Hq Hr].
  unfold quantityAt, revenueAt in Hq, Hr. fold db' in Hq, Hr.
  rewrite Hfind in Hq, Hr.
  destruct (find _ db) as [row|]; rewrite Hq, Hr; split; ring.
Qed.

(** The batch of the C3 example applied twice, the second time without
    reset: the totals are counted twice. *)
Lemma X3_witness :
  NoDup (map ProductMetricsService.keyOf
           [ {| pm_storeId := "S"; pm_productId := "p1"; pm_productName := "Mug";
                pm_productImage := ""; pm_productUrl := "";
                totalQuantitySold := 3; totalRevenue := 60;
                pm_lastSyncDate := 1 |} ])
  /\ forall row',
       In row'
          (fold_left
             (fun db product =>
                ProductMetricsService.upsertProductMetric 2 db
                  (SyncProductMetricsJob.inputOf "S" product))
             [ {| productId := "p1"; productName := "Mug"; productImage := "";
                  productUrl := ""; quantitySold := 3; revenue := 60 |} ]
             [ {| pm_storeId := "S"; pm_productId := "p1";
                  pm_productName := "Mug";
                  pm_productImage := ""; pm_productUrl := "";
                  totalQuantitySold := 3; totalRevenue := 60;
                  pm_lastSyncDate := 1 |} ]) ->
       totalQuantitySold row' == 6 /\ totalRevenue row' == 120.
Proof.
  split; [repeat constructor; simpl; tauto|].
  intros row' Hin.
  pose proof (X3_product_upserts_accumulate 2 "S"
                [ {| productId := "p1"; productName := "Mug"; productImage := "";
                     productUrl := ""; quantitySold := 3; revenue := 60 |} ]
                [ {| pm_storeId := "S"; pm_productId := "p1";
                     pm_productName := "Mug";
                     pm_productImage := ""; pm_productUrl := "";
                     totalQuantitySold := 3; totalRevenue := 60;
                     pm_lastSyncDate := 1 |} ]
                ltac:(repeat constructor; simpl; tauto) row' Hin) as H.
  destruct Hin as [<-|[]]. specialize (H eq_refl). simpl in H.
  destruct H as [Hq Hr]. rewrite Hq, Hr. split; reflexivity.
Defined.

Lemma sumQ_filter_perm {A} (f : A -> Q) (g : A -> bool) (l l' : list A) :
  Permutation l l' ->
  sumQ (map f (filter g l)) == sumQ (map f (filter g l')).
Proof.
  induction 1 as [|x l l' _ IH|x y l|l l' l'' _ IH1 _ IH2]; simpl.
  - reflexivity.
  - destruct (g x); simpl; rewrite IH; reflexivity.
  - destruct (g x), (g y); simpl; ring.
  - rewrite IH1. exact IH2.
Qed.

(** X4. The order of the fetched batch does not matter: two resyncs of
    the same collection with batches that are permutations of each other
    give every product of the store the same totals. *)
Theorem X4_product_resync_ignores_batch_order :
  forall (now now' : Z) (s : string) (batch batch' : list ProductSalesData)
         (db : list ProductMetric),
    NoDup (map ProductMetricsService.keyOf db) ->
    Permutation batch batch' ->
    forall row row',
      In row (SyncProductMetricsJob.resync now s batch db) ->
      In row' (SyncProductMetricsJob.resync now' s batch' db) ->
      pm_storeId row = s -> pm_storeId row' = s ->
      pm_productId row = pm_productId row' ->
      totalQuantitySold row == totalQuantitySold row'
      /\ totalRevenue row == totalRevenue row'.
Proof.
  intros now now' s batch batch' db Hnd Hperm row row' Hin Hin' Hs Hs' Hp.
  unfold SyncProductMetricsJob.resync in *.
  assert (Hrow : forall t b r,
            In r (fold_left
                    (fun db product =>
                       ProductMetricsService.upsertProductMetric t db
                         (SyncProductMetricsJob.inputOf s product)) b
                    (ProductMetricsService.resetStoreProducts db s)) ->
            pm_storeId r = s ->
            totalQuantitySold r
            == sumQ (map quantitySold (itemsOf (pm_productId r) b))
            /\ totalRevenue r
               == sumQ (map revenue (itemsOf (pm_productId r) b))).
  { intros t b r Hr Hsr.
    assert (Hnd' : NoDup (map ProductMetricsService.keyOf
                            (ProductMetricsService.resetStoreProducts db s)))
      by (rewrite reset_keys; exact Hnd).
    pose proof (upserts_NoDup t s b _ Hnd') as Hnd''.
    assert (Hfind := find_In_unique ProductMetricsService.keyOf
                       (ProductMetricsService.matches s (pm_productId r)) r _
                       ltac:(intros d; rewrite product_matches_key;
                             unfold ProductMetricsService.keyOf;
                             rewrite Hsr; reflexivity) Hnd'' Hr).
    destruct (upserts_totals t s b (pm_productId r)
                (ProductMetricsService.resetStoreProducts db s)) as [Hq Hrv].
    destruct (reset_totals s (pm_productId r) db) as [Zq Zr].
    rewrite Zq in Hq. rewrite Zr in Hrv.
    unfold quantityAt, revenueAt in Hq, Hrv. rewrite Hfind in Hq, Hrv.
    rewrite Hq, Hrv. split; ring. }
  destruct (Hrow now batch row Hin Hs) as [Hq Hr].
  destruct (Hrow now' batch' row' Hin' Hs') as [Hq' Hr'].
  rewrite Hq, Hr, Hq', Hr', Hp. unfold itemsOf.
  split; apply sumQ_filter_perm; exact Hperm.
Qed.

Lemma X4_witness :
  NoDup (map ProductMetricsService.keyOf [])
  /\ Permutation
       [ {| productId := "p1"; productName := "Mug"; productImage := "";
            productUrl := ""; quantitySold := 3; revenue := 60 |};
         {| productId := "p1"; productName := "Mug"; productImage := "";
            productUrl := ""; quantitySold := 1; revenue := 15 |} ]
       [ {| productId := "p1"; productName := "Mug"; productImage := "";
            productUrl := ""; quantitySold := 1; revenue := 15 |};
         {| productId := "p1"; productName := "Mug"; productImage := "";
            productUrl := ""; quantitySold := 3; revenue := 60 |} ]
  /\ 0 + 3 + 1 == 0 + 1 + 3.
Proof.
  split; [constructor|]. split; [apply perm_swap|].
  refine (proj1 (X4_product_resync_ignores_batch_order 1 2 "S"
    [ {| productId := "p1"; productName := "Mug"; productImage := "";
         productUrl := ""; quantitySold := 3; revenue := 60 |};
      {| productId := "p1"; productName := "Mug"; productImage := "";
         productUrl := ""; quantitySold := 1; revenue := 15 |} ]
    [ {| productId := "p1"; productName := "Mug"; productImage := "";
         productUrl := ""; quantitySold := 1; revenue := 15 |};
      {| productId := "p1"; productName := "Mug"; productImage := "";
         productUrl := ""; quantitySold := 3; revenue := 60 |} ]
    [] ltac:(constructor) ltac:(apply perm_swap)
    {| pm_storeId := "S"; pm_productId := "p1"; pm_productName := "Mug";
       pm_productImage := ""; pm_productUrl := "";
       totalQuantitySold := 0 + 3 + 1; totalRevenue := 0 + 60 + 15;
       pm_lastSyncDate := 1 |}
    {| pm_storeId := "S"; pm_productId := "p1"; pm_productName := "Mug";
       pm_productImage := ""; pm_productUrl := "";
       totalQuantitySold := 0 + 1 + 3; totalRevenue := 0 + 15 + 60;
       pm_lastSyncDate := 2 |}
    _ _ eq_refl eq_refl eq_refl)); vm_compute; auto.
Defined.


(** ** What a sync leaves alone *)

(** The rows of the store [s]. *)
Definition metricsOf (s : string) (db : list StoreMetric) : list StoreMetric :=
  filter (fun row => String.eqb (sm_storeId row) s) db.

Lemma createOrUpdate_other_store s db input :
  storeId input <> s ->
  metricsOf s (MetricsService.createOrUpdate db input) = metricsOf s db.
Proof.
  intros Hs. unfold metricsOf, MetricsService.createOrUpdate.
  assert (Hne : String.eqb (storeId input) s = false)
    by (apply String.eqb_neq; exact Hs).
  apply filter_findOneAndUpdate.
  - intros d Hd. unfold MetricsService.matches in Hd.
    apply andb_true_iff in Hd. destruct Hd as [Hd _].
    apply String.eqb_eq in Hd. rewrite Hd. exact Hne.
  - intros d Hd. unfold MetricsService.matches in Hd.
    apply andb_true_iff in Hd. destruct Hd as [Hd _].
    apply String.eqb_eq in Hd. simpl. rewrite Hd. exact Hne.
  - exact Hne.
Qed.

Lemma createOrUpdates_other_store s metrics : forall db,
  (forall metric, In metric metrics -> storeId metric <> s) ->
  metricsOf s (fold_left MetricsService.createOrUpdate metrics db)
  = metricsOf s db.
Proof.
  induction metrics as [|metric metrics IH]; intros db Hall; [reflexivity|].
  simpl. rewrite IH by (intros m Hm; apply Hall; right; exact Hm).
  apply createOrUpdate_other_store. apply Hall. left. reflexivity.
Qed.

(** Every record of [metricsByDate] carries the store it was built for. *)
Lemma mergeDaily_storeId rt sid yesterday shopifyData fbData googleSpend metric :
  In metric
     (JS.values
        (Merge.mergeDaily rt sid yesterday (Merge.IsArray shopifyData)
           (Merge.IsArray fbData) (Merge.IsArray googleSpend))) ->
  storeId metric = sid.
Proof.
  intros Hin. unfold JS.values in Hin. apply in_map_iff in Hin.
  destruct Hin as [[d e] [<- Hin]].
  destruct (keys_mergeDaily rt sid yesterday shopifyData fbData googleSpend)
    as [Hnd _].
  apply (get_In _ d e Hnd) in Hin. rewrite get_mergeDaily in Hin.
  destruct (in_dec string_dec d _); [|discriminate].
  inversion Hin. reflexivity.
Qed.

Lemma syncStore_other_store rt yesterday store s w :
  store_id store <> s ->
  metricsOf s (storeMetrics (snd (SyncMetricsJob.syncStore rt yesterday store w)))
  = metricsOf s (storeMetrics w).
Proof.
  intros Hs. rewrite syncStore_unfold.
  pose proof (afterGoogle_metrics rt yesterday store w) as Hm.
  destruct (fst (ShopifyService.fetchOrders rt store yesterday yesterday w))
    as [sh|e1];
    [destruct (fst (FacebookService.fetchAdSpend store yesterday yesterday
                      (afterShopify rt yesterday store w))) as [fb|e2];
     [destruct (fst (GoogleService.fetchAdSpend store yesterday yesterday
                       (afterFacebook rt yesterday store w))) as [g|e3]|]|];
    cbn [snd]; try (rewrite Hm; reflexivity).
  destruct (forEach_createOrUpdate
              (JS.values
                 (Merge.mergeDaily rt (store_id store) yesterday
                    (Merge.IsArray sh) (Merge.IsArray fb) (Merge.IsArray g)))
              (afterGoogle rt yesterday store w)) as [_ [H _]].
  rewrite H, Hm. apply createOrUpdates_other_store.
  intros metric Hin. rewrite (mergeDaily_storeId _ _ _ _ _ _ _ Hin). exact Hs.
Qed.

(** X5. The nightly job writes rows of the stores it loops over and of
    no other: whatever the vendors answer, the rows of a store that is
    not in the list are the same rows, in the same order, afterwards. *)
Theorem X5_daily_job_leaves_other_stores_alone :
  forall (rt : JS.Runtime) (yesterday : Z) (stores : list Store) (s : string)
         (w : World),
    ~ In s (map store_id stores) ->
    metricsOf s
      (storeMetrics (snd (SyncMetricsJob.handleDailySync rt yesterday stores w)))
    = metricsOf s (storeMetrics w).
Proof.
  intros rt yesterday stores s. induction stores as [|store stores IH];
    intros w Hs; [reflexivity|].
  rewrite handleDailySync_cons, IH by (intros H; apply Hs; right; exact H).
  apply syncStore_other_store. intros H. apply Hs. left. exact H.
Qed.

(** A run for the fixture store, all vendors answering, over a
    collection that holds a row of another store. *)
Definition otherStoreRow : StoreMetric :=
  {| sm_storeId := "77aa00"; sm_date := Some 1735689600000;
     sm_facebookMetaSpend := 5; sm_googleAdSpend := 6;
     sm_shopifySoldOrders := 7; sm_shopifyOrderValue := 8;
     sm_shopifySoldItems := 9 |}.

Definition answeringWorld : World :=
  {| auditLog := []; storeMetrics := [otherStoreRow]; vendorCalls := [];
     slept := []; clock := 1730600000000;
     shopifyReplies :=
       [ShopifyData
          {| edges := [ {| amount := Some 120%Q;
                           lineItems := [ {| quantity := 2; product := None |} ] |} ];
             hasNextPage := false |}];
     facebookReplies :=
       [FacebookOk (Some [ {| date_start := "2025-01-01";
                              fb_spend := Some 50%Q |} ])];
     googleReplies :=
       [GoogleOk (Some [Some [ {| segments_date := Some "2025-01-01";
                                  costMicros := Some 30000000 |} ]])];
     oauthReplies := [] |}.

Lemma X5_witness :
  ~ In "77aa00" (map store_id [Fixture.storeS])
  /\ metricsOf "77aa00"
       (storeMetrics
          (snd (SyncMetricsJob.handleDailySync Fixture.runtime 1735689600000
                  [Fixture.storeS] answeringWorld)))
     = [otherStoreRow]
  /\ List.length
       (storeMetrics
          (snd (SyncMetricsJob.handleDailySync Fixture.runtime 1735689600000
                  [Fixture.storeS] answeringWorld)))
     = 2%nat.
Proof.
  assert (H : ~ In "77aa00" (map store_id [Fixture.storeS])).
  { simpl. intros [H|[]]. discriminate. }
  split; [exact H|]. split.
  - rewrite (X5_daily_job_leaves_other_stores_alone Fixture.runtime
               1735689600000 [Fixture.storeS] "77aa00" answeringWorld H).
    reflexivity.
  - vm_compute. reflexivity.
Defined.

(** X6. Backfilling a single day does what the on-demand daily sync of
    that day does, and both write what the nightly job writes for the
    store. When [startDate] and [endDate] parse to the same instant,
    [rangeSync] ends in the world of [dailySync] run with that instant
    as yesterday, throws exactly when it throws, and otherwise reports
    the same [daysProcessed]; the two success objects are not the same
    (each has its own message, the daily one the date, the range one
    the two texts of the request and a job id). The world both leave is
    the one [syncStore] leaves, and they throw exactly when it throws. *)
Theorem X6_one_day_backfill_is_the_daily_sync :
  forall (rt : JS.Runtime) (stores : list Store) (store : Store)
         (storeId startDate endDate : string) (day : Z) (w : World),
    find (fun s => String.eqb (store_id s) storeId) stores = Some store ->
    JS.newDate rt startDate = Some day ->
    JS.newDate rt endDate = Some day ->
    let range :=
      MetricsController.rangeSync rt stores storeId startDate endDate w in
    let daily := MetricsController.dailySync rt stores day storeId w in
    let job := SyncMetricsJob.syncStore rt day store w in
    snd range = snd daily
    /\ snd daily = snd job
    /\ (forall e, fst range = Thrown e <-> fst daily = Thrown e)
    /\ (forall e, fst daily = Thrown e <-> fst job = Thrown e)
    /\ (fst job = Returned tt ->
        exists n,
          fst daily
          = Returned (MetricsController.DailySyncCompleted
                        ("Daily sync completed for store: " ++ name store)
                        (JS.toISODate rt day) n)
          /\ fst range
             = Returned (MetricsController.RangeSyncCompleted
                           ("Range sync completed for store: " ++ name store)
                           startDate endDate n (clock (snd range)))).
Proof.
  intros rt stores store sid a b day w Hfind Ha Hb range daily job.
  unfold range, daily, job.
  unfold MetricsController.rangeSync, MetricsController.dailySync,
    SyncMetricsJob.syncStore, StoresService.findOne.
  rewrite Hfind. unfold bind, ret.
  rewrite Ha, Hb.
  cbn [JS.isNaN_time JS.Date_gt orb MetricsController.getTime].
  rewrite Z.ltb_irrefl.
  destruct (promiseAll3 _ _ _ w) as [[[[sh fb] g]|e] w1]; cbn [fst snd].
  - change (Merge.mergeRange rt (store_id store) (Merge.IsArray sh)
              (Merge.IsArray fb) (Merge.IsArray g))
      with (Merge.mergeDaily rt (store_id store) day (Merge.IsArray sh)
              (Merge.IsArray fb) (Merge.IsArray g)).
    destruct (forEach_createOrUpdate
                (JS.values
                   (Merge.mergeDaily rt (store_id store) day
                      (Merge.IsArray sh) (Merge.IsArray fb)
                      (Merge.IsArray g))) w1) as [Hr _].
    destruct (forEach _ createOrUpdate w1) as [[[]|e] w2];
      cbn [fst snd] in *; [|discriminate].
    split; [reflexivity|]. split; [reflexivity|].
    split; [intros e; split; discriminate|].
    split; [intros e; split; discriminate|].
    intros _. eexists. split; reflexivity.
  - split; [reflexivity|]. split; [reflexivity|].
    split; [intros e'; split; intros H; exact H|].
    split; [intros e'; split; intros H; inversion H; reflexivity|].
    discriminate.
Qed.

Lemma X6_witness :
  snd (MetricsController.rangeSync Fixture.runtime [Fixture.storeS]
         "64b7f0c2a1" "2025-01-01" "2025-01-01" answeringWorld)
  = snd (MetricsController.dailySync Fixture.runtime [Fixture.storeS]
           1735689600000 "64b7f0c2a1" answeringWorld)
  /\ fst (MetricsController.dailySync Fixture.runtime [Fixture.storeS]
            1735689600000 "64b7f0c2a1" answeringWorld)
     = Returned (MetricsController.DailySyncCompleted
                   "Daily sync completed for store: S" "2025-01-01" 1)
  /\ fst (MetricsController.rangeSync Fixture.runtime [Fixture.storeS]
            "64b7f0c2a1" "2025-01-01" "2025-01-01" answeringWorld)
     = Returned (MetricsController.RangeSyncCompleted
                   "Range sync completed for store: S" "2025-01-01"
                   "2025-01-01" 1 1730600000000).
Proof.
  split.
  - exact (proj1 (X6_one_day_backfill_is_the_daily_sync Fixture.runtime
                    [Fixture.storeS] Fixture.storeS "64b7f0c2a1"
                    "2025-01-01" "2025-01-01" 1735689600000 answeringWorld
                    eq_refl eq_refl eq_refl)).
  - split; vm_compute; reflexivity.
Defined.


(** ** The Shopify order loops, end to end *)

Lemma callShopify_slept w :
  slept (snd (ShopifyService.callShopify w)) = slept w.
Proof.
  unfold ShopifyService.callShopify, tryCatch, ShopifyService.post, throw.
  destruct (shopifyReplies w) as [|r rs]; [reflexivity|].
  destruct r; reflexivity.
Qed.

(** A day's loop that ends normally has read the pages of the day up
    to the first one without a next page, and counted their orders. *)
Lemma dayLoop_pages n : forall t w t' w',
  (List.length (shopifyReplies w) <= n)%nat ->
  ShopifyService.dayLoop t w = (Returned t', w') ->
  exists pages lastPage,
    shopifyReplies w
    = map ShopifyData (pages ++ [lastPage]) ++ shopifyReplies w'
    /\ t' = ShopifyService.countOrders t
              (List.concat (map edges (pages ++ [lastPage])))
    /\ hasNextPage lastPage = false
    /\ Forall (fun page => hasNextPage page = true) pages
    /\ slept w' = slept w.
Proof.
  induction n as [|n IH]; intros t w t' w' Hlen; rewrite dayLoop_step;
    destruct (callShopify_spec w) as [_ Hr];
    pose proof (callShopify_slept w) as Hs;
    pose proof (ShopifyService.callShopify_consumes w) as Hc;
    destruct (ShopifyService.callShopify w) as [[page|e] w1];
    cbn [fst snd dayLoopAfter] in *; try discriminate.
  - specialize (Hc page w1 eq_refl). lia.
  - specialize (Hc page w1 eq_refl). specialize (Hr page eq_refl).
    unfold ShopifyService.pageStep.
    destruct (hasNextPage page) eqn:Hnext.
    + destruct (edges page) as [|o os] eqn:He; [discriminate|].
      intros Hloop.
      assert (Hlen1 : (List.length (shopifyReplies w1) <= n)%nat) by lia.
      destruct (IH _ _ _ _ Hlen1 Hloop)
        as [pages [lastPage [Hq [Ht [Hl [Hall Hsl]]]]]].
      exists (page :: pages), lastPage.
      split; [rewrite Hr, Hq; reflexivity|].
      split.
      { rewrite Ht. cbn [app map List.concat]. rewrite He.
        unfold ShopifyService.countOrders. rewrite fold_left_app. reflexivity. }
      split; [exact Hl|]. split; [constructor; assumption | congruence].
    + intros H. inversion H; subst. exists [], page.
      split; [exact Hr|]. split.
      { cbn [app map List.concat]. rewrite app_nil_r. reflexivity. }
      split; [exact Hnext|]. split; [constructor | exact Hs].
Qed.

Section DayTotals.
Local Open Scope Q_scope.

Lemma sumQ_app l l' : sumQ (l ++ l') == sumQ l + sumQ l'.
Proof.
  induction l as [|x l IH]; simpl; [ring|]. rewrite IH. ring.
Qed.



End DayTotals.



(** The instants [fetchOrders] visits: [from], one day later, ... *)
Definition dayStarts (from : Z) (n : nat) : list Z :=
  map (fun i => from + Z.of_nat i * ShopifyService.msPerDay) (seq 0 n).

Lemma dayStarts_S from n :
  dayStarts from (S n)
  = from :: dayStarts (from + ShopifyService.msPerDay) n.
Proof.
  unfold dayStarts. cbn [seq map]. f_equal; [lia|].
  rewrite <- seq_shift, map_map. apply map_ext. intros i. lia.
Qed.

(** The days of the window [cur .. to], and the pauses between them. *)
Definition daysLeft (cur to : Z) : nat :=
  Z.to_nat ((to - cur) / ShopifyService.msPerDay + 1).
Definition pausesLeft (cur to : Z) : nat :=
  Z.to_nat (- ((cur - to) / ShopifyService.msPerDay)).

Lemma daysLeft_step cur to :
  cur <= to ->
  daysLeft cur to = S (daysLeft (cur + ShopifyService.msPerDay) to).
Proof.
  intros Hle. unfold daysLeft, ShopifyService.msPerDay.
  replace (to - cur) with (to - (cur + 1000 * 60 * 60 * 24)
                           + 1 * (1000 * 60 * 60 * 24)) by ring.
  rewrite Z.div_add by lia.
  assert (-1 <= (to - (cur + 1000 * 60 * 60 * 24)) / (1000 * 60 * 60 * 24)).
  { apply Z.div_le_lower_bound; lia. }
  lia.
Qed.

Lemma daysLeft_done cur to : to < cur -> daysLeft cur to = 0%nat.
Proof.
  intros Hlt. unfold daysLeft, ShopifyService.msPerDay.
  assert ((to - cur) / (1000 * 60 * 60 * 24) < 0).
  { apply Z.div_lt_upper_bound; lia. }
  lia.
Qed.

Lemma pausesLeft_step cur to :
  cur < to ->
  pausesLeft cur to = S (pausesLeft (cur + ShopifyService.msPerDay) to).
Proof.
  intros Hlt. unfold pausesLeft, ShopifyService.msPerDay.
  replace (cur + 1000 * 60 * 60 * 24 - to)
    with (cur - to + 1 * (1000 * 60 * 60 * 24)) by ring.
  rewrite Z.div_add by lia.
  assert ((cur - to) / (1000 * 60 * 60 * 24) < 0).
  { apply Z.div_lt_upper_bound; lia. }
  lia.
Qed.

Lemma pausesLeft_done cur to : to <= cur -> pausesLeft cur to = 0%nat.
Proof.
  intros Hle. unfold pausesLeft, ShopifyService.msPerDay.
  assert (0 <= (cur - to) / (1000 * 60 * 60 * 24)).
  { apply Z.div_pos; lia. }
  lia.
Qed.

Lemma daysLoop_rows rt from to n : forall cur results w rows w',
  (Z.to_nat (to + 1 - cur) <= n)%nat ->
  from <= cur ->
  ShopifyService.daysLoop rt from to cur results w = (Returned rows, w') ->
  exists extra,
    rows = results ++ extra
    /\ map dos_date extra
       = map (JS.toISODate rt) (dayStarts cur (daysLeft cur to))
    /\ slept w'
       = slept w
         ++ repeat ShopifyService.DELAY_BETWEEN_DAYS_MS (pausesLeft cur to).
Proof.
  induction n as [|n IH]; intros cur results w rows w' Hn Hfrom;
    rewrite daysLoop_step; destruct (Z.leb_spec cur to) as [Hle|Hgt];
    try lia;
    try (intros H; inversion H; subst; exists [];
         rewrite daysLeft_done, pausesLeft_done, !app_nil_r by lia;
         repeat split; reflexivity).
  destruct (ShopifyService.dayLoop (0%Q, 0%Q, 0%Q) w) as [[t|e] w1] eqn:Hday;
    [|discriminate].
  destruct (dayLoop_pages _ _ _ _ _ (Nat.le_refl _) Hday)
    as [_ [_ [_ [_ [_ [_ Hs]]]]]].
  intros Hloop.
  apply IH in Hloop; [|unfold ShopifyService.msPerDay; lia
                      |unfold ShopifyService.msPerDay; lia].
  destruct Hloop as [extra [Hrows [Hdates Hslept]]].
  exists (ShopifyService.dayRow rt cur t :: extra).
  split; [rewrite Hrows, <- app_assoc; reflexivity|].
  split.
  - rewrite (daysLeft_step cur to Hle), dayStarts_S. cbn [map].
    rewrite Hdates. f_equal. destruct t as [[so ov] si]. reflexivity.
  - rewrite Hslept. destruct (Z.ltb_spec cur to) as [Hlt|Hge].
    + assert (Htotal : (1 <? ShopifyService.totalDays from to) = true).
      { apply Z.ltb_lt. unfold ShopifyService.totalDays, ShopifyService.msPerDay.
        assert ((from - to) / (1000 * 60 * 60 * 24) < 0)
          by (apply Z.div_lt_upper_bound; lia).
        lia. }
      rewrite Htotal, (pausesLeft_step cur to Hlt). cbn [andb snd sleep modify
        slept withSlept repeat].
      rewrite Hs, <- app_assoc. reflexivity.
    + rewrite andb_false_r, Hs.
      rewrite (pausesLeft_done cur to), (pausesLeft_done _ to)
        by (unfold ShopifyService.msPerDay; lia).
      reflexivity.
Qed.

Lemma fetchOrders_rows rt store from to w rows :
  fst (ShopifyService.fetchOrders rt store from to w) = Returned rows ->
  map dos_date rows = map (JS.toISODate rt) (dayStarts from (daysLeft from to))
  /\ slept (snd (ShopifyService.fetchOrders rt store from to w))
     = slept w
       ++ repeat ShopifyService.DELAY_BETWEEN_DAYS_MS (pausesLeft from to).
Proof.
  unfold ShopifyService.fetchOrders. rewrite tryCatch_audit_rethrow.
  unfold ShopifyService.fetchOrdersTry, bind, AuditService.log, modify, ret.
  set (w0 := withAudit _ w).
  destruct (ShopifyService.daysLoop rt from to from [] w0) as [[rows'|e] w1]
    eqn:Hloop; cbn [fst snd]; [|discriminate].
  intros H. inversion H; subst rows'.
  destruct (daysLoop_rows rt from to _ _ _ _ _ _ (Nat.le_refl _) (Z.le_refl _)
              Hloop) as [extra [Hrows [Hdates Hslept]]].
  cbn [app] in Hrows. subst extra. split; [exact Hdates | exact Hslept].
Qed.

Lemma pauses_and_days from to :
  from <= to ->
  ((to - from) mod ShopifyService.msPerDay = 0 ->
   S (pausesLeft from to) = daysLeft from to)
  /\ ((to - from) mod ShopifyService.msPerDay <> 0 ->
      pausesLeft from to = daysLeft from to).
Proof.
  intros Hle. unfold pausesLeft, daysLeft, ShopifyService.msPerDay.
  change (1000 * 60 * 60 * 24) with 86400000.
  pose proof (Z.div_mod (to - from) 86400000 ltac:(lia)) as E1.
  pose proof (Z.mod_pos_bound (to - from) 86400000 ltac:(lia)) as B1.
  pose proof (Z.div_mod (from - to) 86400000 ltac:(lia)) as E2.
  pose proof (Z.mod_pos_bound (from - to) 86400000 ltac:(lia)) as B2.
  split; intros Hm; lia.
Qed.

(** X8. A [fetchOrders] that returns gives one row per day of the
    window and in the order of the days: the dates of its rows are the
    ISO dates of [from], [from] + 1 day, ... up to the last such instant
    that is not after [to]; none when [from] is after [to]. It has
    paused [DELAY_BETWEEN_DAYS_MS] [totalDays] - 1 times and has not
    slept otherwise. When the window is a whole number of days, that is
    one pause fewer than rows: the last day begins at [to] and is not
    followed by a pause. When it is not, the last day begins before
    [to] and is followed by a pause like the others: as many pauses as
    rows. *)
Theorem X8_fetchOrders_returns_one_row_per_day :
  forall (rt : JS.Runtime) (store : Store) (from to : Z) (w : World)
         (rows : list DailyOrdersSummary),
    fst (ShopifyService.fetchOrders rt store from to w) = Returned rows ->
    let pauses := Z.to_nat (ShopifyService.totalDays from to - 1) in
    map dos_date rows
    = map (JS.toISODate rt)
        (dayStarts from
           (Z.to_nat ((to - from) / ShopifyService.msPerDay + 1)))
    /\ (to < from -> rows = [])
    /\ slept (snd (ShopifyService.fetchOrders rt store from to w))
       = slept w ++ repeat 100 pauses
    /\ (from <= to -> (to - from) mod ShopifyService.msPerDay = 0 ->
        S pauses = List.length rows)
    /\ (from <= to -> (to - from) mod ShopifyService.msPerDay <> 0 ->
        pauses = List.length rows).
Proof.
  intros rt store from to w rows H pauses.
  destruct (fetchOrders_rows rt store from to w rows H) as [Hd Hs].
  assert (Hp : pauses = pausesLeft from to).
  { unfold pauses, pausesLeft, ShopifyService.totalDays.
    replace (- ((from - to) / ShopifyService.msPerDay) + 1 - 1)
      with (- ((from - to) / ShopifyService.msPerDay)) by ring.
    reflexivity. }
  assert (Hrows : List.length rows = daysLeft from to).
  { rewrite <- (length_map dos_date), Hd, length_map.
    unfold dayStarts. rewrite length_map, length_seq. reflexivity. }
  split; [exact Hd|]. split; [|split; [|split]].
  - intros Hlt. rewrite (daysLeft_done from to Hlt) in Hd.
    destruct rows; [reflexivity | discriminate].
  - rewrite Hs, Hp. reflexivity.
  - intros Hle Hm. rewrite Hp, Hrows.
    apply (proj1 (pauses_and_days from to Hle) Hm).
  - intros Hle Hm. rewrite Hp, Hrows.
    apply (proj2 (pauses_and_days from to Hle) Hm).
Qed.

(** Three days, one empty page for each. *)
Definition emptyPage : ShopifyReply :=
  ShopifyData {| edges := []; hasNextPage := false |}.

Definition threeDays : World :=
  withShopifyReplies (fun _ => [emptyPage; emptyPage; emptyPage])
    Fixture.emptyWorld.

(** One turn of the loop over the days, on closed data. *)
Ltac day_turn :=
  rewrite daysLoop_step;
  match goal with
  | |- context [if ?a <=? ?b then _ else _] =>
      let v := eval vm_compute in (a <=? b) in
      change (a <=? b) with v; cbv iota
  end;
  try match goal with
      | |- context [ShopifyService.dayLoop ?t ?w] =>
          let v := eval vm_compute in (ShopifyService.dayLoop t w) in
          change (ShopifyService.dayLoop t w) with v; cbv iota beta
      end.

Lemma threeDays_run :
  ShopifyService.fetchOrders Fixture.runtime Fixture.storeS
    1735689600000 1735862400000 threeDays
  = (Returned
       [ {| dos_date := "2025-01-01"; soldOrders := 0; orderValue := 0;
            soldItems := 0 |};
         {| dos_date := "2025-01-02"; soldOrders := 0; orderValue := 0;
            soldItems := 0 |};
         {| dos_date := "2025-01-03"; soldOrders := 0; orderValue := 0;
            soldItems := 0 |} ],
     snd (ShopifyService.fetchOrders Fixture.runtime Fixture.storeS
            1735689600000 1735862400000 threeDays)).
Proof.
  unfold ShopifyService.fetchOrders, tryCatch, ShopifyService.fetchOrdersTry,
    bind, AuditService.log, modify.
  do 4 day_turn. vm_compute. reflexivity.
Qed.

(** Half a day, from midnight to noon: one row, and a pause after it. *)
Definition halfDay : World :=
  withShopifyReplies (fun _ => [emptyPage]) Fixture.emptyWorld.

Lemma halfDay_run :
  ShopifyService.fetchOrders Fixture.runtime Fixture.storeS
    1735689600000 1735732800000 halfDay
  = (Returned
       [ {| dos_date := "2025-01-01"; soldOrders := 0; orderValue := 0;
            soldItems := 0 |} ],
     snd (ShopifyService.fetchOrders Fixture.runtime Fixture.storeS
            1735689600000 1735732800000 halfDay)).
Proof.
  unfold ShopifyService.fetchOrders, tryCatch, ShopifyService.fetchOrdersTry,
    bind, AuditService.log, modify.
  do 2 day_turn. vm_compute. reflexivity.
Qed.

Lemma X8_witness :
  (map dos_date
     [ {| dos_date := "2025-01-01"; soldOrders := 0; orderValue := 0;
          soldItems := 0 |};
       {| dos_date := "2025-01-02"; soldOrders := 0; orderValue := 0;
          soldItems := 0 |};
       {| dos_date := "2025-01-03"; soldOrders := 0; orderValue := 0;
          soldItems := 0 |} ]
   = map Fixture.toISODate (dayStarts 1735689600000 3)
   /\ slept (snd (ShopifyService.fetchOrders Fixture.runtime Fixture.storeS
                    1735689600000 1735862400000 threeDays))
      = [] ++ repeat 100 2)
  /\ slept (snd (ShopifyService.fetchOrders Fixture.runtime Fixture.storeS
                   1735689600000 1735732800000 halfDay))
     = [] ++ repeat 100 1.
Proof.
  destruct (X8_fetchOrders_returns_one_row_per_day Fixture.runtime
              Fixture.storeS 1735689600000 1735862400000 threeDays _
              (f_equal fst threeDays_run)) as [Hdates [_ [Hslept _]]].
  destruct (X8_fetchOrders_returns_one_row_per_day Fixture.runtime
              Fixture.storeS 1735689600000 1735732800000 halfDay _
              (f_equal fst halfDay_run)) as [_ [_ [Hhalf _]]].
  split; [split; [exact Hdates | exact Hslept] | exact Hhalf].
Defined.


(** ** The product map of [fetchProductSales] *)

(** What [salesLoop] does with the outcome of its call. *)
Definition salesLoopAfter (productMap : JS.Map ProductSalesData)
    (called : Outcome OrdersPage * World)
  : Outcome (JS.Map ProductSalesData) * World :=
  match called with
  | (Thrown e, w1) => (Thrown e, w1)
  | (Returned page, w1) =>
      match ShopifyService.pageStep page with
      | ShopifyService.NextPage =>
          ShopifyService.salesLoop
            (fold_left ShopifyService.addOrder (edges page) productMap) w1
      | ShopifyService.LastPage =>
          (Returned (fold_left ShopifyService.addOrder (edges page) productMap),
           w1)
      | ShopifyService.NoCursor => (Thrown ShopifyService.noCursorError, w1)
      end
  end.

Lemma salesLoop_step productMap w :
  ShopifyService.salesLoop productMap w
  = salesLoopAfter productMap (ShopifyService.callShopify w).
Proof.
  rewrite ShopifyService.salesLoop_equation_1.
  destruct (inspect (ShopifyService.callShopify w)) as [x Heq].
  replace (salesLoopAfter productMap (ShopifyService.callShopify w))
    with (salesLoopAfter productMap x) by (rewrite Heq; reflexivity).
  destruct x as [[page|e] w1]; simpl; [|reflexivity].
  unfold ShopifyService.salesLoop_unfold_clause_1_clause_2.
  destruct (ShopifyService.pageStep page); reflexivity.
Qed.

Lemma salesLoop_pages n : forall productMap w productMap' w',
  (List.length (shopifyReplies w) <= n)%nat ->
  ShopifyService.salesLoop productMap w = (Returned productMap', w') ->
  exists pages,
    shopifyReplies w = map ShopifyData pages ++ shopifyReplies w'
    /\ productMap'
       = fold_left ShopifyService.addOrder (List.concat (map edges pages))
           productMap.
Proof.
  induction n as [|n IH]; intros m w m' w' Hlen; rewrite salesLoop_step;
    destruct (callShopify_spec w) as [_ Hr];
    pose proof (ShopifyService.callShopify_consumes w) as Hc;
    destruct (ShopifyService.callShopify w) as [[page|e] w1];
    cbn [fst snd salesLoopAfter] in *; try discriminate.
  - specialize (Hc page w1 eq_refl). lia.
  - specialize (Hc page w1 eq_refl). specialize (Hr page eq_refl).
    destruct (ShopifyService.pageStep page).
    + intros Hloop.
      assert (Hlen1 : (List.length (shopifyReplies w1) <= n)%nat) by lia.
      destruct (IH _ _ _ _ Hlen1 Hloop) as [pages [Hq Hm]].
      exists (page :: pages). split; [rewrite Hr, Hq; reflexivity|].
      rewrite Hm. cbn [map List.concat]. rewrite fold_left_app. reflexivity.
    + intros H. inversion H; subst. exists [page]. split; [exact Hr|].
      cbn [map List.concat]. rewrite app_nil_r. reflexivity.
    + discriminate.
Qed.

Section ProductMap.
Local Open Scope Q_scope.

(** The line items of [orders] that reference the product [p]. *)
Definition soldAs (p : string) (orders : list OrderNode) : list LineItem :=
  filter (fun item => match product item with
                      | Some prod => String.eqb (product_id prod) p
                      | None => false
                      end)
         (List.concat (map lineItems orders)).

Definition quantityOf (productMap : JS.Map ProductSalesData) (p : string) : Q :=
  match JS.get productMap p with
  | Some e => quantitySold e
  | None => 0
  end.

(** Every entry sits under its own product id. *)
Definition keyedById (productMap : JS.Map ProductSalesData) : Prop :=
  forall p e, JS.get productMap p = Some e -> productId e = p.

Lemma NoDup_set {V} (m : JS.Map V) k v :
  NoDup (JS.keys m) -> NoDup (JS.keys (JS.set m k v)).
Proof.
  intros Hnd. rewrite keys_set. destruct (JS.has m k) eqn:E; [exact Hnd|].
  apply NoDup_app; [exact Hnd | constructor; [simpl; tauto | constructor] |].
  intros x Hx [Hk|[]]; subst. apply has_keys in Hx. congruence.
Qed.

Lemma addItem_spec orderTotal total m item :
  NoDup (JS.keys m) -> keyedById m ->
  let m' := ShopifyService.addItem orderTotal total m item in
  NoDup (JS.keys m') /\ keyedById m'
  /\ (forall p, In p (JS.keys m')
                <-> In p (JS.keys m)
                    \/ exists prod, product item = Some prod
                                    /\ product_id prod = p)
  /\ (forall p, quantityOf m' p
                == quantityOf m p
                   + match product item with
                     | Some prod => if String.eqb (product_id prod) p
                                    then quantity item else 0
                     | None => 0
                     end).
Proof.
  intros Hnd Hkey. unfold ShopifyService.addItem.
  destruct (product item) as [prod|]; cbv zeta.
  2:{ split; [exact Hnd|]. split; [exact Hkey|]. split.
      - intros p. split; [auto | intros [H|[prod [H _]]]; [exact H | discriminate]].
      - intros p. ring. }
  rewrite has_get.
  destruct (JS.get m (product_id prod)) as [e|] eqn:E; cbn [negb].
  - rewrite E. split; [apply NoDup_set, Hnd|]. split.
    + intros p e'. rewrite get_set.
      destruct (String.eqb_spec (product_id prod) p) as [<-|Hne].
      * intros H. inversion H. simpl. apply Hkey. exact E.
      * apply Hkey.
    + split.
      * intros p. rewrite keys_set.
        assert (Hhas : JS.has m (product_id prod) = true)
          by (rewrite has_get, E; reflexivity).
        rewrite Hhas. split; [auto|].
        intros [H|[prod' [H <-]]]; [exact H|].
        inversion H; subst. apply has_keys. exact Hhas.
      * intros p. unfold quantityOf. rewrite get_set.
        destruct (String.eqb_spec (product_id prod) p) as [<-|Hne].
        -- rewrite E. simpl. ring.
        -- ring.
  - rewrite get_set, String.eqb_refl.
    assert (Hnd1 : NoDup (JS.keys (JS.set m (product_id prod)
                                     (ShopifyService.newProduct prod))))
      by (apply NoDup_set, Hnd).
    split; [apply NoDup_set, Hnd1|]. split.
    + intros p e'. rewrite !get_set.
      destruct (String.eqb_spec (product_id prod) p) as [<-|Hne].
      * intros H. inversion H. reflexivity.
      * apply Hkey.
    + assert (Hhas : JS.has m (product_id prod) = false)
        by (rewrite has_get, E; reflexivity).
      assert (Hhas1 : JS.has (JS.set m (product_id prod)
                                (ShopifyService.newProduct prod))
                        (product_id prod) = true)
        by (rewrite has_get, get_set, String.eqb_refl; reflexivity).
      split.
      * intros p. rewrite keys_set, Hhas1, keys_set, Hhas, in_app_iff.
        simpl. split.
        -- intros [H|[H|[]]]; [auto | right; exists prod; auto].
        -- intros [H|[prod' [H Hp]]]; [auto|].
           inversion H; subst. auto.
      * intros p. unfold quantityOf. rewrite !get_set.
        destruct (String.eqb_spec (product_id prod) p) as [<-|Hne].
        -- rewrite E. simpl. ring.
        -- ring.
Qed.

Lemma addItems_spec orderTotal total items : forall m,
  NoDup (JS.keys m) -> keyedById m ->
  let m' := fold_left (ShopifyService.addItem orderTotal total) items m in
  NoDup (JS.keys m') /\ keyedById m'
  /\ (forall p, In p (JS.keys m')
                <-> In p (JS.keys m)
                    \/ exists item prod, In item items
                                         /\ product item = Some prod
                                         /\ product_id prod = p)
  /\ (forall p, quantityOf m' p
                == quantityOf m p
                   + sumQ (map quantity
                             (filter (fun item =>
                                        match product item with
                                        | Some prod =>
                                            String.eqb (product_id prod) p
                                        | None => false
                                        end) items))).
Proof.
  induction items as [|item items IH]; intros m Hnd Hkey; cbn [fold_left].
  - split; [exact Hnd|]. split; [exact Hkey|]. split.
    + intros p. split; [auto | intros [H|[i [pr [[] _]]]]; exact H].
    + intros p. simpl. ring.
  - destruct (addItem_spec orderTotal total m item Hnd Hkey)
      as [Hnd1 [Hkey1 [Hk1 Hq1]]].
    destruct (IH _ Hnd1 Hkey1) as [Hnd2 [Hkey2 [Hk2 Hq2]]].
    split; [exact Hnd2|]. split; [exact Hkey2|]. split.
    + intros p. rewrite Hk2, Hk1. split.
      * intros [[H|[prod [H1 H2]]]|[i [prod [H1 [H2 H3]]]]]; auto.
        -- right. exists item, prod. simpl. auto.
        -- right. exists i, prod. simpl. auto.
      * intros [H|[i [prod [[<-|H1] [H2 H3]]]]]; auto.
        -- left. right. exists prod. auto.
        -- right. exists i, prod. auto.
    + intros p. rewrite Hq2, Hq1. cbn [filter].
      destruct (product item) as [prod|]; [|ring].
      destruct (String.eqb (product_id prod) p); simpl; ring.
Qed.

Lemma addOrders_spec orders : forall m,
  NoDup (JS.keys m) -> keyedById m ->
  let m' := fold_left ShopifyService.addOrder orders m in
  NoDup (JS.keys m') /\ keyedById m'
  /\ (forall p, In p (JS.keys m')
                <-> In p (JS.keys m)
                    \/ exists item prod,
                         In item (List.concat (map lineItems orders))
                         /\ product item = Some prod
                         /\ product_id prod = p)
  /\ (forall p, quantityOf m' p
                == quantityOf m p + sumQ (map quantity (soldAs p orders))).
Proof.
  induction orders as [|order orders IH]; intros m Hnd Hkey; cbn [fold_left].
  - split; [exact Hnd|]. split; [exact Hkey|]. split.
    + intros p. split; [auto | intros [H|[i [pr [[] _]]]]; exact H].
    + intros p. unfold soldAs. simpl. ring.
  - destruct (addItems_spec (ShopifyService.orderAmount order)
                (ShopifyService.totalItems order) (lineItems order) m Hnd Hkey)
      as [Hnd1 [Hkey1 [Hk1 Hq1]]].
    destruct (IH _ Hnd1 Hkey1) as [Hnd2 [Hkey2 [Hk2 Hq2]]].
    split; [exact Hnd2|]. split; [exact Hkey2|]. split.
    + intros p. rewrite Hk2. unfold ShopifyService.addOrder. rewrite Hk1.
      cbn [map List.concat]. split.
      * intros [[H|[i [prod [H1 H2]]]]|[i [prod [H1 H2]]]]; auto;
          right; exists i, prod; rewrite in_app_iff; tauto.
      * intros [H|[i [prod [H1 H2]]]]; auto.
        rewrite in_app_iff in H1. destruct H1 as [H1|H1].
        -- left. right. exists i, prod. tauto.
        -- right. exists i, prod. tauto.
    + intros p. rewrite Hq2. unfold ShopifyService.addOrder. rewrite Hq1.
      unfold soldAs. cbn [map List.concat].
      rewrite filter_app, map_app, sumQ_app. ring.
Qed.

(** X10. What [fetchProductSales] returns, when it returns: with the
    orders of the pages it read, one entry per product that a line item
    references (no product id twice, none missing, none invented), and
    the [quantitySold] of an entry is the sum of the quantities of the
    line items of its product, over all orders and pages. *)
Theorem X10_product_sales_has_one_entry_per_product :
  forall (store : Store) (from to : option Z) (w : World)
         (sales : list ProductSalesData),
    fst (ShopifyService.fetchProductSales store from to w) = Returned sales ->
    exists pages,
      shopifyReplies w
      = map ShopifyData pages
        ++ shopifyReplies (snd (ShopifyService.fetchProductSales store from to w))
      /\ let orders := List.concat (map edges pages) in
         NoDup (map productId sales)
         /\ (forall p, In p (map productId sales)
                       <-> exists item prod,
                             In item (List.concat (map lineItems orders))
                             /\ product item = Some prod
                             /\ product_id prod = p)
         /\ (forall entry, In entry sales ->
               quantitySold entry
               == sumQ (map quantity (soldAs (productId entry) orders))).
Proof.
  intros store from to w sales.
  unfold ShopifyService.fetchProductSales. rewrite tryCatch_audit_rethrow.
  unfold bind, AuditService.log, modify, ret.
  set (w0 := withAudit _ w).
  destruct (ShopifyService.salesLoop [] w0) as [[m|e] w1] eqn:Hloop;
    cbn [fst snd]; [|discriminate].
  intros H. inversion H; subst sales. clear H.
  destruct (salesLoop_pages _ _ _ _ _ (Nat.le_refl _) Hloop) as [pages [Hq Hm]].
  exists pages. split; [exact Hq|]. cbv zeta.
  destruct (addOrders_spec (List.concat (map edges pages)) []
              ltac:(constructor) ltac:(intros p e; discriminate))
    as [Hnd [Hkey [Hk Hqty]]].
  cbv zeta in *. rewrite <- Hm in *.
  assert (Hids : map productId (JS.values m) = JS.keys m).
  { unfold JS.values, JS.keys. rewrite map_map. apply map_ext_in.
    intros [k e] Hin. simpl. apply Hkey. apply get_In; assumption. }
  rewrite Hids. split; [exact Hnd|]. split.
  - intros p. rewrite Hk. simpl. tauto.
  - intros entry Hin. unfold JS.values in Hin. apply in_map_iff in Hin.
    destruct Hin as [[k e] [<- Hin]]. simpl.
    apply (get_In _ _ _ Hnd) in Hin.
    specialize (Hqty (productId e)). rewrite (Hkey _ _ Hin) in *.
    unfold quantityOf in Hqty. rewrite Hin in Hqty. simpl in Hqty.
    rewrite Hqty. ring.
Qed.
End ProductMap.

(** One page: a mug sold in two orders, a cap in one, one line item
    without product. *)
Definition mug : Product :=
  {| product_id := "gid://shopify/Product/1"; title := "Mug";
     featuredImage_url := None; onlineStoreUrl := None |}.
Definition cap : Product :=
  {| product_id := "gid://shopify/Product/2"; title := "Cap";
     featuredImage_url := None; onlineStoreUrl := None |}.

Definition salesPage : ShopifyReply :=
  ShopifyData
    {| edges := [ {| amount := Some 90%Q;
                     lineItems := [ {| quantity := 2; product := Some mug |};
                                    {| quantity := 1; product := Some cap |} ] |};
                  {| amount := Some 40%Q;
                     lineItems := [ {| quantity := 3; product := Some mug |};
                                    {| quantity := 1; product := None |} ] |} ];
       hasNextPage := false |}.

Lemma X10_witness :
  exists sales,
    fst (ShopifyService.fetchProductSales Fixture.storeS None None
           (withShopifyReplies (fun _ => [salesPage]) Fixture.emptyWorld))
    = Returned sales
    /\ NoDup (map productId sales)
    /\ map productId sales
       = ["gid://shopify/Product/1"; "gid://shopify/Product/2"].
Proof.
  eexists. split; [vm_compute; reflexivity|]. split; [|reflexivity].
  match goal with
  | |- NoDup (map productId ?sales) =>
      destruct (X10_product_sales_has_one_entry_per_product Fixture.storeS
                  None None
                  (withShopifyReplies (fun _ => [salesPage]) Fixture.emptyWorld)
                  sales ltac:(vm_compute; reflexivity))
        as [pages [_ [Hnd _]]]
  end.
  exact Hnd.
Defined.


(** ** Google: spend by date, and the access token *)

Section SpendByDate.
Local Open Scope Q_scope.







End SpendByDate.

(** Two campaigns on the same day in one batch, a third row in a
    second batch, a batch without results. *)
Example google_two_campaigns_one_day :
  GoogleService.aggregate
    (Some [ Some [ {| segments_date := Some "2025-01-01";
                      costMicros := Some 30000000 |};
                   {| segments_date := Some "2025-01-01";
                      costMicros := Some 12500000 |} ];
            None;
            Some [ {| segments_date := Some "2025-01-02";
                      costMicros := None |};
                   {| segments_date := None; costMicros := Some 99 |} ] ])
  = [ {| das_date := "2025-01-01";
         spend := (0 + 30000000 / 1000000 + 12500000 / 1000000)%Q |};
      {| das_date := "2025-01-02"; spend := (0 + 0 / 1000000)%Q |} ].
Proof. reflexivity. Qed.

(** X12. The access token [getValidAccessToken] hands out: without a
    refresh token it throws the "not connected" BadRequestException and
    makes no request; while the stored access token is good for more
    than five minutes it returns that token and makes no request;
    otherwise it makes exactly one request to the token endpoint; and a
    token it returns is never empty. *)
Theorem X12_google_access_token :
  forall (store : Store) (w : World),
    let r := GoogleService.getValidAccessToken store w in
    (truthy (googleRefreshToken store) = false ->
     r = (Thrown GoogleService.notConnected, w))
    /\ (truthy (googleRefreshToken store) = true ->
        forall token expiry,
          googleAccessToken store = Some token -> token <> ""%string ->
          googleTokenExpiry store = Some expiry ->
          clock w + 300000 < expiry ->
          r = (Returned token, w))
    /\ (vendorCalls (snd r) = vendorCalls w
        \/ vendorCalls (snd r) = vendorCalls w ++ [GoogleOAuth])
    /\ (forall token, fst r = Returned token -> token <> ""%string).
Proof.
  intros store w. cbv zeta. unfold GoogleService.getValidAccessToken.
  destruct (googleRefreshToken store) as [refresh|]; cbn [truthy].
  2:{ unfold throw. cbn [fst snd].
      repeat split; try discriminate; auto. }
  destruct (String.eqb refresh "") eqn:Eref; cbn [negb].
  { unfold throw. cbn [fst snd]. repeat split; try discriminate; auto. }
  split; [discriminate|]. split.
  - intros _ token expiry Ha Hne He Hlt. rewrite Ha, He. cbn [truthy].
    apply String.eqb_neq in Hne. rewrite Hne. cbn [negb andb].
    apply Z.ltb_lt in Hlt. rewrite Hlt. reflexivity.
  - destruct (truthy (googleAccessToken store) && _) eqn:Ecached.
    + cbn [fst snd]. split; [auto|].
      intros token H. inversion H; subst.
      apply andb_true_iff in Ecached. destruct Ecached as [Ht _].
      destruct (googleAccessToken store) as [t|]; [|discriminate].
      cbn [truthy] in Ht. intros ->. discriminate.
    + unfold GoogleOAuthService.refreshAccessToken.
      destruct (oauthReplies w) as [|reply replies]; cbn [fst snd].
      * split; [right; reflexivity | discriminate].
      * destruct (truthy reply) eqn:Et; cbn [fst snd].
        -- split; [right; reflexivity|]. intros token H. inversion H; subst.
           destruct reply as [t|]; [|discriminate].
           cbn [truthy] in Et. intros ->. discriminate.
        -- split; [right; reflexivity | discriminate].
Qed.


(** ** Facebook: the click-through rates as percentages *)

Section Percentages.
Local Open Scope Q_scope.

(** [Math.round(part / whole * 10000) / 100] in doubles, for a part of
    a whole: rounding to the nearest double keeps a value between two
    doubles. *)
Lemma ofQ_between (lo hi x : Q) :
  Double.fl lo == lo -> Double.fl hi == hi ->
  - Double.pow2 1024 < lo -> hi < Double.pow2 1024 ->
  lo <= x -> x <= hi ->
  Double.ofQ x = Num (Double.fl x)
  /\ lo <= Double.fl x /\ Double.fl x <= hi.
Proof.
  intros Hlo Hhi Hmin Hmax H1 H2.
  pose proof (fl_mono _ _ H1) as M1. pose proof (fl_mono _ _ H2) as M2.
  split; [|split; lra].
  apply ofQ_finite. apply Qabs_case; intros _; lra.
Qed.

Lemma double_percentage_in_range (part whole : Q) :
  0 <= part -> part <= whole -> 0 < whole ->
  exists q,
    Double.div
      (Number.round
         (Double.mul (Double.div (Num part) (Num whole)) (Num 10000)))
      (Num 100) = Num q
    /\ 0 <= q /\ q <= 100.
Proof.
  intros Hlo Hhi Hpos.
  assert (Hmin : - Double.pow2 1024 < 0)
    by (pose proof (pow2_pos 1024); lra).
  assert (Hmax : forall b, b <= 10000 -> b < Double.pow2 1024).
  { intros b Hb.
    assert (10000 < Double.pow2 1024) by (vm_compute; reflexivity). lra. }
  assert (F0 : Double.fl 0 == 0) by reflexivity.
  assert (F1 : Double.fl 1 == 1) by (vm_compute; reflexivity).
  assert (F100 : Double.fl 100 == 100) by (vm_compute; reflexivity).
  assert (F10000 : Double.fl 10000 == 10000) by (vm_compute; reflexivity).
  rewrite (div_positive part whole Hpos).
  destruct (ofQ_between 0 1 (part / whole) F0 F1 Hmin (Hmax 1 ltac:(lra)))
    as [-> [Ha0 Ha1]].
  { apply Qle_shift_div_l; [exact Hpos | lra]. }
  { apply Qle_shift_div_r; [exact Hpos | lra]. }
  cbn [Double.mul].
  set (a := Double.fl (part / whole)) in *.
  destruct (ofQ_between 0 10000 (a * 10000) F0 F10000 Hmin
              (Hmax 10000 ltac:(lra))) as [-> [Hb0 Hb1]]; [lra | lra |].
  cbn [Number.round]. unfold JS.Math_round.
  set (b := Double.fl (a * 10000)) in *.
  assert (Hk0 : (0 <= Qfloor (b + (1 # 2)))%Z).
  { change 0%Z with (Qfloor 0). apply Qfloor_resp_le. lra. }
  assert (Hk1 : (Qfloor (b + (1 # 2)) <= 10000)%Z).
  { change 10000%Z with (Qfloor (10000 + (1 # 2))). apply Qfloor_resp_le. lra. }
  set (k := Qfloor (b + (1 # 2))) in *.
  rewrite Zle_Qle in Hk0, Hk1.
  change (inject_Z 0) with 0 in Hk0. change (inject_Z 10000) with 10000 in Hk1.
  rewrite (div_positive (inject_Z k) 100) by reflexivity.
  destruct (ofQ_between 0 100 (inject_Z k / 100) F0 F100 Hmin
              (Hmax 100 ltac:(lra))) as [-> [Hc0 Hc1]].
  { unfold Qdiv. change (/ 100) with (1 # 100). lra. }
  { unfold Qdiv. change (/ 100) with (1 # 100). lra. }
  eexists. split; [reflexivity|]. split; assumption.
Qed.

(** X13. The click-through rates are percentages: for an insight row
    whose clicks and link clicks are finite numbers that are not
    negative and do not exceed its impressions, [ctr] and [linkCtr] are
    finite numbers between 0 and 100. *)
Theorem X13_click_through_rates_are_percentages :
  forall (p : NumberParser) (insight : Insight) (objective : string)
         (c l i : Q),
    let m := FacebookService.calculateMetrics p insight objective in
    parseInt p (FacebookService.orZero (i_clicks insight)) = Num c ->
    linkClicks m = Num l ->
    impressions m = Num i ->
    0 <= c <= i ->
    0 <= l <= i ->
    (exists q, ctr m = Num q /\ 0 <= q /\ q <= 100)
    /\ (exists q, linkCtr m = Num q /\ 0 <= q /\ q <= 100).
Proof.
  intros p insight objective c l i m. unfold m.
  unfold FacebookService.calculateMetrics.
  cbn [impressions linkClicks ctr linkCtr].
  intros -> -> -> [Hc0 Hc1] [Hl0 Hl1]. cbn [Number.positive].
  destruct (JS.Qpos i) eqn:Hpos.
  - apply Qpos_true in Hpos.
    split; apply double_percentage_in_range; assumption.
  - split; exists 0; (split; [reflexivity | split; lra]).
Qed.
End Percentages.

Definition insight_3_of_7 : Insight :=
  {| i_spend := Some "12"; i_impressions := Some "7"; i_reach := Some "5";
     i_frequency := None; i_clicks := Some "3";
     i_inline_link_clicks := Some "1";
     i_actions := []; i_action_values := [] |}.

Lemma X13_witness :
  ctr (FacebookService.calculateMetrics Fixture.parser insight_3_of_7
         "LINK_CLICKS")
  = Num (Double.fl (4286 # 100))
  /\ exists q,
       linkCtr (FacebookService.calculateMetrics Fixture.parser insight_3_of_7
                  "LINK_CLICKS")
       = Num q /\ (0 <= q)%Q /\ (q <= 100)%Q.
Proof.
  split; [vm_compute; reflexivity|].
  apply (X13_click_through_rates_are_percentages Fixture.parser insight_3_of_7
           "LINK_CLICKS" 3 1 7);
    try (vm_compute; reflexivity); split; discriminate.
Defined.


(** ** Product and traffic resyncs: what else they keep *)

Lemma filter_updateMany {Doc} (f g : Doc -> bool) (u : Doc -> Doc)
    (db : list Doc) :
  (forall d, f d = true -> g d = false) ->
  (forall d, f d = true -> g (u d) = false) ->
  filter g (Mongo.updateMany f u db) = filter g db.
Proof.
  intros Hf Hu. unfold Mongo.updateMany.
  induction db as [|d db IH]; simpl; [reflexivity|].
  destruct (f d) eqn:E.
  - rewrite (Hf d E), (Hu d E). exact IH.
  - destruct (g d); [f_equal|]; exact IH.
Qed.

(** X14. A product resync of one store leaves the rows of every other
    store as they were: the same rows, in the same order, with the same
    totals. *)
Theorem X14_product_resync_leaves_other_stores_alone :
  forall (now : Z) (s other : string) (batch : list ProductSalesData)
         (db : list ProductMetric),
    other <> s ->
    filter (ProductMetricsService.ofStore other)
           (SyncProductMetricsJob.resync now s batch db)
    = filter (ProductMetricsService.ofStore other) db.
Proof.
  intros now s other batch db Hne.
  assert (Hs : forall d, String.eqb (pm_storeId d) s = true ->
                         ProductMetricsService.ofStore other d = false).
  { intros d Hd. apply String.eqb_eq in Hd.
    unfold ProductMetricsService.ofStore. rewrite Hd.
    apply String.eqb_neq. congruence. }
  unfold SyncProductMetricsJob.resync.
  transitivity (filter (ProductMetricsService.ofStore other)
                  (ProductMetricsService.resetStoreProducts db s)).
  - generalize (ProductMetricsService.resetStoreProducts db s).
    induction batch as [|product batch IH]; intros db0; [reflexivity|].
    cbn [fold_left]. rewrite IH.
    unfold ProductMetricsService.upsertProductMetric.
    apply filter_findOneAndUpdate.
    + intros d Hd. apply Hs. unfold ProductMetricsService.matches in Hd.
      apply andb_true_iff in Hd. exact (proj1 Hd).
    + intros d Hd. unfold ProductMetricsService.matches in Hd.
      apply andb_true_iff in Hd. apply (Hs d (proj1 Hd)).
    + apply Hs. simpl. apply String.eqb_refl.
  - unfold ProductMetricsService.resetStoreProducts.
    apply filter_updateMany; intros d Hd; apply Hs; exact Hd.
Qed.

Lemma X14_witness :
  filter (ProductMetricsService.ofStore "T")
         (SyncProductMetricsJob.resync 2 "S"
            [ {| productId := "p1"; productName := "Mug"; productImage := "";
                 productUrl := ""; quantitySold := 3; revenue := 60 |} ]
            [ {| pm_storeId := "T"; pm_productId := "p1";
                 pm_productName := "Mug"; pm_productImage := "";
                 pm_productUrl := ""; totalQuantitySold := 8;
                 totalRevenue := 160; pm_lastSyncDate := 1 |} ])
  = [ {| pm_storeId := "T"; pm_productId := "p1";
         pm_productName := "Mug"; pm_productImage := "";
         pm_productUrl := ""; totalQuantitySold := 8;
         totalRevenue := 160; pm_lastSyncDate := 1 |} ].
Proof.
  rewrite (X14_product_resync_leaves_other_stores_alone 2 "S" "T");
    [reflexivity | discriminate].
Defined.

(** When everything the filter can match and everything the upsert can
    write satisfies [g], the upsert works inside the [g]-rows. *)
Lemma filter_findOneAndUpdate_inside {Doc} (f g : Doc -> bool) (u : Doc -> Doc)
    (ins : Doc) (db : list Doc) :
  (forall d, f d = true -> g d = true) ->
  (forall d, f d = true -> g (u d) = true) ->
  g ins = true ->
  filter g (Mongo.findOneAndUpdate f u ins db)
  = Mongo.findOneAndUpdate f u ins (filter g db).
Proof.
  intros Hf Hu Hins. induction db as [|d db IH]; simpl.
  - rewrite Hins. reflexivity.
  - destruct (f d) eqn:E; simpl.
    + rewrite (Hu d E), (Hf d E). simpl. rewrite E. reflexivity.
    + destruct (g d); simpl; [rewrite E; f_equal|]; exact IH.
Qed.

Section TrafficWindow.
Variable now : Z.
Variable s : string.
Variable start finish : Z.

Let upsert db page :=
  TrafficMetricsService.upsertTrafficMetric now db
    {| tdi_storeId := s; tdi_page := page;
       startDate := start; endDate := finish |}.

(** A row of the store whose window starts at [start]. *)
Let mine (row : TrafficMetric) : Prop :=
  tm_storeId row = s /\ tm_startDate row = start.

Definition rowAt (db : list TrafficMetric) (path : string)
  : option TrafficMetric :=
  find (fun row => String.eqb (tm_landingPagePath row) path) db.

Lemma mine_matches path row :
  mine row ->
  TrafficMetricsService.matches s path start row
  = String.eqb (tm_landingPagePath row) path.
Proof.
  intros [Hs Hd]. unfold TrafficMetricsService.matches.
  rewrite Hs, Hd, String.eqb_refl, Z.eqb_refl, andb_true_r. reflexivity.
Qed.

Lemma upsert_rowAt page : forall db path,
  Forall mine db ->
  rowAt (upsert db page) path
  = if String.eqb (landingPagePath page) path
    then Some (freshRow now s start finish page)
    else rowAt db path.
Proof.
  unfold upsert, TrafficMetricsService.upsertTrafficMetric, rowAt.
  cbn [tdi_storeId tdi_page startDate].
  induction db as [|d db IH]; intros path Hmine; cbn [Mongo.findOneAndUpdate].
  - cbn [find]. unfold TrafficMetricsService.inserted at 1.
    cbn [tm_landingPagePath tdi_page].
    destruct (String.eqb (landingPagePath page) path); reflexivity.
  - inversion Hmine as [|? ? Hd Hdb]; subst.
    rewrite (mine_matches _ _ Hd).
    destruct (String.eqb_spec (tm_landingPagePath d) (landingPagePath page))
      as [Hp|Hp]; cbn [find].
    + rewrite (traffic_setFields_matched now s start finish page d)
        by (rewrite (mine_matches _ _ Hd), Hp; apply String.eqb_refl).
      unfold freshRow at 1, TrafficMetricsService.inserted at 1.
      cbn [tm_landingPagePath tdi_page]. rewrite Hp.
      destruct (String.eqb (landingPagePath page) path); reflexivity.
    + rewrite (IH path Hdb).
      destruct (String.eqb_spec (tm_landingPagePath d) path) as [Hq|Hq];
        [|reflexivity].
      destruct (String.eqb_spec (landingPagePath page) path);
        [congruence | reflexivity].
Qed.

Lemma upsert_mine page db : Forall mine db -> Forall mine (upsert db page).
Proof.
  intros Hmine. apply Forall_forall. intros row Hin.
  unfold upsert, TrafficMetricsService.upsertTrafficMetric in Hin.
  apply In_findOneAndUpdate in Hin.
  destruct Hin as [Hin | [[d [Hd [Hm ->]]] | ->]].
  - exact (proj1 (Forall_forall _ _) Hmine row Hin).
  - pose proof (proj1 (Forall_forall _ _) Hmine d Hd) as [H1 H2].
    split; [exact H1 | exact H2].
  - split; reflexivity.
Qed.

Lemma upsert_paths page db :
  Forall mine db -> NoDup (map tm_landingPagePath db) ->
  NoDup (map tm_landingPagePath (upsert db page))
  /\ forall path, In path (map tm_landingPagePath (upsert db page))
                  <-> In path (map tm_landingPagePath db)
                      \/ path = landingPagePath page.
Proof.
  intros Hmine Hnd.
  unfold upsert, TrafficMetricsService.upsertTrafficMetric.
  rewrite (keys_findOneAndUpdate tm_landingPagePath (landingPagePath page))
    by reflexivity.
  cbn [tdi_storeId tdi_page startDate].
  destruct (existsb _ db) eqn:E.
  - split; [exact Hnd|]. intros path. split; [auto|].
    intros [H| ->]; [exact H|].
    apply existsb_exists in E. destruct E as [d [Hd Hm]].
    rewrite (mine_matches _ _ (proj1 (Forall_forall _ _) Hmine d Hd)) in Hm.
    apply String.eqb_eq in Hm. rewrite <- Hm. apply in_map. exact Hd.
  - assert (Hnot : ~ In (landingPagePath page) (map tm_landingPagePath db)).
    { intros Hin. apply in_map_iff in Hin. destruct Hin as [d [Hp Hd]].
      assert (Hex : existsb (TrafficMetricsService.matches s
                               (landingPagePath page) start) db = true).
      { apply existsb_exists. exists d. split; [exact Hd|].
        rewrite (mine_matches _ _ (proj1 (Forall_forall _ _) Hmine d Hd)), Hp.
        apply String.eqb_refl. }
      congruence. }
    split.
    + apply NoDup_app; [exact Hnd | constructor; [simpl; tauto | constructor] |].
      intros x Hx [<-|[]]. exact (Hnot Hx).
    + intros path. rewrite in_app_iff. simpl. intuition congruence.
Qed.

Lemma upserts_window pages : forall db,
  Forall mine db -> NoDup (map tm_landingPagePath db) ->
  let db' := fold_left upsert pages db in
  Forall mine db'
  /\ NoDup (map tm_landingPagePath db')
  /\ (forall path, In path (map tm_landingPagePath db')
                   <-> In path (map tm_landingPagePath db)
                       \/ In path (map landingPagePath pages))
  /\ (forall path,
        rowAt db' path
        = match lastRowFor landingPagePath path pages with
          | Some page => Some (freshRow now s start finish page)
          | None => rowAt db path
          end).
Proof.
  induction pages as [|page pages IH]; intros db Hmine Hnd; cbn [fold_left].
  - split; [exact Hmine|]. split; [exact Hnd|]. split.
    + intros path. simpl. tauto.
    + intros path. reflexivity.
  - destruct (upsert_paths page db Hmine Hnd) as [Hnd1 Hk1].
    destruct (IH _ (upsert_mine page db Hmine) Hnd1) as [Hm2 [Hnd2 [Hk2 Hr2]]].
    split; [exact Hm2|]. split; [exact Hnd2|]. split.
    + intros path. rewrite Hk2, Hk1. simpl. intuition congruence.
    + intros path. rewrite Hr2. cbn [lastRowFor].
      destruct (lastRowFor landingPagePath path pages); [reflexivity|].
      rewrite (upsert_rowAt page db path Hmine).
      destruct (String.eqb (landingPagePath page) path); reflexivity.
Qed.
End TrafficWindow.

(** X15. After a traffic resync the window of the store holds exactly
    one row per fetched landing-page path: no path twice, every fetched
    path present, and where the fetched data names a path more than once
    the row is the one built from its last occurrence. What the
    collection held before plays no part. *)
Theorem X15_traffic_window_has_one_row_per_path :
  forall (now : Z) (s : string) (start finish : Z)
         (trafficData : list TrafficAnalyticsData) (db : list TrafficMetric),
    let window :=
      filter (TrafficMetricsService.inWindow s start)
             (SyncTrafficMetricsJob.resync now s start finish trafficData db) in
    NoDup (map tm_landingPagePath window)
    /\ (forall path, In path (map tm_landingPagePath window)
                     <-> In path (map landingPagePath trafficData))
    /\ (forall row, In row window ->
          exists page,
            lastRowFor landingPagePath (tm_landingPagePath row) trafficData
            = Some page
            /\ row = freshRow now s start finish page)
    /\ window
       = SyncTrafficMetricsJob.resync now s start finish trafficData [].
Proof.
  intros now s start finish trafficData db window.
  assert (Hwin : window
                 = SyncTrafficMetricsJob.resync now s start finish
                     trafficData []).
  { unfold window, SyncTrafficMetricsJob.resync.
    cbn [TrafficMetricsService.resetStoreTraffic Mongo.deleteMany filter].
    assert (Hempty : filter (TrafficMetricsService.inWindow s start)
                       (TrafficMetricsService.resetStoreTraffic db s start)
                     = []).
    { unfold TrafficMetricsService.resetStoreTraffic, Mongo.deleteMany.
      induction db as [|d db IH]; simpl; [reflexivity|].
      destruct (TrafficMetricsService.inWindow s start d) eqn:E; simpl;
        [|rewrite E]; exact IH. }
    rewrite <- Hempty.
    generalize (TrafficMetricsService.resetStoreTraffic db s start).
    induction trafficData as [|page pages IH]; intros db0; [reflexivity|].
    cbn [fold_left]. rewrite IH. f_equal.
    unfold TrafficMetricsService.upsertTrafficMetric.
    cbn [tdi_storeId tdi_page startDate].
    apply filter_findOneAndUpdate_inside.
    - intros d Hd. exact (traffic_matches_inWindow s start _ d Hd).
    - intros d Hd.
      rewrite (traffic_setFields_matched now s start finish page d Hd).
      apply freshRow_inWindow.
    - apply (freshRow_inWindow now s start finish page). }
  rewrite Hwin. unfold SyncTrafficMetricsJob.resync.
  cbn [TrafficMetricsService.resetStoreTraffic Mongo.deleteMany filter].
  destruct (upserts_window now s start finish trafficData []
              ltac:(constructor) ltac:(constructor))
    as [_ [Hnd [Hk Hr]]].
  split; [exact Hnd|]. split; [|split; [|reflexivity]].
  - intros path. rewrite Hk. simpl. tauto.
  - intros row Hin.
    pose proof (find_In_unique tm_landingPagePath
                  (fun d => String.eqb (tm_landingPagePath d)
                              (tm_landingPagePath row))
                  row _ (fun d => String.eqb_eq _ _) Hnd Hin) as Hat.
    fold (rowAt (fold_left
                   (fun db0 page =>
                      TrafficMetricsService.upsertTrafficMetric now db0
                        {| tdi_storeId := s; tdi_page := page;
                           startDate := start; endDate := finish |})
                   trafficData []) (tm_landingPagePath row)) in Hat.
    rewrite Hr in Hat.
    destruct (lastRowFor landingPagePath (tm_landingPagePath row) trafficData)
      as [page|]; [|discriminate].
    exists page. split; [reflexivity|]. inversion Hat. reflexivity.
Qed.


(** ** Who may see and sync a store *)

Lemma UserRole_eqb_eq a b : UserRole_eqb a b = true <-> a = b.
Proof. destruct a, b; simpl; split; congruence. Qed.

Lemma includes_In l x : includes l x = true <-> In x l.
Proof.
  unfold includes. rewrite existsb_exists. split.
  - intros [y [Hy He]]. apply String.eqb_eq in He. subst. exact Hy.
  - intros H. exists x. split; [exact H | apply String.eqb_refl].
Qed.

Lemma canAccessStore_spec u storeId :
  StoreAccess.canAccessStore (Some u) storeId = true
  <-> role u = ADMIN \/ In storeId (assignedStores u).
Proof.
  unfold StoreAccess.canAccessStore.
  fold (includes (assignedStores u) storeId).
  destruct (role u); rewrite ?includes_In; intuition congruence.
Qed.

(** X16. The guards of the store endpoints. [StoreAccessGuard] lets a
    request pass exactly when its user is an admin, or is assigned the
    store the request names, where the path parameter takes precedence
    over the body and the body over the query string; a request without
    user never passes, nor does a non-admin request that names no store.
    With [@Roles], the daily sync is open to admins and to managers
    assigned the store, the range sync to admins only. *)
Theorem X16_store_guards :
  forall (request : StoreAccess.Request),
    (StoreAccess.storeAccessGuard request = true
     <-> exists u,
           StoreAccess.user request = Some u
           /\ (role u = ADMIN
               \/ exists storeId,
                    StoreAccess.storeIdOf request = Some storeId
                    /\ storeId <> ""%string
                    /\ In storeId (assignedStores u)))
    /\ (truthy (StoreAccess.params_storeId request) = true ->
        StoreAccess.storeIdOf request = StoreAccess.params_storeId request)
    /\ (StoreAccess.dailySyncGuards request = true
        <-> exists u,
              StoreAccess.user request = Some u
              /\ (role u = ADMIN
                  \/ (role u = MANAGER
                      /\ exists storeId,
                           StoreAccess.storeIdOf request = Some storeId
                           /\ storeId <> ""%string
                           /\ In storeId (assignedStores u))))
    /\ (StoreAccess.rangeSyncGuards request = true
        <-> exists u, StoreAccess.user request = Some u /\ role u = ADMIN).
Proof.
  intros request.
  assert (Hguard :
            StoreAccess.storeAccessGuard request = true
            <-> exists u,
                  StoreAccess.user request = Some u
                  /\ (role u = ADMIN
                      \/ exists storeId,
                           StoreAccess.storeIdOf request = Some storeId
                           /\ storeId <> ""%string
                           /\ In storeId (assignedStores u))).
  { unfold StoreAccess.storeAccessGuard.
    destruct (StoreAccess.user request) as [u|] eqn:Eu.
    - destruct (UserRole_eqb (role u) ADMIN) eqn:Eadm.
      + apply UserRole_eqb_eq in Eadm. split; [eauto | reflexivity].
      + assert (Hna : role u <> ADMIN).
        { intros H. apply UserRole_eqb_eq in H. congruence. }
        destruct (StoreAccess.storeIdOf request) as [storeId|].
        * destruct (String.eqb_spec storeId "") as [->|Hne].
          -- split; [discriminate|].
             intros [u' [Hu [H|[sid [Hs [Hn _]]]]]]; inversion Hu; subst;
               [contradiction | inversion Hs; congruence].
          -- rewrite canAccessStore_spec. split.
             ++ intros [H|H]; [contradiction|]. exists u. split; [reflexivity|].
                right. exists storeId. auto.
             ++ intros [u' [Hu [H|[sid [Hs [_ Hin]]]]]]; inversion Hu; subst;
                  [auto|]. inversion Hs; subst. auto.
        * split; [discriminate|].
          intros [u' [Hu [H|[sid [Hs _]]]]]; inversion Hu; subst;
            [contradiction | discriminate].
    - destruct (StoreAccess.storeIdOf request) as [storeId|].
      + destruct (String.eqb storeId ""); simpl;
          (split; [discriminate | intros [u [Hu _]]; discriminate]).
      + split; [discriminate | intros [u [Hu _]]; discriminate]. }
  split; [exact Hguard|]. split.
  { intros Ht. unfold StoreAccess.storeIdOf, StoreAccess.orElse.
    rewrite Ht, Ht. reflexivity. }
  split.
  - unfold StoreAccess.dailySyncGuards, StoreAccess.guards,
      StoreAccess.rolesGuard.
    destruct (StoreAccess.user request) as [u|] eqn:Eu.
    + rewrite andb_true_iff, Hguard. cbn [existsb]. rewrite orb_false_r.
      rewrite orb_true_iff, !UserRole_eqb_eq. split.
      * intros [Hr [u' [Hu Hc]]]. inversion Hu; subst u'.
        exists u. split; [reflexivity|].
        destruct Hc as [Ha|Hs]; [auto|]. destruct Hr as [Ha|Hm]; auto.
      * intros [u' [Hu Hc]]. inversion Hu; subst u'.
        destruct Hc as [Ha|[Hm Hs]].
        -- split; [auto|]. exists u. auto.
        -- split; [auto|]. exists u. auto.
    + split; [discriminate | intros [u [Hu _]]; discriminate].
  - unfold StoreAccess.rangeSyncGuards, StoreAccess.guards,
      StoreAccess.rolesGuard.
    destruct (StoreAccess.user request) as [u|] eqn:Eu.
    + rewrite andb_true_iff, Hguard. cbn [existsb]. rewrite orb_false_r.
      rewrite UserRole_eqb_eq. split.
      * intros [Hr _]. eauto.
      * intros [u' [Hu Ha]]. inversion Hu; subst u'.
        split; [exact Ha|]. exists u. auto.
    + split; [discriminate | intros [u [Hu _]]; discriminate].
Qed.

(** A manager of store A asks for store B in the path and names A in
    the body: the path decides. *)
Example manager_cannot_borrow_the_body :
  StoreAccess.dailySyncGuards
    {| StoreAccess.user :=
         Some {| userId := "u1"; email := "m@example.com"; role := MANAGER;
                 assignedStores := ["A"] |};
       StoreAccess.params_storeId := Some "B";
       StoreAccess.body :=
         Some {| StoreAccess.body_storeId := Some "A";
                 StoreAccess.body__id := None |};
       StoreAccess.query_storeId := Some "A" |}
  = false.
Proof. reflexivity. Qed.

(** X17. Listing and fetching stores agree with [canAccessStore]: for
    a request user, [findAll] returns exactly the stores of the
    collection that the user can access, in the order of the collection,
    and [findOneForUser] returns a store exactly when it exists and the
    user can access it; for a store that does not exist it answers 404
    whoever asks, before any access check. *)
Theorem X17_store_listing_agrees_with_access :
  forall (stores : list Store) (u : RequestUser),
    StoreAccess.findAll stores (Some u)
    = filter (fun store =>
                StoreAccess.canAccessStore (Some u) (store_id store)) stores
    /\ (forall id store,
          StoreAccess.findOneForUser stores id u = Ok store
          <-> find (fun s => String.eqb (store_id s) id) stores = Some store
              /\ StoreAccess.canAccessStore (Some u) id = true)
    /\ (forall id,
          find (fun s => String.eqb (store_id s) id) stores = None ->
          StoreAccess.findOneForUser stores id u
          = Rejected (NotFound "Store not found")).
Proof.
  intros stores u. split; [|split].
  - unfold StoreAccess.findAll, StoreAccess.canAccessStore.
    destruct (role u).
    + induction stores as [|s l IH]; simpl; [reflexivity | f_equal; exact IH].
    + destruct (assignedStores u) as [|a l] eqn:E; [|reflexivity].
      induction stores as [|s l' IH]; simpl; [reflexivity | exact IH].
    + destruct (assignedStores u) as [|a l] eqn:E; [|reflexivity].
      induction stores as [|s l' IH]; simpl; [reflexivity | exact IH].
  - intros id store. unfold StoreAccess.findOneForUser.
    destruct (find _ stores) as [s|]; [|split; [discriminate | intros [H _]; discriminate]].
    destruct (role u) eqn:Er.
    + unfold StoreAccess.canAccessStore. rewrite Er.
      split; [intros H; inversion H; auto | intros [H _]; inversion H; auto].
    + destruct (StoreAccess.canAccessStore (Some u) id); simpl;
        (split; [intros H; inversion H; auto | intros [H H']; inversion H; auto;
                 try discriminate]).
    + destruct (StoreAccess.canAccessStore (Some u) id); simpl;
        (split; [intros H; inversion H; auto | intros [H H']; inversion H; auto;
                 try discriminate]).
  - intros id Hnone. unfold StoreAccess.findOneForUser. rewrite Hnone.
    reflexivity.
Qed.


(** ** Users: assigned stores, roles and deactivation *)

Section UpdateFirst.
Context {Doc : Type}.
Variables (f : Doc -> bool) (u : Doc -> Doc).

Lemma updateFirst_fst db : fst (updateFirst f u db) = option_map u (find f db).
Proof.
  induction db as [|d db IH]; simpl; [reflexivity|].
  destruct (f d); [reflexivity|].
  destruct (updateFirst f u db) as [r db']. exact IH.
Qed.

Lemma updateFirst_find db :
  (forall d, f (u d) = f d) ->
  find f (snd (updateFirst f u db)) = option_map u (find f db).
Proof.
  intros Hu. induction db as [|d db IH]; simpl; [reflexivity|].
  destruct (f d) eqn:E; simpl.
  - rewrite Hu, E. reflexivity.
  - destruct (updateFirst f u db) as [r db']. simpl in *. rewrite E. exact IH.
Qed.

Lemma updateFirst_find_other (g : Doc -> bool) db :
  (forall d, f d = true -> g d = false) ->
  (forall d, f d = true -> g (u d) = false) ->
  find g (snd (updateFirst f u db)) = find g db.
Proof.
  intros Hg Hgu. induction db as [|d db IH]; simpl; [reflexivity|].
  destruct (f d) eqn:E; simpl.
  - rewrite (Hg d E), (Hgu d E). reflexivity.
  - destruct (updateFirst f u db) as [r db']. simpl in *.
    destruct (g d); [reflexivity | exact IH].
Qed.

Lemma updateFirst_none db :
  find f db = None -> updateFirst f u db = (None, db).
Proof.
  induction db as [|d db IH]; simpl; [reflexivity|].
  destruct (f d); [discriminate|]. intros H. rewrite (IH H). reflexivity.
Qed.

Lemma updateFirst_map (key : Doc -> string) db :
  (forall d, key (u d) = key d) ->
  map key (snd (updateFirst f u db)) = map key db.
Proof.
  intros Hk. induction db as [|d db IH]; simpl; [reflexivity|].
  destruct (f d); simpl; [rewrite Hk; reflexivity|].
  destruct (updateFirst f u db) as [r db']. simpl in *. rewrite IH.
  reflexivity.
Qed.
End UpdateFirst.

Lemma updateUser_spec id update action d :
  (forall user, u_id (update user) = u_id user) ->
  match UsersService.findById d id with
  | Ok old =>
      fst (UsersService.updateUser id update action d) = Ok (update old)
      /\ UsersService.findById
           (snd (UsersService.updateUser id update action d)) id
         = Ok (update old)
  | Rejected e =>
      UsersService.updateUser id update action d = (Rejected e, d)
  end.
Proof.
  intros Hid. unfold UsersService.updateUser, UsersService.findById.
  pose proof (updateFirst_fst (UsersService.hasId id) update (users d)) as H1.
  pose proof (updateFirst_find (UsersService.hasId id) update (users d)
                ltac:(intros user; unfold UsersService.hasId;
                      rewrite Hid; reflexivity)) as H2.
  destruct (updateFirst (UsersService.hasId id) update (users d))
    as [r users'].
  cbn [fst snd] in *.
  destruct (find (UsersService.hasId id) (users d)) as [old|]; simpl in *.
  - subst r. cbn [fst snd users withUsers logged]. rewrite H2. auto.
  - subst r. reflexivity.
Qed.

Lemma In_addToSet storeIds : forall assigned id,
  In id (UsersService.addToSet storeIds assigned)
  <-> In id assigned \/ In id storeIds.
Proof.
  unfold UsersService.addToSet.
  induction storeIds as [|s l IH]; intros assigned id; cbn [fold_left].
  - simpl. tauto.
  - rewrite IH. destruct (includes assigned s) eqn:E.
    + apply includes_In in E. simpl. intuition (subst; auto).
    + rewrite in_app_iff. simpl. tauto.
Qed.

Lemma NoDup_addToSet storeIds : forall assigned,
  NoDup assigned -> NoDup (UsersService.addToSet storeIds assigned).
Proof.
  unfold UsersService.addToSet.
  induction storeIds as [|s l IH]; intros assigned Hnd; cbn [fold_left];
    [exact Hnd|].
  apply IH. destruct (includes assigned s) eqn:E; [exact Hnd|].
  apply NoDup_app; [exact Hnd | constructor; [simpl; tauto | constructor] |].
  intros x Hx [<-|[]]. apply includes_In in Hx. congruence.
Qed.

Lemma addToSet_present storeIds : forall assigned,
  (forall id, In id storeIds -> In id assigned) ->
  UsersService.addToSet storeIds assigned = assigned.
Proof.
  unfold UsersService.addToSet.
  induction storeIds as [|s l IH]; intros assigned Hall; cbn [fold_left];
    [reflexivity|].
  assert (E : includes assigned s = true)
    by (apply includes_In, Hall; left; reflexivity).
  rewrite E. apply IH. intros id Hid. apply Hall. right. exact Hid.
Qed.

Lemma In_pull storeIds assigned id :
  In id (UsersService.pull storeIds assigned)
  <-> In id assigned /\ ~ In id storeIds.
Proof.
  unfold UsersService.pull. rewrite filter_In, negb_true_iff.
  rewrite <- (includes_In storeIds id).
  destruct (includes storeIds id); intuition congruence.
Qed.

Lemma assignStores_members d d' userId storeIds old user' :
  UsersService.findById d userId = Ok old ->
  UsersService.assignStores userId storeIds d = (Ok user', d') ->
  forall id, In id (u_assignedStores user')
             <-> In id (u_assignedStores old) \/ In id storeIds.
Proof.
  intros Hold Hassign.
  pose proof (updateUser_spec userId
                (UsersService.setStores (UsersService.addToSet storeIds))
                STORES_ASSIGNED d ltac:(reflexivity)) as H.
  rewrite Hold in H. fold (UsersService.assignStores userId storeIds) in H.
  rewrite Hassign in H. cbn [fst snd] in H. destruct H as [Huser _].
  inversion Huser. intros id.
  cbn [u_assignedStores UsersService.setStores]. apply In_addToSet.
Qed.

(** X18. Assigning stores and taking them away again. After
    [assignStores] succeeds the user holds the stores held before and
    the new ones, none twice when none was twice before; the next request
    of the user, validated against the collection, can access every one
    of them; assigning the same stores again changes no user; and after
    [removeStores] of the same ids the user holds exactly the stores
    held before that are not among them. *)
Theorem X18_assigned_stores_round_trip :
  forall (d d' : Directory) (userId : string) (storeIds : list string)
         (old user' : User),
    UsersService.findById d userId = Ok old ->
    UsersService.assignStores userId storeIds d = (Ok user', d') ->
    (forall id, In id (u_assignedStores user')
                <-> In id (u_assignedStores old) \/ In id storeIds)
    /\ (NoDup (u_assignedStores old) -> NoDup (u_assignedStores user'))
    /\ (forall payload requestUser,
          JwtStrategy.sub payload = userId ->
          JwtStrategy.validate d' payload = Ok requestUser ->
          forall id, In id storeIds ->
                     StoreAccess.canAccessStore (Some requestUser) id = true)
    /\ users (snd (UsersService.assignStores userId storeIds d')) = users d'
    /\ (forall user'' d'',
          UsersService.removeStores userId storeIds d' = (Ok user'', d'') ->
          forall id, In id (u_assignedStores user'')
                     <-> In id (u_assignedStores old) /\ ~ In id storeIds).
Proof.
  intros d d' userId storeIds old user' Hold Hassign.
  pose proof (updateUser_spec userId
                (UsersService.setStores (UsersService.addToSet storeIds))
                STORES_ASSIGNED d ltac:(reflexivity)) as H.
  rewrite Hold in H. fold (UsersService.assignStores userId storeIds) in H.
  rewrite Hassign in H. cbn [fst snd] in H. destruct H as [Huser Hfind].
  inversion Huser as [Hu']. clear Huser.
  split; [|split; [|split; [|split]]].
  - intros id. cbn [u_assignedStores UsersService.setStores].
    apply In_addToSet.
  - cbn [u_assignedStores UsersService.setStores]. apply NoDup_addToSet.
  - intros payload requestUser Hsub Hval id Hid.
    unfold JwtStrategy.validate in Hval. rewrite Hsub, Hfind in Hval.
    destruct (negb _); [discriminate|]. inversion Hval; subst requestUser.
    apply canAccessStore_spec. right.
    cbn [assignedStores u_assignedStores UsersService.setStores].
    apply In_addToSet. auto.
  - unfold UsersService.assignStores, UsersService.updateUser.
    assert (Hsame : snd (updateFirst (UsersService.hasId userId)
                           (UsersService.setStores
                              (UsersService.addToSet storeIds)) (users d'))
                    = users d').
    { unfold UsersService.findById in Hfind.
      destruct (find (UsersService.hasId userId) (users d')) as [cur|] eqn:E;
        [|discriminate].
      inversion Hfind as [Hcur]. clear Hfind.
      revert E. generalize (users d'). intros l.
      induction l as [|x l IH]; simpl; [discriminate|].
      destruct (UsersService.hasId userId x) eqn:Ex.
      - intros Hx. inversion Hx; subst x. simpl. f_equal.
        destruct cur as [i n e p r a sn su st]. simpl in Hcur.
        unfold UsersService.setStores. simpl. f_equal.
        inversion Hcur; subst.
        apply addToSet_present. intros id Hid. apply In_addToSet. auto.
      - intros Hl. specialize (IH Hl).
        destruct (updateFirst _ _ l) as [r l']. simpl in *. f_equal. exact IH. }
    destruct (updateFirst _ _ (users d')) as [[r|] l'] eqn:E;
      cbn [fst snd users withUsers logged] in *; auto.
  - intros user'' d'' Hremove id.
    pose proof (updateUser_spec userId
                  (UsersService.setStores (UsersService.pull storeIds))
                  STORES_REMOVED d' ltac:(reflexivity)) as H.
    rewrite Hfind in H. fold (UsersService.removeStores userId storeIds) in H.
    rewrite Hremove in H. cbn [fst] in H. destruct H as [Huser _].
    inversion Huser. cbn [u_assignedStores UsersService.setStores].
    rewrite In_pull, In_addToSet. tauto.
Qed.

Definition viewerV : User :=
  {| u_id := "u7"; u_name := "V"; u_email := "v@example.com";
     u_password := "$2b$12$h"; u_role := VIEWER; u_isActive := true;
     u_storeName := "S"; u_storeUrl := "s.example.com";
     u_assignedStores := ["A"] |}.

Definition managerM : User :=
  {| u_id := "u3"; u_name := "M"; u_email := "m@example.com";
     u_password := "$2b$12$k"; u_role := MANAGER; u_isActive := true;
     u_storeName := "S"; u_storeUrl := "s.example.com";
     u_assignedStores := ["A"; "B"] |}.

Definition directory0 : Directory :=
  {| users := [managerM; viewerV]; invitations := []; adminLog := [] |}.

Lemma X18_witness :
  u_assignedStores
    (UsersService.setStores (UsersService.addToSet ["B"; "A"; "B"]) viewerV)
  = ["A"; "B"]
  /\ users
       (snd (UsersService.assignStores "u7" ["B"; "A"; "B"]
               (snd (UsersService.assignStores "u7" ["B"; "A"; "B"]
                       directory0))))
     = users (snd (UsersService.assignStores "u7" ["B"; "A"; "B"] directory0)).
Proof.
  split; [reflexivity|].
  exact (proj1 (proj2 (proj2 (proj2
           (X18_assigned_stores_round_trip directory0
              (snd (UsersService.assignStores "u7" ["B"; "A"; "B"]
                      directory0))
              "u7" ["B"; "A"; "B"] viewerV _ eq_refl eq_refl))))).
Defined.

(** X19. A user is read from the collection on every request, whatever
    the token says: after a deactivation every request with a token of
    that user is rejected as unauthorized; after a change of role the
    next request carries the new role; and a token whose user is gone is
    answered with the 404 of [findById], not with 401. *)
Theorem X19_requests_see_the_current_user :
  forall (d : Directory) (payload : JwtStrategy.JwtPayload),
    (forall user d',
       UsersService.setActiveStatus (JwtStrategy.sub payload) false d
       = (Ok user, d') ->
       JwtStrategy.validate d' payload
       = Rejected (Unauthorized "Account is inactive or deleted"))
    /\ (forall newRole user d' requestUser,
          UsersService.updateRole (JwtStrategy.sub payload) newRole d
          = (Ok user, d') ->
          JwtStrategy.validate d' payload = Ok requestUser ->
          role requestUser = newRole)
    /\ (find (UsersService.hasId (JwtStrategy.sub payload)) (users d) = None ->
        JwtStrategy.validate d payload
        = Rejected (NotFound "User not found"))
    /\ (forall payload',
          JwtStrategy.sub payload' = JwtStrategy.sub payload ->
          JwtStrategy.validate d payload' = JwtStrategy.validate d payload).
Proof.
  intros d payload. split; [|split; [|split]].
  - intros user d' Hset.
    pose proof (updateUser_spec (JwtStrategy.sub payload)
                  (UsersService.setActive false) USER_DEACTIVATED d
                  ltac:(reflexivity)) as H.
    unfold UsersService.setActiveStatus in Hset. rewrite Hset in H.
    destruct (UsersService.findById d (JwtStrategy.sub payload));
      [|discriminate].
    cbn [fst snd] in H. destruct H as [_ Hfind].
    unfold JwtStrategy.validate. rewrite Hfind. reflexivity.
  - intros newRole user d' requestUser Hset Hval.
    pose proof (updateUser_spec (JwtStrategy.sub payload)
                  (UsersService.setRole newRole) USER_ROLE_UPDATED d
                  ltac:(reflexivity)) as H.
    unfold UsersService.updateRole in Hset. rewrite Hset in H.
    destruct (UsersService.findById d (JwtStrategy.sub payload));
      [|discriminate].
    cbn [fst snd] in H. destruct H as [_ Hfind].
    unfold JwtStrategy.validate in Hval. rewrite Hfind in Hval.
    destruct (negb _); [discriminate|]. inversion Hval. reflexivity.
  - intros Hnone. unfold JwtStrategy.validate, UsersService.findById.
    rewrite Hnone. reflexivity.
  - intros payload' Hsub. unfold JwtStrategy.validate. rewrite Hsub.
    reflexivity.
Qed.

(** X20. A manager hands out and takes away only stores of their
    own: when the request user is a manager (as validated against the
    collection) and [assignStores] of the controller succeeds, every
    store id of the request is one of the manager's stores, so the target
    user ends up with stores held before or stores of the manager; a
    request that names any other store is answered 403 and changes
    nothing. *)
Theorem X20_manager_hands_out_own_stores_only :
  forall (d d' : Directory) (payload : JwtStrategy.JwtPayload)
         (requestUser : RequestUser) (target : string)
         (storeIds : list string) (old user' : User),
    JwtStrategy.validate d payload = Ok requestUser ->
    role requestUser = MANAGER ->
    UsersService.findById d target = Ok old ->
    (UsersController.assignStores requestUser target storeIds d
     = (Ok user', d') ->
     (forall id, In id storeIds -> In id (assignedStores requestUser))
     /\ (forall id, In id (u_assignedStores user') ->
                    In id (u_assignedStores old)
                    \/ In id (assignedStores requestUser)))
    /\ ((exists id, In id storeIds /\ ~ In id (assignedStores requestUser)) ->
        UsersController.assignStores requestUser target storeIds d
        = (Rejected
             (Forbidden "Managers can only assign stores they are assigned to"),
           d)).
Proof.
  intros d d' payload requestUser target storeIds old user' Hval Hrole Hold.
  assert (Hstores : UsersController.managerStoresOf d requestUser
                    = Ok (assignedStores requestUser)).
  { unfold UsersController.managerStoresOf, UsersService.getUserStores.
    destruct (assignedStores requestUser) as [|a l] eqn:E; [|reflexivity].
    unfold JwtStrategy.validate in Hval.
    destruct (UsersService.findById d (JwtStrategy.sub payload)) as [m|e] eqn:Em;
      [|discriminate].
    destruct (negb (u_isActive m)); [discriminate|].
    inversion Hval; subst requestUser. cbn [userId assignedStores] in *.
    unfold UsersService.findById in Em.
    destruct (find _ (users d)) as [m'|] eqn:Ef; [|discriminate].
    inversion Em; subst m'.
    assert (Hid : u_id m = JwtStrategy.sub payload).
    { apply find_some in Ef. destruct Ef as [_ Hh].
      apply String.eqb_eq in Hh. exact Hh. }
    unfold UsersService.findById. rewrite Hid, Ef, E. reflexivity. }
  unfold UsersController.assignStores, UsersController.checkManager.
  rewrite Hold, Hrole, Hstores.
  destruct (existsb _ storeIds) eqn:Ex.
  - split; [discriminate|]. reflexivity.
  - assert (Hall : forall id, In id storeIds ->
                              In id (assignedStores requestUser)).
    { intros id Hid. apply includes_In.
      destruct (includes (assignedStores requestUser) id) eqn:E;
        [reflexivity|].
      assert (existsb (fun id => negb (includes (assignedStores requestUser) id))
                storeIds = true)
        by (apply existsb_exists; exists id; rewrite E; auto).
      congruence. }
    split.
    + intros Hassign. split; [exact Hall|].
      pose proof (assignStores_members d d' target storeIds old user' Hold
                    Hassign) as Hmem.
      intros id Hid. apply Hmem in Hid. destruct Hid; auto.
    + intros [id [Hid Hnot]]. exfalso. apply Hnot, Hall, Hid.
Qed.

Definition tokenOfM : JwtStrategy.JwtPayload :=
  {| JwtStrategy.sub := "u3"; JwtStrategy.payload_email := "m@example.com";
     JwtStrategy.payload_role := MANAGER;
     JwtStrategy.payload_assignedStores := ["A"; "B"] |}.

Lemma X20_witness :
  UsersController.assignStores
    {| userId := "u3"; email := "m@example.com"; role := MANAGER;
       assignedStores := ["A"; "B"] |}
    "u7" ["B"; "C"] directory0
  = (Rejected
       (Forbidden "Managers can only assign stores they are assigned to"),
     directory0).
Proof.
  apply (proj2 (X20_manager_hands_out_own_stores_only directory0 directory0
                  tokenOfM _ "u7" ["B"; "C"] viewerV viewerV
                  eq_refl eq_refl eq_refl)).
  exists "C". split; [right; left; reflexivity|].
  simpl. intros [H|[H|[]]]; discriminate.
Defined.

(** X21. What a manager sees of the viewers: [getViewersAssignedByManager]
    returns the viewers of the collection that share a store with the
    manager, each once and in the order of the collection, and shows of
    each only the stores shared with the manager (at least one), never a
    store the manager is not assigned; a manager without stores sees no
    viewer. *)
Theorem X21_manager_sees_shared_stores_only :
  forall (d : Directory) (managerId : string) (manager : User)
         (shown : list User),
    UsersService.findById d managerId = Ok manager ->
    UsersService.getViewersAssignedByManager d managerId = Ok shown ->
    let shares (user : User) :=
      exists id, In id (u_assignedStores user)
                 /\ In id (u_assignedStores manager) in
    map u_id shown
    = map u_id
        (filter (fun user =>
                   UserRole_eqb (u_role user) VIEWER
                   && existsb (includes (u_assignedStores manager))
                              (u_assignedStores user)) (users d))
    /\ (forall user, In user (users d) -> u_role user = VIEWER ->
          shares user ->
          exists v, In v shown /\ u_id v = u_id user
                    /\ forall id, In id (u_assignedStores v)
                                  <-> In id (u_assignedStores user)
                                      /\ In id (u_assignedStores manager))
    /\ (forall v, In v shown ->
          u_role v = VIEWER
          /\ u_assignedStores v <> []
          /\ (forall id, In id (u_assignedStores v) ->
                         In id (u_assignedStores manager))
          /\ exists user,
               In user (users d) /\ u_id user = u_id v
               /\ u_role user = VIEWER
               /\ forall id, In id (u_assignedStores v)
                             <-> In id (u_assignedStores user)
                                 /\ In id (u_assignedStores manager))
    /\ (u_assignedStores manager = [] -> shown = []).
Proof.
  intros d managerId manager shown Hm Hget shares.
  unfold UsersService.getViewersAssignedByManager in Hget. rewrite Hm in Hget.
  set (sel := fun user : User =>
                UserRole_eqb (u_role user) VIEWER
                && existsb (includes (u_assignedStores manager))
                           (u_assignedStores user)) in *.
  assert (Hsel : forall user,
            sel user = true <-> u_role user = VIEWER /\ shares user).
  { intros user. unfold sel, shares.
    rewrite andb_true_iff, UserRole_eqb_eq, existsb_exists.
    split; intros [Hr [id [H1 H2]]]; (split; [exact Hr|]); exists id;
      (split; [exact H1|]); apply includes_In; exact H2. }
  assert (Hshown : shown
                   = map (UsersService.setStores
                            (filter (includes (u_assignedStores manager))))
                       (filter sel (users d))).
  { destruct (u_assignedStores manager) as [|a l] eqn:E.
    - inversion Hget.
      assert (Hnone : filter sel (users d) = []).
      { unfold sel. induction (users d) as [|x xs IH]; simpl; [reflexivity|].
        assert (Hx : existsb (includes []) (u_assignedStores x) = false)
          by (induction (u_assignedStores x); simpl; auto).
        rewrite Hx, andb_false_r. exact IH. }
      rewrite Hnone. reflexivity.
    - inversion Hget. reflexivity. }
  assert (Hstores : forall user id,
            In id (u_assignedStores
                     (UsersService.setStores
                        (filter (includes (u_assignedStores manager))) user))
            <-> In id (u_assignedStores user)
                /\ In id (u_assignedStores manager)).
  { intros user id. cbn [u_assignedStores UsersService.setStores].
    rewrite filter_In, includes_In. tauto. }
  split; [|split; [|split]].
  - rewrite Hshown, map_map. reflexivity.
  - intros user Huser Hrole Hshares.
    exists (UsersService.setStores
              (filter (includes (u_assignedStores manager))) user).
    split; [|split; [reflexivity | apply Hstores]].
    rewrite Hshown. apply in_map, filter_In. split; [exact Huser|].
    apply Hsel. split; assumption.
  - intros v Hv. rewrite Hshown in Hv. apply in_map_iff in Hv.
    destruct Hv as [orig [<- Horig]]. apply filter_In in Horig.
    destruct Horig as [Hin Hso]. apply Hsel in Hso.
    destruct Hso as [Hr [id [H1 H2]]].
    split; [exact Hr|]. split; [|split].
    + intros Hnil. assert (Hid := proj2 (Hstores orig id) (conj H1 H2)).
      rewrite Hnil in Hid. exact Hid.
    + intros id' Hid'. apply Hstores in Hid'. tauto.
    + exists orig. split; [exact Hin|]. split; [reflexivity|].
      split; [exact Hr | apply Hstores].
  - intros Hnil. rewrite Hnil in Hget. inversion Hget. reflexivity.
Qed.

Lemma X21_witness :
  map u_assignedStores
    (match UsersService.getViewersAssignedByManager
             {| users := [managerM; viewerV;
                          UsersService.setStores (fun _ => ["C"; "B"; "D"])
                            (UsersService.setRole VIEWER managerM)];
                invitations := []; adminLog := [] |} "u3" with
     | Ok shown => shown
     | Rejected _ => []
     end)
  = [["A"]; ["B"]]
  /\ forall v,
       In v [viewerV] ->
       forall id, In id (u_assignedStores v) ->
                  In id (u_assignedStores managerM).
Proof.
  split; [reflexivity|].
  intros v Hv.
  exact (proj1 (proj2 (proj2
           (proj1 (proj2 (proj2
              (X21_manager_sees_shared_stores_only directory0 "u3" managerM
                 [viewerV] eq_refl eq_refl))) v Hv)))).
Defined.


(** ** Invitations *)








Lemma deleteMany_none_left {Doc} (f : Doc -> bool) (db : list Doc) :
  filter f (Mongo.deleteMany f db) = [].
Proof.
  unfold Mongo.deleteMany. induction db as [|d db IH]; simpl; [reflexivity|].
  destruct (f d) eqn:E; simpl; [|rewrite E]; exact IH.
Qed.

Lemma deleteMany_keeps_rest {Doc} (f : Doc -> bool) (db : list Doc) :
  filter (fun d => negb (f d)) (Mongo.deleteMany f db)
  = filter (fun d => negb (f d)) db.
Proof.
  unfold Mongo.deleteMany. induction db as [|d db IH]; simpl; [reflexivity|].
  destruct (f d) eqn:E; simpl; [|rewrite E; simpl; f_equal]; exact IH.
Qed.

(** X23. Inviting. Only a viewer can be invited: for any other role
    [createInvitation] fails and changes nothing. For a viewer it leaves
    exactly one pending invitation for the email, the new one, valid for
    seven days, whatever pending invitations the email had; accepted
    invitations and those of other emails are kept as they are. *)
Theorem X23_one_pending_invitation_per_email :
  forall (token : string) (now : Z) (email invitedBy : string)
         (storeIds : list string) (storeName storeUrl : string)
         (role : UserRole) (d : Directory),
    let r := UsersService.createInvitation token now email invitedBy storeIds
               storeName storeUrl role d in
    let pendingFor (i : Invitation) :=
      String.eqb (inv_email i) email && negb (inv_isAccepted i) in
    (role <> VIEWER ->
     r = (Rejected
            (InternalError "Only users with the VIEWER role can be invited."),
          d))
    /\ (role = VIEWER ->
        exists invitation,
          fst r = Ok invitation
          /\ filter pendingFor (invitations (snd r)) = [invitation]
          /\ inv_token invitation = token
          /\ inv_assignedStores invitation = storeIds
          /\ inv_expiresAt invitation = now + 7 * 86400000
          /\ filter (fun i => negb (pendingFor i)) (invitations (snd r))
             = filter (fun i => negb (pendingFor i)) (invitations d)
          /\ users (snd r) = users d).
Proof.
  intros token now email invitedBy storeIds storeName storeUrl role d r
    pendingFor.
  unfold r, UsersService.createInvitation. split.
  - destruct role; intros H; try reflexivity. contradiction.
  - intros ->. eexists. split; [reflexivity|].
    cbn [snd invitations withInvitations logged users Mongo.deleteMany].
    rewrite !filter_app. cbn [filter].
    assert (Hnew : pendingFor
                     {| inv_email := email; inv_invitedBy := invitedBy;
                        inv_assignedStores := storeIds;
                        inv_storeName := storeName; inv_storeUrl := storeUrl;
                        inv_token := token;
                        inv_expiresAt := now + 7 * 86400000;
                        inv_isAccepted := false |} = true).
    { unfold pendingFor. simpl. rewrite String.eqb_refl. reflexivity. }
    rewrite Hnew. cbn [negb].
    fold pendingFor.
    rewrite (deleteMany_none_left pendingFor), (deleteMany_keeps_rest pendingFor),
      app_nil_r.
    repeat split; reflexivity.
Qed.


(** ** The product and traffic jobs when the fetch fails *)

Lemma fetchProductSales_thrown store from to w e :
  fst (ShopifyService.fetchProductSales store from to w) = Thrown e ->
  exists l entry,
    auditLog (snd (ShopifyService.fetchProductSales store from to w))
    = l ++ [entry]
    /\ isFailureOf store e entry.
Proof.
  unfold ShopifyService.fetchProductSales. rewrite tryCatch_audit_rethrow.
  match goal with
  | |- context [match ?m with _ => _ end] => destruct m as [[sales|e'] w1]
  end; cbn [fst snd]; [discriminate|].
  intros H. inversion H; subst e'.
  exists (auditLog w1), (ShopifyService.failed store e).
  split; [reflexivity | repeat split].
Qed.

(** X24. Both jobs reset before they fetch, and a failed fetch is
    swallowed after the reset. When [fetchProductSales] throws for a
    store, the product job leaves every row of the store in place with
    both totals at 0 (what the reset wrote) and has audited the failure;
    when [fetchTrafficAnalytics] throws, the traffic job leaves the store
    without any row in the window and the rows outside it untouched. *)
Theorem X24_failed_fetch_leaves_the_reset :
  forall (now : Z) (store : Store) (w : World),
    (forall (from to : option Z) (db : list ProductMetric) (e : Exn),
       fst (ShopifyService.fetchProductSales store from to w) = Thrown e ->
       let r := ProductJob.syncStore now from to store db w in
       fst r = ProductMetricsService.resetStoreProducts db (store_id store)
       /\ map ProductMetricsService.keyOf (fst r)
          = map ProductMetricsService.keyOf db
       /\ (forall row, In row (fst r) -> pm_storeId row = store_id store ->
             totalQuantitySold row = 0%Q /\ totalRevenue row = 0%Q)
       /\ exists l entry, auditLog (snd r) = l ++ [entry]
                          /\ isFailureOf store e entry)
    /\ (forall (startDate endDate daysBack pageLimit : Z)
               (db : list TrafficMetric) (e : Exn),
          fst (ShopifyService.fetchTrafficAnalytics store daysBack pageLimit w)
          = Thrown e ->
          let r := TrafficJob.syncStore now startDate endDate daysBack
                     pageLimit store db w in
          let inWindow :=
            TrafficMetricsService.inWindow (store_id store) startDate in
          filter inWindow (fst r) = []
          /\ filter (fun row => negb (inWindow row)) (fst r)
             = filter (fun row => negb (inWindow row)) db).
Proof.
  intros now store w. split.
  - intros from to db e Hthrown r. unfold r, ProductJob.syncStore.
    destruct (fetchProductSales_thrown store from to w e Hthrown)
      as [l [entry [Hlog Hfail]]].
    destruct (ShopifyService.fetchProductSales store from to w)
      as [[sales|e'] w1]; cbn [fst snd] in *; [discriminate|].
    split; [reflexivity|]. split; [apply reset_keys|]. split.
    + intros row Hin Hs.
      unfold ProductMetricsService.resetStoreProducts, Mongo.updateMany in Hin.
      apply in_map_iff in Hin. destruct Hin as [orig [<- _]].
      unfold ProductMetricsService.ofStore in *.
      destruct (String.eqb_spec (pm_storeId orig) (store_id store)) as [E|E].
      * split; reflexivity.
      * simpl in Hs. contradiction.
    + inversion Hthrown; subst e'. exists l, entry. auto.
  - intros startDate endDate daysBack pageLimit db e Hthrown r inWindow.
    unfold r, TrafficJob.syncStore.
    destruct (ShopifyService.fetchTrafficAnalytics store daysBack pageLimit w)
      as [[pages|e'] w1]; cbn [fst snd] in *; [discriminate|].
    unfold inWindow, TrafficMetricsService.resetStoreTraffic. split.
    + apply deleteMany_none_left.
    + apply deleteMany_keeps_rest.
Qed.

(** The vendor does not answer: the totals of the store stay at 0. *)
Example product_job_after_a_network_error :
  fst (ProductJob.syncStore 2 None None Fixture.storeS
         [ {| pm_storeId := "64b7f0c2a1"; pm_productId := "p1";
              pm_productName := "Mug"; pm_productImage := "";
              pm_productUrl := ""; totalQuantitySold := 8;
              totalRevenue := 160; pm_lastSyncDate := 1 |} ]
         Fixture.emptyWorld)
  = [ {| pm_storeId := "64b7f0c2a1"; pm_productId := "p1";
         pm_productName := "Mug"; pm_productImage := "";
         pm_productUrl := ""; totalQuantitySold := 0;
         totalRevenue := 0; pm_lastSyncDate := 1 |} ].
Proof. vm_compute. reflexivity. Qed.

(** ** Removing a store *)

Lemma deleteFirst_spec {Doc} (f : Doc -> bool) (db : list Doc) :
  fst (deleteFirst f db) = find f db
  /\ filter (fun d => negb (f d)) (snd (deleteFirst f db))
     = filter (fun d => negb (f d)) db
  /\ (find f db = None -> snd (deleteFirst f db) = db)
  /\ (find f db <> None ->
      S (List.length (snd (deleteFirst f db))) = List.length db).
Proof.
  induction db as [|d db IH]; simpl.
  - repeat split; auto. intros H. contradiction.
  - destruct (f d) eqn:E; simpl.
    + repeat split; auto. discriminate.
    + destruct (deleteFirst f db) as [r db']. simpl in *.
      destruct IH as [H1 [H2 [H3 H4]]]. rewrite E. simpl.
      repeat split; auto.
      * f_equal. exact H2.
      * intros H. f_equal. auto.
Qed.

(** X25. Removing a store. For an id that no store has, [remove]
    answers "Store not found" and changes nothing. Otherwise it takes the
    (first) store with that id out of the collection, keeps the other
    stores in order, deletes the daily metric rows of the store and no
    other, and records the removal in the audit log under the action
    STORE_CREATED; the product and traffic rows of the store and the
    users' assignments are left as they are. *)
Theorem X25_removing_a_store :
  forall (id : string) (db : Database),
    let hasId := fun s : Store => String.eqb (store_id s) id in
    let r := StoreRemoval.remove id db in
    (find hasId (db_stores db) = None ->
     r = (Rejected (NotFound "Store not found"), db))
    /\ (find hasId (db_stores db) <> None ->
        fst r = Ok tt
        /\ S (List.length (db_stores (snd r))) = List.length (db_stores db)
        /\ filter (fun s => negb (hasId s)) (db_stores (snd r))
           = filter (fun s => negb (hasId s)) (db_stores db)
        /\ metricsOf id (db_storeMetrics (snd r)) = []
        /\ (forall other, other <> id ->
              metricsOf other (db_storeMetrics (snd r))
              = metricsOf other (db_storeMetrics db))
        /\ db_productMetrics (snd r) = db_productMetrics db
        /\ db_trafficMetrics (snd r) = db_trafficMetrics db
        /\ users (db_directory (snd r)) = users (db_directory db)
        /\ adminLog (db_directory (snd r))
           = adminLog (db_directory db) ++ [(STORE_CREATED, id)]).
Proof.
  intros id db hasId r. unfold r, StoreRemoval.remove. fold hasId.
  destruct (deleteFirst_spec hasId (db_stores db)) as [H1 [H2 [H3 H4]]].
  destruct (deleteFirst hasId (db_stores db)) as [[store|] stores'];
    cbn [fst snd] in *.
  - split; [intros H; congruence|]. intros Hsome.
    cbn [db_stores db_storeMetrics db_productMetrics db_trafficMetrics
         db_directory users adminLog logged].
    split; [reflexivity|]. split; [auto|]. split; [exact H2|]. split.
    + unfold metricsOf, StoreRemoval.deleteByStoreId.
      apply deleteMany_none_left.
    + split; [|repeat split].
      intros other Hne. unfold metricsOf, StoreRemoval.deleteByStoreId,
        Mongo.deleteMany.
      induction (db_storeMetrics db) as [|row rows IH]; simpl; [reflexivity|].
      destruct (String.eqb_spec (sm_storeId row) id) as [E|E]; simpl.
      * rewrite E, (proj2 (String.eqb_neq _ _)) by congruence. exact IH.
      * destruct (String.eqb (sm_storeId row) other); [f_equal|]; exact IH.
  - split; [reflexivity|]. intros H. congruence.
Qed.


(** ** Reading the daily metrics *)

Section SortFacts.
Context {A : Type}.
Variable before : A -> A -> bool.
Hypothesis before_total : forall a b, before a b = true \/ before b a = true.

Let R (a b : A) : Prop := before a b = true.

Lemma insertSorted_perm x l : Permutation (insertSorted before x l) (x :: l).
Proof.
  induction l as [|y l IH]; simpl; [apply Permutation_refl|].
  destruct (before y x); [|apply Permutation_refl].
  apply perm_trans with (y :: x :: l); [apply perm_skip, IH | apply perm_swap].
Qed.

Lemma sortBy_perm l : Permutation (sortBy before l) l.
Proof.
  induction l as [|x l IH]; simpl; [apply perm_nil|].
  apply perm_trans with (x :: sortBy before l);
    [apply insertSorted_perm | apply perm_skip, IH].
Qed.

Lemma insertSorted_sorted x l :
  Sorted R l -> Sorted R (insertSorted before x l).
Proof.
  induction l as [|y l IH]; intros Hs; simpl.
  - repeat constructor.
  - inversion Hs as [|? ? Hl Hhd]; subst.
    destruct (before y x) eqn:E.
    + constructor; [apply IH, Hl|].
      destruct l as [|z l]; simpl.
      * constructor. exact E.
      * inversion Hhd; subst. destruct (before z x); constructor; assumption.
    + constructor; [exact Hs|]. constructor.
      destruct (before_total x y) as [H|H]; [exact H | congruence].
Qed.

Lemma sortBy_sorted l : Sorted R (sortBy before l).
Proof.
  induction l as [|x l IH]; simpl; [constructor|].
  apply insertSorted_sorted, IH.
Qed.
End SortFacts.

Section Aggregate.
Local Open Scope Q_scope.
Variable rt : JS.Runtime.
Variable midnightDaysAgo : Z -> Z -> Z.




End Aggregate.

(** Midnight (UTC) [days] days before [now]. *)
Definition utcMidnightDaysAgo (now days : Z) : Z :=
  (now / 86400000 - days) * 86400000.

(** Three rows of two stores, the first of them older than 30 days at
    the time [1730600000000] (2024-11-03). *)
Definition metricRows : list StoreMetric :=
  [ {| sm_storeId := "A"; sm_date := Some 1725148800000;
       sm_facebookMetaSpend := 100; sm_googleAdSpend := 100;
       sm_shopifySoldOrders := 100; sm_shopifyOrderValue := 100;
       sm_shopifySoldItems := 100 |};
    {| sm_storeId := "B"; sm_date := Some 1730419200000;
       sm_facebookMetaSpend := 7; sm_googleAdSpend := 3;
       sm_shopifySoldOrders := 2; sm_shopifyOrderValue := 80;
       sm_shopifySoldItems := 4 |};
    {| sm_storeId := "A"; sm_date := Some 1730332800000;
       sm_facebookMetaSpend := 50; sm_googleAdSpend := 30;
       sm_shopifySoldOrders := 10; sm_shopifyOrderValue := 500;
       sm_shopifySoldItems := 20 |};
    {| sm_storeId := "A"; sm_date := Some 1730419200000;
       sm_facebookMetaSpend := 5; sm_googleAdSpend := 5;
       sm_shopifySoldOrders := 1; sm_shopifyOrderValue := 20;
       sm_shopifySoldItems := 1 |} ].


Lemma matched_scoped f stores db :
  stores <> [] ->
  MetricsQueries.matched f (Some stores) db
  = MetricsQueries.matched f (Some stores)
      (filter (fun row => includes stores (sm_storeId row)) db).
Proof.
  intros Hne. unfold MetricsQueries.matched.
  destruct stores as [|id ids]; [contradiction|].
  induction db as [|row db IH]; cbn [filter]; [reflexivity|].
  destruct (includes (id :: ids) (sm_storeId row)) eqn:E; cbn [filter].
  - rewrite E.
    destruct (MetricsQueries.matchesDate f (sm_date row)); cbn [andb];
      [f_equal|]; exact IH.
  - rewrite andb_false_r. exact IH.
Qed.

(** X27. What a user who is not an admin gets from the aggregate
    endpoint depends on the rows of the stores assigned to the user and
    on nothing else: two collections that agree on these rows give the
    same answer, so no other store's numbers can show in it; a user
    without assigned stores gets zeros, whatever the collection holds
    (and not the totals over all stores, which is what an empty list of
    stores means to [aggregate]). *)
Theorem X27_aggregate_is_scoped_to_assigned_stores :
  forall (rt : JS.Runtime) (midnightDaysAgo : Z -> Z -> Z) (now : Z)
         (user : RequestUser) (range : option string),
    role user <> ADMIN ->
    (forall db1 db2,
       filter (fun row => includes (assignedStores user) (sm_storeId row)) db1
       = filter (fun row => includes (assignedStores user) (sm_storeId row)) db2 ->
       MetricsQueries.getAggregate rt midnightDaysAgo now db1 user range
       = MetricsQueries.getAggregate rt midnightDaysAgo now db2 user range)
    /\ (assignedStores user = [] ->
        forall db,
          MetricsQueries.getAggregate rt midnightDaysAgo now db user range
          = Some {| ag_totalStores := 0; ag_totalAdSpend := 0%Q;
                    ag_totalOrders := 0%Q; ag_totalRevenue := 0%Q;
                    ag_dateRange := MetricsQueries.rangeOrDefault range |}).
Proof.
  intros rt midnightDaysAgo now user range Hrole. split.
  - intros db1 db2 Hsame. unfold MetricsQueries.getAggregate.
    destruct (role user); [contradiction| |];
      (destruct (assignedStores user) as [|id ids] eqn:E; [reflexivity|];
       unfold MetricsQueries.aggregate;
       destruct (MetricsQueries.runnable _); [|reflexivity];
       rewrite (matched_scoped _ (id :: ids) db1) by discriminate;
       rewrite (matched_scoped _ (id :: ids) db2) by discriminate;
       rewrite Hsame; reflexivity).
  - intros Hnone db. unfold MetricsQueries.getAggregate. rewrite Hnone.
    destruct (role user); [contradiction | reflexivity | reflexivity].
Qed.

Lemma X27_witness :
  MetricsQueries.getAggregate Fixture.runtime utcMidnightDaysAgo 1730600000000
    metricRows
    {| userId := "u7"; email := "v@example.com"; role := VIEWER;
       assignedStores := [] |}
    None
  = Some {| ag_totalStores := 0; ag_totalAdSpend := 0%Q;
            ag_totalOrders := 0%Q; ag_totalRevenue := 0%Q;
            ag_dateRange := "last30days" |}.
Proof.
  apply (proj2 (X27_aggregate_is_scoped_to_assigned_stores Fixture.runtime
                  utcMidnightDaysAgo 1730600000000
                  {| userId := "u7"; email := "v@example.com"; role := VIEWER;
                     assignedStores := [] |}
                  None ltac:(discriminate))).
  reflexivity.
Defined.

(** The viewer of store B sees B's row only. *)
Example aggregate_of_a_viewer :
  MetricsQueries.getAggregate Fixture.runtime utcMidnightDaysAgo 1730600000000
    metricRows
    {| userId := "u7"; email := "v@example.com"; role := VIEWER;
       assignedStores := ["B"] |}
    (Some "last7days")
  = Some {| ag_totalStores := 1; ag_totalAdSpend := (0 + 7 + 3)%Q;
            ag_totalOrders := (0 + 2)%Q; ag_totalRevenue := (0 + 80)%Q;
            ag_dateRange := "last7days" |}.
Proof. vm_compute. reflexivity. Qed.

(** X28. The metrics of one store. When [findByStore] runs, it returns
    the rows of the store that lie inside the date bounds, every one of
    them once, in ascending order of date. Explicit dates take the place
    of the named range: with a [startDate] or an [endDate] the range is
    not looked at, and the bounds are inclusive. *)
Theorem X28_findByStore_filters_and_sorts :
  forall (rt : JS.Runtime) (midnightDaysAgo : Z -> Z -> Z) (now : Z)
         (db : list StoreMetric) (storeId : string)
         (range startDate endDate : option string) (rows : list StoreMetric),
    MetricsQueries.findByStore rt midnightDaysAgo now db storeId range
      startDate endDate = Some rows ->
    let f := MetricsQueries.buildDateRangeFilter rt midnightDaysAgo now range
               startDate endDate in
    Permutation rows
      (filter (fun row => MetricsQueries.matchesDate f (sm_date row)
                          && String.eqb (sm_storeId row) storeId) db)
    /\ Sorted (fun a b => MetricsQueries.dateBefore a b = true) rows
    /\ (forall row, In row rows -> sm_storeId row = storeId)
    /\ (truthy startDate || truthy endDate = true ->
        forall range',
          MetricsQueries.findByStore rt midnightDaysAgo now db storeId range'
            startDate endDate = Some rows)
    /\ (forall s from, startDate = Some s -> s <> ""%string ->
          JS.newDate rt s = Some from ->
          forall row, In row rows ->
            exists t, sm_date row = Some t /\ from <= t)
    /\ (forall s to, endDate = Some s -> s <> ""%string ->
          JS.newDate rt s = Some to ->
          forall row, In row rows ->
            exists t, sm_date row = Some t /\ t <= to).
Proof.
  intros rt midnightDaysAgo now db storeId range startDate endDate rows Hfind f.
  unfold MetricsQueries.findByStore in Hfind. fold f in Hfind.
  destruct (MetricsQueries.runnable f) eqn:Hrun; [|discriminate].
  inversion Hfind as [Hrows]. clear Hfind.
  set (sel := fun row => MetricsQueries.matchesDate f (sm_date row)
                         && String.eqb (sm_storeId row) storeId) in *.
  assert (Hperm : Permutation (sortBy MetricsQueries.dateBefore (filter sel db))
                    (filter sel db)) by apply sortBy_perm.
  assert (Hin : forall row,
            In row (sortBy MetricsQueries.dateBefore (filter sel db)) ->
            MetricsQueries.matchesDate f (sm_date row) = true
            /\ sm_storeId row = storeId).
  { intros row Hrow. apply (Permutation_in _ Hperm) in Hrow.
    apply filter_In in Hrow. destruct Hrow as [_ Hsel]. unfold sel in Hsel.
    apply andb_true_iff in Hsel. destruct Hsel as [Hd Hs].
    apply String.eqb_eq in Hs. auto. }
  split; [exact Hperm|]. split.
  { apply sortBy_sorted. intros a b. unfold MetricsQueries.dateBefore.
    destruct (sm_date a) as [x|], (sm_date b) as [y|]; auto.
    destruct (Z.leb_spec x y); [auto|].
    right. apply Z.leb_le. lia. }
  split; [intros row Hrow; apply (Hin row Hrow)|]. split.
  { intros Hexplicit range'. unfold MetricsQueries.findByStore.
    assert (Hf : MetricsQueries.buildDateRangeFilter rt midnightDaysAgo now
                   range' startDate endDate = f).
    { unfold f, MetricsQueries.buildDateRangeFilter. rewrite Hexplicit.
      reflexivity. }
    rewrite Hf, Hrun. reflexivity. }
  split.
  - intros s from Hs Hne Hdate row Hrow. destruct (Hin row Hrow) as [Hm _].
    unfold MetricsQueries.matchesDate in Hm. apply andb_true_iff in Hm.
    destruct Hm as [Hm _].
    assert (Hg : date_gte f = Some (Some from)).
    { unfold f, MetricsQueries.buildDateRangeFilter. subst startDate.
      cbn [truthy]. apply String.eqb_neq in Hne. rewrite Hne. cbn [negb orb].
      cbn [date_gte]. rewrite Hdate. reflexivity. }
    rewrite Hg in Hm. destruct (sm_date row) as [t|]; [|discriminate].
    exists t. split; [reflexivity | apply Z.leb_le; exact Hm].
  - intros s to Hs Hne Hdate row Hrow. destruct (Hin row Hrow) as [Hm _].
    unfold MetricsQueries.matchesDate in Hm. apply andb_true_iff in Hm.
    destruct Hm as [_ Hm].
    assert (Hl : date_lte f = Some (Some to)).
    { unfold f, MetricsQueries.buildDateRangeFilter. subst endDate.
      cbn [truthy]. apply String.eqb_neq in Hne. rewrite Hne.
      cbn [negb]. rewrite orb_true_r. cbn [date_lte]. rewrite Hdate.
      reflexivity. }
    rewrite Hl in Hm. destruct (sm_date row) as [t|]; [|discriminate].
    exists t. split; [reflexivity | apply Z.leb_le; exact Hm].
Qed.

Lemma X28_witness :
  map sm_date
    (match MetricsQueries.findByStore Fixture.runtime utcMidnightDaysAgo
             1730600000000 metricRows "A" (Some "last7days")
             (Some "2024-10-01") None with
     | Some rows => rows
     | None => []
     end)
  = [Some 1730332800000; Some 1730419200000]
  /\ MetricsQueries.findByStore Fixture.runtime utcMidnightDaysAgo
       1730600000000 metricRows "A" None (Some "2024-10-01") None
     = MetricsQueries.findByStore Fixture.runtime utcMidnightDaysAgo
         1730600000000 metricRows "A" (Some "last7days")
         (Some "2024-10-01") None.
Proof.
  split; [vm_compute; reflexivity|].
  destruct (MetricsQueries.findByStore Fixture.runtime utcMidnightDaysAgo
              1730600000000 metricRows "A" (Some "last7days")
              (Some "2024-10-01") None) as [rows|] eqn:E;
    [|vm_compute in E; discriminate].
  exact (proj1 (proj2 (proj2 (proj2
           (X28_findByStore_filters_and_sorts Fixture.runtime
              utcMidnightDaysAgo 1730600000000 metricRows "A"
              (Some "last7days") (Some "2024-10-01") None rows E))))
           eq_refl None).
Defined.


(** ** Top products and top landing pages *)

Lemma In_firstn {A} (n : nat) : forall (l : list A) x,
  In x (firstn n l) -> In x l.
Proof.
  induction n as [|n IH]; intros [|a l] x; simpl; try tauto.
  intros [H|H]; [auto | right; apply IH, H].
Qed.

Lemma In_skipn {A} (n : nat) : forall (l : list A) x,
  In x (skipn n l) -> In x l.
Proof.
  induction n as [|n IH]; intros [|a l] x; simpl; try tauto.
  intros H. right. apply IH, H.
Qed.

Section TopOfSorted.
Context {A : Type}.
Variable R : A -> A -> Prop.

Lemma top_of_sorted (n : nat) : forall l,
  StronglySorted R l ->
  StronglySorted R (firstn n l)
  /\ forall p q, In p (firstn n l) -> In q (skipn n l) -> R p q.
Proof.
  induction n as [|n IH]; intros [|a l] Hs; simpl;
    try (split; [constructor | tauto]).
  inversion Hs as [|? ? Hl Hall]; subst.
  destruct (IH l Hl) as [Hs1 Htop]. split.
  - constructor; [exact Hs1|].
    apply Forall_forall. intros x Hx.
    apply (proj1 (Forall_forall _ _) Hall). apply (In_firstn n), Hx.
  - intros p q [<-|Hp] Hq.
    + apply (proj1 (Forall_forall _ _) Hall). apply (In_skipn n), Hq.
    + apply Htop; assumption.
Qed.
End TopOfSorted.

Section TopProducts.
Local Open Scope Q_scope.





End TopProducts.


Definition storeNamedS : Store :=
  {| store_id := "S"; name := "S"; shopifyToken := "shpat_x";
     shopifyStoreUrl := "s.myshopify.com";
     fbAdSpendToken := Some "EAAB"; fbAccountId := Some "act_1";
     googleAccessToken := None; googleRefreshToken := None;
     googleCustomerId := None; googleTokenExpiry := None |}.


(** X30. The top landing pages of a store. [getTrafficAnalytics]
    shows rows of that store only, at most [limit] of them (10 when the
    limit is missing or not positive), by descending sessions, and no row
    it leaves out has more sessions than a row it shows. Both date bounds
    are applied to the [startDate] of a row; its [endDate] is not looked
    at. The conversion rate shown is 0 for a row without sessions, and a
    percentage between 0 and 100 when the sessions that reached checkout
    are a part of the sessions. *)
Theorem X30_top_landing_pages :
  forall (rt : JS.Runtime) (stores : list Store) (db : list TrafficMetric)
         (storeId : string) (limit : option Z)
         (startDate endDate : option string) (pages : list TopLandingPage),
    AnalyticsQueries.getTrafficAnalytics rt stores db storeId limit
      startDate endDate = Ok (Some pages) ->
    let n := AnalyticsQueries.limitOr limit 10 in
    exists from to shown rest,
      pages = map AnalyticsQueries.toTopLandingPage shown
      /\ Permutation (shown ++ rest)
           (filter (AnalyticsQueries.inRange storeId from to) db)
      /\ List.length shown
         = Nat.min (Z.to_nat n)
             (List.length
                (filter (AnalyticsQueries.inRange storeId from to) db))
      /\ StronglySorted (fun p q => tm_sessions q <= tm_sessions p) shown
      /\ (forall p q, In p shown -> In q rest ->
                      tm_sessions q <= tm_sessions p)
      /\ (forall text, startDate = Some text -> text <> ""%string ->
                       JS.newDate rt text = from)
      /\ (forall text, endDate = Some text -> text <> ""%string ->
                       JS.newDate rt text = to)
      /\ (forall p, In p shown ->
            tm_storeId p = storeId
            /\ (forall t, from = Some t -> t <= tm_startDate p)
            /\ (forall t, to = Some t -> tm_startDate p <= t))
      /\ (forall p, In p shown ->
            (tm_sessions p <= 0 ->
             lp_conversionRate (AnalyticsQueries.toTopLandingPage p) = Num 0)
            /\ (0 <= tm_sessionsThatReachedCheckout p <= tm_sessions p ->
                exists q,
                  lp_conversionRate (AnalyticsQueries.toTopLandingPage p)
                  = Num q /\ (0 <= q)%Q /\ (q <= 100)%Q)).
Proof.
  intros rt stores db storeId limit startDate endDate pages Hget n.
  unfold AnalyticsQueries.getTrafficAnalytics in Hget.
  destruct (find _ stores) as [store|]; [|discriminate].
  set (from := match AnalyticsQueries.parseBound rt startDate with
               | Some d => d | None => None end).
  set (to := match AnalyticsQueries.parseBound rt endDate with
             | Some d => d | None => None end).
  assert (Hpages : pages
                   = map AnalyticsQueries.toTopLandingPage
                       (AnalyticsQueries.getTopLandingPagesByStore db storeId
                          n from to)
                   /\ AnalyticsQueries.parseBound rt startDate <> Some None
                   /\ AnalyticsQueries.parseBound rt endDate <> Some None).
  { unfold from, to, n.
    destruct (AnalyticsQueries.parseBound rt startDate) as [[a|]|],
             (AnalyticsQueries.parseBound rt endDate) as [[b|]|];
      try discriminate; inversion Hget; repeat split; discriminate. }
  clear Hget. destruct Hpages as [Hpages [Hvalid1 Hvalid2]].
  set (rows := filter (AnalyticsQueries.inRange storeId from to) db).
  set (sorted := sortBy AnalyticsQueries.moreSessions rows).
  assert (Hperm : Permutation sorted rows) by apply sortBy_perm.
  assert (Hsorted : StronglySorted (fun p q => tm_sessions q <= tm_sessions p)
                      sorted).
  { apply Sorted_StronglySorted; [intros p q r; lia|].
    assert (Hs : Sorted (fun a b => AnalyticsQueries.moreSessions a b = true)
                   sorted).
    { apply sortBy_sorted. intros a b. unfold AnalyticsQueries.moreSessions.
      destruct (Z.leb_spec (tm_sessions b) (tm_sessions a)); [auto|].
      right. apply Z.leb_le. lia. }
    clear -Hs. induction Hs as [|a l Hl IH Hhd]; constructor; [exact IH|].
    destruct Hhd as [|b l' Hb]; constructor.
    unfold AnalyticsQueries.moreSessions in Hb. apply Z.leb_le. exact Hb. }
  destruct (top_of_sorted _ (Z.to_nat n) sorted Hsorted) as [Hshown Htop].
  exists from, to, (firstn (Z.to_nat n) sorted), (skipn (Z.to_nat n) sorted).
  split; [exact Hpages|]. split; [rewrite firstn_skipn; exact Hperm|].
  split; [rewrite length_firstn, (Permutation_length Hperm); reflexivity|].
  split; [exact Hshown|]. split; [exact Htop|]. split.
  { intros text -> Hne. unfold from, AnalyticsQueries.parseBound.
    apply String.eqb_neq in Hne. rewrite Hne. reflexivity. }
  split.
  { intros text -> Hne. unfold to, AnalyticsQueries.parseBound.
    apply String.eqb_neq in Hne. rewrite Hne. reflexivity. }
  split.
  - intros p Hp. apply In_firstn in Hp. apply (Permutation_in _ Hperm) in Hp.
    apply filter_In in Hp. destruct Hp as [_ Hp].
    unfold AnalyticsQueries.inRange in Hp.
    apply andb_true_iff in Hp. destruct Hp as [Hp Hto].
    apply andb_true_iff in Hp. destruct Hp as [Hs Hfrom].
    apply String.eqb_eq in Hs. split; [exact Hs|]. split.
    + intros t Ht. rewrite Ht in Hfrom. apply Z.leb_le. exact Hfrom.
    + intros t Ht. rewrite Ht in Hto. apply Z.leb_le. exact Hto.
  - intros p _.
    cbn [lp_conversionRate AnalyticsQueries.toTopLandingPage].
    unfold AnalyticsQueries.conversionRate. split.
    + intros Hle. destruct (Z.ltb_spec 0 (tm_sessions p)); [lia | reflexivity].
    + intros Hpart. destruct (Z.ltb_spec 0 (tm_sessions p)) as [Hpos|Hle].
      * unfold Number.ofZ. apply double_percentage_in_range.
        -- change 0%Q with (inject_Z 0). rewrite <- Zle_Qle. lia.
        -- rewrite <- Zle_Qle. lia.
        -- change 0%Q with (inject_Z 0). rewrite <- Zlt_Qlt. exact Hpos.
      * exists 0%Q. split; [reflexivity | split; lra].
Qed.

Definition trafficRows : list TrafficMetric :=
  [ {| tm_storeId := "S"; tm_landingPageType := "Home";
       tm_landingPagePath := "/"; tm_onlineStoreVisitors := 100;
       tm_sessions := 120; tm_sessionsWithCartAdditions := 30;
       tm_sessionsThatReachedCheckout := 10;
       tm_startDate := 1729800000000; tm_endDate := 1730400000000;
       tm_lastSyncDate := 10 |};
    {| tm_storeId := "S"; tm_landingPageType := "Product";
       tm_landingPagePath := "/products/mug"; tm_onlineStoreVisitors := 300;
       tm_sessions := 350; tm_sessionsWithCartAdditions := 40;
       tm_sessionsThatReachedCheckout := 20;
       tm_startDate := 1729800000000; tm_endDate := 1730400000000;
       tm_lastSyncDate := 10 |};
    {| tm_storeId := "S"; tm_landingPageType := "Cart";
       tm_landingPagePath := "/cart"; tm_onlineStoreVisitors := 0;
       tm_sessions := 0; tm_sessionsWithCartAdditions := 0;
       tm_sessionsThatReachedCheckout := 0;
       tm_startDate := 1729800000000; tm_endDate := 1730400000000;
       tm_lastSyncDate := 10 |} ].

Lemma X30_witness :
  exists pages,
    AnalyticsQueries.getTrafficAnalytics Fixture.runtime [storeNamedS]
      trafficRows "S" (Some 2) None None
    = Ok (Some pages)
    /\ map lp_landingPagePath pages = ["/products/mug"; "/"]
    /\ exists from to shown rest,
         pages = map AnalyticsQueries.toTopLandingPage shown
         /\ Permutation (shown ++ rest)
              (filter (AnalyticsQueries.inRange "S" from to) trafficRows).
Proof.
  eexists. split; [vm_compute; reflexivity|]. split; [reflexivity|].
  destruct (X30_top_landing_pages Fixture.runtime [storeNamedS] trafficRows
              "S" (Some 2) None None _ eq_refl)
    as [from [to [shown [rest [Hp [Hperm _]]]]]].
  exists from, to, shown, rest. split; assumption.
Defined.


(** ** Signing up with a one-time code *)





(** ** Updating a store *)

(** X9. Who can change a store, and what is logged. A viewer is always
    refused, assigned or not, and so is a manager who is not assigned the
    store; a refusal changes nothing and logs nothing. For an admin, and
    for a manager assigned the store, the update is logged as STORE_UPDATED
    before the store is looked up: when the store exists, the fields of
    the request replace those of the store and every other store is kept;
    when it does not, the answer is "Store not found" and the log entry
    stays. *)
Theorem X9_who_can_update_a_store :
  forall (id : string) (dto : UpdateStoreDto) (user : RequestUser)
         (db : Database),
    let r := StoreUpdate.updateForUser id dto user db in
    let hasId := fun s : Store => String.eqb (store_id s) id in
    let allowed :=
      role user = ADMIN
      \/ (role user = MANAGER /\ In id (assignedStores user)) in
    (~ allowed -> exists msg, r = (Rejected (Forbidden msg), db))
    /\ (allowed ->
        adminLog (db_directory (snd r))
        = adminLog (db_directory db) ++ [(STORE_UPDATED, id)]
        /\ fst r
           = match find hasId (db_stores db) with
             | Some old => Ok (StoreUpdate.applyDto dto old)
             | None => Rejected (NotFound "Store not found")
             end
        /\ find hasId (db_stores (snd r))
           = option_map (StoreUpdate.applyDto dto) (find hasId (db_stores db))
        /\ filter (fun s => negb (hasId s)) (db_stores (snd r))
           = filter (fun s => negb (hasId s)) (db_stores db)
        /\ map store_id (db_stores (snd r)) = map store_id (db_stores db)).
Proof.
  intros id dto user db r hasId allowed.
  assert (Hupdate :
            let u := StoreUpdate.update id dto (StoreUpdate.audited id db) in
            adminLog (db_directory (snd u))
            = adminLog (db_directory db) ++ [(STORE_UPDATED, id)]
            /\ fst u
               = match find hasId (db_stores db) with
                 | Some old => Ok (StoreUpdate.applyDto dto old)
                 | None => Rejected (NotFound "Store not found")
                 end
            /\ find hasId (db_stores (snd u))
               = option_map (StoreUpdate.applyDto dto)
                   (find hasId (db_stores db))
            /\ filter (fun s => negb (hasId s)) (db_stores (snd u))
               = filter (fun s => negb (hasId s)) (db_stores db)
            /\ map store_id (db_stores (snd u)) = map store_id (db_stores db)).
  { unfold StoreUpdate.update. cbn [db_stores StoreUpdate.audited]. fold hasId.
    pose proof (updateFirst_fst hasId (StoreUpdate.applyDto dto) (db_stores db))
      as H1.
    pose proof (updateFirst_find hasId (StoreUpdate.applyDto dto) (db_stores db)
                  ltac:(reflexivity)) as H2.
    pose proof (updateFirst_map hasId (StoreUpdate.applyDto dto) store_id
                  (db_stores db) ltac:(reflexivity)) as H3.
    assert (H4 : filter (fun s => negb (hasId s))
                   (snd (updateFirst hasId (StoreUpdate.applyDto dto)
                           (db_stores db)))
                 = filter (fun s => negb (hasId s)) (db_stores db)).
    { clear. induction (db_stores db) as [|s l IH]; simpl; [reflexivity|].
      destruct (hasId s) eqn:E; simpl.
      - assert (E' : hasId (StoreUpdate.applyDto dto s) = true) by exact E.
        rewrite E'. reflexivity.
      - destruct (updateFirst _ _ l) as [res l'] eqn:El. simpl in *.
        rewrite E. simpl. f_equal. exact IH. }
    destruct (updateFirst hasId (StoreUpdate.applyDto dto) (db_stores db))
      as [[store|] stores'] eqn:Eup; cbn [fst snd] in *.
    - cbn [db_directory db_stores adminLog logged].
      destruct (find hasId (db_stores db)) as [old|]; [|discriminate].
      simpl in H1. inversion H1; subst store. repeat split; assumption.
    - cbn [db_directory db_stores StoreUpdate.audited adminLog logged].
      destruct (find hasId (db_stores db)) as [old|] eqn:Ef; [discriminate|].
      repeat split; reflexivity. }
  unfold r, StoreUpdate.updateForUser, allowed.
  pose proof (canAccessStore_spec user id) as Hacc.
  destruct (role user) eqn:Er.
  - split; [intros H; exfalso; apply H; auto | intros _; exact Hupdate].
  - destruct (StoreAccess.canAccessStore (Some user) id) eqn:Ec; cbn [negb].
    + split; [|intros _; exact Hupdate].
      intros H. exfalso. apply H. right. split; [reflexivity|].
      destruct (proj1 Hacc eq_refl) as [Ha|Hin]; [discriminate | exact Hin].
    + split; [intros _; eexists; reflexivity|].
      intros [Ha|[_ Hin]]; [discriminate|].
      pose proof (proj2 Hacc (or_intror Hin)). discriminate.
  - split; [intros _; eexists; reflexivity|].
    intros [Ha|[Hm _]]; discriminate.
Qed.

(** An admin renames a store that does not exist: 404, and the log has
    the entry all the same. *)
Definition renameToNew : UpdateStoreDto :=
  {| dto_name := Some "New"; dto_shopifyToken := None;
     dto_shopifyStoreUrl := None; dto_fbAdSpendToken := None;
     dto_fbAccountId := None |}.

Definition adminA : RequestUser :=
  {| userId := "u1"; email := "a@example.com"; role := ADMIN;
     assignedStores := [] |}.

Definition oneStore : Database :=
  {| db_stores := [storeNamedS]; db_storeMetrics := [];
     db_productMetrics := []; db_trafficMetrics := [];
     db_directory := directory0 |}.

Lemma X9_witness :
  (role adminA = ADMIN
   \/ (role adminA = MANAGER /\ In "Z" (assignedStores adminA)))
  /\ fst (StoreUpdate.updateForUser "Z" renameToNew adminA oneStore)
     = Rejected (NotFound "Store not found")
  /\ adminLog (db_directory
                 (snd (StoreUpdate.updateForUser "Z" renameToNew adminA
                         oneStore)))
     = adminLog (db_directory oneStore) ++ [(STORE_UPDATED, "Z")].
Proof.
  assert (Hallowed : role adminA = ADMIN
                     \/ (role adminA = MANAGER
                         /\ In "Z" (assignedStores adminA)))
    by (left; reflexivity).
  split; [exact Hallowed|].
  destruct (proj2 (X9_who_can_update_a_store "Z" renameToNew adminA oneStore)
              Hallowed) as [Hlog [Hfst _]].
  split; [rewrite Hfst; reflexivity | exact Hlog].
Defined.
